(* ===== verification/_CoqProject ===== *)
-Q . S2P
Prelude.v
Threads.v
Endian.v
Ordered.v
Format.v
Buffer.v
Date.v
TimeZone.v
StringPiece.v
LogStream.v
Logging.v
Journal.v
Http.v
Channel.v
Poller.v
TimerQueue.v
EventLoop.v
TcpConnection.v
Connector.v
Server.v
Sockets.v
Ledger.v
Lifetime.v
Dial.v
Wire.v
Serving.v
Codec.v
Session.v
Multiplexer.v
Demux.v
Idle.v
Socks.v
ShortUrl.v
Chat.v
Download.v
Simple.v
