(* ===== verification/Prelude.v ===== *)
(** * A verification library for the arale network library

    ** The program

    arale (src/arale) is a C++ library for event-driven TCP programs: one event loop per
    thread, non-blocking sockets, callbacks.  Its parts and how they meet:

    - A thread runs [EventLoop::loop] (net/EventLoop.cc).  Each turn it asks its poller
      (net/PollPoller.cc or net/EPollPoller.cc) which descriptors are ready, calls
      [handleEvent] of their channels (net/Channel.cc) and then runs the functors other
      threads have posted; an eventfd ends its sleep.
    - A timer queue (net/TimerQueue.cc) is one more descriptor of the loop.
    - A connection (net/TcpConnection.cc) owns a channel, an input and an output buffer
      (net/Buffer.h) and a state; it works in its loop and other threads reach it through
      posted functors.
    - Connections are made by the acceptor and server (net/Acceptor.cc, net/TcpServer.cc),
      which spread them over the loops of a pool (net/EventLoopThreadPool.cc), or by the
      connector and client (net/Connector.cc, net/TcpClient.cc), which retry.
    - On top of them come HTTP (net/http) and the programs of examples: chats on one or
      more threads, a multiplexer of many clients over one connection and its counterpart,
      socks and relay tunnels, servers that drop idle or surplus connections, a URL
      shortener, file transfer, the simple protocols.
    - base/ has dates, time zones, string pieces and the logger.

    ** The files

    - Prelude (this file): outcomes and faults, state passing, machine integers, blocks
      of memory, the tactics and the shared lemmas.
    - Threads: base/ThreadLocal.h, base/WeakCallback.h.
    - Endian: net/Endian.h.  Ordered: std::set and std::map with their order.  Format:
      convert and convertHex of base/LogStream.cc and the snprintf conversions used.
    - Buffer: net/Buffer.h and Buffer.cc, one definition per member function.
    - Date: base/Date.{h,cc}, base/TimeStamp.{h,cc}.  TimeZone: base/TimeZone.cc, with the
      reader of zone files and libstdc++'s binary search.
    - StringPiece, LogStream, Logging: base/StringPiece.h, LogStream.{h,cc},
      Logging.{h,cc} with the thread id of CurrentThread.h and Thread.cc, as one thread
      sees them.  Journal: the threads of a process, and the output functions.
    - Http: net/http/HttpRequest.h, HttpContext, HttpResponse, HttpServer.
    - Channel: net/Channel.{h,cc}.  Poller: net/PollPoller, net/EPollPoller, with the
      class [Poller] of operations (net/Poller.h), [PollerLaws] of what they promise, and
      an instance of both for each of the two.
    - TimerQueue: net/Timer, TimerID.h, TimerQueue.
    - EventLoop: net/EventLoop, EventLoopThread, EventLoopThreadPool.
    - TcpConnection: net/TcpConnection, over any instance of [PollerLaws].
    - Connector: net/Connector (Module [Connector]) and net/TcpClient (section [client]).
    - Server: base/Atomic.h (Module [Atomic]), net/InetAddress, the results of accept in
      net/SocketsOps.cc, net/Acceptor, net/TcpServer.
    - Sockets: net/SocketsOps.cc, net/Socket, and net/Acceptor.cc over them, on a kernel
      that is an unknown function of the calls made so far.
    - Lifetime: the constructors and destructors of net/EventLoop.cc, TimerQueue.cc and
      EPollPoller.cc, on the same kernel; class [PollerFile] is what differs between the
      pollers, [PollerFileLaws] what the loop needs of it.
    - Ledger: accounts of descriptors on that kernel, which the next three share.
    - Dial: net/Connector.cc on the same kernel, simulated by Connector.v.
    - Wire: net/TcpConnection.cc on the same kernel, refining TcpConnection.
    - Serving: an acceptor and the connections it makes, as one owner of descriptors.
    - Codec: examples/asio/chat/Codec.h and ChatServer.cc (Module [ChatServer]).
    - Session: what the programs of examples see of a connection, with
      [session_refines_connection] back to TcpConnection; tables of sessions.
    - Multiplexer: examples/multiplexer/Multiplexer.cc (Module [Multiplexer]) and
      MultiplexerSimple.cc (Module [Simple]).  Functions that are the same in both are in
      Module [Shared], once, and mapped to one of the two.  Demux: Demux.cc.
    - Idle: examples/idleconnection/Echo.cc (Module [Wheel]) and SortedList.cc
      ([SortedList]), examples/maxconnection/Echo.cc ([MaxConnection]).
    - Socks: examples/socks4a, Tunnel.h with the three programs that make tunnels,
      TcpRelay.cc, Balancer.cc and Socks4a.cc, a Module each.
    - ShortUrl: examples/shorturl/ShortUrl.cc, run by the HttpServer of Http.
    - Chat: examples/asio/chat, ChatServerThreaded.cc and ChatServerThreadedEfficient.cc
      (Module [Locked]; [cow] is the second), base/ThreadLocalSingleton.h (Module of that
      name) and ChatServerThreadedHighPerformance.cc over it ([HighPerformance]),
      ChatClient.cc ([Client]).
    - Download: examples/simple/filetransfer, Download2.cc and Download3.cc ([shared] is
      the second) on the detailed connection of TcpConnection, and Download.cc.
    - Simple: the other programs of examples/simple, a Module each.

    Definitions keep the names of the source; a member function of a class that shares
    its name with another's is prefixed ([fb_length], [poll_removeChannel],
    [Acceptor_listen]), and [X_ctor] is a constructor of X, [X_dtor] its destructor.  The
    misspellings of the source ([postFuntor], [weakup], [newConncetion]) are kept.

    ** How the code is modelled

    - Failure.  An operation returns an [outcome]: a value or one of the [fault]s below.
      A failed assert is a fault in a debug build only: class [Build] has the macro NDEBUG,
      what a read through an invalidated iterator gives, and the byte order of the host.
      Almost all theorems are for every [Build]; where a defect depends on it they say so.
      The results of system calls are arguments; in Sockets they are what a kernel [Env]
      replies, for every kernel, and [acceptor_refines] shows that the acceptor of Server
      is the one of Sockets, [connection_on_kernel] that the connection of TcpConnection is
      the one of Wire.
    - Integers are Z, wrapped at their width ([u64], [i32], ...) where the source converts
      or where a bound theorem is about the width.  Sizes are below [max_size].
    - Pointers into a buffer are offsets and every access is checked against the block.
      Channels and timers live in heaps addressed by Z, because pollers and sets keep
      pointers to them.  Strings are lists of chars.
    - Threads.  [EventLoop.loop_step] and [EventLoop.elt_step] cut the operations where
      another thread can come in between and interleave the pieces; an invariant is shown
      by induction on reachability.  The rest of the code runs in its loop's thread, and
      takes [isInLoopThread] where it asks.
    - Programs of examples hold connections by pointer: an address in a table of
      [Session]s.  Each program is a record of its globals with such a table, its handlers
      are written in the state monad (whose weakest preconditions, [wp] below, the proofs
      step through), and a run is a list of events (a connection comes up, receives, ends;
      a second passes) in an order the loop allows ([allowed_all]).  In Socks the globals
      of one tunnel are read off the whole program as a [cell], and a handler changes
      no other cell.
    - Threads of the chats are numbered by their loops; a handler is cut at the mutex and
      between two turns of a loop over a set, the pieces are events, and an event that
      locks is allowed when the mutex is free.  Iterators name elements, lists and
      reference counts are in a heap, so a change under a reader would show.
    - Interfaces: [PacketSender] is what both multiplexers promise of sending a packet;
      [TunnelServer] is what a program gives a Tunnel, [PipeServer] and [TunnelServerLaws]
      what the theorems need of it, with instances for the three programs.
    - Callbacks are parameters: functions ([TcpConnection.UserCallbacks], the records
      [Channel.Callbacks]) or, for timers and functors, names with what running one does.
    - Ghost members ([posted], [executed], [early] of the loop, [given] and [closed] of
      the connector, the notes of a connection) record history and no operation reads them.
    - Code outside the repository is a parameter: gmtime_r and timegm ([TimeZone.Libc] with
      the laws [LibcLaws], discharged by the instance [own_libc]), operator new (a function
      from the addresses in use to a fresh one or none), name resolution (a function from
      names to addresses or none), the results of write(2), readv(2),
      accept(2) and the socket options as arguments, the IPv6 printer and parser.

    ** Fuel

    - [Http.parseRequest] takes fuel because the source loop need not end:
      [parseRequest_terminates] shows that readable bytes + 1 turns are enough in the
      states a connection starts a round in, and that no fuel is when the request was
      complete already.
    - [Codec.onMessage] runs its loop with fuel readable bytes + 1; each turn takes at
      least the four bytes of a header, and [codec_stream] is about its results.
    - The loops that take packets off a buffer or send one in pieces
      ([Shared.onBackendMessage], [sendBackendBuffer], the two of Demux) have readable
      bytes + 1 as well.  The stream theorems give their results; [mux_long_packets] shows
      the one packet, of length byte 253, on which the source loop does not end.
    - [Download.readFile] has one unit more than the file has bytes; every turn but the last
      takes one at least, and [download_whole] gives its result.
    - [Format.convert_loop] has twenty units and [convertHex_loop] sixteen, the digits of
      a 64-bit number; [TimeZone.lower_bound_loop] the length of the range.  The theorems
      on them give the result outright.

    ** The theorems

    The forty properties are numbered; helper lemmas and further theorems on single
    functions are not.

    - The data path.  [Buffer.buffer_refines_queue] refines the buffer to a byte queue for
      every run of operations in the contract; [readFd_appends], [findCRLF_first] and
      [append_read_int_roundtrip] are its remaining operations.  On it
      [TcpConnection.connection_stream] shows that sent bytes are the written and the
      queued ones in order, [Codec.codec_stream] and the Http theorems that framing and
      parsing do not depend on how the stream is cut.
    - The loop.  [EventLoop.loop_functors_and_wakeups] is the invariant of the wakeup
      protocol under interleaving, [doPendingFunctors_round] one round,
      [event_loop_thread_handover] the start and the end of a loop thread,
      [pool_round_robin] the pool.  [Poller.pollers_refine_registry] refines both pollers
      to a registry of interests; [Channel.channel_interest] and [handleEvent_dispatch]
      are the channel's side.  [TimerQueue.handleTimeout_correct] and [cancelTimer_spec]
      are the timers.
    - The objects.  [TcpConnection.connection_lifecycle], [Server.server_connections],
      [Connector.connector_ledger_and_backoff], [client_reconnects]: no assert fails,
      each descriptor and each connection is given up once, callbacks come in order.
      [Sockets.acceptor_descriptors] and [Dial.dial_descriptors] are this for an acceptor
      and a connector on any kernel, [socket_call_failures] how each failed system call shows;
      [Wire.connection_on_kernel] carries what is proved of a connection to one that makes
      its system calls, and [Serving.server_descriptors] is the account of a whole server;
      [Lifetime.loop_lifetime] puts the loop, its timers, its poller and its channels
      together, from the constructor to the destructor.
    - The programs.  [Multiplexer.mux_ids]: in every run of the threaded multiplexer
      the ids in use and the free ones are the ids 1 to 10, without repetition;
      [mux_backend_stream] and [Demux.demux_refines_streams]: each client's bytes come out
      at its own connection, in order; [mux_demux_roundtrip]: what one packs the other
      unpacks.  [Idle.wheel_timeouts], [sorted_list_idle] and [max_connections_served]:
      which connections are closed, and when.  [Socks.tunnels_are_pipes]: a tunnel passes
      what either side sends to the other, in order; [socks_request_granted]: which
      requests are granted, with which answer.  [ShortUrl.short_url_answers]: from the
      bytes of a request to those of the answer.  [Chat.chat_broadcast]: who gets which
      message when threads interleave, with the lists that are read left alone;
      [chat_total_order]: with one list per thread all members see one order;
      [client_lines]: what a client sends.  [Download.download_streams_file] and
      [download_completes]: a file is sent in order, one chunk in memory, to its end.
      [Simple.time_protocol], [chargen_refines]: the time and the pattern.
    - base.  A value per thread ([Threads.thread_local_values]), calls through a weak
      pointer ([weak_callback_calls]).  Round trips of dates, zones and zone files,
      freedom from overflow, the order of string pieces.  [Logging.log_statement_line]:
      what a log statement writes; [Journal.process_log]: threads and caches do not show
      in the log of a process, and nothing is lost before abort().
    - Defects.  The theorems named for a failure ([partial_write_corrupts],
      [drained_connection_stuck], [append_window_overflow], [accept_zero_leaks], [reenabled_channel_lost],
      [http_question_after_target_throws], [connector_stop_start], [mux_long_packets],
      [mux_client_faults], [demux_faults], [tunnel_faults], [download_faults], [stale_zone],
      [first_second_asserts]) and parts of others
      state exactly when the code does not do what it means to; the hypotheses of the
      theorems above exclude these cases and no more.

    ** Not modelled

    The casts of SocketsOps.cc and Types.h, which are the identity, the typed context of a
    connection (Session has it for the programs), and the memory model below the mutexes: a
    lock makes a step atomic.  In Wire and Serving nothing else of the process changes a
    connection during one of its operations, and which channels share a loop's poller is
    left open; a whole loop turning over such connections is not put together.
    Seconds given as double are whole microseconds, and the throughput that chargen prints
    is the two integers it is the quotient of.  Of the programs of examples, main(),
    logging and dumps, setrlimit and the statistics of the allocator. *)

From stdpp Require Export base numbers list gmap strings.
From Stdlib Require Export ZArith Lia.

#[global] Open Scope Z_scope.

(** ** Outcomes: how a C++ operation can end

    Every operation that can fail returns an [outcome].  The faults are the
    ways a call in the source does not return normally. *)

(** The ways a call does not return. *)
Inductive fault :=
  | AssertFailed   (* [assert] in a build without -DNDEBUG *)
  | OutOfBounds    (* an access outside the object: undefined behaviour *)
  | BadRange       (* an iterator range [first, last) with last before first *)
  | LogicError     (* a thrown std::logic_error / std::length_error *)
  | StaleRead      (* an access through an invalidated iterator or pointer *)
  | Uninitialised  (* a read of a member no constructor has set *)
  | FatalLog       (* LOG_FATAL / LOG_SYSFATAL: flush and abort() *)
  | NullCall       (* a call through an empty std::function or null pointer *)
  | OutOfMemory    (* std::bad_alloc *)
  | Terminated     (* std::terminate *)
  | DivByZero      (* an integer division by zero *)
  | OutOfFuel.     (* the loop has not ended within the given fuel *)

Inductive outcome (A : Type) :=
  | Ok (a : A)
  | Err (f : fault).
Arguments Ok {A} a.
Arguments Err {A} f.

#[global] Instance fault_eq_dec : EqDecision fault.
Proof. solve_decision. Defined.

#[global] Instance outcome_eq_dec {A} `{EqDecision A} : EqDecision (outcome A).
Proof. solve_decision. Defined.

#[global] Instance outcome_ret : MRet outcome := fun A a => Ok a.
#[global] Instance outcome_bind : MBind outcome :=
  fun A B k m => match m with Ok a => k a | Err f => Err f end.

(** The build the code is compiled in: [NDEBUG] is the macro of CMakeLists.txt
    (set in Release, unset in Debug); [stale_reads] says whether a read through
    an iterator that erase() has just invalidated still sees the old bytes, as
    it does with the allocators in use, or is reported as the fault it is;
    [little_endian] is the byte order of the host. *)
Class Build := { NDEBUG : bool; stale_reads : bool; little_endian : bool }.

Definition Debug : Build :=
  {| NDEBUG := false; stale_reads := false; little_endian := true |}.
Definition Release : Build :=
  {| NDEBUG := true; stale_reads := true; little_endian := true |}.

(** assert(b) *)
Definition assert_ `{Build} (b : bool) : outcome unit :=
  if NDEBUG then Ok tt else if b then Ok tt else Err AssertFailed.

(** ** State passing: operations of an object with a state of type [S] *)

Definition ST (S A : Type) : Type := S -> outcome (A * S).

#[global] Instance ST_ret S : MRet (ST S) := fun A a s => Ok (a, s).
#[global] Instance ST_bind S : MBind (ST S) :=
  fun A B k m s => match m s with Ok (a, s') => k a s' | Err f => Err f end.

Definition get_ {S} : ST S S := fun s => Ok (s, s).
Definition put_ {S} (s : S) : ST S unit := fun _ => Ok (tt, s).
Definition gets {S A} (f : S -> A) : ST S A := fun s => Ok (f s, s).
Definition modify {S} (f : S -> S) : ST S unit := fun s => Ok (tt, f s).
Definition fail {S A} (f : fault) : ST S A := fun _ => Err f.
Definition lift {S A} (m : outcome A) : ST S A :=
  fun s => match m with Ok a => Ok (a, s) | Err f => Err f end.
Definition when {S} (b : bool) (m : ST S unit) : ST S unit :=
  if b then m else mret tt.

(** for (x : l) f(x) *)
Fixpoint for_each {S A} (f : A -> ST S unit) (l : list A) : ST S unit :=
  match l with
  | [] => mret tt
  | x :: l' => f x ;; for_each f l'
  end.

(** An operation of a part of the state. *)
Definition zoom {S T A} (get : S -> T) (set : T -> S -> S) (m : ST T A) : ST S A :=
  fun s => match m (get s) with Ok (a, t) => Ok (a, set t s) | Err f => Err f end.

(** Total correctness: [m] run in [s] returns, and [Q] holds of its result. *)
Definition wp {S A} (m : ST S A) (s : S) (Q : A -> S -> Prop) : Prop :=
  exists a s', m s = Ok (a, s') /\ Q a s'.

(** ** Machine integers *)

Definition wrapu (w z : Z) : Z := z mod 2 ^ w.
Definition wraps (w z : Z) : Z := (z + 2 ^ (w - 1)) mod 2 ^ w - 2 ^ (w - 1).

Abbreviation u8 := (wrapu 8).
Abbreviation u16 := (wrapu 16).
Abbreviation u32 := (wrapu 32).
Abbreviation u64 := (wrapu 64).
Abbreviation i8 := (wraps 8).
Abbreviation i16 := (wraps 16).
Abbreviation i32 := (wraps 32).
Abbreviation i64 := (wraps 64).

(** The largest size of an object (PTRDIFF_MAX) and of a vector<char>. *)
Definition max_size : Z := 2 ^ 63 - 1.

(** ** Bytes and C strings *)

Abbreviation char := Ascii.ascii.
Abbreviation bytes := (list char).

(** The value of a char seen as [uint8_t], and as (signed) [char]. *)
Definition uchar (c : char) : Z := Z.of_N (Ascii.N_of_ascii c).
Definition schar (c : char) : Z := i8 (uchar c).
Definition to_char (z : Z) : char := Ascii.ascii_of_N (Z.to_N (z mod 256)).

(** A string literal. *)
Definition cs (s : string) : bytes := String.list_ascii_of_string s.

Definition NUL : char := to_char 0.
Definition CR : char := to_char 13.
Definition LF : char := to_char 10.

(** ** Memory: a block of chars and an offset into it *)

Definition zlen {A} (l : list A) : Z := Z.of_nat (length l).

(** The [len] elements at offset [off]. *)
Definition mem_read {A} (mem : list A) (off len : Z) : outcome (list A) :=
  if (0 <=? off) && (0 <=? len) && (off + len <=? zlen mem)
  then Ok (take (Z.to_nat len) (drop (Z.to_nat off) mem))
  else Err OutOfBounds.

(** [data] copied to offset [off]. *)
Definition mem_write {A} (mem : list A) (off : Z) (data : list A) : outcome (list A) :=
  if (0 <=? off) && (off + zlen data <=? zlen mem)
  then Ok (take (Z.to_nat off) mem ++ data ++ drop (Z.to_nat (off + zlen data)) mem)
  else Err OutOfBounds.

(** std::find over a range: the index of the first [c], the length if none. *)
Fixpoint find_char (c : char) (l : bytes) : nat :=
  match l with
  | [] => 0%nat
  | x :: l' => if decide (x = c) then 0%nat else S (find_char c l')
  end.

(** Does [l] start with [pat]? *)
Fixpoint starts_with (pat l : bytes) : bool :=
  match pat, l with
  | [], _ => true
  | p :: pat', x :: l' => bool_decide (p = x) && starts_with pat' l'
  | _ :: _, [] => false
  end.

(** std::search: the index of the first occurrence of [pat]. *)
Fixpoint search (pat l : bytes) : option nat :=
  if starts_with pat l then Some 0%nat
  else match l with
       | [] => None
       | _ :: l' => S <$> search pat l'
       end.

(** isspace(3) in the C locale. *)
Definition isspace (c : char) : bool :=
  let z := uchar c in (z =? 32) || ((9 <=? z) && (z <=? 13)).

(** ** Tactics *)

Ltac case_ifb :=
  match goal with
  | |- context [if ?b then _ else _] => destruct b eqn:?
  end.

Ltac zify_bool :=
  repeat match goal with
  | H : (_ && _)%bool = true |- _ => apply andb_true_iff in H as [? ?]
  | H : (_ || _)%bool = false |- _ => apply orb_false_iff in H as [? ?]
  | H : (_ <=? _) = true |- _ => apply Z.leb_le in H
  | H : (_ <=? _) = false |- _ => apply Z.leb_gt in H
  | H : (_ <? _) = true |- _ => apply Z.ltb_lt in H
  | H : (_ <? _) = false |- _ => apply Z.ltb_ge in H
  | H : (_ =? _) = true |- _ => apply Z.eqb_eq in H
  | H : (_ =? _) = false |- _ => apply Z.eqb_neq in H
  | H : negb _ = true |- _ => apply negb_true_iff in H
  | H : negb _ = false |- _ => apply negb_false_iff in H
  end.

(** Decide a boolean comparison in the goal by linear arithmetic. *)
Ltac rw_cmp :=
  repeat match goal with
  | |- context [?a <=? ?b] =>
      first [ rewrite (proj2 (Z.leb_le a b)) by lia
            | rewrite (proj2 (Z.leb_gt a b)) by lia ]
  | |- context [?a <? ?b] =>
      first [ rewrite (proj2 (Z.ltb_lt a b)) by lia
            | rewrite (proj2 (Z.ltb_ge a b)) by lia ]
  | |- context [?a =? ?b] =>
      first [ rewrite (proj2 (Z.eqb_eq a b)) by lia
            | rewrite (proj2 (Z.eqb_neq a b)) by lia ]
  end.

(** Compute the bind of a known outcome. *)
Ltac simp_out := cbn [mbind outcome_bind mret outcome_ret].

(** Take apart [m ≫= k = Ok _] hypotheses. *)
Ltac inv_ok :=
  repeat match goal with
  | H : mbind _ ?m = Ok _ |- _ =>
      let E := fresh "E" in destruct m eqn:E; [ | discriminate H ];
      cbn [mbind outcome_bind] in H
  | H : Ok _ = Ok _ |- _ => injection H as H; subst
  | H : Err _ = Ok _ |- _ => discriminate H
  | H : Ok _ = Err _ |- _ => discriminate H
  end.

(** ** Lemmas on outcomes *)

Section outcome_lemmas.
Context {A B : Type}.
Implicit Types (m : outcome A) (k : A -> outcome B).

Lemma bind_Ok a k : (Ok a ≫= k) = k a.
Proof. done. Qed.

Lemma bind_Err f k : (Err f ≫= k) = Err f.
Proof. done. Qed.

Lemma bind_Ok_inv m k b : (m ≫= k) = Ok b <-> exists a, m = Ok a /\ k a = Ok b.
Proof. destruct m; cbn; naive_solver. Qed.

Lemma bind_eq_Ok m k a : m = Ok a -> (m ≫= k) = k a.
Proof. by intros ->. Qed.
End outcome_lemmas.

Lemma assert_true `{Build} b : b = true -> assert_ b = Ok tt.
Proof. intros ->. unfold assert_. by destruct NDEBUG. Qed.

Lemma assert_false `{Build} b :
  b = false -> assert_ b = if NDEBUG then Ok tt else Err AssertFailed.
Proof. intros ->. done. Qed.

(** ** Lemmas on machine integers *)

Lemma wrapu_small w z : 0 <= z < 2 ^ w -> wrapu w z = z.
Proof. apply Z.mod_small. Qed.

Lemma wrapu_range w z : 0 <= w -> 0 <= wrapu w z < 2 ^ w.
Proof. intros. apply Z.mod_pos_bound. by apply Z.pow_pos_nonneg. Qed.

Lemma wraps_small w z : - 2 ^ (w - 1) <= z < 2 ^ (w - 1) -> 0 < w -> wraps w z = z.
Proof.
  intros Hz Hw. unfold wraps.
  assert (2 ^ w = 2 * 2 ^ (w - 1)) as ->
    by (rewrite <- Z.pow_succ_r by lia; f_equal; lia).
  rewrite Z.mod_small; lia.
Qed.

Lemma wraps_range w z : 0 < w -> - 2 ^ (w - 1) <= wraps w z < 2 ^ (w - 1).
Proof.
  intros Hw. unfold wraps.
  assert (2 ^ w = 2 * 2 ^ (w - 1)) as ->
    by (rewrite <- Z.pow_succ_r by lia; f_equal; lia).
  assert (0 < 2 ^ (w - 1)) by (apply Z.pow_pos_nonneg; lia).
  pose proof (Z.mod_pos_bound (z + 2 ^ (w - 1)) (2 * 2 ^ (w - 1))). lia.
Qed.

Lemma wraps_wrapu w z : 0 < w -> wraps w (wrapu w z) = wraps w z.
Proof.
  intros. unfold wraps, wrapu. by rewrite Zplus_mod_idemp_l.
Qed.

Lemma wrapu_wraps w z : 0 < w -> wrapu w (wraps w z) = wrapu w z.
Proof.
  intros. unfold wraps, wrapu.
  rewrite Zminus_mod_idemp_l. f_equal. lia.
Qed.

Lemma u64_small z : 0 <= z < 2 ^ 64 -> u64 z = z.
Proof. apply wrapu_small. Qed.

(** ** Lemmas on chars *)

Lemma uchar_range c : 0 <= uchar c < 256.
Proof. unfold uchar. pose proof (Ascii.N_ascii_bounded c). lia. Qed.

Lemma uchar_to_char z : uchar (to_char z) = z mod 256.
Proof.
  unfold uchar, to_char. pose proof (Z.mod_pos_bound z 256).
  rewrite Ascii.N_ascii_embedding; lia.
Qed.

Lemma to_char_uchar c : to_char (uchar c) = c.
Proof.
  unfold to_char. rewrite Z.mod_small by apply uchar_range.
  unfold uchar. rewrite N2Z.id. apply Ascii.ascii_N_embedding.
Qed.

Lemma uchar_inj c d : uchar c = uchar d -> c = d.
Proof. intros E. by rewrite <- (to_char_uchar c), <- (to_char_uchar d), E. Qed.

Lemma to_char_mod z : to_char (z mod 256) = to_char z.
Proof. unfold to_char. by rewrite Z.mod_mod. Qed.

(** ** Lemmas on lists and memory *)

Lemma zlen_app {A} (l k : list A) : zlen (l ++ k) = zlen l + zlen k.
Proof. unfold zlen. rewrite length_app. lia. Qed.

Lemma zlen_nonneg {A} (l : list A) : 0 <= zlen l.
Proof. unfold zlen. lia. Qed.

Lemma zlen_nil {A} : zlen (@nil A) = 0.
Proof. done. Qed.

Lemma zlen_cons {A} (x : A) l : zlen (x :: l) = 1 + zlen l.
Proof. unfold zlen. cbn [length]. lia. Qed.

Lemma zlen_take {A} (l : list A) n :
  0 <= n <= zlen l -> zlen (take (Z.to_nat n) l) = n.
Proof. unfold zlen. rewrite length_take. lia. Qed.

Lemma zlen_drop {A} (l : list A) n :
  0 <= n <= zlen l -> zlen (drop (Z.to_nat n) l) = zlen l - n.
Proof. unfold zlen. rewrite length_drop. lia. Qed.

Lemma zlen_replicate {A} n (x : A) : zlen (replicate n x) = Z.of_nat n.
Proof. unfold zlen. by rewrite length_replicate. Qed.

Lemma mem_read_ok {A} (mem : list A) off len :
  0 <= off -> 0 <= len -> off + len <= zlen mem ->
  mem_read mem off len = Ok (take (Z.to_nat len) (drop (Z.to_nat off) mem)).
Proof. intros. unfold mem_read. by rw_cmp. Qed.

Lemma mem_write_ok {A} (mem : list A) off data :
  0 <= off -> off + zlen data <= zlen mem ->
  mem_write mem off data =
    Ok (take (Z.to_nat off) mem ++ data ++ drop (Z.to_nat (off + zlen data)) mem).
Proof. intros. unfold mem_write. by rw_cmp. Qed.

Lemma mem_write_oob {A} (mem : list A) off data :
  zlen mem < off + zlen data -> mem_write mem off data = Err OutOfBounds.
Proof. intros. unfold mem_write. destruct (0 <=? off); cbn; [|done]. by rw_cmp. Qed.

Lemma mem_write_length {A} (mem mem' : list A) off data :
  mem_write mem off data = Ok mem' -> zlen mem' = zlen mem.
Proof.
  unfold mem_write. case_ifb; [|done]. intros [= <-]. zify_bool.
  pose proof (zlen_nonneg data).
  rewrite !zlen_app, zlen_take, zlen_drop by lia. lia.
Qed.

(** Reading and writing a block that is laid out as [pre ++ mid ++ post]. *)
Lemma mem_read_app {A} (pre mid post : list A) off len :
  off = zlen pre -> len = zlen mid ->
  mem_read (pre ++ mid ++ post) off len = Ok mid.
Proof.
  intros -> ->. pose proof (zlen_nonneg pre). pose proof (zlen_nonneg mid).
  pose proof (zlen_nonneg post).
  rewrite mem_read_ok by (rewrite ?zlen_app; lia).
  unfold zlen. rewrite !Nat2Z.id, drop_app_length, take_app_length. done.
Qed.

Lemma mem_write_app {A} (pre mid post data : list A) off :
  off = zlen pre -> zlen data = zlen mid ->
  mem_write (pre ++ mid ++ post) off data = Ok (pre ++ data ++ post).
Proof.
  intros -> E. pose proof (zlen_nonneg pre). pose proof (zlen_nonneg post).
  rewrite mem_write_ok by (rewrite ?zlen_app; lia).
  rewrite E. unfold zlen. rewrite Nat2Z.id, take_app_length.
  rewrite <- Nat2Z.inj_add, Nat2Z.id, (assoc_L (++) pre mid post), <- length_app.
  by rewrite drop_app_length.
Qed.

(** Cut a list at two offsets. *)
Lemma split_at2 {A} (l : list A) i j :
  0 <= i <= j -> j <= zlen l ->
  exists pre mid post, l = pre ++ mid ++ post /\ zlen pre = i /\ zlen mid = j - i
    /\ zlen post = zlen l - j.
Proof.
  intros Hi Hj. exists (take (Z.to_nat i) l), (take (Z.to_nat (j - i)) (drop (Z.to_nat i) l)),
    (drop (Z.to_nat (j - i)) (drop (Z.to_nat i) l)).
  rewrite !take_drop. rewrite !zlen_take, !zlen_drop by (rewrite ?zlen_drop; lia).
  split_and!; lia || done.
Qed.

Lemma find_char_le c l : (find_char c l <= length l)%nat.
Proof. induction l as [|x l IH]; cbn; [done|]. destruct (decide (x = c)); lia. Qed.

Lemma find_char_app_notin c l k :
  c ∉ l -> find_char c (l ++ k) = (length l + find_char c k)%nat.
Proof.
  induction l as [|x l IH]; cbn; [done|]. intros Hc.
  apply not_elem_of_cons in Hc as [? ?].
  rewrite decide_False by congruence. rewrite IH by done. done.
Qed.

Lemma find_char_hit c l k : c ∉ l -> find_char c (l ++ c :: k) = length l.
Proof.
  intros. rewrite find_char_app_notin by done. cbn.
  rewrite decide_True by done. lia.
Qed.

Lemma find_char_miss c l : c ∉ l -> find_char c l = length l.
Proof.
  intros. rewrite <- (app_nil_r l) at 1.
  rewrite find_char_app_notin by done. cbn. lia.
Qed.

Lemma find_char_split c l :
  (find_char c l < length l)%nat ->
  exists l1 l2, l = l1 ++ c :: l2 /\ c ∉ l1 /\ length l1 = find_char c l.
Proof.
  induction l as [|x l IH]; cbn; [lia|].
  destruct (decide (x = c)) as [->|Hne]; intros Hlt.
  - exists [], l. split_and!; [done|set_solver|done].
  - destruct IH as (l1 & l2 & -> & Hn & Hl); [lia|].
    exists (x :: l1), l2. split_and!; [done|set_solver|cbn; lia].
Qed.

Lemma find_char_notin c l : find_char c l = length l -> c ∉ l.
Proof.
  induction l as [|x l IH]; cbn; [set_solver|].
  destruct (decide (x = c)); [lia|]. intros [= ?%IH]. set_solver.
Qed.

Lemma starts_with_spec pat l : starts_with pat l = true <-> exists k, l = pat ++ k.
Proof.
  revert l. induction pat as [|p pat IH]; intros l; cbn.
  - split; [eauto|done].
  - destruct l as [|x l].
    + split; [done|]. by intros [k [=]].
    + rewrite andb_true_iff, bool_decide_eq_true, IH.
      split; [intros [-> [k ->]]; eauto|]. intros [k [= -> ->]]. eauto.
Qed.

Lemma search_Some pat l i :
  search pat l = Some i ->
  exists k, drop i l = pat ++ k /\ (i <= length l)%nat.
Proof.
  revert i. induction l as [|x l IH]; intros i; cbn [search].
  - destruct (starts_with pat []) eqn:E; [|done]. intros [= <-].
    apply starts_with_spec in E as [k E]. exists k. cbn. auto.
  - destruct (starts_with pat (x :: l)) eqn:E.
    + intros [= <-]. apply starts_with_spec in E as [k E]. exists k.
      split; [done|cbn; lia].
    + intros (j & Hj & ->)%fmap_Some_1. destruct (IH _ Hj) as (k & ? & ?).
      exists k. split; [done|cbn; lia].
Qed.

Lemma search_least pat l i j :
  search pat l = Some i -> (j < i)%nat -> starts_with pat (drop j l) = false.
Proof.
  revert i j. induction l as [|x l IH]; intros i j; cbn [search].
  - destruct (starts_with pat []); [|done]. intros [= <-]. lia.
  - destruct (starts_with pat (x :: l)) eqn:E; [intros [= <-]; lia|].
    intros (i' & Hi & ->)%fmap_Some_1 Hj. destruct j as [|j]; [done|].
    apply (IH i'); [done|lia].
Qed.

Lemma search_None pat l j :
  search pat l = None -> starts_with pat (drop j l) = false.
Proof.
  revert j. induction l as [|x l IH]; intros j; cbn [search].
  - destruct (starts_with pat []) eqn:E; [done|]. by rewrite drop_nil.
  - destruct (starts_with pat (x :: l)) eqn:E; [done|].
    intros Hn%fmap_None. destruct j as [|j]; [done|]. by apply IH.
Qed.

(** The first occurrence is found whatever follows it. *)
Lemma search_app pat l k i :
  pat <> [] -> search pat l = Some i -> search pat (l ++ k) = Some i.
Proof.
  intros Hpat. revert i. induction l as [|x l IH]; intros i; cbn [search].
  - destruct pat; [done|]. done.
  - destruct (starts_with pat (x :: l)) eqn:E.
    + intros [= <-]. apply starts_with_spec in E as [k' E].
      cbn [app search]. replace (starts_with pat (x :: l ++ k)) with true; [done|].
      symmetry. apply starts_with_spec. exists (k' ++ k).
      rewrite (assoc_L (++)), <- E. done.
    + intros (i' & Hi & ->)%fmap_Some_1. cbn [app search].
      destruct (starts_with pat (x :: l ++ k)) eqn:E'.
      * exfalso. apply search_Some in Hi as (k' & Hd & Hle).
        apply starts_with_spec in E' as [k'' E'].
        assert (length pat <= length l)%nat.
        { apply (f_equal length) in Hd. rewrite length_drop, length_app in Hd. lia. }
        apply not_true_iff_false in E. apply E, starts_with_spec.
        exists (drop (length pat) (x :: l)).
        change (x :: l ++ k) with ((x :: l) ++ k) in E'.
        apply (f_equal (take (length pat))) in E'.
        rewrite take_app_le, take_app_length in E' by (cbn; lia).
        rewrite <- E' at 1. by rewrite take_drop.
      * rewrite (IH _ Hi). done.
Qed.

(** ** Lemmas on stateful code *)

Section wp_lemmas.
Context {S : Type}.
Implicit Types (s : S).

Lemma wp_mono {A} (m : ST S A) s (Q R : A -> S -> Prop) :
  wp m s Q -> (forall a s', Q a s' -> R a s') -> wp m s R.
Proof. intros (a & s' & E & HQ) HR. exists a, s'. auto. Qed.

Lemma wp_ret {A} (a : A) s (Q : A -> S -> Prop) : Q a s -> wp (mret a) s Q.
Proof. intros HQ. by exists a, s. Qed.

Lemma wp_bind {A B} (m : ST S A) (k : A -> ST S B) s Q :
  wp m s (fun a s' => wp (k a) s' Q) -> wp (m ≫= k) s Q.
Proof.
  intros (a & s' & E & b & s2 & E2 & HQ). exists b, s2. split; [|done].
  unfold mbind, ST_bind. by rewrite E.
Qed.

Lemma wp_gets {A} (f : S -> A) s (Q : A -> S -> Prop) : Q (f s) s -> wp (gets f) s Q.
Proof. intros HQ. by exists (f s), s. Qed.

Lemma wp_modify (f : S -> S) s (Q : unit -> S -> Prop) : Q tt (f s) -> wp (modify f) s Q.
Proof. intros HQ. by exists tt, (f s). Qed.

Lemma wp_lift {A} (m : outcome A) a s (Q : A -> S -> Prop) : m = Ok a -> Q a s -> wp (lift m) s Q.
Proof. intros -> HQ. by exists a, s. Qed.

Lemma wp_assert `{Build} b s (Q : unit -> S -> Prop) :
  b = true -> Q tt s -> wp (lift (assert_ b)) s Q.
Proof. intros Hb. apply wp_lift. by apply assert_true. Qed.

Lemma wp_when b (m : ST S unit) s (Q : unit -> S -> Prop) :
  (b = true -> wp m s Q) -> (b = false -> Q tt s) -> wp (when b m) s Q.
Proof. intros H1 H2. destruct b; [by apply H1|]. by apply wp_ret, H2. Qed.

(** A loop keeps an invariant that may speak of the elements it has gone through. *)
Lemma wp_for_each {A} (f : A -> ST S unit) (I : list A -> S -> Prop) l s :
  I [] s ->
  (forall done x rest s', l = done ++ x :: rest -> I done s' ->
     wp (f x) s' (fun _ => I (done ++ [x]))) ->
  wp (for_each f l) s (fun _ => I l).
Proof.
  intros H0 Hstep.
  assert (forall rest done s', l = done ++ rest -> I done s' ->
            wp (for_each f rest) s' (fun _ => I l)) as Hl; [|by apply (Hl l [])].
  induction rest as [|x rest IH]; intros done s' E HI; cbn [for_each].
  - rewrite app_nil_r in E. subst. by apply wp_ret.
  - apply wp_bind. eapply wp_mono; [by eapply Hstep|]. intros [] s2 HI2.
    apply (IH (done ++ [x])); [by rewrite <- (assoc_L (++))|done].
Qed.

Lemma wp_zoom {T A} (get : S -> T) set (m : ST T A) s (Q : A -> S -> Prop) :
  wp m (get s) (fun a t => Q a (set t s)) -> wp (zoom get set m) s Q.
Proof. intros (a & t & E & HQ). exists a, (set t s). unfold zoom. by rewrite E. Qed.

(** A bind, when the first operation is known. *)
Lemma run_bind {A B} (m : ST S A) (k : A -> ST S B) s a s' : m s = Ok (a, s') -> (m ≫= k) s = k a s'.
Proof. intros E. unfold mbind, ST_bind. by rewrite E. Qed.

Lemma run_bind_err {A B} (m : ST S A) (k : A -> ST S B) s f : m s = Err f -> (m ≫= k) s = Err f.
Proof. intros E. unfold mbind, ST_bind. by rewrite E. Qed.

Lemma wp_Ok {A} (m : ST S A) s a s' (Q : A -> S -> Prop) : m s = Ok (a, s') -> Q a s' -> wp m s Q.
Proof. intros. by exists a, s'. Qed.
End wp_lemmas.

(** One step of a weakest precondition. *)
Ltac wp_step :=
  lazymatch goal with
  | |- wp (mret _) _ _ => apply wp_ret
  | |- wp (mbind _ _) _ _ => apply wp_bind
  | |- wp (gets _) _ _ => apply wp_gets
  | |- wp (modify _) _ _ => apply wp_modify
  | |- wp (lift (assert_ _)) _ _ => apply wp_assert
  | |- wp (when _ _) _ _ => apply wp_when; intros ?
  | |- wp (zoom _ _ _) _ _ => apply wp_zoom
  end; cbv beta.

(** ** Lemmas on framed streams: encodings one after the other *)

Section framing.
Context {M : Type} (enc : M -> bytes) (ok : M -> Prop).

Definition encode_all (ms : list M) : bytes := mjoin (enc <$> ms).

(** A part of an encoding that is not the whole of it. *)
Definition partial (p : bytes) : Prop :=
  p = [] \/ exists m q, ok m /\ q <> [] /\ enc m = p ++ q.

Lemma encode_all_cons m ms : encode_all (m :: ms) = enc m ++ encode_all ms.
Proof. done. Qed.

Lemma encode_all_app ms ns : encode_all (ms ++ ns) = encode_all ms ++ encode_all ns.
Proof. unfold encode_all. by rewrite fmap_app, join_app. Qed.

(** A prefix of a stream is some whole encodings and a partial one. *)
Lemma stream_prefix ms c rest :
  Forall ok ms -> c ++ rest = encode_all ms ->
  exists ms1 ms2 p, ms = ms1 ++ ms2 /\ c = encode_all ms1 ++ p /\ p ++ rest = encode_all ms2
    /\ partial p.
Proof.
  revert c. induction ms as [|m ms IH]; intros c Hms E.
  - apply app_eq_nil in E as [-> ->]. exists [], [], []. split_and!; try done. by left.
  - apply Forall_cons in Hms as [Hm Hms]. rewrite encode_all_cons in E.
    destruct (decide (length (enc m) <= length c)%nat) as [Hle|Hlt].
    + assert (c = enc m ++ drop (length (enc m)) c) as Hc.
      { rewrite <- (take_drop (length (enc m)) c) at 1. f_equal.
        apply (f_equal (take (length (enc m)))) in E.
        by rewrite take_app_le, take_app_length in E. }
      rewrite Hc, <- (assoc_L (++)) in E. apply (inj (app _)) in E.
      destruct (IH _ Hms E) as (ms1 & ms2 & p & -> & Hd & Hr & Hi).
      exists (m :: ms1), ms2, p. split_and!; try done.
      by rewrite Hc, Hd, encode_all_cons, <- (assoc_L (++)).
    + exists [], (m :: ms), c. split_and!; try done. right.
      exists m, (drop (length c) (enc m)). split_and!; [done| |].
      * intros Hn. apply (f_equal length) in Hn. rewrite length_drop in Hn.
        change (length []) with 0%nat in Hn. lia.
      * rewrite <- (take_drop (length c) (enc m)) at 1. f_equal.
        apply (f_equal (take (length c))) in E.
        rewrite take_app_length, take_app_le in E by lia. done.
Qed.
End framing.

(** ** Fresh addresses: an allocator, for examples of what takes one *)

Definition next_address (X : gset Z) : Z := 1 + foldr Z.max 0 (elements X).

Lemma next_address_fresh X : next_address X ∉ X.
Proof.
  intros Hin. apply elem_of_elements in Hin. unfold next_address in Hin.
  assert (forall l x, x ∈ l -> x <= foldr Z.max 0 l) as Hle.
  { induction l as [|y l IH]; [set_solver|]. intros x [->|Hx]%elem_of_cons; cbn; [lia|].
    specialize (IH x Hx). lia. }
  specialize (Hle _ _ Hin). lia.
Qed.

(** ** Hint databases *)

Create HintDb arale discriminated.
#[export] Hint Resolve zlen_nonneg uchar_range : arale.
Create Rewrite HintDb zlen.
#[export] Hint Rewrite @zlen_app @zlen_nil @zlen_cons @zlen_replicate : zlen.

(** Linear arithmetic on the sizes of lists. *)
Ltac zlen_solve :=
  autorewrite with zlen in *; unfold zlen in *;
  rewrite ?length_take, ?length_drop, ?length_app, ?length_replicate in *;
  cbn [length] in *; lia.
