(* ===== verification/Threads.v ===== *)
(** * Thread locals and weak callbacks: src/arale/base/ThreadLocal.h, WeakCallback.h

    A ThreadLocal is one pthread key; what pthread_getspecific() gives is a pointer per
    thread, and pthreads calls the key's destructor when a thread that has one ends.  A
    WeakCallback holds a weak_ptr, whose object is counted by its shared_ptrs. *)

From S2P Require Import Prelude.

(** ** ThreadLocal *)

Module ThreadLocal.
Section thread_local.
Context {T : Type} (T_ctor : T) (alloc : gset Z -> Z).

(** The objects that live, and by thread what the key has: no entry is NULL. *)
Record Local := mkLocal { objects : gmap Z T; specific : gmap Z Z }.

Definition ThreadLocal_ctor : Local := mkLocal ∅ ∅.

(** In the thread [t]: the address of the object. *)
Definition getValue (t : Z) : ST Local Z :=
  preObj ← gets (fun s => specific s !! t);
  match preObj with
  | Some p => mret p
  | None =>
      p ← gets (fun s => alloc (dom (objects s)));
      modify (fun s => mkLocal (<[p := T_ctor]> (objects s)) (<[t := p]> (specific s))) ;;
      mret p
  end.

(** The object through the reference that getValue() returns. *)
Definition load (p : Z) : ST Local T := fun s =>
  match objects s !! p with Some v => Ok (v, s) | None => Err StaleRead end.
Definition store (p : Z) (v : T) : ST Local unit :=
  _ ← load p; modify (fun s => mkLocal (<[p := v]> (objects s)) (specific s)).

(** delete obj *)
Definition destructor (x : Z) : ST Local unit :=
  _ ← load x; modify (fun s => mkLocal (delete x (objects s)) (specific s)).
(** What pthreads does when [t] ends: the value is set to NULL, then destructor() gets it. *)
Definition thread_exit (t : Z) : ST Local unit :=
  v ← gets (fun s => specific s !! t);
  match v with
  | Some p => modify (fun s => mkLocal (objects s) (delete t (specific s))) ;; destructor p
  | None => mret tt
  end.
(** pthread_key_delete() calls no destructor. *)
Definition ThreadLocal_dtor (s : Local) : Local := mkLocal (objects s) ∅.

Inductive event := Update (t : Z) (f : T -> T) | Exit (t : Z).
(** [Update] is getValue() = f(getValue()). *)
Definition run_event (ev : event) : ST Local unit :=
  match ev with
  | Update t f => p ← getValue t; v ← load p; p ← getValue t; store p (f v)
  | Exit t => thread_exit t
  end.

(** A value per thread, T() before its first use. *)
Definition spec_event (ev : event) (m : gmap Z T) : gmap Z T :=
  match ev with
  | Update t f => <[t := f (default T_ctor (m !! t))]> m
  | Exit t => delete t m
  end.

Record local_rel (s : Local) (m : gmap Z T) : Prop := {
  lr_value t : m !! t = p ← specific s !! t; objects s !! p;
  lr_live t p : specific s !! t = Some p -> is_Some (objects s !! p);
  lr_own t t' p : specific s !! t = Some p -> specific s !! t' = Some p -> t = t';
  lr_no_leak p : is_Some (objects s !! p) -> exists t, specific s !! t = Some p
}.
End thread_local.
Arguments Local T : clear implicits.
End ThreadLocal.

(** ** WeakCallback *)

Module WeakCallback.
Section weak_callback.
Context {O : Type}.

(** The objects that shared_ptrs count, and what has been destroyed. *)
Record Object := mkObject { use_count : Z; object : O }.
Record Heap := mkHeap { counted : gmap Z Object; destroyed : list Z }.

Definition set_count (p n : Z) (o : Object) (h : Heap) : Heap :=
  mkHeap (<[p := mkObject n (object o)]> (counted h)) (destroyed h).
(** obj_.lock() *)
Definition lock (p : Z) : ST Heap bool := fun h =>
  match counted h !! p with
  | Some o => Ok (true, set_count p (use_count o + 1) o h)
  | None => Ok (false, h)
  end.
(** A shared_ptr goes: the last one destroys the object. *)
Definition release (p : Z) : ST Heap unit := fun h =>
  match counted h !! p with
  | Some o =>
      if use_count o =? 1 then Ok (tt, mkHeap (delete p (counted h)) (destroyed h ++ [p]))
      else Ok (tt, set_count p (use_count o - 1) o h)
  | None => Err StaleRead
  end.
(** operator(): [function_] is given the object. *)
Definition call (function_ : Z -> ST Heap unit) (obj_ : Z) : ST Heap unit :=
  ptr ← lock obj_;
  when ptr (function_ obj_ ;; release obj_).
End weak_callback.
Arguments Heap O : clear implicits.
Arguments Object O : clear implicits.
End WeakCallback.

(** ** Properties *)

Section local_proofs.
Context {T : Type} (T_ctor : T) (alloc : gset Z -> Z) (fresh : forall X, alloc X ∉ X).
Import ThreadLocal.
Implicit Types (s : Local T) (m : gmap Z T).

(** getValue() gives the thread its own object. *)
Lemma getValue_spec t s m :
  local_rel s m ->
  wp (getValue T_ctor alloc t) s (fun p s' =>
    specific s' !! t = Some p /\ objects s' !! p = Some (default T_ctor (m !! t))
    /\ local_rel s' (<[t := default T_ctor (m !! t)]> m)).
Proof.
  intros [Hv Hl Ho Hn]. unfold getValue. wp_step. wp_step. destruct (specific s !! t) as [p|] eqn:Et.
  - wp_step. pose proof (Hv t) as Em. rewrite Et in Em. cbn in Em. destruct (Hl t p Et) as [v Ev].
    rewrite Em, Ev. cbn. split_and!; [done..|]. rewrite insert_id by (by rewrite Em). by constructor.
  - wp_step. wp_step. set (p := alloc (dom (objects s))). wp_step. wp_step. wp_step.
    assert (objects s !! p = None) as Hp by (apply not_elem_of_dom, fresh).
    assert (m !! t = None) as Em by (by rewrite Hv, Et). rewrite Em. cbn.
    split_and!; [apply lookup_insert_eq..|]. constructor; cbn.
    + intros q. destruct (decide (q = t)) as [->|Hne].
      * rewrite !lookup_insert_eq. cbn. by rewrite lookup_insert_eq.
      * rewrite !lookup_insert_ne, Hv by done. destruct (specific s !! q) as [x|] eqn:Eq; [|done]. cbn.
        rewrite lookup_insert_ne; [done|]. intros ->. destruct (Hl q x Eq). congruence.
    + intros q x [ [<- <-]|[Hne Hq] ]%lookup_insert_Some; [by rewrite lookup_insert_eq|].
      destruct (Hl q x Hq) as [v Ev]. rewrite lookup_insert_ne; [by eexists|]. intros ->. congruence.
    + intros q q' x [ [<- <-]|[Hne Hq] ]%lookup_insert_Some [ [<- E]|[Hne' Hq'] ]%lookup_insert_Some; [done| | |].
      * destruct (Hl q' p Hq'). congruence.
      * subst x. destruct (Hl q p Hq). congruence.
      * by eapply Ho.
    + intros x [v [ [<- _]|[Hne Hx] ]%lookup_insert_Some]; [exists t; apply lookup_insert_eq|].
      destruct (Hn x) as [q Hq]; [by eexists|]. exists q. rewrite lookup_insert_ne; [done|]. intros ->. congruence.
Qed.

(** Storing in one's own object. *)
Lemma store_rel t p v s m :
  specific s !! t = Some p -> local_rel s m ->
  local_rel (mkLocal (<[p := v]> (objects s)) (specific s)) (<[t := v]> m).
Proof.
  intros Et [Hv Hl Ho Hn]. constructor; cbn.
  - intros q. destruct (decide (q = t)) as [->|Hne].
    + rewrite lookup_insert_eq, Et. cbn. by rewrite lookup_insert_eq.
    + rewrite lookup_insert_ne, Hv by done. destruct (specific s !! q) as [x|] eqn:Eq; [|done]. cbn.
      rewrite lookup_insert_ne; [done|]. intros ->. apply Hne. by eapply Ho.
  - intros q x Hq. destruct (decide (x = p)) as [->|Hne]; [rewrite lookup_insert_eq; by eexists|].
    rewrite lookup_insert_ne by done. by eapply Hl.
  - done.
  - intros x [w [ [<- _]|[Hne Hx] ]%lookup_insert_Some]; [by exists t|]. apply Hn. by eexists.
Qed.

Lemma exit_rel t s m :
  local_rel s m -> wp (thread_exit t) s (fun _ s' => local_rel s' (delete t m)).
Proof.
  intros [Hv Hl Ho Hn]. unfold thread_exit. wp_step. wp_step. destruct (specific s !! t) as [p|] eqn:Et.
  - wp_step. wp_step. destruct (Hl t p Et) as [v Ev]. unfold destructor. wp_step.
    apply (wp_Ok _ _ v (mkLocal (objects s) (delete t (specific s)))); [unfold load; cbn; by rewrite Ev|].
    wp_step. constructor; cbn.
    + intros q. destruct (decide (q = t)) as [->|Hne]; [by rewrite !lookup_delete_eq|].
      rewrite !lookup_delete_ne, Hv by done. destruct (specific s !! q) as [x|] eqn:Eq; [|done]. cbn.
      rewrite lookup_delete_ne; [done|]. intros ->. apply Hne. by eapply Ho.
    + intros q x [Hne Hq]%lookup_delete_Some. rewrite lookup_delete_ne; [by eapply Hl|].
      intros ->. apply Hne. by eapply Ho.
    + intros q q' x [_ Hq]%lookup_delete_Some [_ Hq']%lookup_delete_Some. by eapply Ho.
    + intros x [w [Hne Hx]%lookup_delete_Some]. destruct (Hn x) as [q Hq]; [by eexists|]. exists q.
      rewrite lookup_delete_ne; [done|]. intros ->. congruence.
  - wp_step. assert (m !! t = None) as Em by (by rewrite Hv, Et). rewrite delete_id by done. by constructor.
Qed.

Lemma local_event ev s m :
  local_rel s m -> wp (run_event T_ctor alloc ev) s (fun _ s' => local_rel s' (spec_event T_ctor ev m)).
Proof.
  intros R. destruct ev as [t f|t]; cbn [run_event spec_event]; [|by apply exit_rel].
  set (v := default T_ctor (m !! t)). wp_step. eapply wp_mono; [by apply getValue_spec|].
  intros p s1 (Ep & Eo & R1). fold v in Eo, R1. wp_step. apply (wp_Ok _ _ v s1); [unfold load; by rewrite Eo|].
  wp_step. eapply wp_mono; [by apply getValue_spec|]. intros p2 s2 (Ep2 & Eo2 & R2).
  rewrite lookup_insert_eq in *. cbn [default] in *. rewrite insert_insert_eq in R2.
  unfold store. wp_step. apply (wp_Ok _ _ v s2); [unfold load; by rewrite Eo2|]. wp_step.
  pose proof (store_rel t p2 (f v) s2 _ Ep2 R2) as R3. by rewrite insert_insert_eq in R3.
Qed.
End local_proofs.

(** A ThreadLocal is a value per thread.  For every sequence of uses and thread ends, each
    thread finds what it stored last, or a new T when it stored nothing, in an object of
    its own; and when the threads that used it have ended, no object is left. *)
Theorem thread_local_values {T : Type} (T_ctor : T) (alloc : gset Z -> Z) evs :
  (forall X, alloc X ∉ X) ->
  exists s, for_each (ThreadLocal.run_event T_ctor alloc) evs ThreadLocal.ThreadLocal_ctor = Ok (tt, s)
    /\ let m := foldl (fun m ev => ThreadLocal.spec_event T_ctor ev m) ∅ evs in
       ThreadLocal.local_rel s m
    /\ (m = ∅ -> ThreadLocal.objects s = ∅).
Proof.
  intros Hf.
  assert (wp (for_each (ThreadLocal.run_event T_ctor alloc) evs) ThreadLocal.ThreadLocal_ctor
    (fun _ s => ThreadLocal.local_rel s (foldl (fun m ev => ThreadLocal.spec_event T_ctor ev m) ∅ evs)))
    as ([] & s & E & R).
  { apply (wp_for_each _ (fun l s => ThreadLocal.local_rel s
      (foldl (fun m ev => ThreadLocal.spec_event T_ctor ev m) ∅ l))).
    - constructor; cbn; [intros t; by rewrite !lookup_empty|intros t p|intros t t' p|intros p [v Hv] ];
        rewrite ?lookup_empty in *; done.
    - intros done ev rest s _ R. rewrite foldl_app. cbn [foldl]. by apply local_event. }
  exists s. split; [done|]. cbv zeta. split; [done|]. intros Em. rewrite Em in R. apply map_eq. intros p.
  rewrite lookup_empty. destruct (ThreadLocal.objects s !! p) as [v|] eqn:Ep; [|done].
  destruct (ThreadLocal.lr_no_leak _ _ R p) as [t Ht]; [by eexists|].
  pose proof (ThreadLocal.lr_value _ _ R t) as E1. rewrite lookup_empty, Ht in E1. cbn in E1. congruence.
Qed.

Lemma thread_local_values_witness :
  (forall X, next_address X ∉ X) /\
  exists s, for_each (ThreadLocal.run_event 0 next_address)
      [ThreadLocal.Update 1 (Z.add 5); ThreadLocal.Update 2 (Z.add 7); ThreadLocal.Exit 1; ThreadLocal.Exit 2]
      ThreadLocal.ThreadLocal_ctor = Ok (tt, s)
    /\ ThreadLocal.objects s = ∅.
Proof.
  split; [apply next_address_fresh|].
  destruct (thread_local_values 0 next_address
    [ThreadLocal.Update 1 (Z.add 5); ThreadLocal.Update 2 (Z.add 7); ThreadLocal.Exit 1; ThreadLocal.Exit 2]
    next_address_fresh) as (s & E & _ & Ho). exists s. split; [exact E|]. apply Ho. by vm_compute.
Defined.

(** A WeakCallback calls its function exactly when the object is still there, and keeps it
    there for the call: while the function runs the object has one reference more, so
    whatever other references the function or anybody drops, it is destroyed no earlier
    than at the end, once, when the reference of the call was the last. *)
Theorem weak_callback_calls {O : Type} (function_ : Z -> ST (WeakCallback.Heap O) unit) p h :
  (WeakCallback.counted h !! p = None -> WeakCallback.call function_ p h = Ok (tt, h))
  /\ (forall o o' h', WeakCallback.counted h !! p = Some o ->
       function_ p (WeakCallback.set_count p (WeakCallback.use_count o + 1) o h) = Ok (tt, h') ->
       WeakCallback.counted h' !! p = Some o' -> 0 < WeakCallback.use_count o' ->
       exists h'', WeakCallback.call function_ p h = Ok (tt, h'')
         /\ WeakCallback.destroyed h'' = WeakCallback.destroyed h' ++ (if WeakCallback.use_count o' =? 1 then [p] else [])
         /\ (forall q, q <> p -> WeakCallback.counted h'' !! q = WeakCallback.counted h' !! q)
         /\ WeakCallback.counted h'' !! p
            = if WeakCallback.use_count o' =? 1 then None
              else Some (WeakCallback.mkObject (WeakCallback.use_count o' - 1) (WeakCallback.object o'))).
Proof.
  unfold WeakCallback.call, WeakCallback.lock, WeakCallback.release, mbind, ST_bind. split.
  - intros ->. done.
  - intros o o' h' Ho Hf Ho' Hp. rewrite Ho. cbn [when]. rewrite Hf, Ho'.
    destruct (WeakCallback.use_count o' =? 1); (eexists; split; [done|]); cbn; rewrite ?app_nil_r;
      (split; [done|]); split; intros; rewrite ?lookup_delete_ne, ?lookup_insert_ne, ?lookup_delete_eq, ?lookup_insert_eq by done; done.
Qed.

Lemma weak_callback_calls_witness :
  exists h'', WeakCallback.call WeakCallback.release 3 (WeakCallback.mkHeap {[ 3 := WeakCallback.mkObject 1 tt ]} []) = Ok (tt, h'')
    /\ WeakCallback.destroyed h'' = [3].
Proof.
  destruct (weak_callback_calls (O := unit) WeakCallback.release 3
    (WeakCallback.mkHeap {[ 3 := WeakCallback.mkObject 1 tt ]} [])) as [_ Hc].
  destruct (Hc (WeakCallback.mkObject 1 tt) (WeakCallback.mkObject 1 tt)
    (WeakCallback.mkHeap {[ 3 := WeakCallback.mkObject 1 tt ]} [])) as (h & E & Ed & _); [by vm_compute..|].
  by exists h.
Defined.
