(* ===== verification/Endian.v ===== *)
(** * Byte order: src/arale/net/Endian.h

    The conversions of Endian.h are the htobe*/be*toh functions of the C
    library, modelled on values of the given width in bytes; [host_bytes] and
    [host_val] are how the host lays an integer out in memory, so that the
    theorems speak of the bytes that go on the wire. *)

From S2P Require Import Prelude.

(** The [n] low bytes of [v], least significant first. *)
Fixpoint le_bytes (n : nat) (v : Z) : bytes :=
  match n with
  | O => []
  | S n' => to_char v :: le_bytes n' (v / 256)
  end.

Fixpoint le_val (l : bytes) : Z :=
  match l with
  | [] => 0
  | c :: l' => uchar c + 256 * le_val l'
  end.

(** Network order: most significant byte first. *)
Definition be_bytes (n : nat) (v : Z) : bytes := reverse (le_bytes n v).
Definition be_val (l : bytes) : Z := le_val (reverse l).

Section host.
Context `{Build}.

(** An integer in the memory of the host. *)
Definition host_bytes (n : nat) (v : Z) : bytes :=
  if little_endian then le_bytes n v else be_bytes n v.
Definition host_val (l : bytes) : Z :=
  if little_endian then le_val l else be_val l.

(** htobe / betoh on [n] bytes: a byte swap on a little endian host. *)
Definition byte_swap (n : nat) (v : Z) : Z := be_val (le_bytes n v).
Definition htobe (n : nat) (v : Z) : Z :=
  if little_endian then byte_swap n v else wrapu (8 * Z.of_nat n) v.

Definition hostToNetwork64 (host64 : Z) : Z := htobe 8 host64.
Definition hostToNetwork32 (host32 : Z) : Z := htobe 4 host32.
Definition hostToNetwork16 (host16 : Z) : Z := htobe 2 host16.
Definition networkToHost64 (net64 : Z) : Z := htobe 8 net64.
Definition networkToHost32 (net32 : Z) : Z := htobe 4 net32.
Definition networkToHost16 (net16 : Z) : Z := htobe 2 net16.
End host.

(** ** Lemmas *)

Lemma length_le_bytes n v : length (le_bytes n v) = n.
Proof. revert v. induction n; intros; cbn; auto. Qed.

Lemma length_be_bytes n v : length (be_bytes n v) = n.
Proof. unfold be_bytes. by rewrite length_reverse, length_le_bytes. Qed.

Lemma zlen_be_bytes n v : zlen (be_bytes n v) = Z.of_nat n.
Proof. unfold zlen. by rewrite length_be_bytes. Qed.

Lemma pow8_S n : 2 ^ (8 * Z.of_nat (S n)) = 256 * 2 ^ (8 * Z.of_nat n).
Proof.
  replace (8 * Z.of_nat (S n)) with (8 + 8 * Z.of_nat n) by lia.
  rewrite Z.pow_add_r by lia. done.
Qed.

Lemma le_val_bytes n v : le_val (le_bytes n v) = wrapu (8 * Z.of_nat n) v.
Proof.
  revert v. induction n as [|n IH]; intros v; cbn [le_bytes le_val].
  - unfold wrapu. cbn. by rewrite Z.mod_1_r.
  - rewrite IH, uchar_to_char. unfold wrapu. rewrite pow8_S.
    rewrite (Z.rem_mul_r v 256) by (try lia; apply Z.pow_pos_nonneg; lia). lia.
Qed.

Lemma le_val_range l : 0 <= le_val l < 2 ^ (8 * zlen l).
Proof.
  unfold zlen. induction l as [|c l IH]; [done|].
  cbn [length le_val]. rewrite pow8_S. pose proof (uchar_range c). lia.
Qed.

Lemma le_bytes_val l : le_bytes (length l) (le_val l) = l.
Proof.
  induction l as [|c l IH]; cbn [length le_val le_bytes]; [done|].
  pose proof (uchar_range c). f_equal.
  - apply uchar_inj. rewrite uchar_to_char, (Z.mul_comm 256), Z_mod_plus_full.
    by apply Z.mod_small.
  - rewrite (Z.mul_comm 256), Z.div_add by lia.
    rewrite (Z.div_small (uchar c)) by lia. by rewrite Z.add_0_l.
Qed.

Lemma be_val_bytes n v : be_val (be_bytes n v) = wrapu (8 * Z.of_nat n) v.
Proof. unfold be_val, be_bytes. by rewrite reverse_involutive, le_val_bytes. Qed.

Lemma be_val_range l : 0 <= be_val l < 2 ^ (8 * zlen l).
Proof.
  unfold be_val. pose proof (le_val_range (reverse l)) as Hr.
  unfold zlen in *. by rewrite length_reverse in Hr.
Qed.

Lemma be_bytes_val l : be_bytes (length l) (be_val l) = l.
Proof.
  unfold be_bytes, be_val. rewrite <- (length_reverse l), le_bytes_val.
  apply reverse_involutive.
Qed.

Lemma le_bytes_wrap n v : le_bytes n (wrapu (8 * Z.of_nat n) v) = le_bytes n v.
Proof.
  rewrite <- le_val_bytes.
  pose proof (le_bytes_val (le_bytes n v)) as E. by rewrite length_le_bytes in E.
Qed.

Section host_lemmas.
Context `{Build}.

Lemma host_val_bytes n v : host_val (host_bytes n v) = wrapu (8 * Z.of_nat n) v.
Proof.
  unfold host_val, host_bytes.
  destruct little_endian; [apply le_val_bytes|apply be_val_bytes].
Qed.

Lemma length_host_bytes n v : length (host_bytes n v) = n.
Proof.
  unfold host_bytes.
  destruct little_endian; [apply length_le_bytes|apply length_be_bytes].
Qed.

Lemma host_bytes_wrap n v :
  host_bytes n (wrapu (8 * Z.of_nat n) v) = host_bytes n v.
Proof.
  unfold host_bytes, be_bytes. by rewrite le_bytes_wrap.
Qed.

Lemma htobe_range n v : 0 <= htobe n v < 2 ^ (8 * Z.of_nat n).
Proof.
  unfold htobe, byte_swap. destruct little_endian; [|apply wrapu_range; lia].
  pose proof (be_val_range (le_bytes n v)) as Hr.
  unfold zlen in Hr. by rewrite length_le_bytes in Hr.
Qed.

(** The bytes of a converted integer in memory are in network order. *)
Lemma host_bytes_htobe n v : host_bytes n (htobe n v) = be_bytes n v.
Proof.
  unfold host_bytes, htobe, byte_swap, be_bytes, be_val.
  destruct little_endian; [|by rewrite le_bytes_wrap].
  pose proof (le_bytes_val (reverse (le_bytes n v))) as E.
  by rewrite length_reverse, length_le_bytes in E.
Qed.

(** Converting what memory holds gives the value of the network bytes. *)
Lemma htobe_host_val l : htobe (length l) (host_val l) = be_val l.
Proof.
  unfold htobe, host_val, byte_swap. destruct little_endian.
  - by rewrite le_bytes_val.
  - apply wrapu_small. apply be_val_range.
Qed.

Lemma htobe_wrap n v : htobe n (wrapu (8 * Z.of_nat n) v) = htobe n v.
Proof.
  unfold htobe, byte_swap. rewrite le_bytes_wrap.
  unfold wrapu. by rewrite Z.mod_mod by (apply Z.pow_nonzero; lia).
Qed.

Lemma htobe_involutive n v : htobe n (htobe n v) = wrapu (8 * Z.of_nat n) v.
Proof.
  unfold htobe, byte_swap, be_val. destruct little_endian.
  - pose proof (le_bytes_val (reverse (le_bytes n v))) as E.
    rewrite length_reverse, length_le_bytes in E. rewrite E, reverse_involutive.
    apply le_val_bytes.
  - unfold wrapu. by rewrite Z.mod_mod by (apply Z.pow_nonzero; lia).
Qed.

(** networkToHost32 undoes hostToNetwork32 on every 32-bit value. *)
Lemma networkToHost32_hostToNetwork32 x :
  networkToHost32 (hostToNetwork32 x) = u32 x.
Proof. apply (htobe_involutive 4). Qed.
End host_lemmas.
