(* ===== verification/Ordered.v ===== *)
(** * Ordered containers: std::set and std::map

    The containers of the C++ standard library the code uses whose iteration
    order matters: a set is the list of its elements and a map the list of its
    pairs, in increasing order.  The class [OrdB] is the comparison, [OrdBLaws]
    what the operations need of it. *)

From S2P Require Import Prelude.
From Stdlib Require Import Sorting.Sorted.

Class OrdB (A : Type) := ltb : A -> A -> bool.

Class OrdBLaws (A : Type) `{OrdB A} := {
  ltb_irrefl (x : A) : ltb x x = false;
  ltb_trans (x y z : A) : ltb x y = true -> ltb y z = true -> ltb x z = true;
  ltb_total (x y : A) : ltb x y = false -> ltb y x = false -> x = y;
}.

#[export] Instance Z_ordb : OrdB Z := Z.ltb.
#[export] Instance char_ordb : OrdB char := fun c d => uchar c <? uchar d.

(** std::pair: lexicographic. *)
#[export] Instance prod_ordb {A B} `{OrdB A, OrdB B} : OrdB (A * B) :=
  fun p q => ltb p.1 q.1 || (negb (ltb q.1 p.1) && ltb p.2 q.2).

(** std::string, std::vector: lexicographic, a proper prefix is smaller. *)
#[export] Instance list_ordb {A} `{OrdB A} : OrdB (list A) :=
  fix go l k :=
    match l, k with
    | _, [] => false
    | [], _ :: _ => true
    | x :: l', y :: k' => ltb x y || (negb (ltb y x) && go l' k')
    end.

Section set_ops.
Context {A : Type} `{OrdB A}.
Implicit Types (x y : A) (l : list A).

(** s.insert(x): the set, and whether [x] was inserted. *)
Fixpoint oinsert x l : list A * bool :=
  match l with
  | [] => ([x], true)
  | y :: l' =>
      if ltb x y then (x :: l, true)
      else if ltb y x then let r := oinsert x l' in (y :: r.1, r.2)
      else (l, false)
  end.

(** s.erase(x): the set, and how many elements were removed. *)
Fixpoint oerase x l : list A * nat :=
  match l with
  | [] => ([], 0%nat)
  | y :: l' =>
      if ltb x y then (l, 0%nat)
      else if ltb y x then let r := oerase x l' in (y :: r.1, r.2)
      else (l', 1%nat)
  end.

(** s.find(x) != s.end() *)
Fixpoint omem x l : bool :=
  match l with
  | [] => false
  | y :: l' => if ltb x y then false else if ltb y x then omem x l' else true
  end.

(** The ranges [begin, lower_bound(x)) and [lower_bound(x), end). *)
Fixpoint osplit x l : list A * list A :=
  match l with
  | [] => ([], [])
  | y :: l' => if ltb y x then let r := osplit x l' in (y :: r.1, r.2) else ([], l)
  end.

Definition osorted l : Prop := StronglySorted (fun x y => ltb x y = true) l.
End set_ops.

Section map_ops.
Context {K V : Type} `{OrdB K}.
Implicit Types (k : K) (v : V) (m : list (K * V)).

(** m[k] = v *)
Fixpoint minsert k v m : list (K * V) :=
  match m with
  | [] => [(k, v)]
  | (k', v') :: m' =>
      if ltb k k' then (k, v) :: m
      else if ltb k' k then (k', v') :: minsert k v m'
      else (k, v) :: m'
  end.

(** m.find(k) *)
Fixpoint mlookup k m : option V :=
  match m with
  | [] => None
  | (k', v') :: m' =>
      if ltb k k' then None else if ltb k' k then mlookup k m' else Some v'
  end.

(** m.erase(k) *)
Fixpoint merase k m : list (K * V) :=
  match m with
  | [] => []
  | (k', v') :: m' =>
      if ltb k k' then m
      else if ltb k' k then (k', v') :: merase k m' else m'
  end.

Definition msorted m : Prop := osorted m.*1.
End map_ops.

(** ** The orders are strict total orders *)

#[export] Instance Z_ordb_laws : OrdBLaws Z.
Proof.
  split; unfold ltb, Z_ordb; intros.
  - apply Z.ltb_irrefl.
  - zify_bool. apply Z.ltb_lt. lia.
  - zify_bool. lia.
Qed.

#[export] Instance char_ordb_laws : OrdBLaws char.
Proof.
  split; unfold ltb, char_ordb; intros.
  - apply Z.ltb_irrefl.
  - zify_bool. apply Z.ltb_lt. lia.
  - zify_bool. apply uchar_inj. lia.
Qed.

Lemma ltb_asym {A} `{OrdBLaws A} (x y : A) : ltb x y = true -> ltb y x = false.
Proof.
  intros Hxy. destruct (ltb y x) eqn:Hyx; [|done].
  pose proof (ltb_trans _ _ _ Hxy Hyx) as E. by rewrite ltb_irrefl in E.
Qed.

#[export] Instance prod_ordb_laws {A B} `{OrdBLaws A, OrdBLaws B} : OrdBLaws (A * B).
Proof.
  split; unfold ltb at 1, prod_ordb; cbn [fst snd].
  - intros [a b]. by rewrite !ltb_irrefl.
  - intros [a1 b1] [a2 b2] [a3 b3]. unfold ltb, prod_ordb. cbn [fst snd]. fold (@ltb A _) (@ltb B _).
    intros H12 H23.
    destruct (ltb a1 a2) eqn:E12, (ltb a2 a3) eqn:E23; cbn in *.
    + by rewrite (ltb_trans _ _ _ E12 E23).
    + apply andb_true_iff in H23 as [Hn ?]. apply negb_true_iff in Hn.
      assert (a2 = a3) as -> by (by apply ltb_total). by rewrite E12.
    + apply andb_true_iff in H12 as [Hn ?]. apply negb_true_iff in Hn.
      assert (a1 = a2) as -> by (by apply ltb_total). by rewrite E23.
    + apply andb_true_iff in H12 as [Hn1 ?], H23 as [Hn2 ?].
      apply negb_true_iff in Hn1, Hn2.
      assert (a1 = a2) as -> by (by apply ltb_total).
      assert (a2 = a3) as -> by (by apply ltb_total).
      rewrite ltb_irrefl. cbn. by eapply ltb_trans.
  - intros [a1 b1] [a2 b2]. unfold ltb, prod_ordb. cbn [fst snd]. fold (@ltb A _) (@ltb B _).
    intros H12 H21. apply orb_false_iff in H12 as [Ha Hb], H21 as [Ha' Hb'].
    rewrite Ha', Ha in *. cbn in *. f_equal; by apply ltb_total.
Qed.

#[export] Instance list_ordb_laws {A} `{OrdBLaws A} : OrdBLaws (list A).
Proof.
  split.
  - intros l. induction l as [|x l IH]; [done|]. cbn.
    rewrite ltb_irrefl. cbn. exact IH.
  - intros l1. induction l1 as [|x1 l1 IH]; intros [|x2 l2] [|x3 l3]; try done.
    cbn. change (list_ordb ?a ?b) with (ltb a b). intros H12 H23.
    destruct (ltb x1 x2) eqn:E12, (ltb x2 x3) eqn:E23; cbn in *.
    + by rewrite (ltb_trans _ _ _ E12 E23).
    + apply andb_true_iff in H23 as [Hn ?]. apply negb_true_iff in Hn.
      assert (x2 = x3) as -> by (by apply ltb_total). by rewrite E12.
    + apply andb_true_iff in H12 as [Hn ?]. apply negb_true_iff in Hn.
      assert (x1 = x2) as -> by (by apply ltb_total). by rewrite E23.
    + apply andb_true_iff in H12 as [Hn1 ?], H23 as [Hn2 ?].
      apply negb_true_iff in Hn1, Hn2.
      assert (x1 = x2) as -> by (by apply ltb_total).
      assert (x2 = x3) as -> by (by apply ltb_total).
      rewrite ltb_irrefl. cbn. by eapply IH.
  - intros l1. induction l1 as [|x1 l1 IH]; intros [|x2 l2]; try done.
    cbn. intros H12 H21. apply orb_false_iff in H12 as [Ha Hb], H21 as [Ha' Hb'].
    rewrite Ha', Ha in *. cbn in *. f_equal; [by apply ltb_total|by apply IH].
Qed.

(** ** Sets *)

Section set_lemmas.
Context {A : Type} `{OrdBLaws A}.
Implicit Types (x y z : A) (l : list A).

Lemma osorted_cons y l :
  osorted (y :: l) <-> osorted l /\ forall z, z ∈ l -> ltb y z = true.
Proof.
  unfold osorted. split.
  - intros Hs. inversion Hs as [|? ? ? Hf]; subst. split; [done|].
    intros z Hz. by rewrite Forall_forall in Hf; apply Hf.
  - intros [? Hz]. constructor; [done|]. by apply Forall_forall.
Qed.

Lemma osorted_NoDup l : osorted l -> NoDup l.
Proof.
  induction l as [|y l IH]; [constructor|]. intros [Hs Hy]%osorted_cons.
  constructor; [|by apply IH]. intros Hin. apply Hy in Hin. by rewrite ltb_irrefl in Hin.
Qed.

Lemma oinsert_elem x y l : osorted l -> y ∈ (oinsert x l).1 <-> y = x \/ y ∈ l.
Proof.
  induction l as [|z l IH]; cbn; [set_solver|]. intros [Hs Hz]%osorted_cons.
  destruct (ltb x z) eqn:E1; [set_solver|].
  destruct (ltb z x) eqn:E2; cbn.
  - rewrite !elem_of_cons, IH by done. naive_solver.
  - assert (x = z) as -> by (by apply ltb_total). set_solver.
Qed.

Lemma oinsert_sorted x l : osorted l -> osorted (oinsert x l).1.
Proof.
  induction l as [|z l IH]; cbn.
  { intros _. apply osorted_cons. split; [constructor|set_solver]. }
  intros Hzl. pose proof Hzl as [Hs Hz]%osorted_cons.
  destruct (ltb x z) eqn:E1; cbn.
  - apply osorted_cons. split; [done|]. intros y [->|Hy]%elem_of_cons; [done|].
    eapply ltb_trans; [done|]. by apply Hz.
  - destruct (ltb z x) eqn:E2; cbn; [|done]. apply osorted_cons. split; [by apply IH|].
    intros y [->|Hy]%oinsert_elem; [done| |done]. by apply Hz.
Qed.

(** insert() reports true exactly when the element is new. *)
Lemma oinsert_fresh x l : osorted l -> x ∉ l -> (oinsert x l).2 = true.
Proof.
  induction l as [|z l IH]; cbn; [done|]. intros [Hs Hz]%osorted_cons Hx.
  apply not_elem_of_cons in Hx as [Hne Hx].
  destruct (ltb x z) eqn:E1; [done|]. destruct (ltb z x) eqn:E2; cbn; [by apply IH|].
  destruct Hne. by apply ltb_total.
Qed.

Lemma oinsert_present x l : osorted l -> x ∈ l -> oinsert x l = (l, false).
Proof.
  induction l as [|z l IH]; cbn; [set_solver|]. intros [Hs Hz]%osorted_cons Hx.
  apply elem_of_cons in Hx as [->|Hx]; [by rewrite ltb_irrefl|].
  pose proof (Hz _ Hx) as E. rewrite (ltb_asym _ _ E), E, IH by done. done.
Qed.

Lemma oinsert_length x l :
  osorted l -> x ∉ l -> length (oinsert x l).1 = S (length l).
Proof.
  induction l as [|z l IH]; cbn; [done|]. intros [Hs Hz]%osorted_cons Hx.
  apply not_elem_of_cons in Hx as [Hne Hx].
  destruct (ltb x z) eqn:E1; [done|]. destruct (ltb z x) eqn:E2; cbn; [by rewrite IH|].
  destruct Hne. by apply ltb_total.
Qed.

Lemma oerase_elem x y l : osorted l -> y ∈ (oerase x l).1 <-> y <> x /\ y ∈ l.
Proof.
  induction l as [|z l IH]; cbn; [set_solver|]. intros [Hs Hz]%osorted_cons.
  assert (forall y, y ∈ l -> y <> z).
  { intros w Hw ->. apply Hz in Hw. by rewrite ltb_irrefl in Hw. }
  destruct (ltb x z) eqn:E1; cbn.
  - split; [|naive_solver]. intros Hy. split; [|done]. intros ->.
    apply elem_of_cons in Hy as [->|Hy]; [by rewrite ltb_irrefl in E1|].
    apply Hz in Hy. by rewrite (ltb_asym _ _ E1) in Hy.
  - destruct (ltb z x) eqn:E2; cbn.
    + rewrite !elem_of_cons, IH by done. split; [|naive_solver].
      intros [->|[? ?]]; [|naive_solver]. split; [|by left]. intros ->.
      by rewrite ltb_irrefl in E2.
    + assert (x = z) as -> by (by apply ltb_total). rewrite elem_of_cons. naive_solver.
Qed.

Lemma oerase_sorted x l : osorted l -> osorted (oerase x l).1.
Proof.
  induction l as [|z l IH]; cbn; [done|]. intros Hzl. pose proof Hzl as [Hs Hz]%osorted_cons.
  destruct (ltb x z); [done|]. destruct (ltb z x); cbn; [|done].
  apply osorted_cons. split; [by apply IH|]. intros y [_ ?]%oerase_elem; [by apply Hz|done].
Qed.

Lemma oerase_present x l :
  osorted l -> x ∈ l -> (oerase x l).2 = 1%nat /\ S (length (oerase x l).1) = length l.
Proof.
  induction l as [|z l IH]; cbn; [set_solver|]. intros [Hs Hz]%osorted_cons Hx.
  apply elem_of_cons in Hx as [->|Hx]; [by rewrite ltb_irrefl|].
  pose proof (Hz _ Hx) as E. rewrite (ltb_asym _ _ E), E.
  destruct IH as [-> <-]; [done..|]. done.
Qed.

Lemma oerase_absent x l : osorted l -> x ∉ l -> oerase x l = (l, 0%nat).
Proof.
  induction l as [|z l IH]; cbn; [done|]. intros [Hs Hz]%osorted_cons Hx.
  apply not_elem_of_cons in Hx as [Hne Hx].
  destruct (ltb x z) eqn:E1; [done|]. destruct (ltb z x) eqn:E2; [by rewrite IH|].
  destruct Hne. by apply ltb_total.
Qed.

Lemma omem_spec x l : osorted l -> omem x l = true <-> x ∈ l.
Proof.
  induction l as [|z l IH]; cbn; [set_solver|]. intros [Hs Hz]%osorted_cons.
  rewrite elem_of_cons. destruct (ltb x z) eqn:E1.
  - split; [done|]. intros [->|Hx]; [by rewrite ltb_irrefl in E1|].
    apply Hz in Hx. by rewrite (ltb_asym _ _ E1) in Hx.
  - destruct (ltb z x) eqn:E2.
    + rewrite IH by done. split; [by right|]. intros [->|?]; [|done].
      by rewrite ltb_irrefl in E2.
    + split; [|done]. intros _. left. by apply ltb_total.
Qed.

Lemma osplit_app x l : (osplit x l).1 ++ (osplit x l).2 = l.
Proof.
  induction l as [|z l IH]; cbn; [done|]. destruct (ltb z x); cbn; [by rewrite IH|done].
Qed.

Lemma osplit_lt x l y : y ∈ (osplit x l).1 -> ltb y x = true.
Proof.
  induction l as [|z l IH]; cbn; [set_solver|]. destruct (ltb z x) eqn:E; cbn; [|set_solver].
  intros [->|?]%elem_of_cons; [done|by apply IH].
Qed.

Lemma osplit_ge x l y : osorted l -> y ∈ (osplit x l).2 -> ltb y x = false.
Proof.
  induction l as [|z l IH]; cbn; [set_solver|]. intros [Hs Hz]%osorted_cons.
  destruct (ltb z x) eqn:E; cbn; [by apply IH|].
  intros [->|Hy]%elem_of_cons; [done|]. destruct (ltb y x) eqn:E'; [|done].
  rewrite (ltb_trans z y x) in E; [done|by apply Hz|done].
Qed.

Lemma osorted_app l k :
  osorted (l ++ k) -> osorted l /\ osorted k /\ forall x y, x ∈ l -> y ∈ k -> ltb x y = true.
Proof.
  induction l as [|z l IH]; cbn.
  - intros. split_and!; [constructor|done|set_solver].
  - intros [(? & ? & Hlt)%IH Hz]%osorted_cons. split_and!; [|done|].
    + apply osorted_cons. split; [done|]. intros y Hy. apply Hz. set_solver.
    + intros x y [->|Hx]%elem_of_cons Hy; [apply Hz; set_solver|by apply Hlt].
Qed.

(** Cutting a set at one of its elements. *)
Lemma osplit_cut l x k : osorted (l ++ x :: k) -> osplit x (l ++ x :: k) = (l, x :: k).
Proof.
  induction l as [|z l IH]; cbn; [by rewrite ltb_irrefl|].
  intros [Hs Hz]%osorted_cons. rewrite Hz, IH by (done || set_solver). done.
Qed.

Lemma osorted_before l x k y : osorted (l ++ x :: k) -> y ∈ k -> ltb x y = true.
Proof. intros (_ & Hs & _)%osorted_app Hy. apply osorted_cons in Hs as [_ Hs]. by apply Hs. Qed.
End set_lemmas.

(** ** Maps *)

Section map_lemmas.
Context {K V : Type} `{OrdBLaws K}.
Implicit Types (k : K) (v : V) (m : list (K * V)).

Lemma minsert_keys k v m : (minsert k v m).*1 = (oinsert k m.*1).1.
Proof.
  induction m as [|[k' v'] m IH]; cbn; [done|].
  destruct (ltb k k') eqn:E1; [done|]. destruct (ltb k' k) eqn:E2; cbn; [by rewrite IH|].
  f_equal. by apply ltb_total.
Qed.

Lemma minsert_sorted k v m : msorted m -> msorted (minsert k v m).
Proof. unfold msorted. rewrite minsert_keys. apply oinsert_sorted. Qed.

Lemma msorted_cons k v m :
  msorted ((k, v) :: m) <-> msorted m /\ forall z, z ∈ m.*1 -> ltb k z = true.
Proof. apply osorted_cons. Qed.

Lemma mlookup_insert_eq k v m : mlookup k (minsert k v m) = Some v.
Proof.
  induction m as [|[k' v'] m IH]; cbn; [by rewrite ltb_irrefl|].
  destruct (ltb k k') eqn:E1; cbn; [by rewrite ltb_irrefl|].
  destruct (ltb k' k) eqn:E2; cbn; [by rewrite E1, E2|by rewrite ltb_irrefl].
Qed.

Lemma mlookup_insert_ne k k' v m :
  msorted m -> k <> k' -> mlookup k' (minsert k v m) = mlookup k' m.
Proof.
  intros Hm Hne. induction m as [|[k1 v1] m IH]; cbn.
  - destruct (ltb k' k) eqn:E1; [done|]. destruct (ltb k k') eqn:E2; [done|].
    destruct Hne. by apply ltb_total.
  - apply osorted_cons in Hm as [Hm Hk1].
    destruct (ltb k k1) eqn:E1; cbn.
    + destruct (ltb k' k) eqn:E2.
      { by rewrite (ltb_trans _ _ _ E2 E1). }
      destruct (ltb k k') eqn:E3; [done|]. destruct Hne. by apply ltb_total.
    + destruct (ltb k1 k) eqn:E2; cbn.
      * by rewrite IH.
      * assert (k = k1) as <- by (by apply ltb_total).
        destruct (ltb k' k) eqn:E3; [done|]. destruct (ltb k k') eqn:E4; [done|].
        destruct Hne. by apply ltb_total.
Qed.

Lemma mlookup_None k m : msorted m -> mlookup k m = None <-> k ∉ m.*1.
Proof.
  induction m as [|[k' v'] m IH]; [cbn; set_solver|]. intros [Hm Hk]%msorted_cons. cbn.
  rewrite not_elem_of_cons. destruct (ltb k k') eqn:E1.
  - split; [|done]. intros _. split; [by intros ->; rewrite ltb_irrefl in E1|].
    intros Hin. apply Hk in Hin. by rewrite (ltb_asym _ _ E1) in Hin.
  - destruct (ltb k' k) eqn:E2.
    + rewrite IH by done. split; [|naive_solver]. intros ?. split; [|done].
      intros ->. by rewrite ltb_irrefl in E2.
    + split; [done|]. intros [Hne _]. destruct Hne. by apply ltb_total.
Qed.
End map_lemmas.

#[export] Hint Resolve oinsert_sorted oerase_sorted minsert_sorted : arale.
