(* ===== verification/Format.v ===== *)
(** * Printing numbers: convert and convertHex of src/arale/base/LogStream.cc, and
    the decimal conversions of snprintf and atoi that the sources use

    [convert] is the do-while loop of the source, writing the digits backwards
    through the mirrored table [digits] and reversing them.  The reference it is
    compared with is stdpp's [pretty], an independent printer of integers. *)

From S2P Require Import Prelude.
From stdpp Require Import pretty.
#[local] Open Scope Z_scope.

(** ** The tables *)

Definition digits : bytes := cs "9876543210123456789".
Definition digitsHex : bytes := cs "0123456789ABCDEF".

(** zero[lsd], where zero = digits + 9 and lsd may be negative. *)
Definition zero_at (lsd : Z) : char := nth (Z.to_nat (9 + lsd)) digits NUL.
Definition hex_at (lsd : Z) : char := nth (Z.to_nat lsd) digitsHex NUL.

(** ** The loops

    [i % b] and [i / b] truncate, as C's do.  The digits come out least
    significant first. *)
Fixpoint convert_loop (fuel : nat) (i : Z) : bytes :=
  match fuel with
  | O => []
  | S fuel' =>
      let lsd := Z.rem i 10 in
      let i' := Z.quot i 10 in
      zero_at lsd :: (if i' =? 0 then [] else convert_loop fuel' i')
  end.

Fixpoint convertHex_loop (fuel : nat) (i : Z) : bytes :=
  match fuel with
  | O => []
  | S fuel' =>
      let lsd := Z.rem i 16 in
      let i' := Z.quot i 16 in
      hex_at lsd :: (if i' =? 0 then [] else convertHex_loop fuel' i')
  end.

(** A 64-bit number has at most 20 decimal and 16 hexadecimal digits. *)
Definition convert (value : Z) : bytes :=
  reverse (convert_loop 20 value ++ (if value <? 0 then cs "-" else [])).
Definition convertHex (value : Z) : bytes := reverse (convertHex_loop 16 value).

(** ** snprintf: [%d], [%Nd] and [%0Nd] *)

Definition pad (fill : char) (width : nat) (s : bytes) : bytes :=
  replicate (width - length s) fill ++ s.

Definition fmt_d (v : Z) : bytes := cs (pretty v).
Definition fmt_wd (width : nat) (v : Z) : bytes := pad (to_char 32) width (fmt_d v).
Definition fmt_0d (width : nat) (v : Z) : bytes :=
  if v <? 0 then cs "-" ++ pad (zero_at 0) (width - 1) (fmt_d (- v))
  else pad (zero_at 0) width (fmt_d v).

(** ** atoi(3)

    strtol in base ten, cut to an int: white space, a sign, digits; out of range it gives
    the nearest long. *)

Definition digit_val (c : char) : option Z :=
  let d := uchar c - 48 in if (0 <=? d) && (d <=? 9) then Some d else None.
Fixpoint digits_val (acc : Z) (l : bytes) : Z :=
  match l with
  | c :: l' => match digit_val c with Some d => digits_val (acc * 10 + d) l' | None => acc end
  | [] => acc
  end.
Fixpoint skip_space (l : bytes) : bytes :=
  match l with c :: l' => if isspace c then skip_space l' else l | [] => [] end.
Definition atoi (l : bytes) : Z :=
  let l := skip_space l in
  let v := match l with
           | c :: l' => if uchar c =? 45 then - digits_val 0 l'
                        else if uchar c =? 43 then digits_val 0 l' else digits_val 0 l
           | [] => 0
           end in
  i32 (Z.max (- 2 ^ 63) (Z.min v (2 ^ 63 - 1))).

(** ** Lemmas *)

Lemma cs_app s1 s2 : cs (s1 +:+ s2) = cs s1 ++ cs s2.
Proof.
  induction s1 as [|c s1 IH]; [done|].
  change (cs (String c s1 +:+ s2)) with (c :: cs (s1 +:+ s2)). by rewrite IH.
Qed.

Lemma zero_at_opp d : 0 <= d < 10 -> zero_at (- d) = zero_at d.
Proof.
  intros. assert (d = 0 \/ d = 1 \/ d = 2 \/ d = 3 \/ d = 4 \/ d = 5 \/ d = 6 \/ d = 7
    \/ d = 8 \/ d = 9) as Hd by lia.
  by repeat destruct Hd as [->|Hd]; [..|subst].
Qed.

Lemma zero_at_pretty d : (d < 10)%N -> zero_at (Z.of_N d) = pretty_N_char d.
Proof.
  intros. assert (d = 0 \/ d = 1 \/ d = 2 \/ d = 3 \/ d = 4 \/ d = 5 \/ d = 6 \/ d = 7
    \/ d = 8 \/ d = 9)%N as Hd by lia.
  by repeat destruct Hd as [->|Hd]; [..|subst].
Qed.

(** The loop does not look at the sign. *)
Lemma convert_loop_opp fuel i : convert_loop fuel (- i) = convert_loop fuel i.
Proof.
  revert i. induction fuel as [|fuel IH]; intros i; cbn [convert_loop]; [done|].
  rewrite Z.rem_opp_l, Z.quot_opp_l by lia. f_equal.
  - destruct (Z_le_gt_dec 0 i).
    + pose proof (Z.rem_bound_pos i 10). by rewrite zero_at_opp by lia.
    + pose proof (Z.rem_bound_pos_neg i 10).
      rewrite <- (zero_at_opp (- Z.rem i 10)) by lia. f_equal. lia.
  - rewrite IH. destruct (Z.eqb_spec (Z.quot i 10) 0), (Z.eqb_spec (- Z.quot i 10) 0);
      done || lia.
Qed.

(** On a positive number the loop writes the digits that [pretty] writes. *)
Lemma convert_loop_pretty fuel n s :
  (0 < n)%N -> Z.of_N n < 10 ^ Z.of_nat fuel ->
  reverse (convert_loop fuel (Z.of_N n)) ++ cs s = cs (pretty_N_go n s).
Proof.
  revert n s. induction fuel as [|fuel IH]; intros n s Hn Hf; [cbn in Hf; lia|].
  cbn [convert_loop]. rewrite pretty_N_go_step by done.
  change (Z.rem (Z.of_N n) 10) with (Z.rem (Z.of_N n) (Z.of_N 10)).
  change (Z.quot (Z.of_N n) 10) with (Z.quot (Z.of_N n) (Z.of_N 10)).
  rewrite <- N2Z.inj_rem, <- N2Z.inj_quot.
  rewrite zero_at_pretty by (by apply N.mod_lt).
  destruct (Z.eqb_spec (Z.of_N (n / 10)) 0) as [E|E].
  - assert (n / 10 = 0)%N as -> by lia. by rewrite pretty_N_go_0.
  - rewrite reverse_cons, <- (assoc_L (++)).
    change ([pretty_N_char (n mod 10)] ++ cs s) with (cs (String (pretty_N_char (n mod 10)) s)).
    apply IH; [apply N.neq_0_lt_0; intros E0; by rewrite E0 in E|].
    rewrite Nat2Z.inj_succ, Z.pow_succ_r in Hf by lia.
    rewrite N2Z.inj_div. apply Z.div_lt_upper_bound; lia.
Qed.

Lemma pretty_N_pos n : (0 < n)%N -> pretty n = pretty_N_go n "".
Proof. intros. unfold pretty, pretty_N. by rewrite decide_False by lia. Qed.

Lemma convert_loop_length fuel i : (length (convert_loop fuel i) <= fuel)%nat.
Proof.
  revert i. induction fuel as [|fuel IH]; intros i; cbn [convert_loop length]; [lia|].
  destruct (_ =? 0); cbn [length]; [lia|]. specialize (IH (Z.quot i 10)). lia.
Qed.

Lemma convertHex_loop_length fuel i : (length (convertHex_loop fuel i) <= fuel)%nat.
Proof.
  revert i. induction fuel as [|fuel IH]; intros i; cbn [convertHex_loop length]; [lia|].
  destruct (_ =? 0); cbn [length]; [lia|]. specialize (IH (Z.quot i 16)). lia.
Qed.

Lemma convert_length v : zlen (convert v) <= 21.
Proof.
  unfold convert, zlen. rewrite length_reverse, length_app.
  pose proof (convert_loop_length 20 v). destruct (v <? 0); cbn [length cs String.list_ascii_of_string]; lia.
Qed.

Lemma convertHex_length v : zlen (convertHex v) <= 16.
Proof.
  unfold convertHex, zlen. rewrite length_reverse.
  pose proof (convertHex_loop_length 16 v). lia.
Qed.

Lemma convert_fmt_d v : - 2 ^ 63 <= v < 2 ^ 64 -> convert v = fmt_d v.
Proof.
  intros Hv. unfold convert, fmt_d. destruct v as [|p|p]; [done| |].
  - cbn [Z.ltb Z.compare]. rewrite app_nil_r.
    change (Z.pos p) with (Z.of_N (N.pos p)).
    pose proof (convert_loop_pretty 20 (N.pos p) "") as E. cbn [cs String.list_ascii_of_string] in E.
    rewrite app_nil_r in E. rewrite E by lia. by rewrite <- pretty_N_pos.
  - cbn [Z.ltb Z.compare]. change (Z.neg p) with (- Z.of_N (N.pos p)).
    rewrite convert_loop_opp, reverse_app.
    pose proof (convert_loop_pretty 20 (N.pos p) "") as E. cbn [cs String.list_ascii_of_string] in E.
    rewrite app_nil_r in E. rewrite E by lia. by rewrite <- pretty_N_pos.
Qed.

(** The decimal digits of a number below [10 ^ k]: at most [k], and no terminator. *)
Lemma fmt_d_length v k : 0 <= v < 10 ^ Z.of_nat k -> (0 < k)%nat -> (length (fmt_d v) <= k)%nat.
Proof.
  intros Hv Hk. unfold fmt_d. destruct v as [|p|p]; [cbn; lia| |lia].
  pose proof (convert_loop_pretty k (N.pos p) "" ltac:(lia) ltac:(lia)) as E.
  change (pretty (Z.pos p)) with (pretty (N.pos p)). rewrite pretty_N_pos, <- E by lia.
  rewrite length_app, length_reverse. pose proof (convert_loop_length k (Z.of_N (N.pos p))).
  change (length (cs "")) with 0%nat. lia.
Qed.

Lemma zero_at_not_NUL d : -10 < d < 10 -> zero_at d <> NUL.
Proof.
  intros Hd. assert (exists e, 0 <= e < 10 /\ zero_at d = zero_at e) as (e & He & ->).
  { destruct (Z_le_gt_dec 0 d); [exists d; auto with lia|].
    exists (- d). split; [lia|]. symmetry.
    rewrite <- (zero_at_opp (- d)) by lia. by rewrite Z.opp_involutive. }
  assert (e = 0 \/ e = 1 \/ e = 2 \/ e = 3 \/ e = 4 \/ e = 5 \/ e = 6 \/ e = 7
    \/ e = 8 \/ e = 9) as Hc by lia.
  by repeat destruct Hc as [->|Hc]; [..|subst].
Qed.

Lemma convert_loop_not_NUL fuel i : NUL ∉ convert_loop fuel i.
Proof.
  revert i. induction fuel as [|fuel IH]; intros i; cbn [convert_loop]; [set_solver|].
  apply not_elem_of_cons. split.
  - apply not_eq_sym, zero_at_not_NUL. pose proof (Z.rem_bound_abs i 10). lia.
  - destruct (_ =? 0); [set_solver|apply IH].
Qed.

Lemma fmt_d_not_NUL v : 0 <= v < 2 ^ 64 -> NUL ∉ fmt_d v.
Proof.
  intros Hv. rewrite <- convert_fmt_d by lia. unfold convert.
  rewrite (proj2 (Z.ltb_ge _ _)), app_nil_r by lia.
  intros Hin. apply (convert_loop_not_NUL 20 v). by apply elem_of_reverse.
Qed.

Lemma pad_length c n s : (length s <= n)%nat -> length (pad c n s) = n.
Proof. intros. unfold pad. rewrite length_app, length_replicate. lia. Qed.

Lemma pad_not_NUL c n s : c <> NUL -> NUL ∉ s -> NUL ∉ pad c n s.
Proof.
  intros Hc Hs. unfold pad. rewrite elem_of_app. intros [Hin|Hin]; [|done].
  apply elem_of_replicate in Hin as [E _]. congruence.
Qed.

(** atoi reads back what [%d] wrote, whatever follows that is not a digit. *)
Lemma digit_val_zero d : 0 <= d < 10 -> digit_val (zero_at d) = Some d.
Proof.
  intros. assert (d = 0 \/ d = 1 \/ d = 2 \/ d = 3 \/ d = 4 \/ d = 5 \/ d = 6 \/ d = 7
    \/ d = 8 \/ d = 9) as Hd by lia.
  by repeat destruct Hd as [->|Hd]; [..|subst].
Qed.

Lemma digits_val_loop fuel i rest :
  0 <= i < 10 ^ Z.of_nat fuel -> (0 < fuel)%nat ->
  match rest with c :: _ => digit_val c = None | [] => True end ->
  digits_val 0 (reverse (convert_loop fuel i) ++ rest) = i.
Proof.
  intros Hi Hf Hr.
  enough (forall rest', digits_val 0 (reverse (convert_loop fuel i) ++ rest') = digits_val i rest')
    as -> by (destruct rest as [|c rest]; [done|]; cbn; by rewrite Hr).
  clear rest Hr. revert i Hi. induction fuel as [|fuel IH]; intros i Hi rest; [lia|].
  cbn [convert_loop]. rewrite Z.rem_mod_nonneg, Z.quot_div_nonneg by lia.
  pose proof (Z.mod_pos_bound i 10 ltac:(lia)) as Hm.
  rewrite reverse_cons, <- (assoc_L (++)).
  assert (forall k, digits_val k ([zero_at (i mod 10)] ++ rest) = digits_val (k * 10 + i mod 10) rest)
    as Hd by (intros k; cbn [app digits_val]; by rewrite digit_val_zero by lia).
  destruct (Z.eqb_spec (i / 10) 0) as [E|E].
  - change (reverse (@nil char)) with (@nil char). rewrite app_nil_l, (Hd 0).
    f_equal. pose proof (Z.div_mod i 10 ltac:(lia)). lia.
  - rewrite Nat2Z.inj_succ, Z.pow_succ_r in Hi by lia.
    destruct fuel as [|fuel]; [change (10 ^ Z.of_nat 0) with 1 in Hi; exfalso; apply E;
      apply Z.div_small; lia|].
    rewrite IH; [|lia|split; [apply Z.div_pos; lia|apply Z.div_lt_upper_bound; lia] ].
    rewrite Hd. f_equal. pose proof (Z.div_mod i 10 ltac:(lia)). lia.
Qed.

Lemma atoi_fmt_d v rest :
  0 <= v < 2 ^ 31 -> match rest with c :: _ => digit_val c = None | [] => True end ->
  atoi (fmt_d v ++ rest) = v.
Proof.
  intros Hv Hr. pose proof (digits_val_loop 20 v rest ltac:(lia) ltac:(lia) Hr) as E.
  assert (fmt_d v = reverse (convert_loop 20 v)) as Hd.
  { rewrite <- convert_fmt_d by lia. unfold convert. rewrite (proj2 (Z.ltb_ge _ _)) by lia.
    by rewrite app_nil_r. }
  assert (exists d l, 0 <= d < 10 /\ reverse (convert_loop 20 v) = zero_at d :: l) as (d & l & Hdr & El).
  { destruct (reverse (convert_loop 20 v)) as [|c l] eqn:Er.
    - apply (f_equal reverse) in Er. rewrite reverse_involutive in Er. cbn in Er. discriminate.
    - assert (c ∈ convert_loop 20 v) as Hc by (apply elem_of_reverse; rewrite Er; apply list_elem_of_here).
      assert (forall fuel i, 0 <= i -> c ∈ convert_loop fuel i -> exists d, 0 <= d < 10 /\ c = zero_at d)
        as Hl.
      { clear. intros fuel. induction fuel as [|fuel IH]; intros i Hi; cbn [convert_loop];
          [by intros ?%not_elem_of_nil|]. intros [->|Hc]%elem_of_cons.
        - exists (Z.rem i 10). split; [apply Z.rem_bound_pos; lia|done].
        - destruct (_ =? 0); [by apply not_elem_of_nil in Hc|]. eapply IH, Hc. apply Z.quot_pos; lia. }
      destruct (Hl 20%nat v ltac:(lia) Hc) as (d & Hdr & ->). by exists d, l. }
  unfold atoi. rewrite Hd. rewrite El in *. cbn [app] in *.
  assert (isspace (zero_at d) = false /\ uchar (zero_at d) =? 45 = false
          /\ uchar (zero_at d) =? 43 = false) as (Hs & Hm & Hp).
  { assert (d = 0 \/ d = 1 \/ d = 2 \/ d = 3 \/ d = 4 \/ d = 5 \/ d = 6 \/ d = 7
      \/ d = 8 \/ d = 9) as Hc by lia.
    by repeat destruct Hc as [->|Hc]; [..|subst]. }
  cbn [skip_space]. rewrite Hs, Hm, Hp, E.
  rewrite Z.min_l, Z.max_r by lia. apply wraps_small; lia.
Qed.
