(* ===== verification/Buffer.v ===== *)
(** * The I/O buffer: src/arale/net/Buffer.h and Buffer.cc

    A vector<char> with a read and a write index.  Pointers into the buffer are
    modelled as offsets from [begin()]; every access is checked against
    [buffer_.size()], so an operation that would touch memory outside the vector
    is [Err OutOfBounds].  [contents] is the abstract value: the readable bytes.
    The theorems show that, within the room the buffer really has, the operations
    implement a byte queue with cheap prepending. *)

From S2P Require Import Prelude Endian.

(** ** Data *)

Record Buffer := mkBuffer {
  buffer_ : bytes;
  readIndex_ : Z;
  writeIndex_ : Z;
}.

#[export] Instance Buffer_eq_dec : EqDecision Buffer.
Proof. solve_decision. Defined.

Definition kCheapPrependSize : Z := 8.
Definition kDefaultInitialSize : Z := 1024.
Definition kCRLF : bytes := [CR; LF].

(** What readv(2) gives: an errno, or the bytes read (none at end of file). *)
Inductive read_result :=
  | ReadErr (err : Z)
  | ReadOk (data : bytes).

Section ops.
Context `{Build}.
Implicit Types (b : Buffer).

(** ** General interface *)

Definition size b : Z := zlen (buffer_ b).
Definition readableBytes b : Z := u64 (writeIndex_ b - readIndex_ b).
Definition writableBytes b : Z := u64 (size b - writeIndex_ b).
Definition prependableSize b : Z := readIndex_ b.
Definition peek b : Z := readIndex_ b.
Definition beginWrite b : Z := writeIndex_ b.

Definition Buffer_ctor (initialSize : Z) : outcome Buffer :=
  let b := mkBuffer (replicate (Z.to_nat (kCheapPrependSize + kDefaultInitialSize)) NUL)
             kCheapPrependSize kCheapPrependSize in
  assert_ (writableBytes b =? initialSize) ;;
  assert_ (readableBytes b =? 0) ;;
  mret b.

(** The default constructor, with the value it builds. *)
Definition Buffer_empty : Buffer :=
  mkBuffer (replicate (Z.to_nat (kCheapPrependSize + kDefaultInitialSize)) NUL)
    kCheapPrependSize kCheapPrependSize.

Definition swap b rhs : Buffer * Buffer :=
  (mkBuffer (buffer_ rhs) (readIndex_ rhs) (writeIndex_ rhs),
   mkBuffer (buffer_ b) (readIndex_ b) (writeIndex_ b)).

(** ** Read interface *)

Definition retrieveAll b : Buffer :=
  mkBuffer (buffer_ b) kCheapPrependSize kCheapPrependSize.

Definition retrieve b (len : Z) : outcome Buffer :=
  assert_ (len <=? readableBytes b) ;;
  if len <? readableBytes b
  then mret (mkBuffer (buffer_ b) (u64 (readIndex_ b + len)) (writeIndex_ b))
  else mret (retrieveAll b).

Definition retrieveUntil b (end_ : Z) : outcome Buffer :=
  assert_ (end_ <=? writeIndex_ b) ;;
  assert_ (peek b <=? end_) ;;
  retrieve b (u64 (end_ - peek b)).

Definition retrieveInt8 b : outcome Buffer := retrieve b 1.
Definition retrieveInt16 b : outcome Buffer := retrieve b 2.
Definition retrieveInt32 b : outcome Buffer := retrieve b 4.
Definition retrieveInt64 b : outcome Buffer := retrieve b 8.

Definition retrieveAsString b (len : Z) : outcome (bytes * Buffer) :=
  assert_ (len <=? readableBytes b) ;;
  result ← mem_read (buffer_ b) (peek b) len ;
  b' ← retrieve b len ;
  mret (result, b').

Definition retrieveAllAsString b : outcome (bytes * Buffer) :=
  retrieveAsString b (readableBytes b).

(** A StringPiece: start and (int) length. *)
Definition toStringPiece b : Z * Z := (peek b, i32 (readableBytes b)).

Definition peekInt8 b : outcome Z :=
  assert_ (1 <=? readableBytes b) ;;
  x ← mem_read (buffer_ b) (peek b) 1 ;
  mret (i8 (host_val x)).

Definition peekInt16 b : outcome Z :=
  assert_ (2 <=? readableBytes b) ;;
  x ← mem_read (buffer_ b) (peek b) 2 ;
  mret (i16 (networkToHost16 (u16 (i16 (host_val x))))).

Definition peekInt32 b : outcome Z :=
  assert_ (4 <=? readableBytes b) ;;
  x ← mem_read (buffer_ b) (peek b) 4 ;
  mret (i32 (networkToHost32 (u32 (i32 (host_val x))))).

Definition peekInt64 b : outcome Z :=
  assert_ (8 <=? readableBytes b) ;;
  x ← mem_read (buffer_ b) (peek b) 8 ;
  mret (i64 (networkToHost64 (u64 (i64 (host_val x))))).

Definition readInt8 b : outcome (Z * Buffer) :=
  res ← peekInt8 b ; b' ← retrieveInt8 b ; mret (res, b').
Definition readInt16 b : outcome (Z * Buffer) :=
  res ← peekInt16 b ; b' ← retrieveInt16 b ; mret (res, b').
Definition readInt32 b : outcome (Z * Buffer) :=
  res ← peekInt32 b ; b' ← retrieveInt32 b ; mret (res, b').
Definition readInt64 b : outcome (Z * Buffer) :=
  res ← peekInt64 b ; b' ← retrieveInt64 b ; mret (res, b').

(** ** Write interface *)

Definition hasWritten b (len : Z) : outcome Buffer :=
  assert_ (len <=? writableBytes b) ;;
  mret (mkBuffer (buffer_ b) (readIndex_ b) (u64 (writeIndex_ b + len))).

Definition unwrite b (len : Z) : outcome Buffer :=
  assert_ (len <? readableBytes b) ;;
  mret (mkBuffer (buffer_ b) (readIndex_ b) (u64 (writeIndex_ b + len))).

(** buffer_.resize(n): std::length_error past max_size(). *)
Definition resize b (n : Z) : outcome Buffer :=
  if max_size <? n then Err LogicError
  else mret (mkBuffer (take (Z.to_nat n) (buffer_ b)
                       ++ replicate (Z.to_nat (n - size b)) NUL)
               (readIndex_ b) (writeIndex_ b)).

Definition makeSpace b (len : Z) : outcome Buffer :=
  if len <=? u64 (writableBytes b + kCheapPrependSize) then
    let copylen := readableBytes b in
    moved ← mem_read (buffer_ b) (readIndex_ b) (writeIndex_ b - readIndex_ b) ;
    mem ← mem_write (buffer_ b) kCheapPrependSize moved ;
    mret (mkBuffer mem kCheapPrependSize (u64 (kCheapPrependSize + copylen)))
  else resize b (u64 (writeIndex_ b + len)).

Definition ensureWritableBytes b (len : Z) : outcome Buffer :=
  b' ← (if writableBytes b <? len then makeSpace b len else mret b) ;
  assert_ (len <=? writableBytes b') ;;
  mret b'.

Definition append b (data : bytes) : outcome Buffer :=
  b1 ← ensureWritableBytes b (zlen data) ;
  mem ← mem_write (buffer_ b1) (beginWrite b1) data ;
  hasWritten (mkBuffer mem (readIndex_ b1) (writeIndex_ b1)) (zlen data).

Definition appendInt8 b (x : Z) : outcome Buffer := append b (host_bytes 1 x).
Definition appendInt16 b (x : Z) : outcome Buffer :=
  let be16 := i16 (hostToNetwork16 (u16 x)) in append b (host_bytes 2 be16).
Definition appendInt32 b (x : Z) : outcome Buffer :=
  let be32 := i32 (hostToNetwork32 (u32 x)) in append b (host_bytes 4 be32).
Definition appendInt64 b (x : Z) : outcome Buffer :=
  let be64 := i64 (hostToNetwork64 (u64 x)) in append b (host_bytes 8 be64).

Definition prepend b (data : bytes) : outcome Buffer :=
  assert_ (zlen data <=? prependableSize b) ;;
  let r := u64 (readIndex_ b - zlen data) in
  mem ← mem_write (buffer_ b) r data ;
  mret (mkBuffer mem r (writeIndex_ b)).

Definition prependInt8 b (x : Z) : outcome Buffer := prepend b (host_bytes 1 x).
Definition prependInt16 b (x : Z) : outcome Buffer :=
  let be16 := i16 (hostToNetwork16 (u16 x)) in prepend b (host_bytes 2 be16).
Definition prependInt32 b (x : Z) : outcome Buffer :=
  let be32 := i32 (hostToNetwork32 (u32 x)) in prepend b (host_bytes 4 be32).
Definition prependInt64 b (x : Z) : outcome Buffer :=
  let be64 := i64 (hostToNetwork64 (u64 x)) in prepend b (host_bytes 8 be64).

(** The bytes of [peek(), beginWrite()). *)
Definition contents b : bytes :=
  take (Z.to_nat (writeIndex_ b - readIndex_ b))
    (drop (Z.to_nat (readIndex_ b)) (buffer_ b)).

Definition findCRLF b : option Z :=
  i ← search kCRLF (contents b) ; mret (peek b + Z.of_nat i).

(** The result of readv, the saved errno (0 if untouched), the new buffer. *)
Definition readFd b (r : read_result) : outcome (Z * Z * Buffer) :=
  let writable := writableBytes b in
  match r with
  | ReadErr err => mret (-1, err, b)
  | ReadOk data =>
      let n := zlen data in
      mem ← mem_write (buffer_ b) (beginWrite b) (take (Z.to_nat writable) data) ;
      let b1 := mkBuffer mem (readIndex_ b) (writeIndex_ b) in
      b' ← (if n <=? writable then hasWritten b1 n
            else append (mkBuffer mem (readIndex_ b) (size b1))
                   (drop (Z.to_nat writable) data)) ;
      mret (n, 0, b')
  end.

(** ** Specification *)

(** The representation invariant. *)
Definition wf b : Prop :=
  0 <= readIndex_ b <= writeIndex_ b /\ writeIndex_ b <= size b /\
  kCheapPrependSize <= size b <= max_size.

(** The append of [n] more bytes stays within what makeSpace provides. *)
Definition fits b (n : Z) : Prop :=
  let w := size b - writeIndex_ b in
  n <= w \/
  (n <= w + kCheapPrependSize /\ n <= w + (readIndex_ b - kCheapPrependSize)) \/
  (w + kCheapPrependSize < n /\ writeIndex_ b + n <= max_size).

(** An append of [n] more bytes runs into the window the guard of makeSpace gets
    wrong: it moves the data although moving it does not make enough room. *)
Definition overflows b (n : Z) : Prop :=
  size b - writeIndex_ b < n <= size b - writeIndex_ b + kCheapPrependSize /\
  size b - writeIndex_ b + (readIndex_ b - kCheapPrependSize) < n.
(** ** The abstract byte queue

    What the buffer promises its clients: a sequence of bytes that grows at the
    end (append) or at the front (prepend) and shrinks at the front. *)

Inductive bop :=
  | BAppend (data : bytes)
  | BPrepend (data : bytes)
  | BRetrieve (len : Z)
  | BRetrieveAll.

Definition bstep b (op : bop) : outcome Buffer :=
  match op with
  | BAppend data => append b data
  | BPrepend data => prepend b data
  | BRetrieve len => retrieve b len
  | BRetrieveAll => mret (retrieveAll b)
  end.

Definition qstep (q : bytes) (op : bop) : bytes :=
  match op with
  | BAppend data => q ++ data
  | BPrepend data => data ++ q
  | BRetrieve len => drop (Z.to_nat len) q
  | BRetrieveAll => []
  end.

Fixpoint brun b (ops : list bop) : outcome Buffer :=
  match ops with
  | [] => mret b
  | op :: ops' => b' ← bstep b op ; brun b' ops'
  end.

(** The caller's side of the contract. *)
Definition bop_ok b (op : bop) : Prop :=
  match op with
  | BAppend data =>
      (kCheapPrependSize <= readIndex_ b \/ zlen data <= size b - writeIndex_ b)
      /\ fits b (zlen data)
  | BPrepend data => zlen data <= readIndex_ b
  | BRetrieve len => 0 <= len <= zlen (contents b)
  | BRetrieveAll => True
  end.

Fixpoint run_ok b (ops : list bop) : Prop :=
  match ops with
  | [] => True
  | op :: ops' =>
      bop_ok b op /\ match bstep b op with Ok b' => run_ok b' ops' | Err _ => True end
  end.
End ops.

(** ** Lemmas on the representation *)

Section lemmas.
Context `{Build}.
Implicit Types (b : Buffer).

Lemma contents_layout b pre c post :
  buffer_ b = pre ++ c ++ post ->
  readIndex_ b = zlen pre -> writeIndex_ b = zlen pre + zlen c ->
  contents b = c.
Proof.
  intros E Hr Hw. unfold contents. rewrite E, Hr, Hw.
  replace (zlen pre + zlen c - zlen pre) with (zlen c) by lia.
  unfold zlen. by rewrite !Nat2Z.id, drop_app_length, take_app_length.
Qed.

(** The layout of a well-formed buffer: consumed, readable, writable. *)
Lemma wf_layout b :
  wf b ->
  exists pre post, buffer_ b = pre ++ contents b ++ post
    /\ zlen pre = readIndex_ b /\ zlen post = size b - writeIndex_ b
    /\ zlen (contents b) = writeIndex_ b - readIndex_ b.
Proof.
  intros (Hr & Hw & _). unfold size in *.
  destruct (split_at2 (buffer_ b) (readIndex_ b) (writeIndex_ b))
    as (pre & c & post & E & Hpre & Hc & Hpost); [lia..|].
  assert (contents b = c) as -> by (eapply contents_layout; [done|lia..]).
  exists pre, post. split_and!; done.
Qed.

Lemma layout_wf (buf pre c post : bytes) r w :
  buf = pre ++ c ++ post -> r = zlen pre -> w = zlen pre + zlen c ->
  kCheapPrependSize <= zlen buf <= max_size ->
  wf (mkBuffer buf r w) /\ contents (mkBuffer buf r w) = c.
Proof.
  intros -> -> -> Hsz. split.
  - unfold wf, size. cbn [buffer_ readIndex_ writeIndex_].
    pose proof (zlen_nonneg pre). pose proof (zlen_nonneg c).
    pose proof (zlen_nonneg post). rewrite !zlen_app in *. lia.
  - eapply contents_layout; done.
Qed.

Lemma zlen_contents b : wf b -> zlen (contents b) = writeIndex_ b - readIndex_ b.
Proof. intros (pre & post & ? & ? & ? & ?)%wf_layout. done. Qed.

Lemma readableBytes_wf b : wf b -> readableBytes b = zlen (contents b).
Proof.
  intros Hb. rewrite zlen_contents by done. destruct Hb as (?&?&?).
  unfold readableBytes, max_size in *. apply u64_small. lia.
Qed.

Lemma writableBytes_wf b : wf b -> writableBytes b = size b - writeIndex_ b.
Proof.
  intros (?&?&?). unfold writableBytes, max_size in *. apply u64_small. lia.
Qed.

Lemma Buffer_ctor_default : Buffer_ctor kDefaultInitialSize = Ok Buffer_empty.
Proof. unfold Buffer_ctor. by rewrite !assert_true. Qed.

Lemma Buffer_empty_wf : wf Buffer_empty /\ contents Buffer_empty = [].
Proof. split; [|done]. repeat split; vm_compute; discriminate. Qed.

(** ** Reading *)

Lemma retrieveAll_wf b : wf b -> wf (retrieveAll b) /\ contents (retrieveAll b) = [].
Proof.
  intros (?&?&?). unfold retrieveAll, wf, size, contents, kCheapPrependSize in *.
  cbn [buffer_ readIndex_ writeIndex_]. split; [lia|done].
Qed.

Lemma retrieve_wf b len :
  wf b -> 0 <= len <= zlen (contents b) ->
  exists b', retrieve b len = Ok b' /\ wf b'
    /\ contents b' = drop (Z.to_nat len) (contents b) /\ size b' = size b.
Proof.
  intros Hb Hlen. unfold retrieve. rewrite readableBytes_wf by done.
  rewrite assert_true by (apply Z.leb_le; lia). simp_out.
  destruct (len <? zlen (contents b)) eqn:E; zify_bool.
  - eexists. split; [done|].
    destruct (wf_layout b Hb) as (pre & post & El & Hpre & Hpost & Hc).
    destruct Hb as (? & ? & ?). unfold max_size in *.
    rewrite u64_small by (unfold size in *; lia).
    assert (buffer_ b = (pre ++ take (Z.to_nat len) (contents b))
              ++ drop (Z.to_nat len) (contents b) ++ post) as El'.
    { rewrite <- (assoc_L (++)), (assoc_L (++) (take _ _)), take_drop. done. }
    edestruct layout_wf as [Hwf' Hc']; [exact El'|..].
    + rewrite zlen_app, zlen_take by lia. instantiate (1 := readIndex_ b + len). lia.
    + rewrite zlen_app, zlen_take, zlen_drop by lia.
      instantiate (1 := writeIndex_ b). lia.
    + unfold size, max_size in *. lia.
    + split_and!; done.
  - assert (len = zlen (contents b)) as -> by lia.
    exists (retrieveAll b). destruct (retrieveAll_wf b Hb) as [? ->].
    split_and!; [done..| |done].
    unfold zlen. rewrite Nat2Z.id, drop_ge; done.
Qed.

Lemma mem_read_contents b len :
  wf b -> 0 <= len <= zlen (contents b) ->
  mem_read (buffer_ b) (peek b) len = Ok (take (Z.to_nat len) (contents b)).
Proof.
  intros Hb Hlen. destruct (wf_layout b Hb) as (pre & post & El & Hpre & Hpost & Hc).
  assert (buffer_ b = pre ++ take (Z.to_nat len) (contents b)
            ++ (drop (Z.to_nat len) (contents b) ++ post)) as ->.
  { rewrite (assoc_L (++) (take _ _)), take_drop. done. }
  apply mem_read_app; [done|]. by rewrite zlen_take.
Qed.

Lemma retrieveUntil_wf b end_ :
  wf b -> readIndex_ b <= end_ <= writeIndex_ b ->
  exists b', retrieveUntil b end_ = Ok b' /\ wf b'
    /\ contents b' = drop (Z.to_nat (end_ - readIndex_ b)) (contents b)
    /\ size b' = size b.
Proof.
  intros Hb He. unfold retrieveUntil, peek.
  rewrite !assert_true by (apply Z.leb_le; lia). simp_out.
  rewrite u64_small by (destruct Hb as (?&?&?); unfold max_size in *; lia).
  apply retrieve_wf; [done|]. rewrite zlen_contents by done. lia.
Qed.

Lemma retrieveAsString_wf b len :
  wf b -> 0 <= len <= zlen (contents b) ->
  exists b', retrieveAsString b len = Ok (take (Z.to_nat len) (contents b), b')
    /\ wf b' /\ contents b' = drop (Z.to_nat len) (contents b) /\ size b' = size b.
Proof.
  intros Hb Hlen. unfold retrieveAsString.
  rewrite readableBytes_wf, assert_true by (done || apply Z.leb_le; lia).
  simp_out. rewrite mem_read_contents by done.
  destruct (retrieve_wf b len) as (b' & E & Hb' & Hc & Hs); [done..|].
  simp_out. rewrite E. eauto.
Qed.

(** ** Writing *)

(** Writing in the room after [writeIndex_]. *)
Lemma write_room b data :
  wf b -> zlen data <= size b - writeIndex_ b ->
  exists mem b', mem_write (buffer_ b) (beginWrite b) data = Ok mem
    /\ hasWritten (mkBuffer mem (readIndex_ b) (writeIndex_ b)) (zlen data) = Ok b'
    /\ wf b' /\ contents b' = contents b ++ data /\ size b' = size b
    /\ readIndex_ b' = readIndex_ b.
Proof.
  intros Hb Hroom. pose proof (zlen_nonneg data).
  destruct (wf_layout b Hb) as (pre & post & El & Hpre & Hpost & Hc).
  destruct Hb as (? & ? & ?). unfold max_size in *.
  set (n := length data).
  assert (buffer_ b = (pre ++ contents b) ++ take n post ++ drop n post) as El'.
  { by rewrite take_drop, <- (assoc_L (++)). }
  assert (zlen (take n post) = zlen data) as Hn.
  { subst n. unfold zlen in *. rewrite length_take. lia. }
  set (mem := pre ++ (contents b ++ data) ++ drop n post).
  assert ((pre ++ contents b) ++ data ++ drop n post = mem) as Emem
    by (subst mem; by rewrite <- !(assoc_L (++))).
  assert (zlen mem = size b) as Hsz.
  { rewrite <- Emem. unfold size. rewrite El', !zlen_app. lia. }
  exists mem. eexists. split.
  { rewrite El', <- Emem. apply mem_write_app; [|done].
    rewrite zlen_app. unfold beginWrite. lia. }
  split.
  { unfold hasWritten, writableBytes, size in *. cbn [buffer_ writeIndex_ readIndex_].
    rewrite Hsz, !u64_small by lia. rewrite assert_true by (apply Z.leb_le; lia). done. }
  destruct (layout_wf mem pre (contents b ++ data) (drop n post) (readIndex_ b)
              (writeIndex_ b + zlen data)) as [Hwf Hcont].
  - done.
  - lia.
  - rewrite zlen_app. lia.
  - unfold max_size. lia.
  - split_and!; done.
Qed.

Lemma append_room b data :
  wf b -> zlen data <= size b - writeIndex_ b ->
  exists b', append b data = Ok b' /\ wf b' /\ contents b' = contents b ++ data
    /\ size b' = size b /\ readIndex_ b' = readIndex_ b.
Proof.
  intros Hb Hroom. destruct (write_room b data) as (mem & b' & E1 & E2 & ?); [done..|].
  exists b'. unfold append, ensureWritableBytes. rewrite writableBytes_wf by done.
  rewrite (proj2 (Z.ltb_ge _ _)) by lia. simp_out.
  rewrite writableBytes_wf, assert_true by (done || apply Z.leb_le; lia).
  simp_out. rewrite E1. simp_out. by rewrite E2.
Qed.

(** makeSpace moves the readable bytes to the front ... *)
Lemma makeSpace_move b len :
  wf b -> kCheapPrependSize <= readIndex_ b ->
  len <= size b - writeIndex_ b + kCheapPrependSize ->
  exists b', makeSpace b len = Ok b' /\ wf b' /\ contents b' = contents b
    /\ size b' = size b /\ readIndex_ b' = kCheapPrependSize.
Proof.
  intros Hb Hr Hlen. unfold makeSpace. rewrite writableBytes_wf by done.
  destruct (wf_layout b Hb) as (pre & post & El & Hpre & Hpost & Hc).
  pose proof Hb as (? & ? & ?). unfold max_size, kCheapPrependSize in *.
  rewrite u64_small, (proj2 (Z.leb_le _ _)) by lia.
  assert (mem_read (buffer_ b) (readIndex_ b) (writeIndex_ b - readIndex_ b)
          = Ok (contents b)) as -> by (rewrite El at 1; apply mem_read_app; lia).
  simp_out.
  destruct (split_at2 (buffer_ b) 8 (8 + zlen (contents b)))
    as (pre' & mid & post' & El' & Hpre' & Hmid & Hpost'); [lia|unfold size in *; lia|].
  rewrite El', mem_write_app by lia. simp_out.
  rewrite readableBytes_wf, u64_small by (done || lia).
  eexists. split; [done|].
  destruct (layout_wf (pre' ++ contents b ++ post') pre' (contents b) post' 8
              (8 + zlen (contents b))) as [Hwf Hcont].
  - done.
  - lia.
  - lia.
  - rewrite !zlen_app. unfold size, kCheapPrependSize, max_size in *. lia.
  - split_and!; [done..| |done]. unfold size in *. cbn [buffer_].
    rewrite !zlen_app. lia.
Qed.

(** ... or grows the vector. *)
Lemma makeSpace_grow b len :
  wf b -> size b - writeIndex_ b + kCheapPrependSize < len ->
  writeIndex_ b + len <= max_size ->
  exists b', makeSpace b len = Ok b' /\ wf b' /\ contents b' = contents b
    /\ size b' = writeIndex_ b + len /\ writeIndex_ b' = writeIndex_ b
    /\ readIndex_ b' = readIndex_ b.
Proof.
  intros Hb Hlt Hmax. unfold makeSpace. rewrite writableBytes_wf by done.
  destruct (wf_layout b Hb) as (pre & post & El & Hpre & Hpost & Hc).
  pose proof Hb as (? & ? & ?). unfold max_size, kCheapPrependSize in *.
  rewrite u64_small, (proj2 (Z.leb_gt _ _)) by lia.
  rewrite u64_small by lia. unfold resize, max_size.
  rewrite (proj2 (Z.ltb_ge _ _)) by lia. eexists. split; [done|].
  rewrite take_ge by (unfold size, zlen in *; lia).
  set (pad := replicate _ NUL). assert (zlen pad = writeIndex_ b + len - size b) as Hpad.
  { unfold pad. rewrite zlen_replicate. lia. }
  destruct (layout_wf (buffer_ b ++ pad) pre (contents b) (post ++ pad) (readIndex_ b)
              (writeIndex_ b)) as [Hwf Hcont].
  - rewrite El at 1. by rewrite <- !(assoc_L (++)).
  - lia.
  - lia.
  - rewrite zlen_app. unfold size, kCheapPrependSize, max_size in *. lia.
  - split_and!; [done..| |done|done]. unfold size in *. cbn [buffer_].
    rewrite zlen_app. lia.
Qed.

Lemma append_fits b data :
  wf b -> kCheapPrependSize <= readIndex_ b \/ zlen data <= size b - writeIndex_ b ->
  fits b (zlen data) ->
  exists b', append b data = Ok b' /\ wf b' /\ contents b' = contents b ++ data
    /\ size b <= size b'.
Proof.
  intros Hb Hr Hf. unfold append, ensureWritableBytes.
  rewrite writableBytes_wf by done.
  assert (exists b1, (if size b - writeIndex_ b <? zlen data
                      then makeSpace b (zlen data) else mret b) = Ok b1
            /\ wf b1 /\ contents b1 = contents b /\ size b <= size b1
            /\ zlen data <= size b1 - writeIndex_ b1)
    as (b1 & -> & Hb1 & Hc1 & Hs1 & Hroom).
  { pose proof (zlen_contents b Hb) as Hzc.
    destruct (_ <? _) eqn:E; zify_bool; [|exists b; split_and!; auto with lia].
    unfold fits in Hf. cbv zeta in Hf. destruct Hf as [?|[[Hle Hm]|[Hlt Hmax]]]; [lia| |].
    - destruct (makeSpace_move b (zlen data)) as (b1 & ? & Hb1 & Hc1 & ? & ?); [done|lia|lia|].
      exists b1. split_and!; [done..|lia|].
      pose proof (zlen_contents b1 Hb1) as Hz1. rewrite Hc1 in Hz1. lia.
    - destruct (makeSpace_grow b (zlen data)) as (b1 & ? & Hb1 & Hc1 & ? & ? & ?); [done..|].
      exists b1. split_and!; [done..|lia|lia]. }
  simp_out. rewrite writableBytes_wf by done.
  rewrite assert_true by (apply Z.leb_le; lia). simp_out.
  destruct (write_room b1 data) as (mem & b2 & -> & E2 & ? & Hc2 & ? & ?); [done..|].
  simp_out. rewrite E2. exists b2. rewrite Hc2, Hc1. auto with lia.
Qed.

(** The room kept in front of the data is never given up by the clients of the queue. *)
Lemma append_readIndex b data b' :
  append b data = Ok b' -> kCheapPrependSize <= readIndex_ b -> kCheapPrependSize <= readIndex_ b'.
Proof.
  unfold append, ensureWritableBytes, makeSpace, resize, hasWritten.
  intros E Hr. apply bind_Ok_inv in E as (b1 & E1 & E).
  apply bind_Ok_inv in E as (mem & _ & E). apply bind_Ok_inv in E as (u & _ & [= <-]).
  cbn [readIndex_]. apply bind_Ok_inv in E1 as (b2 & E2 & E1).
  apply bind_Ok_inv in E1 as (u' & _ & [= <-]).
  repeat match type of E2 with context [if ?b then _ else _] => destruct b end; inv_ok;
    try done; injection E2 as <-; done.
Qed.

Lemma retrieve_readIndex b len b' :
  wf b -> 0 <= len -> retrieve b len = Ok b' ->
  kCheapPrependSize <= readIndex_ b -> kCheapPrependSize <= readIndex_ b'.
Proof.
  unfold retrieve. intros Hb Hl E Hr. apply bind_Ok_inv in E as (u & _ & E).
  rewrite readableBytes_wf, zlen_contents in E by done.
  destruct Hb as (? & ? & ?). unfold max_size in *.
  destruct (_ <? _) eqn:El; injection E as <-; [|done]. cbn [readIndex_].
  zify_bool. rewrite u64_small; lia.
Qed.

Lemma append_overflows b data :
  wf b -> kCheapPrependSize <= readIndex_ b -> overflows b (zlen data) ->
  append b data = Err (if NDEBUG then OutOfBounds else AssertFailed).
Proof.
  intros Hb Hr [Hw Hm]. unfold append, ensureWritableBytes.
  rewrite writableBytes_wf, (proj2 (Z.ltb_lt _ _)) by (done || lia).
  destruct (makeSpace_move b (zlen data)) as (b1 & -> & Hb1 & Hc1 & Hs1 & Hr1); [done|lia|lia|].
  simp_out. rewrite writableBytes_wf by done.
  pose proof (zlen_contents b1 Hb1) as Hz1. rewrite Hc1, zlen_contents in Hz1 by done.
  rewrite assert_false by (apply Z.leb_gt; lia).
  destruct NDEBUG; [|done]. simp_out.
  rewrite mem_write_oob by (unfold beginWrite, size in *; lia). done.
Qed.

Lemma prepend_wf b data :
  wf b -> zlen data <= readIndex_ b ->
  exists b', prepend b data = Ok b' /\ wf b' /\ contents b' = data ++ contents b
    /\ size b' = size b.
Proof.
  intros Hb Hle. pose proof (zlen_nonneg data). unfold prepend, prependableSize.
  rewrite assert_true by (apply Z.leb_le; lia). simp_out.
  destruct (wf_layout b Hb) as (pre & post & El & Hpre & Hpost & Hc).
  pose proof Hb as (? & ? & ?). unfold max_size in *.
  rewrite u64_small by lia.
  destruct (split_at2 pre (readIndex_ b - zlen data) (readIndex_ b))
    as (p1 & mid & p2 & Ep & Hp1 & Hmid & Hp2); [lia..|].
  assert (p2 = []) as -> by (unfold zlen in *; destruct p2; cbn in *; [done|lia]).
  rewrite app_nil_r in Ep.
  rewrite El, Ep, <- (assoc_L (++)), mem_write_app by lia.
  simp_out. eexists. split; [done|].
  destruct (layout_wf (p1 ++ data ++ contents b ++ post) p1 (data ++ contents b) post
              (readIndex_ b - zlen data) (writeIndex_ b)) as [Hwf Hcont].
  - by rewrite <- !(assoc_L (++)).
  - lia.
  - rewrite zlen_app. lia.
  - unfold size, max_size in *. rewrite El, Ep in *. rewrite !zlen_app in *. lia.
  - split_and!; [done..|]. unfold size in *. rewrite El, Ep. cbn [buffer_].
    rewrite !zlen_app. lia.
Qed.

(** readv(2) fills the writable room first, then the stack buffer. *)
Lemma readFd_ok b data :
  wf b -> kCheapPrependSize <= readIndex_ b ->
  (zlen data <= size b - writeIndex_ b \/
   fits (mkBuffer (buffer_ b) (readIndex_ b) (size b))
     (zlen data - (size b - writeIndex_ b))) ->
  exists b', readFd b (ReadOk data) = Ok (zlen data, 0, b') /\ wf b'
    /\ contents b' = contents b ++ data.
Proof.
  intros Hb Hr Hf. unfold readFd. rewrite writableBytes_wf by done.
  destruct (zlen data <=? size b - writeIndex_ b) eqn:E; zify_bool.
  - rewrite take_ge by (unfold zlen in *; lia).
    destruct (write_room b data) as (mem & b' & -> & E2 & ? & ? & ? & ?); [done..|].
    simp_out. rewrite E2. cbn. eauto.
  - assert (fits (mkBuffer (buffer_ b) (readIndex_ b) (size b))
              (zlen data - (size b - writeIndex_ b))) as Hf' by (destruct Hf; [lia|done]).
    clear Hf. pose proof Hb as (? & ? & ?).
    set (room := size b - writeIndex_ b) in *.
    assert (zlen (take (Z.to_nat room) data) = room) as Hzt
      by (apply zlen_take; lia).
    destruct (write_room b (take (Z.to_nat room) data))
      as (mem & b1 & -> & E1 & Hb1 & Hc1 & Hs1 & Hr1); [done|lia|].
    simp_out.
    assert (b1 = mkBuffer mem (readIndex_ b) (size b)) as ->.
    { unfold hasWritten in E1. destruct (assert_ _); [|done].
      injection E1 as <-. f_equal. rewrite Hzt. cbn [writeIndex_].
      unfold max_size in *. rewrite u64_small; lia. }
    assert (zlen (drop (Z.to_nat room) data) = zlen data - room) as Hzd
      by (apply zlen_drop; lia).
    unfold size in Hs1 at 1. cbn [buffer_] in Hs1.
    unfold size at 1. cbn [buffer_]. rewrite Hs1.
    destruct (append_fits (mkBuffer mem (readIndex_ b) (size b))
                (drop (Z.to_nat room) data)) as (b' & -> & Hb' & Hc' & _).
    + done.
    + left. done.
    + rewrite Hzd. unfold fits, size in *. cbn [buffer_ readIndex_ writeIndex_] in *.
      by rewrite Hs1.
    + simp_out. eexists. split; [done|]. split; [done|].
      rewrite Hc', Hc1, <- (assoc_L (++)). by rewrite take_drop.
Qed.

(** ** Integers in network order *)

Lemma host_bytes_be n x :
  (0 < n)%nat ->
  host_bytes n (wraps (8 * Z.of_nat n) (htobe n (wrapu (8 * Z.of_nat n) x)))
  = be_bytes n x.
Proof.
  intros Hn. rewrite <- host_bytes_wrap, wrapu_wraps, host_bytes_wrap by lia.
  rewrite htobe_wrap. apply host_bytes_htobe.
Qed.

Lemma host_val_be n (l : bytes) :
  (0 < n)%nat -> length l = n ->
  htobe n (wrapu (8 * Z.of_nat n) (wraps (8 * Z.of_nat n) (host_val l))) = be_val l.
Proof.
  intros Hn <-. rewrite wrapu_wraps, htobe_wrap by lia. apply htobe_host_val.
Qed.

Lemma wraps_be_val n x :
  (0 < n)%nat -> wraps (8 * Z.of_nat n) (be_val (be_bytes n x)) = wraps (8 * Z.of_nat n) x.
Proof. intros. rewrite be_val_bytes. apply wraps_wrapu. lia. Qed.

Lemma appendInt16_be b x : appendInt16 b x = append b (be_bytes 2 x).
Proof. unfold appendInt16. f_equal. apply (host_bytes_be 2). lia. Qed.
Lemma appendInt32_be b x : appendInt32 b x = append b (be_bytes 4 x).
Proof. unfold appendInt32. f_equal. apply (host_bytes_be 4). lia. Qed.
Lemma appendInt64_be b x : appendInt64 b x = append b (be_bytes 8 x).
Proof. unfold appendInt64. f_equal. apply (host_bytes_be 8). lia. Qed.
Lemma prependInt32_be b x : prependInt32 b x = prepend b (be_bytes 4 x).
Proof. unfold prependInt32. f_equal. apply (host_bytes_be 4). lia. Qed.

Lemma append_be_room b n x :
  wf b -> Z.of_nat n <= size b - writeIndex_ b ->
  exists b', append b (be_bytes n x) = Ok b' /\ wf b'
    /\ contents b' = contents b ++ be_bytes n x
    /\ size b - writeIndex_ b - Z.of_nat n <= size b' - writeIndex_ b'.
Proof.
  intros Hb Hroom. destruct (append_room b (be_bytes n x)) as (b' & E & Hb' & Hc' & Hs & Hr);
    [done|by rewrite zlen_be_bytes|].
  exists b'. split_and!; [done..|].
  pose proof (zlen_contents b' Hb') as Hz. pose proof (zlen_contents b Hb) as Hz0.
  rewrite Hc', zlen_app, zlen_be_bytes in Hz. lia.
Qed.

(** Reading [n] bytes that are an integer in network order. *)
Lemma peek_be n b x rest :
  wf b -> contents b = be_bytes n x ++ rest ->
  Z.of_nat n <=? readableBytes b = true
  /\ mem_read (buffer_ b) (peek b) (Z.of_nat n) = Ok (be_bytes n x).
Proof.
  intros Hb Hc. rewrite readableBytes_wf by done.
  assert (zlen (contents b) = Z.of_nat n + zlen rest) as Hz
    by (rewrite Hc, zlen_app, zlen_be_bytes; done).
  pose proof (zlen_nonneg rest). split; [apply Z.leb_le; lia|].
  rewrite mem_read_contents by (done || lia). rewrite Nat2Z.id, Hc.
  by rewrite take_app_length' by (by rewrite length_be_bytes).
Qed.

Lemma peekInt16_be b x rest :
  wf b -> contents b = be_bytes 2 x ++ rest -> peekInt16 b = Ok (i16 x).
Proof.
  intros Hb Hc. destruct (peek_be 2 b x rest) as [E1 E2]; [done..|].
  unfold peekInt16. rewrite assert_true by exact E1. simp_out.
  change 2 with (Z.of_nat 2) at 1. rewrite E2. simp_out. f_equal.
  unfold networkToHost16. rewrite (host_val_be 2) by (lia || apply length_be_bytes).
  apply (wraps_be_val 2). lia.
Qed.

Lemma peekInt32_be b x rest :
  wf b -> contents b = be_bytes 4 x ++ rest -> peekInt32 b = Ok (i32 x).
Proof.
  intros Hb Hc. destruct (peek_be 4 b x rest) as [E1 E2]; [done..|].
  unfold peekInt32. rewrite assert_true by exact E1. simp_out.
  change 4 with (Z.of_nat 4) at 1. rewrite E2. simp_out. f_equal.
  unfold networkToHost32. rewrite (host_val_be 4) by (lia || apply length_be_bytes).
  apply (wraps_be_val 4). lia.
Qed.

Lemma peekInt64_be b x rest :
  wf b -> contents b = be_bytes 8 x ++ rest -> peekInt64 b = Ok (i64 x).
Proof.
  intros Hb Hc. destruct (peek_be 8 b x rest) as [E1 E2]; [done..|].
  unfold peekInt64. rewrite assert_true by exact E1. simp_out.
  change 8 with (Z.of_nat 8) at 1. rewrite E2. simp_out. f_equal.
  unfold networkToHost64. rewrite (host_val_be 8) by (lia || apply length_be_bytes).
  apply (wraps_be_val 8). lia.
Qed.

(** ** findCRLF *)

Lemma findCRLF_split_Some l i :
  search kCRLF l = Some i ->
  exists l1 l2, l = l1 ++ kCRLF ++ l2 /\ length l1 = i /\
    (forall j, (j < i)%nat -> starts_with kCRLF (drop j l) = false).
Proof.
  intros Hs. destruct (search_Some _ _ _ Hs) as (k & Hd & Hle).
  exists (take i l), k. split_and!.
  - by rewrite <- Hd, take_drop.
  - rewrite length_take. lia.
  - intros j. by apply search_least.
Qed.

Lemma bstep_refines b op :
  wf b -> bop_ok b op ->
  exists b', bstep b op = Ok b' /\ wf b' /\ contents b' = qstep (contents b) op.
Proof.
  intros Hb Hop. destruct op as [data|data|len|]; cbn [bstep qstep bop_ok] in *.
  - destruct (append_fits b data) as (b' & ? & ? & ? & _); naive_solver.
  - destruct (prepend_wf b data) as (b' & ? & ? & ? & _); naive_solver.
  - destruct (retrieve_wf b len) as (b' & ? & ? & ? & _); naive_solver.
  - destruct (retrieveAll_wf b Hb). eauto.
Qed.
End lemmas.

(** ** Properties *)

Section properties.
Context `{Build}.
Implicit Types (b : Buffer).

(** C5: the buffer implements a byte queue.  Every sequence of appends, prepends
    and retrievals whose caller respects the contract [bop_ok] (room for a
    prepend, no more retrieved than is readable, no append into the window
    makeSpace miscalculates) succeeds, keeps the representation invariant, and
    leaves exactly the bytes the abstract queue has. *)
Theorem buffer_refines_queue b ops :
  wf b -> run_ok b ops ->
  exists b', brun b ops = Ok b' /\ wf b'
    /\ contents b' = foldl qstep (contents b) ops.
Proof.
  revert b. induction ops as [|op ops IH]; intros b Hb Hrun; cbn in *; [by eauto|].
  destruct Hrun as [Hop Hrun].
  destruct (bstep_refines b op) as (b1 & E & Hb1 & <-); [done..|].
  rewrite E in *. by apply IH.
Qed.

(** Appending [n] bytes when [n] exceeds the writable room by at most
    kCheapPrependSize and compaction cannot free enough is a failed assertion in
    a debug build and a write past the end of the vector in a release build: the
    guard of makeSpace counts the 8 reserved bytes as free. *)
Theorem append_window_overflow b data :
  wf b -> kCheapPrependSize <= readIndex_ b -> overflows b (zlen data) ->
  append b data = Err (if NDEBUG then OutOfBounds else AssertFailed).
Proof. apply append_overflows. Qed.

(** Integers written in network order are read back unchanged, at every
    width, and leave the bytes queued behind them. *)
Theorem append_read_int_roundtrip b x16 x32 x64 :
  wf b -> contents b = [] -> 14 <= size b - writeIndex_ b ->
  - 2 ^ 15 <= x16 < 2 ^ 15 -> - 2 ^ 31 <= x32 < 2 ^ 31 -> - 2 ^ 63 <= x64 < 2 ^ 63 ->
  exists b1 b2 b3 b4 b5 b6,
    appendInt16 b x16 = Ok b1 /\ appendInt32 b1 x32 = Ok b2 /\ appendInt64 b2 x64 = Ok b3
    /\ contents b3 = be_bytes 2 x16 ++ be_bytes 4 x32 ++ be_bytes 8 x64
    /\ readInt16 b3 = Ok (x16, b4) /\ readInt32 b4 = Ok (x32, b5)
    /\ readInt64 b5 = Ok (x64, b6) /\ contents b6 = [].
Proof.
  intros Hb Hc Hroom H16 H32 H64.
  destruct (append_be_room b 2 x16) as (b1 & E1 & Hb1 & Hc1 & Hr1); [done|lia|].
  destruct (append_be_room b1 4 x32) as (b2 & E2 & Hb2 & Hc2 & Hr2); [done|lia|].
  destruct (append_be_room b2 8 x64) as (b3 & E3 & Hb3 & Hc3 & Hr3); [done|lia|].
  rewrite Hc2, Hc1, Hc, app_nil_l, <- (assoc_L (++)) in Hc3.
  destruct (retrieve_wf b3 2) as (b4 & R4 & Hb4 & Hc4 & _); [done|rewrite Hc3, !zlen_app, !zlen_be_bytes; lia|].
  rewrite Hc3, drop_app_length' in Hc4 by (rewrite length_be_bytes; done).
  destruct (retrieve_wf b4 4) as (b5 & R5 & Hb5 & Hc5 & _); [done|rewrite Hc4, !zlen_app, !zlen_be_bytes; lia|].
  rewrite Hc4, drop_app_length' in Hc5 by (rewrite length_be_bytes; done).
  destruct (retrieve_wf b5 8) as (b6 & R6 & Hb6 & Hc6 & _); [done|rewrite Hc5, zlen_be_bytes; lia|].
  rewrite Hc5, drop_ge in Hc6 by (rewrite length_be_bytes; done).
  rewrite <- (app_nil_r (be_bytes 8 x64)) in Hc5.
  exists b1, b2, b3, b4, b5, b6.
  rewrite appendInt16_be, appendInt32_be, appendInt64_be.
  unfold readInt16, readInt32, readInt64.
  rewrite (peekInt16_be _ _ _ Hb3 Hc3), (peekInt32_be _ _ _ Hb4 Hc4), (peekInt64_be _ _ _ Hb5 Hc5).
  simp_out. unfold retrieveInt16, retrieveInt32, retrieveInt64.
  rewrite R4, R5, R6. rewrite !wraps_small by (cbn; lia).
  split_and!; done.
Qed.

(** Whatever readv(2) delivers is appended to the readable bytes, through the
    writable room and, past it, through the 64 KiB stack buffer. *)
Theorem readFd_appends b data :
  wf b -> kCheapPrependSize <= readIndex_ b ->
  (zlen data <= size b - writeIndex_ b \/
   fits (mkBuffer (buffer_ b) (readIndex_ b) (size b))
     (zlen data - (size b - writeIndex_ b))) ->
  exists b', readFd b (ReadOk data) = Ok (zlen data, 0, b') /\ wf b'
    /\ contents b' = contents b ++ data.
Proof. apply readFd_ok. Qed.

(** FindCRLF points at the first CRLF of the readable bytes, and is NULL
    exactly when there is none. *)
Theorem findCRLF_first b :
  wf b ->
  match findCRLF b with
  | Some p =>
      readIndex_ b <= p /\ p + 2 <= writeIndex_ b
      /\ let i := Z.to_nat (p - readIndex_ b) in
         take 2 (drop i (contents b)) = kCRLF
         /\ forall j, (j < i)%nat -> take 2 (drop j (contents b)) <> kCRLF
  | None => forall j, take 2 (drop j (contents b)) <> kCRLF
  end.
Proof.
  intros Hb. unfold findCRLF.
  assert (forall j, starts_with kCRLF (drop j (contents b)) = false ->
            take 2 (drop j (contents b)) <> kCRLF) as Hne.
  { intros j Hj E. apply not_true_iff_false in Hj. apply Hj, starts_with_spec.
    exists (drop 2 (drop j (contents b))). by rewrite <- E, take_drop. }
  destruct (search kCRLF (contents b)) as [i|] eqn:E; cbn [mbind option_bind mret option_ret].
  - destruct (search_Some _ _ _ E) as (k & Hd & Hle). unfold peek.
    pose proof (zlen_contents b Hb) as Hz.
    assert (length (drop i (contents b)) = 2 + length k)%nat as Hl by (by rewrite Hd).
    rewrite length_drop in Hl. split; [lia|]. split; [unfold zlen in *; lia|].
    cbv zeta. replace (Z.to_nat (readIndex_ b + Z.of_nat i - readIndex_ b)) with i by lia.
    split; [by rewrite Hd|]. intros j Hj. apply Hne. by eapply search_least.
  - intros j. apply Hne. by apply search_None.
Qed.

(** unwrite(len) is meant to take back [len] written bytes; it moves the
    write index the other way, so the readable bytes grow by [len] stale ones. *)
Lemma unwrite_grows b len :
  wf b -> 0 <= len < zlen (contents b) -> writeIndex_ b + len <= size b ->
  exists b', unwrite b len = Ok b' /\ wf b'
    /\ zlen (contents b') = zlen (contents b) + len.
Proof.
  intros Hb Hlen Hmax. pose proof (zlen_contents b Hb) as Hz.
  unfold unwrite. rewrite readableBytes_wf, assert_true by (done || apply Z.ltb_lt; lia).
  simp_out. eexists. split; [done|].
  destruct Hb as (? & ? & ?).
  rewrite u64_small by (unfold max_size, size in *; lia).
  assert (wf (mkBuffer (buffer_ b) (readIndex_ b) (writeIndex_ b + len))) as Hb'
    by (unfold wf, size in *; cbn [buffer_ readIndex_ writeIndex_]; lia).
  split; [done|]. rewrite zlen_contents by done. cbn [readIndex_ writeIndex_]. lia.
Qed.
End properties.

(** ** The properties at concrete buffers *)

Definition sample_bops : list bop :=
  [BAppend (cs "hello"); BRetrieve 2; BPrepend (cs "ab"); BAppend (cs " world"); BRetrieve 3].

Lemma buffer_refines_queue_witness :
  exists b', brun (H := Debug) Buffer_empty sample_bops = Ok b' /\ contents b' = cs "lo world".
Proof.
  destruct (buffer_refines_queue (H := Debug) Buffer_empty sample_bops) as (b' & E & _ & Hc).
  - apply Buffer_empty_wf.
  - unfold sample_bops.
    repeat match goal with
    | |- run_ok ?b (?op :: ?ops) =>
        let r := eval vm_compute in (bstep (H := Debug) b op) in
        lazymatch r with Ok ?b' =>
          cut (bop_ok b op /\ run_ok (H := Debug) b' ops);
          [let Hx := fresh in intros Hx; exact Hx|split]
        end
    | |- run_ok _ [] => exact I
    end.
    + split; left; by vm_compute.
    + by vm_compute.
    + by vm_compute.
    + split; left; by vm_compute.
    + by vm_compute.
  - exists b'. split; [done|]. rewrite Hc. by vm_compute.
Defined.

(** 1030 bytes into the 1024 writable bytes of a fresh buffer. *)
Lemma append_window_overflow_witness :
  append (H := Release) Buffer_empty (replicate 1030 NUL) = Err OutOfBounds
  /\ append (H := Debug) Buffer_empty (replicate 1030 NUL) = Err AssertFailed.
Proof.
  split.
  - apply (append_window_overflow (H := Release)); [apply Buffer_empty_wf|by vm_compute|].
    split; by vm_compute.
  - apply (append_window_overflow (H := Debug)); [apply Buffer_empty_wf|by vm_compute|].
    split; by vm_compute.
Defined.

Lemma append_read_int_roundtrip_witness :
  exists b1 b2 b3 b4 b5 b6,
    appendInt16 (H := Debug) Buffer_empty (-2) = Ok b1 /\ appendInt32 (H := Debug) b1 65536 = Ok b2
    /\ appendInt64 (H := Debug) b2 (-1) = Ok b3
    /\ contents b3 = be_bytes 2 (-2) ++ be_bytes 4 65536 ++ be_bytes 8 (-1)
    /\ readInt16 (H := Debug) b3 = Ok (-2, b4) /\ readInt32 (H := Debug) b4 = Ok (65536, b5)
    /\ readInt64 (H := Debug) b5 = Ok (-1, b6) /\ contents b6 = [].
Proof.
  apply (append_read_int_roundtrip (H := Debug) Buffer_empty (-2) 65536 (-1));
    [apply Buffer_empty_wf|by vm_compute|by vm_compute|lia..].
Defined.

Lemma readFd_appends_witness :
  exists b', readFd (H := Debug) Buffer_empty (ReadOk (cs "data")) = Ok (4, 0, b')
    /\ contents b' = cs "data".
Proof.
  destruct (readFd_appends (H := Debug) Buffer_empty (cs "data")) as (b' & E & _ & Hc);
    [apply Buffer_empty_wf|by vm_compute|left; by vm_compute|].
  exists b'. split; [exact E|]. rewrite Hc. by vm_compute.
Defined.

Definition crlf_buffer : Buffer := mkBuffer (replicate 8 NUL ++ cs "ab" ++ kCRLF ++ cs "c") 8 13.

Lemma findCRLF_first_witness :
  findCRLF crlf_buffer = Some 10 /\ 8 <= 10 /\ take 2 (drop 2 (contents crlf_buffer)) = kCRLF.
Proof.
  assert (wf crlf_buffer) as Hb by (repeat split; by vm_compute).
  pose proof (findCRLF_first crlf_buffer Hb) as Hf.
  assert (findCRLF crlf_buffer = Some 10) as E by (by vm_compute).
  rewrite E in Hf. destruct Hf as (H1 & _ & H2 & _). split_and!; [done|exact H1|exact H2].
Defined.
