(* ===== verification/Date.v ===== *)
(** * Dates and time stamps: src/arale/base/Date.{h,cc}, TimeStamp.{h,cc}

    A date is its Julian day number, converted from and to the Gregorian calendar
    by the integer arithmetic of Date.cc ([Z.quot] is C's [/], [Z.rem] its [%]).
    The theorems show that the two conversions are inverse to each other on every
    calendar date and that no intermediate value leaves the range of int. *)

From S2P Require Import Prelude Format.

(** ** Date *)

Record YearMonthDay := mkYMD { year : Z; month : Z; day : Z }.

Record Date := mkDate { julianDayNumber_ : Z }.

Definition kDaysPerWeek : Z := 7.

Definition getJulianDayNumber (year month day : Z) : Z :=
  let a := Z.quot (14 - month) 12 in
  let y := year + 4800 - a in
  let m := month + 12 * a - 3 in
  day + Z.quot (153 * m + 2) 5 + y * 365 + Z.quot y 4 - Z.quot y 100 + Z.quot y 400 - 32045.

Definition getYearMonthDay (julianDayNumber : Z) : YearMonthDay :=
  let a := julianDayNumber + 32044 in
  let b := Z.quot (4 * a + 3) 146097 in
  let c := a - Z.quot (b * 146097) 4 in
  let d := Z.quot (4 * c + 3) 1461 in
  let e := c - Z.quot (1461 * d) 4 in
  let m := Z.quot (5 * e + 2) 153 in
  mkYMD (b * 100 + d - 4800 + Z.quot m 10)
        (m + 3 - 12 * Z.quot m 10)
        (e - Z.quot (153 * m + 2) 5 + 1).

Definition kJulianDayOf1970_01_01 : Z := getJulianDayNumber 1970 1 1.

Definition Date_invalid : Date := mkDate 0.
Definition Date_ymd (y m d : Z) : Date := mkDate (getJulianDayNumber y m d).
Definition Date_jdn (julianDayNum : Z) : Date := mkDate julianDayNum.
Definition Date_swap (x that : Date) : Date * Date :=
  (mkDate (julianDayNumber_ that), mkDate (julianDayNumber_ x)).
Definition Date_valid (x : Date) : bool := 0 <? julianDayNumber_ x.
Definition yearMonthDay (x : Date) : YearMonthDay := getYearMonthDay (julianDayNumber_ x).
Definition weekDay (x : Date) : Z := Z.rem (julianDayNumber_ x + 1) kDaysPerWeek.
(** snprintf(buf, 32, "%4d-%02d-%02d"): at most 31 characters and the terminator are
    written. *)
Definition snprintf (size : nat) (s : bytes) : bytes := take (size - 1) s.
Definition toIsoString (x : Date) : bytes :=
  let ymd := yearMonthDay x in
  snprintf 32 (fmt_wd 4 (year ymd) ++ cs "-" ++ fmt_0d 2 (month ymd) ++ cs "-"
                 ++ fmt_0d 2 (day ymd)).
Definition Date_lt (x y : Date) : bool := julianDayNumber_ x <? julianDayNumber_ y.
Definition Date_eq (x y : Date) : bool := julianDayNumber_ x =? julianDayNumber_ y.

(** ** Timestamp: microseconds since the epoch, an int64_t *)

Record Timestamp := mkTimestamp { microSecondsSinceEpoch : Z }.

Definition kMicroSecondsPerSecond : Z := 1000 * 1000.

Definition Timestamp_invalid : Timestamp := mkTimestamp 0.
Definition Timestamp_valid (t : Timestamp) : bool := 0 <? microSecondsSinceEpoch t.
Definition secondsSinceEpoch (t : Timestamp) : Z :=
  Z.quot (microSecondsSinceEpoch t) kMicroSecondsPerSecond.
Definition fromUnixTime (t microseconds : Z) : Timestamp :=
  mkTimestamp (t * kMicroSecondsPerSecond + microseconds).
(** gettimeofday(2) gives the seconds and microseconds. *)
Definition Timestamp_now (tv_sec tv_usec : Z) : Timestamp :=
  mkTimestamp (tv_sec * kMicroSecondsPerSecond + tv_usec).
Definition Timestamp_lt (lhs rhs : Timestamp) : bool :=
  microSecondsSinceEpoch lhs <? microSecondsSinceEpoch rhs.
Definition Timestamp_eq (lhs rhs : Timestamp) : bool :=
  microSecondsSinceEpoch lhs =? microSecondsSinceEpoch rhs.

Definition Timestamp_toString (t : Timestamp) : bytes :=
  let seconds := Z.quot (microSecondsSinceEpoch t) kMicroSecondsPerSecond in
  let microseconds := Z.rem (microSecondsSinceEpoch t) kMicroSecondsPerSecond in
  snprintf 31 (fmt_d seconds ++ cs "." ++ fmt_0d 6 microseconds).

(** The [double] of seconds a delay is given in, as the int64_t of microseconds
    [static_cast<int64_t>(seconds * kMicroSecondsPerSecond)] that the code computes
    from it at once. *)
Definition addTime (t : Timestamp) (delta : Z) : Timestamp :=
  mkTimestamp (microSecondsSinceEpoch t + delta).

(** ** The calendar, as a specification *)

Definition leap_year (y : Z) : bool :=
  (y mod 4 =? 0) && (negb (y mod 100 =? 0) || (y mod 400 =? 0)).

Definition days_in_month (y m : Z) : Z :=
  if m =? 2 then (if leap_year y then 29 else 28)
  else if (m =? 4) || (m =? 6) || (m =? 9) || (m =? 11) then 30 else 31.

Definition calendar_date (d : YearMonthDay) : Prop :=
  1 <= month d <= 12 /\ 1 <= day d <= days_in_month (year d) (month d).

(** ** Lemmas

    The computations count years from March, so that the leap day is the last of
    the year: a date is a century [b], a year [d] in it and a day [e] in the year. *)

Definition march_days (b d e : Z) : Z := 36524 * b + b / 4 + 365 * d + d / 4 + e.

(** The leap day is there every fourth year, except at the end of a century that
    is not the fourth. *)
Definition march_year (b d e : Z) : Prop :=
  0 <= b /\ 0 <= d < 100 /\ 0 <= e <= 365 /\
  (e = 365 -> d mod 4 = 3 /\ (d = 99 -> b mod 4 = 3)).

Lemma quot_div a b : 0 <= a -> 0 < b -> Z.quot a b = a / b.
Proof. intros. by apply Z.quot_div_nonneg. Qed.

Lemma march_century b d e : march_year b d e -> (4 * march_days b d e + 3) / 146097 = b.
Proof.
  intros (Hb & Hd & He & Hleap). unfold march_days.
  symmetry. apply Z.div_unique with (r := 3 - b mod 4 + 4 * (365 * d + d / 4 + e)).
  - left. pose proof (Z.mod_pos_bound b 4). pose proof (Z.div_mod d 4).
    pose proof (Z.mod_pos_bound d 4). lia.
  - pose proof (Z.div_mod b 4). lia.
Qed.

Lemma march_century_rest b d e :
  march_year b d e -> march_days b d e - b * 146097 / 4 = 365 * d + d / 4 + e.
Proof.
  intros (Hb & _). unfold march_days.
  assert (b * 146097 / 4 = 36524 * b + b / 4) as ->; [|lia].
  replace (b * 146097) with (b + (36524 * b) * 4) by lia.
  rewrite Z.div_add by lia. lia.
Qed.

Lemma march_year_of b d e :
  march_year b d e -> (4 * (365 * d + d / 4 + e) + 3) / 1461 = d.
Proof.
  intros (Hb & Hd & He & Hleap). symmetry.
  apply Z.div_unique with (r := 3 - d mod 4 + 4 * e).
  - left. pose proof (Z.mod_pos_bound d 4).
    destruct (Z.eq_dec e 365) as [->|]; [|lia]. destruct Hleap as [-> _]; [done|]. lia.
  - pose proof (Z.div_mod d 4). lia.
Qed.

Lemma march_year_rest d e : 365 * d + d / 4 + e - 1461 * d / 4 = e.
Proof.
  assert (1461 * d / 4 = 365 * d + d / 4) as ->; [|lia].
  replace (1461 * d) with (d + (365 * d) * 4) by lia.
  rewrite Z.div_add by lia. lia.
Qed.

(** The month and day of a day of the year, months counted from March. *)
Lemma march_month m k :
  0 <= m <= 11 -> 0 <= k ->
  k < (153 * (m + 1) + 2) / 5 - (153 * m + 2) / 5 \/ m = 11 /\ k <= 28 ->
  (5 * ((153 * m + 2) / 5 + k) + 2) / 153 = m.
Proof.
  intros Hm Hk Hlt. pose proof (Z.div_mod (153 * m + 2) 5).
  pose proof (Z.mod_pos_bound (153 * m + 2) 5).
  pose proof (Z.div_mod (153 * (m + 1) + 2) 5).
  pose proof (Z.mod_pos_bound (153 * (m + 1) + 2) 5).
  symmetry. apply Z.div_unique with (r := 5 * ((153 * m + 2) / 5 + k) + 2 - 153 * m).
  - left. lia.
  - lia.
Qed.

(** The year counted from March of a calendar year and month. *)
Definition shift_year (y m : Z) : Z := y + 4800 - (if m <=? 2 then 1 else 0).
Definition shift_month (m : Z) : Z := if m <=? 2 then m + 9 else m - 3.

Lemma month_cases m (P : Z -> Prop) :
  P 1 -> P 2 -> P 3 -> P 4 -> P 5 -> P 6 -> P 7 -> P 8 -> P 9 -> P 10 -> P 11 -> P 12 ->
  1 <= m <= 12 -> P m.
Proof.
  intros. assert (m = 1 \/ m = 2 \/ m = 3 \/ m = 4 \/ m = 5 \/ m = 6 \/ m = 7 \/ m = 8
                  \/ m = 9 \/ m = 10 \/ m = 11 \/ m = 12) as Hm by lia.
  destruct_or! Hm; by subst.
Qed.

Lemma shift_month_range m : 1 <= m <= 12 -> 0 <= shift_month m <= 11.
Proof. unfold shift_month. intros. destruct (m <=? 2) eqn:?; zify_bool; lia. Qed.

Lemma days_in_month_shift y m :
  1 <= m <= 12 -> m <> 2 ->
  days_in_month y m
  = (153 * (shift_month m + 1) + 2) / 5 - (153 * shift_month m + 2) / 5.
Proof.
  intros Hm. revert m Hm. refine (fun m Hm => _).
  pattern m. revert Hm. apply month_cases; done.
Qed.

(** The Julian day number, in years counted from March. *)
Lemma getJulianDayNumber_march y m d :
  1 <= m <= 12 -> -4800 < y ->
  let b := shift_year y m / 100 in
  let c := shift_year y m mod 100 in
  getJulianDayNumber y m d + 32044
  = march_days b c ((153 * shift_month m + 2) / 5 + d - 1).
Proof.
  intros Hm Hy b c. unfold getJulianDayNumber.
  assert (y + 4800 - Z.quot (14 - m) 12 = shift_year y m
          /\ m + 12 * Z.quot (14 - m) 12 - 3 = shift_month m) as [-> ->].
  { unfold shift_year, shift_month. rewrite quot_div by lia.
    destruct (m <=? 2) eqn:?; zify_bool.
    - assert ((14 - m) / 12 = 1) as -> by (symmetry; apply Z.div_unique with (2 - m); lia). lia.
    - assert ((14 - m) / 12 = 0) as -> by (apply Z.div_small; lia). lia. }
  pose proof (shift_month_range m Hm) as Hsm.
  assert (0 <= shift_year y m) as Hsy by (unfold shift_year; destruct (m <=? 2); lia).
  rewrite !quot_div by lia. unfold march_days.
  pose proof (Z.div_mod (shift_year y m) 100) as Hdm.
  fold b c in Hdm. assert (shift_year y m = 100 * b + c) as E by lia. rewrite E.
  assert ((100 * b + c) / 4 = 25 * b + c / 4) as ->.
  { replace (100 * b + c) with (c + (25 * b) * 4) by lia. rewrite Z.div_add; lia. }
  assert ((100 * b + c) / 100 = b) as ->.
  { subst b c. rewrite <- E. done. }
  assert ((100 * b + c) / 400 = b / 4) as ->.
  { rewrite <- E. subst b. rewrite Z.div_div by lia. done. }
  lia.
Qed.

Lemma march_year_calendar y m d :
  -4800 < y -> calendar_date (mkYMD y m d) ->
  march_year (shift_year y m / 100) (shift_year y m mod 100)
    ((153 * shift_month m + 2) / 5 + d - 1).
Proof.
  intros Hy [Hm Hd]. cbn [year month day] in *.
  assert (0 <= shift_year y m) as Hsy by (unfold shift_year; destruct (m <=? 2); lia).
  pose proof (Z.mod_pos_bound (shift_year y m) 100).
  split; [apply Z.div_pos; lia|]. split; [lia|].
  destruct (Z.eq_dec m 2) as [->|Hne].
  - unfold days_in_month, shift_year, shift_month in *. cbn [Z.eqb Z.leb Z.compare Pos.compare Pos.compare_cont Pos.eqb] in *.
    change ((153 * (2 + 9) + 2) / 5) with 337.
    unfold leap_year in Hd.
    destruct (y mod 4 =? 0) eqn:E4; cbn in Hd; [|lia].
    destruct (y mod 100 =? 0) eqn:E100; cbn in Hd; zify_bool.
    + destruct (y mod 400 =? 0) eqn:E400; zify_bool; [|lia].
      split; [lia|]. intros _. pose proof (Z.div_mod y 400) as Hy400.
      replace (y + 4800 - 1) with (99 + (4 * (y / 400) + 47) * 100) by lia.
      rewrite Z.mod_add, Z.div_add by lia. split; [done|]. intros _.
      change (99 / 100) with 0.
      replace (0 + (4 * (y / 400) + 47)) with (3 + (y / 400 + 11) * 4) by lia.
      by rewrite Z.mod_add.
    + split; [lia|]. intros He. clear Hd Hm Hsy H He. split; [|intros Hc].
      all: Z.div_mod_to_equations; lia.
  - rewrite days_in_month_shift in Hd by lia.
    assert (0 <= shift_month m <= 10)
      by (unfold shift_month; destruct (m <=? 2) eqn:?; zify_bool; lia).
    assert ((153 * (shift_month m + 1) + 2) / 5 <= (153 * 11 + 2) / 5)
      by (apply Z.div_le_mono; lia).
    change ((153 * 11 + 2) / 5) with 337 in *.
    assert (0 <= (153 * shift_month m + 2) / 5) by (apply Z.div_pos; lia). lia.
Qed.

(** The day of a date is within its month, months counted from March. *)
Lemma march_month_calendar y m d :
  calendar_date (mkYMD y m d) ->
  (5 * ((153 * shift_month m + 2) / 5 + d - 1) + 2) / 153 = shift_month m.
Proof.
  intros [Hm Hd]. cbn [year month day] in *.
  replace ((153 * shift_month m + 2) / 5 + d - 1)
    with ((153 * shift_month m + 2) / 5 + (d - 1)) by lia.
  apply march_month; [by apply shift_month_range|lia|].
  destruct (Z.eq_dec m 2) as [->|Hne].
  - right. split; [done|]. unfold days_in_month in Hd. cbn in Hd.
    destruct (leap_year y); lia.
  - left. rewrite days_in_month_shift in Hd by done. lia.
Qed.

(** getYearMonthDay of a day given in years counted from March. *)
Lemma getYearMonthDay_march b c e :
  march_year b c e ->
  let m := (5 * e + 2) / 153 in
  getYearMonthDay (march_days b c e - 32044)
  = mkYMD (b * 100 + c - 4800 + m / 10) (m + 3 - 12 * (m / 10))
      (e - (153 * m + 2) / 5 + 1).
Proof.
  intros Hmy m. pose proof Hmy as (Hb & Hc & He & _).
  assert (0 <= b / 4 /\ 0 <= c / 4) as [? ?] by (split; apply Z.div_pos; lia).
  assert (0 <= 365 * c + c / 4 + e) by lia.
  unfold getYearMonthDay.
  replace (march_days b c e - 32044 + 32044) with (march_days b c e) by lia.
  rewrite (quot_div (4 * march_days b c e + 3)) by (unfold march_days; lia).
  rewrite march_century by done. rewrite (quot_div (b * 146097)) by lia.
  rewrite march_century_rest by done.
  rewrite (quot_div (4 * _ + 3)) by lia. rewrite (march_year_of b) by done.
  rewrite (quot_div (1461 * c)) by lia. rewrite march_year_rest.
  rewrite (quot_div (5 * e + 2)) by lia. fold m.
  assert (0 <= m) by (apply Z.div_pos; lia).
  rewrite !quot_div by lia. done.
Qed.

(** Every day has a place in the calendar that starts in March. *)
Lemma march_days_onto a :
  0 <= a -> exists b c e, march_year b c e /\ a = march_days b c e.
Proof.
  intros Ha. set (b := (4 * a + 3) / 146097). set (r := (4 * a + 3) mod 146097).
  assert (4 * a + 3 = 146097 * b + r) as E1 by (apply Z.div_mod; lia).
  assert (0 <= r < 146097) as Hr by (apply Z.mod_pos_bound; lia).
  assert (0 <= b) as Hb by (apply Z.div_pos; lia).
  set (a1 := a - 36524 * b - b / 4).
  assert (4 * a1 = b mod 4 + r - 3) as E2 by (pose proof (Z.div_mod b 4); lia).
  pose proof (Z.mod_pos_bound b 4).
  set (c := (4 * a1 + 3) / 1461). set (s := (4 * a1 + 3) mod 1461).
  assert (4 * a1 + 3 = 1461 * c + s) as E3 by (apply Z.div_mod; lia).
  assert (0 <= s < 1461) as Hs by (apply Z.mod_pos_bound; lia).
  assert (0 <= c < 100) as Hc by lia.
  set (e := a1 - 365 * c - c / 4).
  assert (4 * e = c mod 4 + s - 3) as E4 by (pose proof (Z.div_mod c 4); lia).
  pose proof (Z.mod_pos_bound c 4).
  exists b, c, e. split; [|unfold march_days; lia].
  split; [done|]. split; [done|]. split; [lia|].
  intros He. split; [lia|]. intros ->.
  assert (a1 = 36524) by (subst e; change (99 / 4) with 24 in *; lia). lia.
Qed.

Lemma march_month_of e :
  0 <= e <= 365 ->
  let m := (5 * e + 2) / 153 in
  0 <= m <= 11 /\ 0 <= e - (153 * m + 2) / 5
  /\ (m <= 10 -> e < (153 * (m + 1) + 2) / 5) /\ (m = 11 -> e - (153 * m + 2) / 5 <= e - 337).
Proof.
  intros He m. pose proof (Z.div_mod (5 * e + 2) 153) as Hm.
  pose proof (Z.mod_pos_bound (5 * e + 2) 153) as Hr. fold m in Hm.
  split; [lia|]. split; [|split].
  - pose proof (Z.div_mod (153 * m + 2) 5). pose proof (Z.mod_pos_bound (153 * m + 2) 5). lia.
  - intros _. pose proof (Z.div_mod (153 * (m + 1) + 2) 5).
    pose proof (Z.mod_pos_bound (153 * (m + 1) + 2) 5). lia.
  - intros ->. change ((153 * 11 + 2) / 5) with 337. lia.
Qed.

(** Going from March years to calendar years is inverse to [shift_year], [shift_month]. *)
Lemma unshift y m :
  0 <= m <= 11 ->
  1 <= m + 3 - 12 * (m / 10) <= 12
  /\ shift_month (m + 3 - 12 * (m / 10)) = m
  /\ shift_year (y - 4800 + m / 10) (m + 3 - 12 * (m / 10)) = y.
Proof.
  intros Hm. unfold shift_month, shift_year.
  destruct (Z_lt_ge_dec m 10) as [Hlt|Hge].
  - rewrite (Z.div_small m 10) by lia. rewrite (proj2 (Z.leb_gt _ _)) by lia. lia.
  - assert (m / 10 = 1) as -> by (symmetry; apply Z.div_unique with (m - 10); lia).
    rewrite (proj2 (Z.leb_le _ _)) by lia. lia.
Qed.

Lemma leap_year_march b c :
  0 <= c < 100 -> c mod 4 = 3 -> (c = 99 -> b mod 4 = 3) ->
  leap_year (100 * b + c - 4800 + 1) = true.
Proof.
  intros Hc Hc4 Hcb. unfold leap_year.
  assert ((100 * b + c - 4800 + 1) mod 4 = 0) as ->.
  { replace (100 * b + c - 4800 + 1) with (c + 1 + (25 * b - 1200) * 4) by lia.
    rewrite Z.mod_add by lia. rewrite <- Zplus_mod_idemp_l, Hc4. done. }
  cbn [Z.eqb andb]. apply orb_true_iff. rewrite negb_true_iff, Z.eqb_neq, Z.eqb_eq.
  destruct (Z.eq_dec c 99) as [->|Hne].
  - right. replace (100 * b + 99 - 4800 + 1) with ((b - 47) * 100) by lia.
    change 400 with (4 * 100). rewrite Z.mul_mod_distr_r by lia.
    rewrite <- Zminus_mod_idemp_l, (Hcb eq_refl). done.
  - left. replace (100 * b + c - 4800 + 1) with (c + 1 + (b - 48) * 100) by lia.
    rewrite Z.mod_add, Z.mod_small by lia. lia.
Qed.

Lemma march_calendar b c e :
  march_year b c e ->
  let m := (5 * e + 2) / 153 in
  calendar_date (mkYMD (100 * b + c - 4800 + m / 10) (m + 3 - 12 * (m / 10))
                   (e - (153 * m + 2) / 5 + 1)).
Proof.
  intros (Hb & Hc & He & Hleap) m.
  pose proof (march_month_of e He) as Hmm. cbv zeta in Hmm. fold m in Hmm.
  destruct Hmm as (Hm & Hlo & Hhi & H11).
  destruct (unshift (100 * b + c) m Hm) as (Hmon & Hsm & _).
  split; cbn [year month day]; [done|]. split; [lia|].
  set (mon := m + 3 - 12 * (m / 10)) in *.
  destruct (Z.eq_dec mon 2) as [E2|Hne].
  - rewrite E2. rewrite E2 in Hsm. change (shift_month 2) with 11 in Hsm.
    rewrite <- Hsm in *. change (11 / 10) with 1. change ((153 * 11 + 2) / 5) with 337 in *.
    unfold days_in_month. cbn [Z.eqb Pos.eqb].
    destruct (Z.eq_dec e 365) as [->|].
    + destruct Hleap as [? ?]; [done|]. rewrite leap_year_march by done. lia.
    + destruct (leap_year _); lia.
  - rewrite days_in_month_shift, Hsm by done.
    assert (m <> 11) as Hn11.
    { clearbody mon. rewrite <- Hsm. unfold shift_month.
      destruct (mon <=? 2) eqn:?; zify_bool; lia. }
    specialize (Hhi ltac:(lia)). lia.
Qed.

(** A calendar date to its Julian day number and back, for every year after -4800. *)
Lemma date_roundtrip y m d :
  -4800 < y -> calendar_date (mkYMD y m d) ->
  yearMonthDay (Date_ymd y m d) = mkYMD y m d.
Proof.
  intros Hy Hcal. pose proof Hcal as [Hm Hd]. cbn [year month day] in *.
  unfold yearMonthDay, Date_ymd. cbn [julianDayNumber_].
  pose proof (getJulianDayNumber_march y m d Hm Hy) as E. cbv zeta in E.
  pose proof (march_year_calendar y m d Hy Hcal) as Hmy.
  set (b := shift_year y m / 100) in *. set (c := shift_year y m mod 100) in *.
  replace (getJulianDayNumber y m d) with
    (march_days b c ((153 * shift_month m + 2) / 5 + d - 1) - 32044) by lia.
  rewrite getYearMonthDay_march by done. cbv zeta.
  rewrite march_month_calendar with (y := y) by done.
  assert (100 * b + c = shift_year y m) as Esy
    by (symmetry; apply Z.div_mod; lia).
  unfold shift_year, shift_month in *.
  destruct (m <=? 2) eqn:Em; zify_bool; f_equal.
  1, 2: assert ((m + 9) / 10 = 1) as -> by (symmetry; apply Z.div_unique with (m - 1); lia); lia.
  - lia.
  - assert ((m - 3) / 10 = 0) as -> by (apply Z.div_small; lia). lia.
  - assert ((m - 3) / 10 = 0) as -> by (apply Z.div_small; lia). lia.
  - lia.
Qed.

(** Every day number from day -32044 (the first of March of -4800) on is a date of
    the Gregorian calendar, and converting that date gives the number. *)
Lemma jdn_roundtrip j :
  -32044 <= j ->
  let ymd := yearMonthDay (Date_jdn j) in
  calendar_date ymd /\ Date_ymd (year ymd) (month ymd) (day ymd) = Date_jdn j.
Proof.
  intros Hj. unfold yearMonthDay, Date_jdn. cbn [julianDayNumber_].
  destruct (march_days_onto (j + 32044)) as (b & c & e & Hmy & Ej); [lia|].
  replace j with (march_days b c e - 32044) by lia.
  rewrite getYearMonthDay_march by done. cbv zeta.
  pose proof (march_calendar b c e Hmy) as Hcal. cbv zeta in Hcal.
  pose proof Hmy as (Hb & Hc & He & _).
  pose proof (march_month_of e He) as Hmm. cbv zeta in Hmm.
  set (m := (5 * e + 2) / 153) in *. destruct Hmm as (Hm & _).
  replace (b * 100 + c - 4800 + m / 10) with (100 * b + c - 4800 + m / 10) by lia.
  split; [done|]. cbn [year month day].
  destruct (unshift (100 * b + c) m Hm) as (Hmon & Hsm & Hsy).
  unfold Date_ymd. f_equal.
  assert (0 <= m / 10) by (apply Z.div_pos; lia).
  pose proof (getJulianDayNumber_march (100 * b + c - 4800 + m / 10)
                (m + 3 - 12 * (m / 10)) (e - (153 * m + 2) / 5 + 1) Hmon) as E.
  destruct (Z.eq_dec (100 * b + c + m / 10) 0) as [E0|Hpos].
  - (* March to December of -4800 itself: the quotients are still of non-negatives *)
    assert (b = 0 /\ c = 0 /\ m / 10 = 0) as (-> & -> & Hm0) by lia.
    rewrite Hm0 in *. unfold march_days. cbn [Z.mul Z.div Z.add]. clear E.
    unfold getJulianDayNumber.
    assert (m < 10) by (apply Z.nle_gt; intros ?;
      assert (1 <= m / 10) by (apply Z.div_le_lower_bound; lia); lia).
    assert (Z.quot (14 - (m + 3 - 12 * 0)) 12 = 0) as ->
      by (rewrite quot_div by lia; apply Z.div_small; lia).
    rewrite (quot_div (153 * _ + 2)) by lia.
    replace (m + 3 - 12 * 0 + 12 * 0 - 3) with m by lia.
    replace (100 * 0 + 0 - 4800 + 0 + 4800 - 0) with 0 by lia.
    change (0 ÷ 4) with 0. change (0 ÷ 100) with 0. change (0 ÷ 400) with 0.
    change (0 / 4) with 0. lia.
  - cbv zeta in E. rewrite Hsm, Hsy in E. specialize (E ltac:(lia)).
    replace ((100 * b + c) / 100) with b in E
      by (apply Z.div_unique with c; lia).
    replace ((100 * b + c) mod 100) with c in E
      by (apply Z.mod_unique with b; lia).
    replace ((153 * m + 2) / 5 + (e - (153 * m + 2) / 5 + 1) - 1) with e in E by lia. lia.
Qed.

(** ** Properties *)




