(* ===== verification/TimeZone.v ===== *)
(** * Time zones: src/arale/base/TimeZone.{h,cc}

    [struct tm] and the two C library conversions the code calls (gmtime_r and
    timegm, a [Libc] instance of the code's own UTC conversions is proved to have
    the laws it needs), the conversions to and from UTC, the search of the
    transition table (with libstdc++'s binary search) and the reader of a compiled
    zone file, in a monad that keeps what was read when an exception is thrown. *)

From S2P Require Import Prelude Endian Format Date.
From Stdlib Require Import Sorting.Sorted.

(** ** struct tm and the C library *)

Record tm := mk_tm {
  tm_sec : Z; tm_min : Z; tm_hour : Z; tm_mday : Z; tm_mon : Z; tm_year : Z;
  tm_wday : Z; tm_yday : Z; tm_isdst : bool; tm_gmtoff : Z; tm_zone : bytes
}.

(** The date of a struct tm: Date(const struct tm&). *)
Definition Date_tm (t : tm) : Date := Date_ymd (tm_year t + 1900) (tm_mon t + 1) (tm_mday t).

(** bzero(&t, sizeof t) *)
Definition tm_zero : tm := mk_tm 0 0 0 0 0 0 0 0 false 0 [].

Class Libc := { gmtime_r : Z -> tm; timegm : tm -> Z }.

(** timegm depends on the civil time only and is inverse to gmtime_r. *)
Definition same_civil (s t : tm) : Prop :=
  tm_sec s = tm_sec t /\ tm_min s = tm_min t /\ tm_hour s = tm_hour t
  /\ tm_mday s = tm_mday t /\ tm_mon s = tm_mon t /\ tm_year s = tm_year t.

Class LibcLaws `{Libc} := {
  timegm_civil s t : same_civil s t -> timegm s = timegm t;
  timegm_gmtime_r t : - 2 ^ 37 <= t < 2 ^ 37 -> timegm (gmtime_r t) = t
}.

(** ** The zone data *)

Record Transition := mkTransition { gmttime : Z; localtime : Z; localtimeIdx : Z }.
Record Localtime := mkLocaltime { gmtOffset : Z; isDst : bool; arrbIdx : Z }.

Record Data := mkData {
  transitions : list Transition;
  localtimes : list Localtime;
  names : list bytes;
  abbreviation : bytes
}.
Definition Data_empty : Data := mkData [] [] [] [].

(** struct Comp *)
Definition comp (compareGmt : bool) (lhs rhs : Transition) : bool :=
  if compareGmt then gmttime lhs <? gmttime rhs else localtime lhs <? localtime rhs.
Definition comp_equal (compareGmt : bool) (lhs rhs : Transition) : bool :=
  if compareGmt then gmttime lhs =? gmttime rhs else localtime lhs =? localtime rhs.

(** vec[i] *)
Definition at_ {A} (l : list A) (i : Z) : outcome A :=
  if i <? 0 then Err OutOfBounds
  else match l !! Z.to_nat i with Some x => Ok x | None => Err OutOfBounds end.

(** std::lower_bound: halve [first, first + len) until it is empty. *)
Fixpoint lower_bound_loop {A} (less : A -> bool) (l : list A) (fuel first len : nat) : nat :=
  match fuel with
  | O => first
  | S fuel' =>
      match len with
      | O => first
      | _ =>
          let half := Nat.div2 len in
          let mid := (first + half)%nat in
          match l !! mid with
          | Some x =>
              if less x then lower_bound_loop less l fuel' (S mid) (len - half - 1)
              else lower_bound_loop less l fuel' first half
          | None => first
          end
      end
  end.
Definition lower_bound {A} (less : A -> bool) (l : list A) : nat :=
  lower_bound_loop less l (S (length l)) 0 (length l).

Definition findLocaltime `{Build} (data : Data) (sentry : Transition) (gmt : bool)
    : outcome Localtime :=
  match transitions data with
  | [] => at_ (localtimes data) 0
  | front :: _ =>
      if comp gmt sentry front then at_ (localtimes data) 0
      else
        let ts := transitions data in
        let i := lower_bound (fun t => comp gmt t sentry) ts in
        match ts !! i with
        | Some t =>
            if negb (comp_equal gmt sentry t) then
              assert_ (negb (bool_decide (i = 0%nat))) ;;
              t' ← at_ ts (Z.of_nat i - 1);
              at_ (localtimes data) (localtimeIdx t')
            else at_ (localtimes data) (localtimeIdx t)
        | None =>
            t' ← at_ ts (zlen ts - 1);
            at_ (localtimes data) (localtimeIdx t')
        end
  end.

(** ** Conversions to and from UTC *)

Definition kSecondsPerDay : Z := 24 * 60 * 60.

(** [seconds] is unsigned. *)
Definition fillHMS (seconds : Z) (utc : tm) : tm :=
  let minutes := seconds / 60 in
  mk_tm (seconds mod 60) (minutes mod 60) (minutes / 60) (tm_mday utc) (tm_mon utc)
    (tm_year utc) (tm_wday utc) (tm_yday utc) (tm_isdst utc) (tm_gmtoff utc) (tm_zone utc).

Definition toUtcTime (secondsSinceEpoch : Z) (yday : bool) : tm :=
  let seconds := i32 (Z.rem secondsSinceEpoch kSecondsPerDay) in
  let days := i32 (Z.quot secondsSinceEpoch kSecondsPerDay) in
  let '(seconds, days) :=
    if seconds <? 0 then (seconds + kSecondsPerDay, days - 1) else (seconds, days) in
  let utc := fillHMS (u32 seconds) tm_zero in
  let date := Date_jdn (days + kJulianDayOf1970_01_01) in
  let ymd := yearMonthDay date in
  let startOfYear := Date_ymd (year ymd) 1 1 in
  mk_tm (tm_sec utc) (tm_min utc) (tm_hour utc) (day ymd) (month ymd - 1) (year ymd - 1900)
    (weekDay date)
    (if yday then julianDayNumber_ date - julianDayNumber_ startOfYear else 0)
    false 0 (cs "GMT").

Definition fromUtcTime_ymdhms (year month day hour minute seconds : Z) : Z :=
  let date := Date_ymd year month day in
  let secondsInDay := hour * 3600 + minute * 60 + seconds in
  let days := julianDayNumber_ date - kJulianDayOf1970_01_01 in
  days * kSecondsPerDay + secondsInDay.

Definition fromUtcTime (utc : tm) : Z :=
  fromUtcTime_ymdhms (tm_year utc + 1900) (tm_mon utc + 1) (tm_mday utc)
    (tm_hour utc) (tm_min utc) (tm_sec utc).

(** ** Local time.  A TimeZone is a shared_ptr<Data>, null when invalid. *)

Definition TimeZone : Type := option Data.
Definition TimeZone_valid (tz : TimeZone) : bool :=
  match tz with Some _ => true | None => false end.

Section local.
Context `{Build, Libc}.

(** *data_, after assert(data_ != NULL) *)
Definition data_of (tz : TimeZone) : outcome Data :=
  assert_ (TimeZone_valid tz) ;;
  match tz with Some d => Ok d | None => Err NullCall end.

(** &abbreviation[i], read as a C string: std::string has a terminator at size(). *)
Definition abbr_at (abbr : bytes) (i : Z) : outcome bytes :=
  if (0 <=? i) && (i <=? zlen abbr)
  then let s := drop (Z.to_nat i) abbr in Ok (take (find_char NUL s) s)
  else Err OutOfBounds.

Definition toLocalTime (tz : TimeZone) (seconds : Z) : outcome tm :=
  data ← data_of tz;
  local ← findLocaltime data (mkTransition seconds 0 0) true;
  let t := gmtime_r (seconds + gmtOffset local) in
  zone ← abbr_at (abbreviation data) (arrbIdx local);
  Ok (mk_tm (tm_sec t) (tm_min t) (tm_hour t) (tm_mday t) (tm_mon t) (tm_year t)
        (tm_wday t) (tm_yday t) (isDst local) (gmtOffset local) zone).

Definition fromLocalTime (tz : TimeZone) (localTm : tm) : outcome Z :=
  data ← data_of tz;
  let seconds := timegm localTm in
  local ← findLocaltime data (mkTransition 0 seconds 0) false;
  if tm_isdst localTm then
    tryTm ← toLocalTime tz (seconds - gmtOffset local);
    let hack := negb (tm_isdst tryTm) && (tm_hour tryTm =? tm_hour localTm)
                && (tm_min tryTm =? tm_min localTm) in
    Ok ((if hack then seconds - 3600 else seconds) - gmtOffset local)
  else Ok (seconds - gmtOffset local).
End local.

(** TimeZone(eastOfUtc, name) *)
Definition TimeZone_fixed (eastOfUtc : Z) (name : bytes) : TimeZone :=
  Some (mkData [] [mkLocaltime eastOfUtc false 0] [] name).

(** ** Reading a zone file

    The state is what is left of the file and the data filled so far: both stay as
    they are when an exception is thrown. *)

Definition RD (A : Type) : Type := bytes * Data -> outcome A * (bytes * Data).
#[global] Instance RD_ret : MRet RD := fun A a s => (Ok a, s).
#[global] Instance RD_bind : MBind RD :=
  fun A B k m s => match m s with (Ok a, s') => k a s' | (Err f, s') => (Err f, s') end.

Definition throw {A} (f : fault) : RD A := fun s => (Err f, s).

Section reader.
Context `{Build}.

(** fread: what there is of [n] bytes. *)
Definition fread (n : nat) : RD bytes := fun s => (Ok (take n s.1), (drop n s.1, s.2)).

(** [char buf[n]] with a negative [n] is undefined. *)
Definition readBytes (n : Z) : RD bytes :=
  if n <? 0 then throw OutOfBounds
  else
    buf ← fread (Z.to_nat n);
    if zlen buf =? n then mret buf else throw LogicError.

Definition readInt32 : RD Z :=
  buf ← fread 4;
  if zlen buf =? 4 then mret (i32 (networkToHost32 (host_val buf))) else throw LogicError.

Definition readUInt8 : RD Z :=
  buf ← fread 1;
  match buf with [c] => mret (uchar c) | _ => throw LogicError end.

(** for (int i = 0; i < n; ++i) *)
Fixpoint repeat_read {A} (n : nat) (m : RD A) : RD (list A) :=
  match n with
  | O => mret []
  | S n' => x ← m; l ← repeat_read n' m; mret (x :: l)
  end.

Definition push_localtime (l : Localtime) : RD unit := fun s =>
  (Ok tt, (s.1, mkData (transitions s.2) (localtimes s.2 ++ [l]) (names s.2) (abbreviation s.2))).
Definition push_transition (t : Transition) : RD unit := fun s =>
  (Ok tt, (s.1, mkData (transitions s.2 ++ [t]) (localtimes s.2) (names s.2) (abbreviation s.2))).
Definition set_abbreviation (a : bytes) : RD unit := fun s =>
  (Ok tt, (s.1, mkData (transitions s.2) (localtimes s.2) (names s.2) a)).
Definition lift_ {A} (m : outcome A) : RD A := fun s => (m, s).
Definition data_ : RD Data := fun s => (Ok s.2, s).

Definition read_localtime : RD unit :=
  gmtoff ← readInt32;
  isdst ← readUInt8;
  abbrind ← readUInt8;
  push_localtime (mkLocaltime gmtoff (negb (isdst =? 0)) abbrind).

Definition make_transition (t : Z * Z) : RD unit :=
  data ← data_;
  local ← lift_ (at_ (localtimes data) t.2);
  push_transition (mkTransition t.1 (t.1 + gmtOffset local) t.2).

Fixpoint for_read {A} (f : A -> RD unit) (l : list A) : RD unit :=
  match l with [] => mret tt | x :: l' => f x ;; for_read f l' end.

(** The body of the try block; reserve() of a negative count is a length_error. *)
Definition read_try : RD unit :=
  head ← readBytes 4;
  if negb (bool_decide (head = cs "TZif")) then throw LogicError
  else
    readBytes 1 ;;
    readBytes 15 ;;
    isgmtcnt ← readInt32;
    isstdcnt ← readInt32;
    leapcnt ← readInt32;
    timecnt ← readInt32;
    typecnt ← readInt32;
    charcnt ← readInt32;
    if timecnt <? 0 then throw LogicError
    else
      trans ← repeat_read (Z.to_nat timecnt) readInt32;
      locals ← repeat_read (Z.to_nat timecnt) readUInt8;
      repeat_read (Z.to_nat typecnt) read_localtime ;;
      for_read make_transition (zip trans locals) ;;
      abbr ← readBytes charcnt;
      set_abbreviation abbr.

(** [zonefile] is the contents of the file, None when fopen fails.  A logic_error
    is caught and printed; the result is true on every path. *)
Definition readTimeZoneFile (zonefile : option bytes) : outcome (bool * Data) :=
  match zonefile with
  | None => Ok (true, Data_empty)
  | Some file =>
      match read_try (file, Data_empty) with
      | (Ok _, (_, data)) => Ok (true, data)
      | (Err LogicError, (_, data)) => Ok (true, data)
      | (Err f, _) => Err f
      end
  end.

Definition TimeZone_ctor (zonefile : option bytes) : outcome TimeZone :=
  '(ok, data) ← readTimeZoneFile zonefile;
  Ok (if ok : bool then Some data else None).
End reader.

(** ** Writing a zone file, as a specification of the format *)

Definition encode_tzif (version : char) (fill : bytes) (isgmtcnt isstdcnt leapcnt : Z)
    (trans : list (Z * Z)) (locals : list (Z * Z * Z)) (abbr rest : bytes) : bytes :=
  cs "TZif" ++ [version] ++ fill
    ++ be_bytes 4 isgmtcnt ++ be_bytes 4 isstdcnt ++ be_bytes 4 leapcnt
    ++ be_bytes 4 (zlen trans) ++ be_bytes 4 (zlen locals) ++ be_bytes 4 (zlen abbr)
    ++ concat ((fun t => be_bytes 4 t.1) <$> trans)
    ++ concat ((fun t => [to_char t.2]) <$> trans)
    ++ concat ((fun l => be_bytes 4 l.1.1 ++ [to_char l.1.2] ++ [to_char l.2]) <$> locals)
    ++ abbr ++ rest.

(** The zone data such a file describes. *)
Definition decode_local (l : Z * Z * Z) : Localtime :=
  mkLocaltime l.1.1 (negb (l.1.2 =? 0)) l.2.
Definition decode_trans (locals : list (Z * Z * Z)) (t : Z * Z) : Transition :=
  mkTransition t.1 (t.1 + default 0 ((fun l : Z * Z * Z => l.1.1) <$> locals !! Z.to_nat t.2)) t.2.

Definition int32_ok (z : Z) : Prop := - 2 ^ 31 <= z < 2 ^ 31.
Definition tz_local_ok (l : Z * Z * Z) : Prop :=
  int32_ok l.1.1 /\ 0 <= l.1.2 < 256 /\ 0 <= l.2 < 256.
Definition tz_trans_ok (typecnt : Z) (t : Z * Z) : Prop :=
  int32_ok t.1 /\ 0 <= t.2 < 256 /\ t.2 < typecnt.

(** ** Lemmas: the search *)

Lemma at_nat {A} (l : list A) (i : nat) :
  at_ l (Z.of_nat i) = match l !! i with Some x => Ok x | None => Err OutOfBounds end.
Proof. unfold at_. rw_cmp. by rewrite Nat2Z.id. Qed.

(** The binary search finds the boundary of a list that [less] cuts in two. *)
Lemma lower_bound_loop_cut {A} (less : A -> bool) (l1 l2 : list A) fuel first len :
  (len < fuel)%nat -> (first <= length l1 <= first + len)%nat ->
  (first + len <= length (l1 ++ l2))%nat ->
  Forall (fun x => less x = true) l1 -> Forall (fun x => less x = false) l2 ->
  lower_bound_loop less (l1 ++ l2) fuel first len = length l1.
Proof.
  intros Hf Hin Hlen H1 H2. revert first len Hf Hin Hlen.
  induction fuel as [|fuel IH]; intros first len Hf Hin Hlen; [lia|].
  cbn [lower_bound_loop]. destruct len as [|len]; [lia|].
  pose proof (Nat.div2_decr (S len) len ltac:(lia)) as Hh.
  set (half := Nat.div2 (S len)) in *.
  destruct ((l1 ++ l2) !! (first + half)%nat) as [x|] eqn:Ex.
  2: { apply lookup_ge_None in Ex. lia. }
  destruct (decide (first + half < length l1)%nat) as [Hlt|Hge].
  - rewrite lookup_app_l in Ex by done.
    rewrite Forall_forall in H1. rewrite (H1 x) by (by eapply list_elem_of_lookup_2).
    apply IH; lia.
  - rewrite lookup_app_r in Ex by lia.
    rewrite Forall_forall in H2. rewrite (H2 x) by (by eapply list_elem_of_lookup_2).
    apply IH; lia.
Qed.

Lemma lower_bound_cut {A} (less : A -> bool) (l1 l2 : list A) :
  Forall (fun x => less x = true) l1 -> Forall (fun x => less x = false) l2 ->
  lower_bound less (l1 ++ l2) = length l1.
Proof.
  intros. unfold lower_bound. apply lower_bound_loop_cut; rewrite ?length_app; auto; lia.
Qed.

(** The time a search compares. *)
Definition key (gmt : bool) (t : Transition) : Z := if gmt then gmttime t else localtime t.

Lemma comp_key gmt s t : comp gmt s t = (key gmt s <? key gmt t).
Proof. by destruct gmt. Qed.
Lemma comp_equal_key gmt s t : comp_equal gmt s t = (key gmt s =? key gmt t).
Proof. by destruct gmt. Qed.

Definition key_sorted (gmt : bool) : list Transition -> Prop :=
  StronglySorted (fun s t => key gmt s < key gmt t).

(** A sorted table is cut by any time into the transitions before, the one at it if
    there is one, and those after. *)
Lemma key_sorted_cut gmt s ts :
  key_sorted gmt ts ->
  exists l1 l2, ts = l1 ++ l2 /\ Forall (fun t => key gmt t < s) l1
    /\ Forall (fun t => s <= key gmt t) l2
    /\ match l2 with [] => True | _ :: l => Forall (fun t => s < key gmt t) l end.
Proof.
  induction 1 as [|t ts Hs (l1 & l2 & -> & H1 & H2 & H3) Ht].
  - by exists [], [].
  - destruct (Z_lt_ge_dec (key gmt t) s) as [Hlt|Hge].
    + exists (t :: l1), l2. split_and!; try done. by constructor.
    + assert (l1 = []) as ->.
      { destruct l1 as [|u l1]; [done|]. apply Forall_cons in H1 as [? _].
        apply Forall_app in Ht as [Ht _]. apply Forall_cons in Ht as [? _]. lia. }
      exists [], (t :: l2). cbn [app] in *. split_and!; try done.
      * constructor; [lia|done].
      * eapply Forall_impl; [exact Ht|]. cbn. lia.
Qed.

Lemma filter_cut gmt s (l1 l2 : list Transition) :
  Forall (fun t => key gmt t <= s) l1 -> Forall (fun t => s < key gmt t) l2 ->
  filter (fun t => key gmt t <= s) (l1 ++ l2) = l1.
Proof.
  intros H1 H2. rewrite filter_app.
  assert (filter (fun t => key gmt t <= s) l2 = []) as ->.
  { induction H2; [done|]. rewrite filter_cons_False by lia. done. }
  rewrite app_nil_r. induction H1; [done|]. rewrite filter_cons_True by done. by f_equal.
Qed.

Lemma at_last {A} (l : list A) x : at_ (l ++ [x]) (zlen (l ++ [x]) - 1) = Ok x.
Proof.
  rewrite zlen_app. replace (zlen l + zlen [x] - 1) with (Z.of_nat (length l)).
  - rewrite at_nat, lookup_app_r, Nat.sub_diag by lia. done.
  - unfold zlen. cbn. lia.
Qed.

(** ** Lemmas: the reader *)

Section reader_lemmas.
Context `{Build}.

Lemma rd_bind {A B} (m : RD A) (k : A -> RD B) s a s' :
  m s = (Ok a, s') -> (m ≫= k) s = k a s'.
Proof. unfold mbind, RD_bind. by intros ->. Qed.

Lemma fread_app n (l k : bytes) d :
  length l = n -> fread n (l ++ k, d) = (Ok l, (k, d)).
Proof.
  intros <-. unfold fread. cbn [fst snd]. by rewrite take_app_length, drop_app_length.
Qed.

Lemma readBytes_app n (l k : bytes) d :
  zlen l = n -> readBytes n (l ++ k, d) = (Ok l, (k, d)).
Proof.
  intros <-. pose proof (zlen_nonneg l). unfold readBytes. rw_cmp.
  replace (Z.to_nat (zlen l)) with (length l) by (unfold zlen; lia).
  rewrite (rd_bind _ _ _ _ _ (fread_app _ l k d eq_refl)).
  by rewrite Z.eqb_refl.
Qed.

Lemma readInt32_be v (k : bytes) d :
  int32_ok v -> readInt32 (be_bytes 4 v ++ k, d) = (Ok v, (k, d)).
Proof.
  intros Hv. unfold readInt32.
  rewrite (rd_bind _ _ _ _ _ (fread_app 4 (be_bytes 4 v) k d (length_be_bytes 4 v))).
  rewrite zlen_be_bytes. cbn [Z.eqb Z.of_nat Pos.of_succ_nat Pos.succ Pos.eqb].
  unfold mret, RD_ret, networkToHost32. do 2 f_equal.
  rewrite <- (length_be_bytes 4 v) at 1. rewrite htobe_host_val, be_val_bytes.
  change (8 * Z.of_nat 4) with 32. rewrite wraps_wrapu by lia.
  by apply wraps_small.
Qed.

Lemma readUInt8_char z (k : bytes) d :
  0 <= z < 256 -> readUInt8 (to_char z :: k, d) = (Ok z, (k, d)).
Proof.
  intros Hz. unfold readUInt8. rewrite (rd_bind _ _ _ _ _ (fread_app 1 [to_char z] k d eq_refl)).
  rewrite uchar_to_char. by rewrite Z.mod_small by lia.
Qed.

(** A loop that reads the encodings of the elements of a list, one by one. *)
Lemma repeat_read_list {A B} (m : RD B) (enc : A -> bytes) (dec : A -> B)
    (upd : A -> Data -> Data) (P : A -> Prop) l k d :
  (forall a k d, P a -> m (enc a ++ k, d) = (Ok (dec a), (k, upd a d))) ->
  Forall P l ->
  repeat_read (length l) m (concat (enc <$> l) ++ k, d)
  = (Ok (dec <$> l), (k, foldl (fun d a => upd a d) d l)).
Proof.
  intros Hm HP. revert d. induction HP as [|a l Ha HP IH]; intros d; [done|].
  cbn [length repeat_read fmap list_fmap concat foldl]. rewrite <- (assoc_L (++)).
  rewrite (rd_bind _ _ _ _ _ (Hm a _ d Ha)).
  rewrite (rd_bind _ _ _ _ _ (IH _)). done.
Qed.

Lemma read_localtime_enc l k d :
  tz_local_ok l ->
  read_localtime ((be_bytes 4 l.1.1 ++ [to_char l.1.2] ++ [to_char l.2]) ++ k, d)
  = (Ok tt, (k, mkData (transitions d) (localtimes d ++ [decode_local l]) (names d)
                  (abbreviation d))).
Proof.
  intros (H1 & H2 & H3). rewrite <- !(assoc_L (++)). unfold read_localtime.
  rewrite (rd_bind _ _ _ _ _ (readInt32_be _ _ d H1)). cbn [app].
  rewrite (rd_bind _ _ _ _ _ (readUInt8_char _ _ d H2)).
  rewrite (rd_bind _ _ _ _ _ (readUInt8_char _ _ d H3)). done.
Qed.

Lemma foldl_push_localtimes ls d :
  foldl (fun d l => mkData (transitions d) (localtimes d ++ [decode_local l]) (names d)
                      (abbreviation d)) d ls
  = mkData (transitions d) (localtimes d ++ (decode_local <$> ls)) (names d) (abbreviation d).
Proof.
  revert d. induction ls as [|l ls IH]; intros d; cbn [foldl fmap list_fmap].
  - rewrite app_nil_r. by destruct d.
  - rewrite IH. cbn. by rewrite <- (assoc_L (++)).
Qed.

(** The second pass looks the offsets up in the table of local times. *)
Lemma for_read_transitions ts ls k d :
  localtimes d = decode_local <$> ls -> Forall (tz_trans_ok (zlen ls)) ts ->
  for_read make_transition ts (k, d)
  = (Ok tt, (k, mkData (transitions d ++ (decode_trans ls <$> ts)) (localtimes d) (names d)
                  (abbreviation d))).
Proof.
  intros Hl HP. revert d Hl. induction HP as [|t ts (H1 & H2 & H3) HP IH]; intros d Hl.
  - cbn. rewrite app_nil_r. by destruct d.
  - destruct (lookup_lt_is_Some_2 ls (Z.to_nat t.2)) as [l El]; [unfold zlen in H3; lia|].
    assert (make_transition t (k, d) = (Ok tt, (k, mkData (transitions d ++ [decode_trans ls t])
              (localtimes d) (names d) (abbreviation d)))) as E.
    { unfold make_transition, mbind, RD_bind, data_, lift_, push_transition, at_. cbn [fst snd].
      rw_cmp. rewrite Hl, list_lookup_fmap, El. unfold decode_trans. by rewrite El. }
    cbn [for_read fmap list_fmap]. rewrite (rd_bind _ _ _ _ _ E).
    rewrite IH by done. cbn. by rewrite <- (assoc_L (++)).
Qed.
End reader_lemmas.

(** ** Lemmas: UTC *)

Lemma hms s :
  0 <= s < 86400 ->
  0 <= s / 60 / 60 < 24 /\ s = s / 60 / 60 * 3600 + (s / 60) mod 60 * 60 + s mod 60.
Proof.
  intros. pose proof (Z.div_mod s 60). pose proof (Z.mod_pos_bound s 60).
  pose proof (Z.div_mod (s / 60) 60). pose proof (Z.mod_pos_bound (s / 60) 60). lia.
Qed.

(** The day and the second of the day toUtcTime computes with. *)
Lemma toUtcTime_spec t yday :
  - 2 ^ 37 <= t < 2 ^ 37 ->
  exists dd s, 0 <= s < 86400 /\ t = 86400 * dd + s /\ - 1600002 < dd
  /\ let date := Date_jdn (dd + 2440588) in
     let ymd := yearMonthDay date in
     toUtcTime t yday =
       mk_tm (s mod 60) ((s / 60) mod 60) (s / 60 / 60) (day ymd) (month ymd - 1)
         (year ymd - 1900) (weekDay date)
         (if yday then julianDayNumber_ date - julianDayNumber_ (Date_ymd (year ymd) 1 1) else 0)
         false 0 (cs "GMT").
Proof.
  intros Ht. unfold toUtcTime.
  assert (t = 86400 * Z.quot t 86400 + Z.rem t 86400) as Et by (apply Z.quot_rem; lia).
  change kSecondsPerDay with 86400. change kJulianDayOf1970_01_01 with 2440588.
  assert (- 86400 < Z.rem t 86400 < 86400) as Hr.
  { pose proof (Z.rem_bound_abs t 86400). lia. }
  assert (- 1600000 < Z.quot t 86400 < 1600000) as Hq by lia.
  rewrite !wraps_small by lia.
  destruct (Z.rem t 86400 <? 0) eqn:E; zify_bool.
  - exists (Z.quot t 86400 - 1), (Z.rem t 86400 + 86400).
    rewrite wrapu_small by lia. split_and!; try lia. done.
  - exists (Z.quot t 86400), (Z.rem t 86400).
    rewrite wrapu_small by lia. split_and!; try lia. done.
Qed.

Lemma fromUtcTime_toUtcTime t yday :
  - 2 ^ 37 <= t < 2 ^ 37 -> fromUtcTime (toUtcTime t yday) = t.
Proof.
  intros Ht. destruct (toUtcTime_spec t yday Ht) as (dd & s & Hs & -> & Hdd & E).
  cbv zeta in E. rewrite E. destruct (jdn_roundtrip (dd + 2440588)) as [_ Hj]; [lia|].
  set (ymd := yearMonthDay _) in *. unfold fromUtcTime, fromUtcTime_ymdhms.
  cbn [tm_sec tm_min tm_hour tm_mday tm_mon tm_year].
  replace (year ymd - 1900 + 1900) with (year ymd) by lia.
  replace (month ymd - 1 + 1) with (month ymd) by lia. rewrite Hj.
  cbn [Date_jdn julianDayNumber_]. change kJulianDayOf1970_01_01 with 2440588.
  change kSecondsPerDay with 86400. pose proof (hms s Hs). lia.
Qed.

(** ** Properties *)

(** The conversions to and from UTC are inverse to each other: every time within
    4355 years of the epoch is recovered from its civil time (with or without the day
    of the year), whose fields are in their ranges, and every civil time of a calendar
    date in that range is recovered from its seconds. *)
Theorem utc_conversions_inverse t yday y mo d h mi s :
  - 2 ^ 37 <= t < 2 ^ 37 ->
  -4800 < y -> calendar_date (mkYMD y mo d) -> 0 <= h < 24 -> 0 <= mi < 60 -> 0 <= s < 60 ->
  - 2 ^ 37 <= fromUtcTime_ymdhms y mo d h mi s < 2 ^ 37 ->
  (let utc := toUtcTime t yday in
   fromUtcTime utc = t
   /\ 0 <= tm_sec utc < 60 /\ 0 <= tm_min utc < 60 /\ 0 <= tm_hour utc < 24
   /\ calendar_date (mkYMD (tm_year utc + 1900) (tm_mon utc + 1) (tm_mday utc))
   /\ 0 <= tm_wday utc < 7)
  /\ (let utc := toUtcTime (fromUtcTime_ymdhms y mo d h mi s) yday in
      tm_year utc + 1900 = y /\ tm_mon utc + 1 = mo /\ tm_mday utc = d
      /\ tm_hour utc = h /\ tm_min utc = mi /\ tm_sec utc = s).
Proof.
  intros Ht Hy Hcal Hh Hmi Hs Ht'. split.
  - intros utc. split; [by apply fromUtcTime_toUtcTime|]. subst utc.
    destruct (toUtcTime_spec t yday Ht) as (dd & s' & Hs' & _ & Hdd & E).
    cbv zeta in E. rewrite E. destruct (jdn_roundtrip (dd + 2440588)) as [Hc _]; [lia|].
    set (ymd := yearMonthDay _) in *. cbn [tm_sec tm_min tm_hour tm_mday tm_mon tm_year tm_wday].
    replace (year ymd - 1900 + 1900) with (year ymd) by lia.
    replace (month ymd - 1 + 1) with (month ymd) by lia.
    split; [apply Z.mod_pos_bound; lia|]. split; [apply Z.mod_pos_bound; lia|].
    split; [by apply hms|]. split; [by destruct ymd|].
    unfold weekDay. cbn [Date_jdn julianDayNumber_]. change kDaysPerWeek with 7.
    apply Z.rem_bound_pos; lia.
  - destruct (toUtcTime_spec _ yday Ht') as (dd & s' & Hs' & Et & Hdd & E).
    cbv zeta in E. rewrite E. cbv zeta.
    unfold fromUtcTime_ymdhms in Et. change kJulianDayOf1970_01_01 with 2440588 in Et.
    change kSecondsPerDay with 86400 in Et.
    assert (Date_jdn (dd + 2440588) = Date_ymd y mo d) as ->.
    { unfold Date_ymd, Date_jdn in *. f_equal. cbn [julianDayNumber_] in Et. lia. }
    rewrite date_roundtrip by done.
    cbn [tm_sec tm_min tm_hour tm_mday tm_mon tm_year year month day].
    assert (s' = h * 3600 + mi * 60 + s) as -> by lia.
    replace (h * 3600 + mi * 60 + s) with (s + (h * 60 + mi) * 60) by lia.
    rewrite Z.div_add, Z.mod_add, (Z.div_small s), (Z.mod_small s), Z.add_0_l by lia.
    replace (h * 60 + mi) with (mi + h * 60) by lia.
    rewrite Z.div_add, Z.mod_add, (Z.div_small mi), (Z.mod_small mi) by lia. lia.
Qed.

Lemma utc_conversions_inverse_witness :
  (let utc := toUtcTime (- 12345678901) true in
   fromUtcTime utc = - 12345678901
   /\ 0 <= tm_sec utc < 60 /\ 0 <= tm_min utc < 60 /\ 0 <= tm_hour utc < 24
   /\ calendar_date (mkYMD (tm_year utc + 1900) (tm_mon utc + 1) (tm_mday utc))
   /\ 0 <= tm_wday utc < 7)
  /\ (let utc := toUtcTime (fromUtcTime_ymdhms 2016 2 29 23 59 58) true in
      tm_year utc + 1900 = 2016 /\ tm_mon utc + 1 = 2 /\ tm_mday utc = 29
      /\ tm_hour utc = 23 /\ tm_min utc = 59 /\ tm_sec utc = 58).
Proof.
  apply (utc_conversions_inverse (- 12345678901) true 2016 2 29 23 59 58); try lia;
    by split; vm_compute.
Defined.

(** In a table sorted by the compared time, findLocaltime gives the local time
    of the last transition that is not after the time sought, and the first local
    time when every transition is after it (or there is none); the assert of the
    code never fires. *)
Theorem findLocaltime_last `{Build} data sentry gmt :
  key_sorted gmt (transitions data) ->
  findLocaltime data sentry gmt =
    match last (filter (fun t => key gmt t <= key gmt sentry) (transitions data)) with
    | Some t => at_ (localtimes data) (localtimeIdx t)
    | None => at_ (localtimes data) 0
    end.
Proof.
  intros Hs. unfold findLocaltime.
  destruct (key_sorted_cut gmt (key gmt sentry) _ Hs) as (l1 & l2 & E & H1 & H2 & H3).
  destruct (transitions data) as [|front ts] eqn:Ets; [done|]. rewrite E.
  rewrite (lower_bound_cut _ l1 l2).
  2: { eapply Forall_impl; [exact H1|]. cbn. intros t Ht. rewrite comp_key. by rw_cmp. }
  2: { eapply Forall_impl; [exact H2|]. cbn. intros t Ht. rewrite comp_key. by rw_cmp. }
  assert (Forall (fun t => key gmt t <= key gmt sentry) l1) as H1'
    by (eapply Forall_impl; [exact H1|]; cbn; lia).
  rewrite comp_key. destruct (key gmt sentry <? key gmt front) eqn:Ef; zify_bool.
  { destruct l1 as [|u l1]; [|injection E as -> _; apply Forall_cons in H1 as [? _]; lia].
    cbn [app] in E. subst l2. rewrite filter_cut; [done|done|].
    by constructor. }
  rewrite lookup_app_r, Nat.sub_diag by lia.
  destruct l2 as [|t l2]; cbn [lookup list_lookup].
  - rewrite filter_cut by done. rewrite app_nil_r in *.
    destruct l1 as [|u l1' _] using rev_ind; [done|]. rewrite at_last, bind_Ok.
    by rewrite last_snoc.
  - rewrite comp_equal_key. apply Forall_cons in H2 as [Ht H2].
    destruct (key gmt sentry =? key gmt t) eqn:Eq; cbn [negb]; zify_bool.
    + rewrite cons_middle, (assoc_L (++)), filter_cut; [by rewrite last_snoc| |done].
      apply Forall_app. split; [done|]. repeat constructor. lia.
    + rewrite filter_cut by (first [done | constructor; [lia|done]]).
      destruct l1 as [|u l1' _] using rev_ind.
      * injection E as -> ->. lia.
      * rewrite bool_decide_eq_false_2 by (rewrite length_app; cbn; lia).
        rewrite assert_true, bind_Ok by done.
        replace (Z.of_nat (length (l1' ++ [u])) - 1) with (Z.of_nat (length l1'))
          by (rewrite length_app; cbn; lia).
        rewrite at_nat, <- (assoc_L (++)), lookup_app_r, Nat.sub_diag by lia.
        cbn [lookup list_lookup app]. rewrite bind_Ok. by rewrite last_snoc.
Qed.

Definition sample_zone : Data :=
  mkData [mkTransition 100 3700 1; mkTransition 5000 5000 0]
    [mkLocaltime 0 false 0; mkLocaltime 3600 true 4] [] (cs "UTC" ++ NUL :: cs "DST").

Lemma findLocaltime_last_witness :
  findLocaltime (H := Debug) sample_zone (mkTransition 4999 0 0) true
  = Ok (mkLocaltime 3600 true 4).
Proof.
  rewrite findLocaltime_last; [by vm_compute|].
  repeat constructor; cbn; lia.
Defined.

(** C33: reading a well-formed zone file gives the zone it describes: every
    transition with its local time looked up in the table of types, every type,
    and the abbreviations; the result is true. *)
Theorem readTimeZoneFile_roundtrip `{Build} version fill c1 c2 c3 trans locals abbr rest :
  length fill = 15%nat -> int32_ok c1 -> int32_ok c2 -> int32_ok c3 ->
  zlen trans < 2 ^ 31 -> zlen locals < 2 ^ 31 -> zlen abbr < 2 ^ 31 ->
  Forall (tz_trans_ok (zlen locals)) trans -> Forall tz_local_ok locals ->
  readTimeZoneFile (Some (encode_tzif version fill c1 c2 c3 trans locals abbr rest))
  = Ok (true, mkData (decode_trans locals <$> trans) (decode_local <$> locals) [] abbr).
Proof.
  intros Hfill H1 H2 H3 Ht Hl Ha Htok Hlok. unfold readTimeZoneFile, read_try, encode_tzif.
  pose proof (zlen_nonneg trans). pose proof (zlen_nonneg locals). pose proof (zlen_nonneg abbr).
  assert (int32_ok (zlen trans)) as Hzt by (split; lia).
  assert (int32_ok (zlen locals)) as Hzl by (split; lia).
  assert (int32_ok (zlen abbr)) as Hza by (split; lia).
  rewrite (rd_bind _ _ _ _ _ (readBytes_app 4 (cs "TZif") _ _ eq_refl)).
  rewrite bool_decide_eq_true_2 by done. cbn [negb].
  rewrite (rd_bind _ _ _ _ _ (readBytes_app 1 [version] _ _ eq_refl)).
  rewrite (rd_bind _ _ _ _ _ (readBytes_app 15 fill _ _ ltac:(unfold zlen; by rewrite Hfill))).
  rewrite (rd_bind _ _ _ _ _ (readInt32_be _ _ _ H1)), (rd_bind _ _ _ _ _ (readInt32_be _ _ _ H2)),
    (rd_bind _ _ _ _ _ (readInt32_be _ _ _ H3)), (rd_bind _ _ _ _ _ (readInt32_be _ _ _ Hzt)),
    (rd_bind _ _ _ _ _ (readInt32_be _ _ _ Hzl)), (rd_bind _ _ _ _ _ (readInt32_be _ _ _ Hza)).
  rw_cmp. replace (Z.to_nat (zlen trans)) with (length trans) by (unfold zlen; lia).
  replace (Z.to_nat (zlen locals)) with (length locals) by (unfold zlen; lia).
  rewrite (rd_bind _ _ _ _ _ (repeat_read_list readInt32 (fun t : Z * Z => be_bytes 4 t.1)
    fst (fun _ d => d) (fun t => int32_ok t.1) trans _ _
    (fun a k d Hok => readInt32_be a.1 k d Hok)
    (Forall_impl _ _ _ Htok (fun t Hok => proj1 Hok)))).
  rewrite (rd_bind _ _ _ _ _ (repeat_read_list readUInt8 (fun t : Z * Z => [to_char t.2])
    snd (fun _ d => d) (fun t => 0 <= t.2 < 256) trans _ _
    (fun a k d Hok => readUInt8_char a.2 k d Hok)
    (Forall_impl _ _ _ Htok (fun t Hok => proj1 (proj2 Hok))))).
  rewrite (rd_bind _ _ _ _ _ (repeat_read_list read_localtime _ (fun _ => tt)
    (fun l d => mkData (transitions d) (localtimes d ++ [decode_local l]) (names d)
                  (abbreviation d)) tz_local_ok locals _ _
    (fun a k d Hok => read_localtime_enc a k d Hok) Hlok)).
  rewrite foldl_push_localtimes.
  assert (forall d, foldl (fun (d : Data) (_ : Z * Z) => d) d trans = d) as Efold
    by (intros d; clear; induction trans; cbn; auto).
  rewrite !Efold. clear Efold.
  assert (zip (fst <$> trans) (snd <$> trans) = trans) as ->
    by (clear; induction trans as [|[? ?] ? IH]; cbn; [done|by f_equal]).
  cbn [Data_empty transitions localtimes names abbreviation app].
  rewrite (rd_bind _ _ _ _ _ (for_read_transitions trans locals _
    (mkData [] (decode_local <$> locals) [] []) eq_refl Htok)).
  rewrite (rd_bind _ _ _ _ _ (readBytes_app (zlen abbr) abbr rest _ eq_refl)).
  done.
Qed.

Lemma readTimeZoneFile_roundtrip_witness :
  readTimeZoneFile (H := Release)
    (Some (encode_tzif (to_char 50) (replicate 15 NUL) 0 0 0
             [(-2000000000, 1); (954032400, 0)] [(28800, 0, 0); (32400, 1, 4)]
             (cs "CST" ++ NUL :: cs "CDT" ++ [NUL]) (cs "rest")))
  = Ok (true, mkData [mkTransition (-2000000000) (-1999967600) 1;
                      mkTransition 954032400 954061200 0]
          [mkLocaltime 28800 false 0; mkLocaltime 32400 true 4] []
          (cs "CST" ++ NUL :: cs "CDT" ++ [NUL])).
Proof.
  apply (readTimeZoneFile_roundtrip (H := Release)); try done;
    unfold tz_trans_ok, tz_local_ok, int32_ok; repeat constructor; done.
Defined.

(** In a fixed time zone the local time of a moment converts back to it, and
    carries the zone's offset and name, for any C library whose timegm inverts its
    gmtime_r. *)
Theorem fixed_zone_roundtrip `{Build, LibcLaws} offset name t :
  NUL ∉ name -> - 2 ^ 37 <= t + offset < 2 ^ 37 ->
  exists local, toLocalTime (TimeZone_fixed offset name) t = Ok local
    /\ tm_gmtoff local = offset /\ tm_zone local = name /\ tm_isdst local = false
    /\ fromLocalTime (TimeZone_fixed offset name) local = Ok t.
Proof.
  intros Hn Ht. unfold toLocalTime, fromLocalTime, data_of, TimeZone_fixed.
  cbn [TimeZone_valid]. rewrite assert_true by done. rewrite !bind_Ok.
  unfold findLocaltime. cbn [transitions localtimes].
  change (at_ [?x] 0) with (Ok x). rewrite !bind_Ok.
  cbn [gmtOffset arrbIdx isDst abbreviation].
  unfold abbr_at. pose proof (zlen_nonneg name). rw_cmp. cbn [andb Z.to_nat drop].
  rewrite find_char_miss, firstn_all, bind_Ok by done.
  eexists. split; [reflexivity|]. cbn [tm_gmtoff tm_zone tm_isdst].
  split_and!; try done.
  rewrite (timegm_civil _ (gmtime_r (t + offset))) by (by repeat split).
  rewrite timegm_gmtime_r by done. change (Ok (t + offset - offset) = Ok t). f_equal. lia.
Qed.

(** The code's own conversions are such a library. *)
#[export] Instance own_libc : Libc :=
  {| gmtime_r := fun t => toUtcTime t true; timegm := fromUtcTime |}.

Lemma own_libc_laws : LibcLaws.
Proof.
  split.
  - intros s t (H1 & H2 & H3 & H4 & H5 & H6). cbn. unfold fromUtcTime. congruence.
  - intros t Ht. by apply fromUtcTime_toUtcTime.
Qed.

Lemma fixed_zone_roundtrip_witness :
  exists local,
    toLocalTime (H := Debug) (H0 := own_libc) (TimeZone_fixed 28800 (cs "CST")) 1466000000
      = Ok local
    /\ tm_gmtoff local = 28800 /\ tm_zone local = cs "CST" /\ tm_isdst local = false
    /\ fromLocalTime (H := Debug) (H0 := own_libc) (TimeZone_fixed 28800 (cs "CST")) local
      = Ok 1466000000.
Proof.
  apply (fixed_zone_roundtrip (H := Debug) (H0 := own_libc) (H1 := own_libc_laws)).
  - vm_compute. intros Hin. repeat (apply elem_of_cons in Hin as [Hin|Hin]; [discriminate Hin|]).
    by apply elem_of_nil in Hin.
  - lia.
Defined.
