(* ===== verification/StringPiece.v ===== *)
(** * String pieces: src/arale/base/StringPiece.h

    A pointer is the memory from its target to the end of its block, so moving it
    forward drops bytes and reading past the end is the fault it is. *)

From S2P Require Import Prelude Ordered.

Record StringPiece := mkSP { ptr_ : option bytes; length_ : Z }.

(** What can be read at a pointer; NULL can not be read. *)
Definition mem_of (p : option bytes) (n : Z) : outcome bytes :=
  match p with
  | Some m => mem_read m 0 n
  | None => if n =? 0 then Ok [] else Err NullCall
  end.

(** strlen: the bytes before the first NUL; there must be one. *)
Definition strlen (m : bytes) : outcome Z :=
  let n := find_char NUL m in
  if (n <? length m)%nat then Ok (Z.of_nat n) else Err OutOfBounds.

(** memcmp: the sign of the first difference, as unsigned bytes. *)
Fixpoint memcmp_ (a b : bytes) : Z :=
  match a, b with
  | x :: a', y :: b' =>
      if uchar x <? uchar y then -1 else if uchar y <? uchar x then 1 else memcmp_ a' b'
  | _, _ => 0
  end.
(** The length is converted to size_t: a negative one is out of bounds. *)
Definition memcmp (p q : option bytes) (n : Z) : outcome Z :=
  a ← mem_of p n; b ← mem_of q n; Ok (memcmp_ a b).

(** ** StringArg: a [const char*], from a C string or from a std::string *)

Definition StringArg : Type := bytes.
Definition StringArg_cstr (str : bytes) : StringArg := str.
Definition StringArg_string (str : bytes) : StringArg := str ++ [NUL].
Definition c_str (a : StringArg) : bytes := a.

(** ** Constructors *)

Definition StringPiece_null : StringPiece := mkSP None 0.
Definition StringPiece_cstr (str : bytes) : outcome StringPiece :=
  n ← strlen str; Ok (mkSP (Some str) (i32 n)).
Definition StringPiece_string (str : bytes) : StringPiece := mkSP (Some str) (i32 (zlen str)).
Definition StringPiece_len (offset : option bytes) (len : Z) : StringPiece := mkSP offset len.

(** ** Operations *)

Section ops.
Implicit Types x y : StringPiece.

Definition sp_data x : option bytes := ptr_ x.
Definition sp_size x : Z := length_ x.
Definition sp_empty x : bool := length_ x =? 0.
Definition sp_clear x : StringPiece := mkSP None 0.
Definition sp_set (buffer : option bytes) (len : Z) : StringPiece := mkSP buffer len.

Definition sp_at x (i : Z) : outcome char :=
  match ptr_ x with
  | Some m => if i <? 0 then Err OutOfBounds
              else match m !! Z.to_nat i with Some c => Ok c | None => Err OutOfBounds end
  | None => Err NullCall
  end.

(** The pointer moves forward only within its block. *)
Definition remove_prefix x (n : Z) : outcome StringPiece :=
  match ptr_ x with
  | Some m => if (0 <=? n) && (n <=? zlen m)
              then Ok (mkSP (Some (drop (Z.to_nat n) m)) (length_ x - n)) else Err OutOfBounds
  | None => if n =? 0 then Ok x else Err OutOfBounds
  end.
Definition remove_suffix x (n : Z) : StringPiece := mkSP (ptr_ x) (length_ x - n).

Definition sp_eq x y : outcome bool :=
  if length_ x =? length_ y
  then r ← memcmp (ptr_ x) (ptr_ y) (length_ x); Ok (r =? 0) else Ok false.
Definition sp_ne x y : outcome bool := b ← sp_eq x y; Ok (negb b).

Definition min_len x y : Z := if length_ x <? length_ y then length_ x else length_ y.

(** STRINGPIECE_BINARY_PREDICATE(cmp, auxcmp) *)
Definition sp_predicate (cmp auxcmp : Z -> Z -> bool) x y : outcome bool :=
  r ← memcmp (ptr_ x) (ptr_ y) (min_len x y);
  Ok (auxcmp r 0 || ((r =? 0) && cmp (length_ x) (length_ y))).
Definition sp_lt := sp_predicate Z.ltb Z.ltb.
Definition sp_le := sp_predicate Z.leb Z.ltb.
Definition sp_ge := sp_predicate Z.geb Z.gtb.
Definition sp_gt := sp_predicate Z.gtb Z.gtb.

Definition sp_compare x y : outcome Z :=
  r ← memcmp (ptr_ x) (ptr_ y) (min_len x y);
  Ok (if r =? 0 then
        if length_ x <? length_ y then -1 else if length_ y <? length_ x then 1 else r
      else r).

(** std::string(data(), size()) *)
Definition as_string x : outcome bytes := mem_of (ptr_ x) (length_ x).
Definition CopyToString x (target : bytes) : outcome bytes := as_string x.

Definition sp_starts_with x y : outcome bool :=
  if length_ y <=? length_ x
  then r ← memcmp (ptr_ x) (ptr_ y) (length_ y); Ok (r =? 0) else Ok false.
End ops.

(** ** Specification: the order of std::string *)

(** A piece over readable memory, denoting [s]. *)
Definition denotes (x : StringPiece) (s : bytes) : Prop :=
  0 <= length_ x /\ as_string x = Ok s.

Definition lex_compare (s t : bytes) : Z :=
  if bool_decide (s = t) then 0 else if ltb s t then -1 else 1.

(** ** Lemmas *)

Lemma denotes_length x s : denotes x s -> length_ x = zlen s.
Proof.
  intros [H0 H]. unfold as_string, mem_of in H. destruct (ptr_ x) as [m|].
  - unfold mem_read in H. case_match; [|done]. zify_bool. injection H as <-.
    rewrite zlen_take; [done|]. rewrite zlen_drop by lia. lia.
  - case_match; [|done]. injection H as <-. zify_bool. done.
Qed.

Lemma denotes_mem x s n :
  denotes x s -> 0 <= n <= zlen s -> mem_of (ptr_ x) n = Ok (take (Z.to_nat n) s).
Proof.
  intros Hd Hn. pose proof (denotes_length x s Hd) as Hl. destruct Hd as [H0 H].
  unfold as_string, mem_of in *. destruct (ptr_ x) as [m|].
  - unfold mem_read in *. case_match; [|done]. zify_bool. injection H as <-.
    rw_cmp. cbn [andb Z.to_nat drop]. rewrite take_take. do 2 f_equal.
    lia.
  - case_match; [|done]. injection H as <-. change (zlen []) with 0 in Hn.
    assert (n = 0) as -> by lia. done.
Qed.

Lemma memcmp_denotes x y s t n :
  denotes x s -> denotes y t -> 0 <= n <= zlen s -> n <= zlen t ->
  memcmp (ptr_ x) (ptr_ y) n = Ok (memcmp_ (take (Z.to_nat n) s) (take (Z.to_nat n) t)).
Proof.
  intros Hs Ht H1 H2. unfold memcmp.
  by rewrite (denotes_mem x s), (denotes_mem y t) by (done || lia).
Qed.

Lemma memcmp_refl l : memcmp_ l l = 0.
Proof. induction l as [|c l IH]; [done|]. cbn. by rewrite Z.ltb_irrefl. Qed.

Lemma memcmp_sign a b : memcmp_ a b = -1 \/ memcmp_ a b = 0 \/ memcmp_ a b = 1.
Proof. revert b. induction a as [|x a IH]; intros [|y b]; cbn; auto. repeat case_match; auto. Qed.

Lemma memcmp_0 a b : length a = length b -> memcmp_ a b = 0 <-> a = b.
Proof.
  revert b. induction a as [|x a IH]; intros [|y b]; try done. intros [= Hl]. cbn.
  destruct (uchar x <? uchar y) eqn:E1; [split; [done|intros [= <- <-]; zify_bool; lia]|].
  destruct (uchar y <? uchar x) eqn:E2; [split; [done|intros [= <- <-]; zify_bool; lia]|].
  zify_bool. assert (x = y) as -> by (apply uchar_inj; lia).
  rewrite IH by done. split; [congruence|by intros [=]].
Qed.

(** On the shorter length, memcmp then the lengths: the lexicographic order. *)
Lemma memcmp_lex s t :
  let n := Nat.min (length s) (length t) in
  let r := memcmp_ (take n s) (take n t) in
  lex_compare s t =
    (if r =? 0 then if zlen s <? zlen t then -1 else if zlen t <? zlen s then 1 else r else r).
Proof.
  cbv zeta. revert t. induction s as [|x s IH]; intros [|y t]; cbn [length Nat.min take memcmp_].
  - done.
  - unfold zlen. cbn [length]. cbn [Z.eqb]. by rw_cmp.
  - unfold zlen. cbn [length]. cbn [Z.eqb]. by rw_cmp.
  - unfold lex_compare in *. cbn [ltb list_ordb char_ordb] in *.
    unfold ltb at 1 2, char_ordb.
    destruct (uchar x <? uchar y) eqn:E1.
    { rewrite bool_decide_eq_false_2; [done|]. intros [= <- <-]. zify_bool. lia. }
    destruct (uchar y <? uchar x) eqn:E2.
    { rewrite bool_decide_eq_false_2; [done|]. intros [= <- <-]. zify_bool. lia. }
    zify_bool. assert (x = y) as -> by (apply uchar_inj; lia).
    specialize (IH t). rewrite !zlen_cons.
    replace (1 + zlen s <? 1 + zlen t) with (zlen s <? zlen t) by lia.
    replace (1 + zlen t <? 1 + zlen s) with (zlen t <? zlen s) by lia.
    rewrite <- IH. by rewrite (bool_decide_ext (y :: s = y :: t) (s = t))
      by (split; [by intros [=]|congruence]).
Qed.

Lemma lex_compare_trichotomy s t :
  (s = t /\ lex_compare s t = 0) \/ (s <> t /\ ltb s t = true /\ lex_compare s t = -1)
  \/ (s <> t /\ ltb t s = true /\ lex_compare s t = 1).
Proof.
  unfold lex_compare. destruct (decide (s = t)) as [->|Hne].
  - left. by rewrite bool_decide_eq_true_2.
  - right. rewrite bool_decide_eq_false_2 by done.
    destruct (ltb s t) eqn:E; [by left|]. right.
    destruct (ltb t s) eqn:E'; [done|]. by destruct (Hne (ltb_total s t E E')).
Qed.

Lemma sp_predicate_denotes cmp auxcmp x y s t :
  denotes x s -> denotes y t ->
  sp_predicate cmp auxcmp x y =
    let r := memcmp_ (take (Nat.min (length s) (length t)) s)
               (take (Nat.min (length s) (length t)) t) in
    Ok (auxcmp r 0 || ((r =? 0) && cmp (zlen s) (zlen t))).
Proof.
  intros Hs Ht. unfold sp_predicate.
  pose proof (denotes_length x s Hs) as E1. pose proof (denotes_length y t Ht) as E2.
  assert (min_len x y = Z.of_nat (Nat.min (length s) (length t))) as ->.
  { unfold min_len. rewrite E1, E2. unfold zlen. destruct (_ <? _) eqn:?; zify_bool; lia. }
  rewrite (memcmp_denotes x y s t) by (done || unfold zlen; lia).
  by rewrite Nat2Z.id, bind_Ok, E1, E2.
Qed.

Lemma sp_compare_denotes x y s t :
  denotes x s -> denotes y t -> sp_compare x y = Ok (lex_compare s t).
Proof.
  intros Hs Ht. unfold sp_compare.
  pose proof (denotes_length x s Hs) as E1. pose proof (denotes_length y t Ht) as E2.
  assert (min_len x y = Z.of_nat (Nat.min (length s) (length t))) as ->.
  { unfold min_len. rewrite E1, E2. unfold zlen. destruct (_ <? _) eqn:?; zify_bool; lia. }
  rewrite (memcmp_denotes x y s t) by (done || unfold zlen; lia).
  by rewrite Nat2Z.id, bind_Ok, E1, E2, memcmp_lex.
Qed.

(** ** Properties *)

(** On pieces over readable memory the comparisons of StringPiece are those of
    std::string on what the pieces denote: == and != are equality, <, <=, >, >= and
    compare() the lexicographic order on unsigned bytes, and starts_with is the
    prefix relation; none of them reads outside the pieces. *)
Theorem stringpiece_order x y s t :
  denotes x s -> denotes y t ->
  sp_eq x y = Ok (bool_decide (s = t)) /\ sp_ne x y = Ok (negb (bool_decide (s = t)))
  /\ sp_lt x y = Ok (ltb s t) /\ sp_gt x y = Ok (ltb t s)
  /\ sp_le x y = Ok (negb (ltb t s)) /\ sp_ge x y = Ok (negb (ltb s t))
  /\ sp_compare x y = Ok (lex_compare s t)
  /\ sp_starts_with x y = Ok (starts_with t s).
Proof.
  intros Hs Ht.
  pose proof (denotes_length x s Hs) as E1. pose proof (denotes_length y t Ht) as E2.
  assert (sp_eq x y = Ok (bool_decide (s = t))) as Heq.
  { unfold sp_eq. rewrite E1, E2. destruct (zlen s =? zlen t) eqn:E; zify_bool.
    - unfold zlen in *. rewrite (memcmp_denotes x y s t) by (done || unfold zlen; lia).
      rewrite bind_Ok, !take_ge by lia. f_equal. apply eq_true_iff_eq.
      rewrite Z.eqb_eq, bool_decide_eq_true. apply memcmp_0. lia.
    - rewrite bool_decide_eq_false_2; [done|]. by intros ->. }
  split; [done|]. split; [unfold sp_ne; by rewrite Heq|].
  unfold sp_lt, sp_gt, sp_le, sp_ge. rewrite !(sp_predicate_denotes _ _ x y s t) by done.
  pose proof (memcmp_lex s t) as El. cbv zeta in *.
  set (r := memcmp_ _ _) in *.
  pose proof (memcmp_sign (take (Nat.min (length s) (length t)) s)
                (take (Nat.min (length s) (length t)) t)) as Hr. fold r in Hr.
  rewrite (sp_compare_denotes x y s t) by done.
  assert (sp_starts_with x y = Ok (starts_with t s)) as ->.
  { unfold sp_starts_with. rewrite E1, E2. destruct (zlen t <=? zlen s) eqn:E; zify_bool.
    - unfold zlen in *. rewrite (memcmp_denotes x y s t) by (done || unfold zlen; lia).
      rewrite bind_Ok, Nat2Z.id, (take_ge t) by lia. f_equal. apply eq_true_iff_eq.
      rewrite Z.eqb_eq, starts_with_spec, memcmp_0 by (rewrite length_take; lia).
      split; [intros <-; exists (drop (length t) s); by rewrite take_drop|].
      intros [k ->]. by rewrite take_app_length.
    - f_equal. symmetry. apply not_true_iff_false. rewrite starts_with_spec.
      intros [k ->]. rewrite zlen_app in E. pose proof (zlen_nonneg k). lia. }
  destruct (lex_compare_trichotomy s t) as [[-> El']|[(Hne & Hlt & El')|(Hne & Hlt & El')]];
    rewrite El' in El.
  - assert (r = 0) as -> by (subst r; apply memcmp_refl). rewrite !ltb_irrefl.
    split_and!; try done; f_equal; lia.
  - rewrite Hlt, (ltb_asym _ _ Hlt), El'.
    assert (r = -1 \/ r = 0 /\ zlen s < zlen t) by (destruct (r =? 0) eqn:?; repeat case_match; lia).
    split_and!; try done; f_equal; lia.
  - rewrite Hlt, (ltb_asym _ _ Hlt), El'.
    assert (r = 1 \/ r = 0 /\ zlen t < zlen s) by (destruct (r =? 0) eqn:?; repeat case_match; lia).
    split_and!; try done; f_equal; lia.
Qed.

Lemma stringpiece_order_witness :
  let x := mkSP (Some (cs "Host: x")) 4 in
  let y := mkSP (Some (cs "Hosts")) 5 in
  sp_eq x y = Ok false /\ sp_ne x y = Ok true /\ sp_lt x y = Ok true /\ sp_gt x y = Ok false
  /\ sp_le x y = Ok true /\ sp_ge x y = Ok false /\ sp_compare x y = Ok (-1)
  /\ sp_starts_with x y = Ok false.
Proof.
  apply (stringpiece_order (mkSP (Some (cs "Host: x")) 4) (mkSP (Some (cs "Hosts")) 5)
           (cs "Host") (cs "Hosts")); by split; vm_compute.
Defined.
