(* ===== verification/LogStream.v ===== *)
(** * Log streams: src/arale/base/LogStream.{h,cc}

    The fixed-size buffer a message is formatted in, written through a cursor as
    the source does, and the insertion operators.  The specification says what text
    a sequence of insertions leaves: an item that does not fit is dropped as a whole. *)

From S2P Require Import Prelude Format.

Definition kSmallBuffer : Z := 4000.
Definition kLargeBuffer : Z := 4000 * 1000.
Definition kMaxNumericSize : Z := 32.

(** ** FixedBuffer<SIZE>

    [data_] is the array (SIZE is its length), [cur_] the offset of the cursor.  The
    array is not initialised: what it holds at first is an argument. *)

Record FixedBuffer := mkFB { data_ : bytes; cur_ : Z }.

Section fixed_buffer.
Implicit Types b : FixedBuffer.

Definition FixedBuffer_ctor (mem : bytes) : FixedBuffer := mkFB mem 0.
Definition fb_length b : Z := i32 (cur_ b).
Definition avail b : Z := i32 (zlen (data_ b) - cur_ b).

(** memcpy to a position of the array. *)
Definition write_at b (off : Z) (s : bytes) : outcome FixedBuffer :=
  mem ← mem_write (data_ b) off s; Ok (mkFB mem (cur_ b)).
Definition add b (len : Z) : FixedBuffer := mkFB (data_ b) (cur_ b + len).

Definition fb_append b (buf : bytes) : outcome FixedBuffer :=
  if zlen buf <? u64 (avail b)
  then b' ← write_at b (cur_ b) buf; Ok (add b' (zlen buf))
  else Ok b.

Definition reset b : FixedBuffer := mkFB (data_ b) 0.
Definition fb_bzero b : FixedBuffer := mkFB (replicate (length (data_ b)) NUL) (cur_ b).
Definition fb_toString b : outcome bytes := mem_read (data_ b) 0 (fb_length b).

(** *cur_ = 0; the string up to it. *)
Definition debugString b : outcome (bytes * FixedBuffer) :=
  b' ← write_at b (cur_ b) [NUL];
  Ok (take (find_char NUL (data_ b')) (data_ b'), b').
End fixed_buffer.

(** ** LogStream: the insertion operators *)

Abbreviation LogStream := FixedBuffer.

Section stream.
Implicit Types s : LogStream.

(** The number is written at the cursor with its terminator. *)
Definition formatInteger s (v : Z) : outcome LogStream :=
  if kMaxNumericSize <=? avail s
  then let t := convert v in
       s' ← write_at s (cur_ s) (t ++ [NUL]); Ok (add s' (zlen t))
  else Ok s.

Definition put_bool s (v : bool) : outcome LogStream := fb_append s (if v then cs "1" else cs "0").
Definition put_short s (v : Z) : outcome LogStream := formatInteger s v.
Definition put_unsigned_short s (v : Z) : outcome LogStream := formatInteger s v.
Definition put_int s (v : Z) : outcome LogStream := formatInteger s v.
Definition put_unsigned_int s (v : Z) : outcome LogStream := formatInteger s v.
Definition put_long s (v : Z) : outcome LogStream := formatInteger s v.
Definition put_unsigned_long s (v : Z) : outcome LogStream := formatInteger s v.
Definition put_long_long s (v : Z) : outcome LogStream := formatInteger s v.
Definition put_unsigned_long_long s (v : Z) : outcome LogStream := formatInteger s v.

Definition put_pointer s (v : Z) : outcome LogStream :=
  if kMaxNumericSize <=? avail s
  then
    s1 ← write_at s (cur_ s) (cs "0x");
    let t := convertHex v in
    s2 ← write_at s1 (cur_ s1 + 2) (t ++ [NUL]);
    Ok (add s2 (zlen t + 2))
  else Ok s.

(** [text] is what snprintf formats the double to with "%.12g": at most
    kMaxNumericSize - 1 characters of it and a terminator are written, and its whole
    length is returned. *)
Definition put_double s (text : bytes) : outcome LogStream :=
  if kMaxNumericSize <=? avail s
  then
    s' ← write_at s (cur_ s) (take (Z.to_nat (kMaxNumericSize - 1)) text ++ [NUL]);
    Ok (add s' (zlen text))
  else Ok s.

Definition put_char s (v : char) : outcome LogStream := fb_append s [v].

(** A [const char*]: the characters before the terminator, None for NULL. *)
Definition put_cstr s (str : option bytes) : outcome LogStream :=
  match str with Some t => fb_append s t | None => fb_append s (cs "(null)") end.
Definition put_string s (v : bytes) : outcome LogStream := fb_append s v.
Definition put_buffer s (v : FixedBuffer) : outcome LogStream :=
  t ← fb_toString v; fb_append s t.
Definition ls_append s (data : bytes) : outcome LogStream := fb_append s data.
Definition resetBuffer s : LogStream := reset s.
End stream.

(** Fmt: a number formatted by snprintf into 32 bytes; [text] is its formatting. *)
Record Fmt := mkFmt { buf_ : bytes; length_ : Z }.
Definition Fmt_ctor `{Build} (text : bytes) : outcome Fmt :=
  assert_ (zlen text <? 32) ;; Ok (mkFmt (take 31 text ++ [NUL]) (zlen text)).
Definition put_Fmt (s : LogStream) (f : Fmt) : outcome LogStream :=
  t ← mem_read (buf_ f) 0 (length_ f); fb_append s t.

(** ** Specification *)

(** What can be inserted, the operator it goes through and the text it stands for. *)
Inductive item :=
  | IBool (v : bool) | IInt (v : Z) | IPtr (v : Z) | IDouble (text : bytes)
  | IChar (c : char) | ICstr (str : option bytes) | IStr (v : bytes).

Definition put (s : LogStream) (i : item) : outcome LogStream :=
  match i with
  | IBool v => put_bool s v
  | IInt v => put_long_long s v
  | IPtr v => put_pointer s v
  | IDouble t => put_double s t
  | IChar c => put_char s c
  | ICstr t => put_cstr s t
  | IStr v => put_string s v
  end.

Fixpoint put_all (s : LogStream) (l : list item) : outcome LogStream :=
  match l with [] => Ok s | i :: l' => s' ← put s i; put_all s' l' end.

Definition item_text (i : item) : bytes :=
  match i with
  | IBool v => if v then cs "1" else cs "0"
  | IInt v => fmt_d v
  | IPtr v => cs "0x" ++ convertHex v
  | IDouble t => t
  | IChar c => [c]
  | ICstr (Some t) => t
  | ICstr None => cs "(null)"
  | IStr v => v
  end.

Definition numeric (i : item) : bool :=
  match i with IInt _ | IPtr _ | IDouble _ => true | _ => false end.

(** Numbers are those of the C++ types; "%.12g" gives at most 31 characters. *)
Definition item_ok (i : item) : Prop :=
  match i with
  | IInt v => - 2 ^ 63 <= v < 2 ^ 64
  | IPtr v => 0 <= v < 2 ^ 64
  | IDouble t => zlen t < kMaxNumericSize
  | _ => True
  end.

(** A number needs kMaxNumericSize bytes, a text one byte more than its length. *)
Definition item_fits (room : Z) (i : item) : bool :=
  if numeric i then kMaxNumericSize <=? room else zlen (item_text i) <? room.

(** The text of a stream of [size] bytes that holds [t] after inserting [i]. *)
Definition insert_text (size : Z) (t : bytes) (i : item) : bytes :=
  if item_fits (size - zlen t) i then t ++ item_text i else t.

(** The stream holds [t], and has room for a terminator. *)
Definition holds (s : LogStream) (t : bytes) : Prop :=
  exists rest, data_ s = t ++ rest /\ rest <> [] /\ cur_ s = zlen t /\ zlen (data_ s) < 2 ^ 31.

(** ** Lemmas *)

Lemma holds_avail s t : holds s t -> avail s = zlen (data_ s) - zlen t.
Proof.
  intros (rest & E & Hr & Hc & Hs). unfold avail. rewrite Hc.
  rewrite E, zlen_app in *. pose proof (zlen_nonneg t). pose proof (zlen_nonneg rest).
  apply wraps_small; lia.
Qed.

Lemma holds_room s t : holds s t -> 0 < zlen (data_ s) - zlen t.
Proof.
  intros (rest & E & Hr & Hc & Hs). rewrite E, zlen_app.
  destruct rest; [done|]. rewrite zlen_cons. pose proof (zlen_nonneg rest). lia.
Qed.

(** Writing [w] (and perhaps more) at the cursor and advancing by the length of [w]. *)
Lemma holds_write s t w k :
  holds s t -> zlen (w ++ k) <= zlen (data_ s) - zlen t ->
  zlen w < zlen (data_ s) - zlen t ->
  exists mem, mem_write (data_ s) (zlen t) (w ++ k) = Ok mem
    /\ holds (mkFB mem (zlen t + zlen w)) (t ++ w) /\ zlen mem = zlen (data_ s).
Proof.
  intros (rest & E & Hr & Hc & Hs) H1 H2. rewrite E in *. rewrite (zlen_app t) in H1, H2.
  set (n := Z.to_nat (zlen (w ++ k))).
  assert (rest = take n rest ++ drop n rest) as Er by (by rewrite take_drop).
  assert (zlen (take n rest) = zlen (w ++ k)) as El.
  { subst n. rewrite zlen_take; [done|]. pose proof (zlen_nonneg (w ++ k)). lia. }
  exists (t ++ (w ++ k) ++ drop n rest). split.
  - rewrite Er at 1. by apply mem_write_app.
  - assert (zlen (t ++ (w ++ k) ++ drop n rest) = zlen (t ++ rest)) as Ez.
    { pose proof (f_equal zlen Er) as Ez. rewrite zlen_app in Ez.
      rewrite (zlen_app t), (zlen_app (w ++ k)), (zlen_app t). lia. }
    split; [|done]. exists (k ++ drop n rest). cbn [data_ cur_].
    split_and!.
    + by rewrite <- !(assoc_L (++)).
    + intros En. rewrite <- (assoc_L (++)), En, app_nil_r in Ez.
      rewrite !zlen_app in Ez. lia.
    + by rewrite zlen_app.
    + by rewrite Ez.
Qed.

Lemma fb_append_holds s t w :
  holds s t ->
  exists s', fb_append s w = Ok s' /\ zlen (data_ s') = zlen (data_ s)
    /\ holds s' (if zlen w <? zlen (data_ s) - zlen t then t ++ w else t).
Proof.
  intros Hh. pose proof (holds_room s t Hh). pose proof (holds_avail s t Hh) as Ea.
  pose proof Hh as (rest & E & Hr & Hc & Hs). unfold fb_append, write_at. rewrite Ea.
  pose proof (zlen_nonneg t). rewrite u64_small by lia.
  destruct (_ <? _) eqn:Ef; [|by exists s]. zify_bool.
  destruct (holds_write s t w [] Hh) as (mem & Em & Hm & Hl); rewrite ?app_nil_r in *; try lia.
  rewrite Hc, Em. eexists. split; [reflexivity|]. done.
Qed.

(** What every numeric operator does: [w] and a terminator, within 32 bytes. *)
Lemma numeric_holds s t w :
  holds s t -> kMaxNumericSize <= avail s -> zlen w < kMaxNumericSize ->
  exists mem, mem_write (data_ s) (cur_ s) (w ++ [NUL]) = Ok mem
    /\ holds (mkFB mem (cur_ s + zlen w)) (t ++ w) /\ zlen mem = zlen (data_ s).
Proof.
  intros Hh Ha Hw. pose proof (holds_avail s t Hh) as Ea. rewrite Ea in Ha.
  pose proof Hh as (rest & E & Hr & Hc & Hs). rewrite Hc.
  apply holds_write; [done| |lia]. rewrite zlen_app, zlen_cons, zlen_nil. lia.
Qed.

Lemma put_holds s t i :
  holds s t -> item_ok i ->
  exists s', put s i = Ok s' /\ zlen (data_ s') = zlen (data_ s)
    /\ holds s' (insert_text (zlen (data_ s)) t i).
Proof.
  intros Hh Hok. pose proof (holds_avail s t Hh) as Ea. unfold insert_text, item_fits.
  destruct i as [v|v|v|w|c|[w|]|w]; cbn [put numeric item_text item_ok] in *;
    try (by apply fb_append_holds);
    unfold put_long_long, formatInteger, put_pointer, put_double, write_at; rewrite <- Ea;
    destruct (kMaxNumericSize <=? avail s) eqn:E; try (by exists s); zify_bool.
  - pose proof (convert_length v). rewrite <- convert_fmt_d by done.
    destruct (numeric_holds s t (convert v)) as (mem & -> & Hm & Hl); [done|done|..].
    { unfold kMaxNumericSize. lia. }
    eexists. split; [reflexivity|]. done.
  - pose proof (convertHex_length v).
    destruct (holds_write s t (cs "0x") [] Hh) as (m1 & E1 & Hw1 & L1).
    { rewrite <- Ea. change (zlen (cs "0x" ++ [])) with 2. unfold kMaxNumericSize in E. lia. }
    { rewrite <- Ea. change (zlen (cs "0x")) with 2. unfold kMaxNumericSize in E. lia. }
    pose proof Hh as (? & ? & ? & Hc & ?). rewrite app_nil_r in E1. rewrite Hc, E1.
    rewrite !bind_Ok. cbn [data_ cur_].
    destruct (holds_write _ _ (convertHex v) [NUL] Hw1) as (m2 & E2 & Hw2 & L2).
    { cbn [data_]. rewrite L1, !zlen_app. change (zlen (cs "0x")) with 2.
      rewrite zlen_cons, zlen_nil. unfold kMaxNumericSize in E. lia. }
    { cbn [data_]. rewrite L1, !zlen_app. change (zlen (cs "0x")) with 2.
      unfold kMaxNumericSize in E. lia. }
    cbn [data_] in *. rewrite zlen_app in E2. change (zlen (cs "0x")) with 2 in E2.
    rewrite E2. eexists. split; [reflexivity|]. cbn [data_ add cur_]. split; [lia|].
    unfold add. cbn [data_ cur_]. rewrite (assoc_L (++)). rewrite zlen_app in Hw2. change (zlen (cs "0x")) with 2 in Hw2.
    replace (zlen t + (zlen (convertHex v) + 2)) with (zlen t + 2 + zlen (convertHex v)) by lia.
    done.
  - destruct (numeric_holds s t w) as (mem & Em & Hm & Hl); [done|done|done|].
    rewrite take_ge by (unfold zlen, kMaxNumericSize in *; lia).
    rewrite Em. eexists. split; [reflexivity|]. done.
Qed.

Lemma put_all_holds s t items :
  holds s t -> Forall item_ok items ->
  exists s', put_all s items = Ok s' /\ zlen (data_ s') = zlen (data_ s)
    /\ holds s' (foldl (insert_text (zlen (data_ s))) t items).
Proof.
  intros Hh Hok. revert s t Hh. induction Hok as [|i items Hi Hok IH]; intros s t Hh.
  - by exists s.
  - cbn [put_all foldl]. destruct (put_holds s t i Hh Hi) as (s' & -> & Hl & Hh').
    rewrite bind_Ok, <- Hl. rewrite <- Hl in Hh'. by apply IH.
Qed.

Lemma holds_toString s t : holds s t -> fb_toString s = Ok t.
Proof.
  intros Hh. pose proof (holds_room s t Hh). pose proof (zlen_nonneg t).
  destruct Hh as (rest & E & Hr & Hc & Hs). unfold fb_toString, fb_length.
  rewrite Hc, wraps_small, E by (rewrite E in *; lia).
  change (t ++ rest) with ([] ++ t ++ rest). by apply mem_read_app.
Qed.

(** ** Properties *)

(** Whatever is inserted into a log stream, the stream never writes outside its
    array (there is always room left for a terminator), every item is appended as a
    whole or, when there is not the room the code asks for, dropped as a whole, and
    toString gives the concatenation of the items kept, integers in decimal. *)
Theorem logstream_inserts s t items :
  holds s t -> Forall item_ok items ->
  exists s', put_all s items = Ok s'
    /\ holds s' (foldl (insert_text (zlen (data_ s))) t items)
    /\ fb_toString s' = Ok (foldl (insert_text (zlen (data_ s))) t items).
Proof.
  intros Hh Hok. destruct (put_all_holds s t items Hh Hok) as (s' & E & _ & Hh').
  exists s'. split_and!; [done|done|]. by apply holds_toString.
Qed.

Definition sample_items : list item :=
  [IInt (-42); IChar (to_char 32); IPtr 255; IInt 7; ICstr None;
   IStr (cs "0123456789012345678901234567")].

Lemma logstream_inserts_witness :
  exists s', put_all (FixedBuffer_ctor (replicate 39 NUL)) sample_items = Ok s'
    /\ holds s' (cs "-42 0xFF(null)") /\ fb_toString s' = Ok (cs "-42 0xFF(null)").
Proof.
  assert (foldl (insert_text 39) [] sample_items = cs "-42 0xFF(null)") as <-
    by (vm_compute; reflexivity).
  apply (logstream_inserts (FixedBuffer_ctor (replicate 39 NUL)) [] sample_items).
  - exists (replicate 39 NUL). by vm_compute.
  - repeat constructor; done.
Defined.
