(* ===== verification/Logging.v ===== *)
(** * Logging: src/arale/base/Logging.{h,cc}, CurrentThread.h, Thread.cc

    The logger as one thread sees it: its thread-local cache of the formatted second,
    the globals of Logging.cc, and a log statement from the construction of a Logger to
    its destruction, which gives the line for the output function; Journal.v has the
    threads of a process and the output functions.  The C library's
    gmtime_r is the [Libc] parameter of TimeZone; gettimeofday, gettid and
    strerror_r give arguments. *)

From S2P Require Import Prelude Format Date TimeZone LogStream.

Inductive LogLevel := TRACE | DEBUG | INFO | WARN | ERROR | FATAL.
#[global] Instance LogLevel_eq_dec : EqDecision LogLevel.
Proof. solve_decision. Defined.

Definition level_number (l : LogLevel) : Z :=
  match l with TRACE => 0 | DEBUG => 1 | INFO => 2 | WARN => 3 | ERROR => 4 | FATAL => 5 end.

Definition LogLevelName (l : LogLevel) : bytes :=
  match l with
  | TRACE => cs "TRACE " | DEBUG => cs "DEBUG " | INFO => cs "INFO  "
  | WARN => cs "WARN  " | ERROR => cs "ERROR " | FATAL => cs "FATAL "
  end.

(** initLogLevel: which of the two environment variables are set. *)
Definition initLogLevel (muduo_log_trace muduo_log_debug : bool) : LogLevel :=
  if muduo_log_trace then TRACE else if muduo_log_debug then DEBUG else INFO.

(** The text after the last '/': strrchr. *)
Definition SLASH : char := to_char 47.
Fixpoint after_last_slash (acc l : bytes) : bytes :=
  match l with
  | [] => acc
  | c :: l' => if decide (c = SLASH) then after_last_slash l' l' else after_last_slash acc l'
  end.
Record SourceFile := mkSourceFile { sf_data_ : bytes; sf_size_ : Z }.
Definition SourceFile_ctor (filename : bytes) : SourceFile :=
  let base := after_last_slash filename filename in mkSourceFile base (zlen base).

(** ** The thread-local and global variables *)

Record Globals := mkGlobals {
  t_time : bytes; t_lastSecond : Z;
  threadID : Z; threadIDStr : bytes; threadIDStr_len : Z;
  g_logLevel : LogLevel; g_logTimeZone : TimeZone
}.
Definition Globals_init (level : LogLevel) : Globals :=
  mkGlobals (replicate 32 NUL) 0 0 (replicate 32 NUL) 6 level None.

Definition setLogLevel (level : LogLevel) (g : Globals) : Globals :=
  mkGlobals (t_time g) (t_lastSecond g) (threadID g) (threadIDStr g) (threadIDStr_len g)
    level (g_logTimeZone g).
Definition setTimeZone (tz : TimeZone) (g : Globals) : Globals :=
  mkGlobals (t_time g) (t_lastSecond g) (threadID g) (threadIDStr g) (threadIDStr_len g)
    (g_logLevel g) tz.

(** The condition of the LOG_TRACE, LOG_DEBUG and LOG_INFO macros; the others are
    unconditional. *)
Definition log_enabled (g : Globals) (level : LogLevel) : bool :=
  match level with
  | TRACE | DEBUG | INFO => level_number (g_logLevel g) <=? level_number level
  | _ => true
  end.

(** snprintf into an array of 32: the text, its terminator and what was there. *)
Definition snprintf32 (old text : bytes) : bytes :=
  take 32 (snprintf 32 text ++ NUL :: drop (S (length (snprintf 32 text))) old).

(** getCurrentThreadID: the first call asks the kernel, [tid]. *)
Definition getCurrentThreadID (tid : Z) (g : Globals) : Globals :=
  if threadID g =? 0 then
    let text := fmt_wd 5 tid in
    mkGlobals (t_time g) (t_lastSecond g) tid (snprintf32 (threadIDStr g) text) (zlen text)
      (g_logLevel g) (g_logTimeZone g)
  else g.

Section logger.
Context `{Build, Libc}.

(** class T: a string of known length. *)
Definition put_T (s : LogStream) (str : bytes) (len : Z) : outcome LogStream :=
  assert_ (Z.of_nat (find_char NUL str) =? len) ;;
  t ← mem_read str 0 len; fb_append s t.

Definition put_SourceFile (s : LogStream) (v : SourceFile) : outcome LogStream :=
  t ← mem_read (sf_data_ v) 0 (sf_size_ v); fb_append s t.

(** "%4d%02d%02d %02d:%02d:%02d" *)
Definition format_second (t : tm) : bytes :=
  fmt_wd 4 (tm_year t + 1900) ++ fmt_0d 2 (tm_mon t + 1) ++ fmt_0d 2 (tm_mday t) ++ cs " "
  ++ fmt_0d 2 (tm_hour t) ++ cs ":" ++ fmt_0d 2 (tm_min t) ++ cs ":" ++ fmt_0d 2 (tm_sec t).

(** Timestamp::toFormattedString *)
Definition toFormattedString (t : Timestamp) (showMicroseconds : bool) : bytes :=
  let seconds := Z.quot (microSecondsSinceEpoch t) kMicroSecondsPerSecond in
  let tm_time := gmtime_r seconds in
  if showMicroseconds then
    let microseconds := Z.rem (microSecondsSinceEpoch t) kMicroSecondsPerSecond in
    snprintf 32 (format_second tm_time ++ cs "." ++ fmt_0d 6 microseconds)
  else snprintf 32 (format_second tm_time).

Record Logger := mkLogger {
  time_ : Timestamp; stream_ : LogStream; level_ : LogLevel; line_ : Z; basename_ : SourceFile
}.
Definition with_stream (l : Logger) (s : LogStream) : Logger :=
  mkLogger (time_ l) s (level_ l) (line_ l) (basename_ l).

Definition micros (t : Timestamp) : Z :=
  Z.rem (microSecondsSinceEpoch t) kMicroSecondsPerSecond.

(** The first half of formatTime: the text of the second, unless it is cached. *)
Definition formatSecond (seconds : Z) (g : Globals) : outcome Globals :=
  if negb (seconds =? t_lastSecond g) then
    tm_time ← (if TimeZone_valid (g_logTimeZone g)
               then toLocalTime (g_logTimeZone g) seconds
               else Ok (gmtime_r seconds));
    let text := format_second tm_time in
    assert_ (zlen text =? 17) ;;
    Ok (mkGlobals (snprintf32 (t_time g) text) seconds (threadID g) (threadIDStr g)
          (threadIDStr_len g) (g_logLevel g) (g_logTimeZone g))
  else Ok g.

Definition formatTime (l : Logger) (g : Globals) : outcome (Logger * Globals) :=
  g' ← formatSecond (secondsSinceEpoch (time_ l)) g;
  let '(suffix, n) :=
    if TimeZone_valid (g_logTimeZone g') then (cs " ", 8) else (cs "Z ", 9) in
  us ← Fmt_ctor (cs "." ++ fmt_0d 6 (i32 (micros (time_ l))) ++ suffix);
  assert_ (length_ us =? n) ;;
  s1 ← put_T (stream_ l) (t_time g') 17;
  s2 ← put_T s1 (buf_ us) n;
  Ok (with_stream l s2, g').

(** Logger::Impl::Impl; [mem] is the uninitialised array of the stream, [now] the
    time, [tid] what gettid gives, [strerror] what strerror_r says of savedErrno. *)
Definition Impl_ctor (mem : bytes) (now : Timestamp) (tid : Z) (strerror : bytes)
    (level : LogLevel) (savedErrno : Z) (file : SourceFile) (line : Z) (g : Globals)
    : outcome (Logger * Globals) :=
  '(l, g) ← formatTime (mkLogger now (FixedBuffer_ctor mem) level line file) g;
  let g := getCurrentThreadID tid g in
  s ← put_T (stream_ l) (threadIDStr g) (threadIDStr_len g);
  s ← put_T s (cs " " ++ [NUL]) 1;
  s ← put_T s (LogLevelName level ++ [NUL]) 6;
  s ← (if negb (savedErrno =? 0) then
         s ← put_cstr s (Some strerror);
         s ← put_cstr s (Some (cs " (errno="));
         s ← put_int s savedErrno;
         put_cstr s (Some (cs ") "))
       else Ok s);
  Ok (with_stream l s, g).

Definition Logger_line mem now tid (file : SourceFile) (line : Z) g :=
  Impl_ctor mem now tid [] INFO 0 file line g.
Definition Logger_level mem now tid (file : SourceFile) (line : Z) (level : LogLevel) g :=
  Impl_ctor mem now tid [] level 0 file line g.
Definition Logger_func mem now tid (file : SourceFile) (line : Z) (level : LogLevel)
    (func : bytes) g : outcome (Logger * Globals) :=
  '(l, g) ← Impl_ctor mem now tid [] level 0 file line g;
  s ← put_cstr (stream_ l) (Some func);
  s ← put_char s (to_char 32);
  Ok (with_stream l s, g).
Definition Logger_abort mem now tid strerror (errno : Z) (file : SourceFile) (line : Z)
    (toAbort : bool) g :=
  Impl_ctor mem now tid strerror (if toAbort then FATAL else ERROR) errno file line g.

Definition finish (l : Logger) : outcome Logger :=
  s ← put_cstr (stream_ l) (Some (cs " - "));
  s ← put_SourceFile s (basename_ l);
  s ← put_char s (to_char 58);
  s ← put_int s (line_ l);
  s ← put_char s LF;
  Ok (with_stream l s).

(** What the destructor does to the outside. *)
Inductive log_event := Output (msg : bytes) | Flush | Abort_.

Definition Logger_dtor (l : Logger) : outcome (list log_event) :=
  l ← finish l;
  msg ← fb_toString (stream_ l);
  Ok (Output msg :: if decide (level_ l = FATAL) then [Flush; Abort_] else []).

(** A statement LOG_xxx << items, with the level's constructor. *)
Definition log_statement (mem : bytes) (now : Timestamp) (tid : Z) (file : SourceFile)
    (line : Z) (level : LogLevel) (func : bytes) (items : list item) (g : Globals)
    : outcome (list log_event * Globals) :=
  if log_enabled g level then
    '(l, g) ← match level with
              | TRACE | DEBUG => Logger_func mem now tid file line level func g
              | INFO => Logger_line mem now tid file line g
              | _ => Logger_level mem now tid file line level g
              end;
    s ← put_all (stream_ l) items;
    ev ← Logger_dtor (with_stream l s);
    Ok (ev, g)
  else Ok ([], g).

(** LOG_SYSERR << items and LOG_SYSFATAL << items, with the errno of the thread. *)
Definition log_sys_statement (mem : bytes) (now : Timestamp) (tid : Z) (strerror : bytes)
    (errno : Z) (file : SourceFile) (line : Z) (toAbort : bool) (items : list item)
    (g : Globals) : outcome (list log_event * Globals) :=
  '(l, g) ← Logger_abort mem now tid strerror errno file line toAbort g;
  s ← put_all (stream_ l) items;
  ev ← Logger_dtor (with_stream l s);
  Ok (ev, g).

(** CheckNotNull: a null pointer is logged as FATAL. *)
Definition CheckNotNull mem now tid (file : SourceFile) (line : Z) (names : bytes)
    (is_null : bool) (g : Globals) : outcome (list log_event * Globals) :=
  if is_null then log_statement mem now tid file line FATAL [] [ICstr (Some names)] g
  else Ok ([], g).
End logger.

(** ** Specification of a line *)

Section spec.
Context `{Build, Libc}.

(** The broken-down time of a second in the zone of the logger. *)
Definition zone_time (tz : TimeZone) (seconds : Z) : outcome tm :=
  if TimeZone_valid tz then toLocalTime tz seconds else Ok (gmtime_r seconds).

(** The cache holds the text of its second in the current zone. *)
Definition cache_ok (g : Globals) : Prop :=
  exists t rest, zone_time (g_logTimeZone g) (t_lastSecond g) = Ok t
    /\ t_time g = format_second t ++ NUL :: rest /\ zlen (format_second t) = 17
    /\ NUL ∉ format_second t.

Definition tid_ok (tid : Z) (g : Globals) : Prop :=
  0 < tid < 10 ^ 7 /\
  (threadID g = 0 \/ threadID g = tid /\ threadIDStr_len g = zlen (fmt_wd 5 tid)
     /\ exists rest, threadIDStr g = fmt_wd 5 tid ++ NUL :: rest).

(** What a thread keeps between its statements. *)
Definition thread_ok (tid : Z) (g : Globals) : Prop :=
  length (t_time g) = 32%nat /\ length (threadIDStr g) = 32%nat /\ tid_ok tid g.

(** [t] is the broken-down time of [now], and has the 17 characters of the format. *)
Definition stampable (tz : TimeZone) (now : Timestamp) (t : tm) : Prop :=
  zone_time tz (secondsSinceEpoch now) = Ok t /\ zlen (format_second t) = 17
  /\ NUL ∉ format_second t /\ 0 <= microSecondsSinceEpoch now.

(** time, thread and level of a line *)
Definition start_items (t : tm) (us : Z) (zone : bool) (tid : Z) (level : LogLevel)
    : list item :=
  [IStr (format_second t); IStr (cs "." ++ fmt_0d 6 us ++ (if zone then cs " " else cs "Z "));
   IStr (fmt_wd 5 tid); IStr (cs " "); IStr (LogLevelName level)].
(** the function, in a line of TRACE or DEBUG *)
Definition func_items (level : LogLevel) (func : bytes) : list item :=
  match level with TRACE | DEBUG => [ICstr (Some func); IChar (to_char 32)] | _ => [] end.
(** the error, if there is one *)
Definition errno_items (savedErrno : Z) (strerror : bytes) : list item :=
  if savedErrno =? 0 then []
  else [ICstr (Some strerror); ICstr (Some (cs " (errno=")); IInt savedErrno; ICstr (Some (cs ") "))].
Definition suffix_items (file : SourceFile) (line : Z) : list item :=
  [ICstr (Some (cs " - ")); IStr (sf_data_ file); IChar (to_char 58); IInt line; IChar LF].
End spec.

(** ** Lemmas *)

Lemma mem_read_prefix (l k : bytes) n : n = zlen l -> mem_read (l ++ k) 0 n = Ok l.
Proof. intros ->. change (l ++ k) with ([] ++ l ++ k). by apply mem_read_app. Qed.

Section lemmas.
Context `{Build, Libc}.

(** A string of known length is inserted like any string. *)
Lemma put_T_str s str rest n :
  NUL ∉ str -> n = zlen str -> put_T s (str ++ NUL :: rest) n = put s (IStr str).
Proof.
  intros Hn ->. unfold put_T. rewrite find_char_hit by done.
  rewrite assert_true by (unfold zlen; by rewrite Z.eqb_refl).
  rewrite bind_Ok, mem_read_prefix by done. done.
Qed.

Lemma put_SourceFile_str s f :
  sf_size_ f = zlen (sf_data_ f) -> put_SourceFile s f = put s (IStr (sf_data_ f)).
Proof.
  intros E. unfold put_SourceFile. rewrite E.
  rewrite <- (app_nil_r (sf_data_ f)) at 1. by rewrite mem_read_prefix.
Qed.

(** The text in an array of 32, terminated. *)
Lemma snprintf32_ok old text :
  length old = 32%nat -> (length text <= 31)%nat ->
  exists rest, snprintf32 old text = text ++ NUL :: rest /\ length (snprintf32 old text) = 32%nat.
Proof.
  intros Ho Ht. unfold snprintf32, snprintf. rewrite (take_ge text) by lia.
  exists (drop (S (length text)) old).
  rewrite take_ge by (rewrite length_app; cbn [length]; rewrite length_drop; lia).
  split; [done|]. rewrite length_app. cbn [length]. rewrite length_drop. lia.
Qed.

Lemma fmt_us_ok us (suffix : bytes) :
  0 <= us < 10 ^ 6 -> NUL ∉ suffix ->
  zlen (cs "." ++ fmt_0d 6 us ++ suffix) = 7 + zlen suffix
  /\ NUL ∉ cs "." ++ fmt_0d 6 us ++ suffix.
Proof.
  intros Hus Hs. unfold fmt_0d. rewrite (proj2 (Z.ltb_ge _ _)) by lia. split.
  - unfold zlen. rewrite !length_app, pad_length.
    + change (length (cs ".")) with 1%nat. lia.
    + apply fmt_d_length; [done|lia].
  - rewrite !not_elem_of_app. split_and!; [|..|done].
    + by apply (bool_decide_eq_false_1 (NUL ∈ cs ".")).
    + apply pad_not_NUL; [done|]. apply fmt_d_not_NUL. lia.
Qed.

(** Consecutive insertions are one sequence of insertions. *)
Lemma put_all_app s l k : put_all s (l ++ k) = s' ← put_all s l; put_all s' k.
Proof.
  revert s. induction l as [|i l IH]; intros s; cbn [put_all app]; [done|].
  destruct (put s i); cbn; [apply IH|done].
Qed.

(** What formatting the time keeps of the globals. *)
Definition time_only (g g' : Globals) : Prop :=
  threadID g' = threadID g /\ threadIDStr g' = threadIDStr g
  /\ threadIDStr_len g' = threadIDStr_len g
  /\ g_logLevel g' = g_logLevel g /\ g_logTimeZone g' = g_logTimeZone g.

Lemma formatSecond_ok seconds g t :
  length (t_time g) = 32%nat -> cache_ok g \/ seconds <> t_lastSecond g ->
  zone_time (g_logTimeZone g) seconds = Ok t ->
  zlen (format_second t) = 17 -> NUL ∉ format_second t ->
  exists g' rest, formatSecond seconds g = Ok g' /\ t_time g' = format_second t ++ NUL :: rest
    /\ length (t_time g') = 32%nat /\ cache_ok g' /\ time_only g g'
    /\ t_lastSecond g' = seconds.
Proof.
  intros Hlen Hc Ht H17 Hnul. unfold formatSecond.
  destruct (seconds =? t_lastSecond g) eqn:E; cbn [negb]; zify_bool.
  - destruct Hc as [Hc|Hc]; [|done]. pose proof Hc as (t' & rest & Et & Er & _).
    rewrite <- E, Ht in Et. injection Et as <-. exists g, rest. by split_and!.
  - unfold zone_time in Ht. rewrite Ht, bind_Ok. cbv zeta.
    rewrite assert_true, bind_Ok by (by apply Z.eqb_eq).
    destruct (snprintf32_ok (t_time g) (format_second t)) as (rest & Er & El);
      [done|unfold zlen in H17; lia|].
    eexists _, rest. split; [reflexivity|].
    cbn [t_time t_lastSecond]. split_and!; try done. exists t, rest. by split_and!.
Qed.

(** The time of a line is the text of the second, whatever it is, and the microseconds. *)
Lemma formatTime_text l g g' t rest :
  formatSecond (secondsSinceEpoch (time_ l)) g = Ok g' ->
  t_time g' = format_second t ++ NUL :: rest ->
  zlen (format_second t) = 17 -> NUL ∉ format_second t ->
  0 <= microSecondsSinceEpoch (time_ l) ->
  formatTime l g =
    (s ← put_all (stream_ l)
       [IStr (format_second t);
        IStr (cs "." ++ fmt_0d 6 (micros (time_ l))
              ++ (if TimeZone_valid (g_logTimeZone g') then cs " " else cs "Z "))];
     Ok (with_stream l s, g')).
Proof.
  intros E Er H17 Hnul Hpos. unfold formatTime. rewrite E, bind_Ok.
  assert (0 <= micros (time_ l) < 10 ^ 6) as Hus
    by (apply Z.rem_bound_pos; [done|by unfold kMicroSecondsPerSecond]).
  rewrite wraps_small by lia.
  set (suffix := if TimeZone_valid (g_logTimeZone g') then cs " " else cs "Z ").
  set (n := if TimeZone_valid (g_logTimeZone g') then 8 else 9).
  replace (if TimeZone_valid (g_logTimeZone g') then (cs " ", 8) else (cs "Z ", 9))
    with (suffix, n) by (subst suffix n; by destruct (TimeZone_valid _)).
  destruct (fmt_us_ok (micros (time_ l)) suffix Hus) as [Hz Hn0].
  { subst suffix. destruct (TimeZone_valid _); by eapply bool_decide_eq_false_1. }
  assert (7 + zlen suffix = n) as Hn by (subst suffix n; by destruct (TimeZone_valid _)).
  assert (n = 8 \/ n = 9) as Hn89 by (subst n; destruct (TimeZone_valid _); auto).
  unfold Fmt_ctor. rewrite assert_true by (rw_cmp; done). rewrite !bind_Ok.
  cbn [length_ buf_]. rewrite assert_true, bind_Ok by (apply Z.eqb_eq; lia).
  rewrite Er, put_T_str by done. cbn [put_all].
  destruct (put _ _); [|done]. rewrite !bind_Ok.
  rewrite take_ge by (unfold zlen in Hz; unfold zlen in Hn; lia).
  rewrite put_T_str by (done || lia). by destruct (put _ _).
Qed.

(** The time of a line: the cache is refreshed when the second has changed. *)
Lemma formatTime_ok l g t :
  length (t_time g) = 32%nat -> cache_ok g \/ secondsSinceEpoch (time_ l) <> t_lastSecond g ->
  zone_time (g_logTimeZone g) (secondsSinceEpoch (time_ l)) = Ok t ->
  zlen (format_second t) = 17 -> NUL ∉ format_second t ->
  0 <= microSecondsSinceEpoch (time_ l) ->
  exists g', formatTime l g =
    (s ← put_all (stream_ l)
       [IStr (format_second t);
        IStr (cs "." ++ fmt_0d 6 (micros (time_ l))
              ++ (if TimeZone_valid (g_logTimeZone g) then cs " " else cs "Z "))];
     Ok (with_stream l s, g'))
    /\ length (t_time g') = 32%nat /\ cache_ok g' /\ time_only g g'
    /\ t_lastSecond g' = secondsSinceEpoch (time_ l).
Proof.
  intros Hlen Hc Ht H17 Hnul Hpos.
  destruct (formatSecond_ok _ g t Hlen Hc Ht H17 Hnul)
    as (g' & rest & E & Er & Hl' & Hc' & Hto & Hsec).
  exists g'. split; [|done]. rewrite (formatTime_text l g g' t rest) by done.
  pose proof Hto as (_ & _ & _ & _ & ->). done.
Qed.

Lemma tid_text tid : 0 < tid < 10 ^ 7 ->
  zlen (fmt_wd 5 tid) <= 7 /\ NUL ∉ fmt_wd 5 tid.
Proof.
  intros Htid. unfold fmt_wd. split.
  - unfold zlen, pad. rewrite length_app, length_replicate.
    pose proof (fmt_d_length tid 7 ltac:(lia) ltac:(lia)). lia.
  - apply pad_not_NUL; [done|]. apply fmt_d_not_NUL. lia.
Qed.

Lemma getCurrentThreadID_ok tid g :
  tid_ok tid g -> length (threadIDStr g) = 32%nat ->
  exists g' rest, getCurrentThreadID tid g = g' /\ threadIDStr g' = fmt_wd 5 tid ++ NUL :: rest
    /\ threadIDStr_len g' = zlen (fmt_wd 5 tid) /\ threadID g' = tid
    /\ t_time g' = t_time g /\ t_lastSecond g' = t_lastSecond g
    /\ g_logTimeZone g' = g_logTimeZone g /\ g_logLevel g' = g_logLevel g
    /\ length (threadIDStr g') = 32%nat.
Proof.
  intros [Htid Hg] Hlen. destruct (tid_text tid Htid) as [Hz _]. unfold getCurrentThreadID.
  destruct Hg as [Hg|(Hg & Hl & rest & Er)]; rewrite Hg.
  - cbn [Z.eqb]. destruct (snprintf32_ok (threadIDStr g) (fmt_wd 5 tid)) as (rest & Er & Hl32);
      [done|unfold zlen in Hz; lia|]. eexists _, rest. split; [reflexivity|].
    cbn [threadIDStr]. rewrite Er in Hl32 |- *. by split_and!.
  - rewrite (proj2 (Z.eqb_neq _ _)) by lia. exists g, rest. by split_and!.
Qed.

Lemma LogLevelName_ok level : zlen (LogLevelName level) = 6 /\ NUL ∉ LogLevelName level.
Proof. destruct level; (split; [done|by eapply bool_decide_eq_false_1]). Qed.

(** What the constructor of a Logger leaves to the next statement of the thread. *)
Definition leaves (tid : Z) (now : Timestamp) (g g' : Globals) : Prop :=
  thread_ok tid g' /\ cache_ok g' /\ t_lastSecond g' = secondsSinceEpoch now
  /\ threadID g' = tid /\ g_logLevel g' = g_logLevel g /\ g_logTimeZone g' = g_logTimeZone g.

(** The start of every line, and what it leaves. *)
Lemma Impl_ctor_ok mem now tid strerror level savedErrno file line g t :
  thread_ok tid g -> cache_ok g \/ secondsSinceEpoch now <> t_lastSecond g ->
  stampable (g_logTimeZone g) now t ->
  exists g', Impl_ctor mem now tid strerror level savedErrno file line g =
    (s ← put_all (FixedBuffer_ctor mem)
       (start_items t (micros now) (TimeZone_valid (g_logTimeZone g)) tid level
        ++ errno_items savedErrno strerror);
     Ok (mkLogger now s level line file, g')) /\ leaves tid now g g'.
Proof.
  intros (Hlen & Hlt & Htid) Hc (Ht & H17 & Hnul & Hpos). unfold Impl_ctor.
  destruct (formatTime_ok (mkLogger now (FixedBuffer_ctor mem) level line file) g t
              Hlen Hc Ht H17 Hnul Hpos) as (g1 & -> & Hl1 & Hc1 & Hto & Hsec).
  cbn [time_ stream_] in *. destruct Hto as (Hi & His & Hil & Hlv & Htz).
  destruct (getCurrentThreadID_ok tid g1)
    as (g2 & rest & Eg2 & Er & El & Ei & Et & Es & Ez & Elv & Hls).
  { split; [apply Htid|]. rewrite Hi, His, Hil. apply Htid. }
  { by rewrite His. }
  exists g2. split.
  2: { unfold leaves, thread_ok, tid_ok. rewrite Et, Es, Ei, Ez, Elv, Er, El, Hsec.
       rewrite Er in Hls. split_and!; try done; try apply Htid.
       - right. split_and!; [done..|]. by exists rest.
       - destruct Hc1 as (t' & rest' & ? & ? & ?). exists t', rest'. by rewrite Ez, Es, Et. }
  unfold start_items, errno_items.
  change [IStr (format_second t); ?a; ?b; ?c; ?d]
    with ([IStr (format_second t); a] ++ [b; c; d]).
  rewrite !put_all_app. destruct (put_all _ [_; _]); [|done]. rewrite !bind_Ok.
  rewrite Eg2, Er, El. destruct (tid_text tid (proj1 Htid)) as [_ Hn].
  rewrite put_T_str by done. cbn [put_all stream_ with_stream].
  destruct (put _ _); [|done]. rewrite !bind_Ok.
  rewrite (put_T_str _ (cs " ") []) by (done || by eapply bool_decide_eq_false_1).
  destruct (put _ _); [|done]. rewrite !bind_Ok.
  destruct (LogLevelName_ok level) as [Hl6 Hnl].
  rewrite put_T_str by done. destruct (put _ _); [|done]. rewrite !bind_Ok.
  destruct (savedErrno =? 0); cbn [negb put_all put]; [done|].
  unfold put_int. destruct (put_cstr _ _); [|done]. rewrite !bind_Ok.
  destruct (put_cstr _ _); [|done]. rewrite !bind_Ok.
  unfold put_long_long. destruct (formatInteger _ _); [|done]. rewrite !bind_Ok.
  by destruct (put_cstr _ _).
Qed.

Lemma finish_items l :
  sf_size_ (basename_ l) = zlen (sf_data_ (basename_ l)) ->
  finish l = s ← put_all (stream_ l) (suffix_items (basename_ l) (line_ l));
             Ok (with_stream l s).
Proof.
  intros Hf. unfold finish, suffix_items, put_int. cbn [put_all put].
  destruct (put_cstr _ _); [|done]. rewrite !bind_Ok. rewrite put_SourceFile_str by done.
  cbn [put]. destruct (put_string _ _); [|done]. rewrite !bind_Ok.
  destruct (put_char _ _); [|done]. rewrite !bind_Ok. unfold put_long_long.
  destruct (formatInteger _ _); [|done]. rewrite !bind_Ok. by destruct (put_char _ _).
Qed.

Lemma start_items_ok t us zone tid level : Forall item_ok (start_items t us zone tid level).
Proof. by repeat constructor. Qed.
Lemma func_items_ok level func : Forall item_ok (func_items level func).
Proof. destruct level; by repeat constructor. Qed.
Lemma errno_items_ok savedErrno strerror :
  - 2 ^ 31 <= savedErrno < 2 ^ 31 -> Forall item_ok (errno_items savedErrno strerror).
Proof. intros He. unfold errno_items. case_match; repeat constructor; cbn; lia. Qed.

(** The line of a statement, [pre] being what its constructor inserts. *)
Definition line_text (size : Z) (pre items : list item) (file : SourceFile) (line : Z) : bytes :=
  foldl (insert_text size) [] (pre ++ items ++ suffix_items file line).
Definition statement_events (level : LogLevel) (text : bytes) : list log_event :=
  Output text :: (if decide (level = FATAL) then [Flush; Abort_] else []).

(** A position that a file of the source can have. *)
Definition position_ok (file : SourceFile) (line : Z) : Prop :=
  sf_size_ file = zlen (sf_data_ file) /\ - 2 ^ 31 <= line < 2 ^ 31.

(** From the constructed Logger to its destruction. *)
Lemma statement_ok mem now file line level pre items (g' : Globals) :
  0 < zlen mem < 2 ^ 31 -> position_ok file line -> Forall item_ok pre -> Forall item_ok items ->
  ('(l, g) ← (s ← put_all (FixedBuffer_ctor mem) pre; Ok (mkLogger now s level line file, g'));
   s ← put_all (stream_ l) items; ev ← Logger_dtor (with_stream l s); Ok (ev, g))
  = Ok (statement_events level (line_text (zlen mem) pre items file line), g').
Proof.
  intros Hmem [Hfile Hline] Hpre Hitems.
  destruct (put_all_holds (FixedBuffer_ctor mem) [] (pre ++ items ++ suffix_items file line))
    as (s & E & _ & Hh).
  { exists mem. cbn [FixedBuffer_ctor data_ cur_ app]. split_and!; [done| |done|lia].
    intros ->. by destruct Hmem. }
  { rewrite !Forall_app. split_and!; [done..|]. repeat constructor; cbn; lia. }
  rewrite put_all_app in E. apply bind_Ok_inv in E as (s1 & E1 & E).
  rewrite put_all_app in E. apply bind_Ok_inv in E as (s2 & E2 & E).
  rewrite E1, !bind_Ok. cbn [stream_]. rewrite E2, !bind_Ok.
  unfold Logger_dtor. rewrite finish_items by done. cbn [stream_ with_stream basename_ line_].
  rewrite E, !bind_Ok. cbn [stream_ with_stream level_].
  by rewrite (holds_toString _ _ Hh), bind_Ok.
Qed.
End lemmas.

(** ** Properties *)

(** A log statement whose level is enabled outputs one line made of the time of its
    second in the logger's zone (from the thread's cache or formatted anew), the
    microseconds, the thread, the level, the function for TRACE and DEBUG, the items, and
    the file and line; FATAL then flushes and aborts, the other levels do not; and the
    cache holds the formatted second afterwards.  [zlen mem] is the size of the stream's
    array, an item that does not fit being dropped. *)
Theorem log_statement_line `{Build, Libc} mem now tid file line level func items g t :
  log_enabled g level = true -> thread_ok tid g ->
  cache_ok g \/ secondsSinceEpoch now <> t_lastSecond g -> stampable (g_logTimeZone g) now t ->
  0 < zlen mem < 2 ^ 31 -> position_ok file line -> Forall item_ok items ->
  exists g',
    log_statement mem now tid file line level func items g =
      Ok (statement_events level
            (line_text (zlen mem)
               (start_items t (micros now) (TimeZone_valid (g_logTimeZone g)) tid level
                ++ func_items level func) items file line), g')
    /\ leaves tid now g g'.
Proof.
  intros Hen Hth Hc Ht Hmem Hpos Hitems. unfold log_statement. rewrite Hen.
  destruct (Impl_ctor_ok mem now tid [] level 0 file line g t Hth Hc Ht) as (g' & Ector & Hg').
  exists g'. split; [|done].
  rewrite <- (statement_ok mem now file line level _ items g' Hmem Hpos); [|..|exact Hitems].
  2: { rewrite Forall_app. split; [apply start_items_ok|apply func_items_ok]. }
  f_equal. unfold errno_items in Ector. cbn [Z.eqb] in Ector. rewrite app_nil_r in Ector.
  unfold func_items. destruct level; unfold Logger_func, Logger_line, Logger_level;
    rewrite Ector, ?app_nil_r; try done.
  all: rewrite put_all_app; destruct (put_all _ _); [|done]; rewrite !bind_Ok.
  all: cbn [put_all put stream_]; destruct (put_cstr _ _); [|done]; rewrite !bind_Ok.
  all: by destruct (put_char _ _).
Qed.

(** LOG_SYSERR and LOG_SYSFATAL write the text and the number of the thread's errno
    between the level and the items, when it is not zero. *)
Theorem log_sys_statement_line `{Build, Libc} mem now tid strerror errno file line (toAbort : bool)
    items g t :
  thread_ok tid g ->
  cache_ok g \/ secondsSinceEpoch now <> t_lastSecond g -> stampable (g_logTimeZone g) now t ->
  0 < zlen mem < 2 ^ 31 -> position_ok file line -> - 2 ^ 31 <= errno < 2 ^ 31 ->
  Forall item_ok items ->
  exists g',
    log_sys_statement mem now tid strerror errno file line toAbort items g =
      Ok (statement_events (if toAbort then FATAL else ERROR)
            (line_text (zlen mem)
               (start_items t (micros now) (TimeZone_valid (g_logTimeZone g)) tid
                  (if toAbort then FATAL else ERROR) ++ errno_items errno strerror)
               items file line), g')
    /\ leaves tid now g g'.
Proof.
  intros Hth Hc Ht Hmem Hpos He Hitems. unfold log_sys_statement, Logger_abort.
  destruct (Impl_ctor_ok mem now tid strerror (if toAbort then FATAL else ERROR) errno file line
              g t Hth Hc Ht) as (g' & -> & Hg').
  exists g'. split; [|done]. apply statement_ok; try done.
  rewrite Forall_app. split; [apply start_items_ok|by apply errno_items_ok].
Qed.

(** The cache of the second is not dropped when the zone is set: in the same second the
    time of the old zone is written with the suffix of the new one. *)
Theorem stale_zone `{Build, Libc} l g tz :
  cache_ok g -> t_lastSecond g = secondsSinceEpoch (time_ l) ->
  0 <= microSecondsSinceEpoch (time_ l) ->
  exists t, zone_time (g_logTimeZone g) (secondsSinceEpoch (time_ l)) = Ok t /\
    formatTime l (setTimeZone tz g) =
      (s ← put_all (stream_ l)
         [IStr (format_second t);
          IStr (cs "." ++ fmt_0d 6 (micros (time_ l))
                ++ (if TimeZone_valid tz then cs " " else cs "Z "))];
       Ok (with_stream l s, setTimeZone tz g)).
Proof.
  intros (t & rest & Ez & Et & H17 & Hnul) El Hpos. exists t. split; [by rewrite <- El|].
  rewrite (formatTime_text l (setTimeZone tz g) (setTimeZone tz g) t rest); try done.
  unfold formatSecond. cbn [t_lastSecond setTimeZone]. by rewrite El, Z.eqb_refl.
Qed.

(** The empty cache is taken for that of the second 0: a thread whose first statement is
    of that second fails the assert on the length of its text. *)
Theorem first_second_asserts `{Build, Libc} l level :
  NDEBUG = false -> secondsSinceEpoch (time_ l) = 0 -> 0 <= microSecondsSinceEpoch (time_ l) ->
  formatTime l (Globals_init level) = Err AssertFailed.
Proof.
  intros Hd Hs Hpos. unfold formatTime, formatSecond. rewrite Hs. cbn [Globals_init t_lastSecond].
  cbn [Z.eqb negb]. rewrite bind_Ok.
  change (TimeZone_valid (g_logTimeZone (Globals_init level))) with false. cbv iota.
  assert (0 <= micros (time_ l) < 10 ^ 6) as Hus
    by (apply Z.rem_bound_pos; [done|by unfold kMicroSecondsPerSecond]).
  rewrite wraps_small by lia.
  destruct (fmt_us_ok (micros (time_ l)) (cs "Z ") Hus) as [Hz _];
    [by eapply bool_decide_eq_false_1|]. change (zlen (cs "Z ")) with 2 in Hz.
  unfold Fmt_ctor. rewrite assert_true by (rw_cmp; done). rewrite !bind_Ok.
  cbn [length_]. rewrite assert_true, bind_Ok by (apply Z.eqb_eq; lia).
  unfold put_T. change (Z.of_nat (find_char NUL _) =? 17) with false.
  unfold assert_. by rewrite Hd.
Qed.

(** A first statement in the second 1466000000, in UTC, and its line. *)
Definition sample_line : bytes :=
  cs "20160615 14:13:20.123456Z  4242 TRACE loop EventLoop 0x1000 quit - EventLoop.cc:60" ++ [LF].
Definition sample_now : Timestamp := mkTimestamp 1466000000123456.
Definition sample_log_items : list item :=
  [ICstr (Some (cs "EventLoop ")); IPtr 4096; ICstr (Some (cs " quit"))].

Example log_sample_line :
  ('(ev, _) ← log_statement (H := Debug) (H0 := own_libc) (replicate 128 NUL) sample_now 4242
    (SourceFile_ctor (cs "arale/net/EventLoop.cc")) 60 TRACE (cs "loop") sample_log_items
    (Globals_init TRACE); Ok ev) = Ok [Output sample_line].
Proof. by vm_compute. Qed.
