(* ===== verification/Journal.v ===== *)
(** * Journal: the log of a process, src/arale/base/Logging.{h,cc}

    The threads of a process with their thread-local caches, the globals they share
    (g_logLevel, g_logTimeZone, g_output, g_flush), the default functions, which write to
    stdout, and the process's log as a sequence of steps of its threads.  The C library's
    stdout is a parameter, [Stdio]: when a stream passes on what is in its buffer is its
    own choice.  An output function that the program sets is a function of the world. *)

From S2P Require Import Prelude Format Date TimeZone LogStream Logging.

(** ** The standard output

    A stream has passed on [f_written] and still holds [f_buffer]; abort() does not flush. *)
Record FILE := mkFILE { f_written : bytes; f_buffer : bytes }.
Definition f_total (F : FILE) : bytes := f_written F ++ f_buffer F.

(** fwrite(msg, 1, len, F) with the number of bytes it took, and fflush(F). *)
Class Stdio := { fwrite : FILE -> bytes -> Z * FILE; fflush : FILE -> Z * FILE }.
Class StdioLaws `{Stdio} := {
  fwrite_takes F msg n F' :
    fwrite F msg = (n, F') ->
    0 <= n <= zlen msg /\ f_total F' = f_total F ++ take (Z.to_nat n) msg;
  fflush_passes F r F' :
    fflush F = (r, F') -> f_total F' = f_total F /\ (r = 0 -> f_buffer F' = [])
}.

(** No call fails: the disk is not full, the pipe is read. *)
Definition reliable `{Stdio} : Prop :=
  forall F msg, fst (fwrite F msg) = zlen msg /\ fst (fflush F) = 0.

(** What output functions act on: stdout, and whatever the program's own write to. *)
Record World (U : Type) := mkWorld { stdout_ : FILE; user : U }.
Arguments mkWorld {_}. Arguments stdout_ {_}. Arguments user {_}.

Definition OutputFunc (U : Type) := bytes -> World U -> World U.
Definition FlushFunc (U : Type) := World U -> World U.

Definition defaultOutput `{Stdio} {U} : OutputFunc U := fun msg w =>
  let '(n, F) := fwrite (stdout_ w) msg in mkWorld F (user w).
Definition defaultFlush `{Stdio} {U} : FlushFunc U := fun w =>
  let '(_, F) := fflush (stdout_ w) in mkWorld F (user w).

(** ** The variables of a thread and of the process *)

Record Locals := mkLocals {
  l_time : bytes; l_lastSecond : Z;
  l_threadID : Z; l_threadIDStr : bytes; l_threadIDStr_len : Z
}.
Definition Locals_init : Locals := mkLocals (replicate 32 NUL) 0 0 (replicate 32 NUL) 6.

Record Process (U : Type) := mkProcess {
  level : LogLevel; zone : TimeZone; output : OutputFunc U; flush : FlushFunc U;
  threads : gmap Z Locals; world : World U; ended : bool
}.
Arguments mkProcess {_}. Arguments level {_}. Arguments zone {_}. Arguments output {_}.
Arguments flush {_}. Arguments threads {_}. Arguments world {_}. Arguments ended {_}.

(** g_logLevel, g_output, g_flush and g_logTimeZone before main. *)
Definition Process_init `{Stdio} {U} (muduo_log_trace muduo_log_debug : bool) (w : World U)
    : Process U :=
  mkProcess (initLogLevel muduo_log_trace muduo_log_debug) None defaultOutput defaultFlush ∅ w
    false.

(** What a thread sees of them. *)
Definition view (l : Locals) (lv : LogLevel) (tz : TimeZone) : Globals :=
  mkGlobals (l_time l) (l_lastSecond l) (l_threadID l) (l_threadIDStr l) (l_threadIDStr_len l)
    lv tz.
Definition locals_of (g : Globals) : Locals :=
  mkLocals (t_time g) (t_lastSecond g) (threadID g) (threadIDStr g) (threadIDStr_len g).

Section process.
Context {U : Type}.
Implicit Types p : Process U.

Definition set_level l p :=
  mkProcess l (zone p) (output p) (flush p) (threads p) (world p) (ended p).
Definition set_zone tz p :=
  mkProcess (level p) tz (output p) (flush p) (threads p) (world p) (ended p).
Definition setOutput (out : OutputFunc U) p :=
  mkProcess (level p) (zone p) out (flush p) (threads p) (world p) (ended p).
Definition setFlush (fl : FlushFunc U) p :=
  mkProcess (level p) (zone p) (output p) fl (threads p) (world p) (ended p).
Definition set_threads m p :=
  mkProcess (level p) (zone p) (output p) (flush p) m (world p) (ended p).
Definition set_world w p :=
  mkProcess (level p) (zone p) (output p) (flush p) (threads p) w (ended p).
Definition set_ended p :=
  mkProcess (level p) (zone p) (output p) (flush p) (threads p) (world p) true.

Definition locals (tid : Z) p : Locals := default Locals_init (threads p !! tid).
Definition globals (tid : Z) p : Globals := view (locals tid p) (level p) (zone p).

(** What the destructor of a Logger does. *)
Definition deliver p (e : log_event) : Process U :=
  match e with
  | Output msg => set_world (output p msg (world p)) p
  | Flush => set_world (flush p (world p)) p
  | Abort_ => set_ended p
  end.

(** ** Statements and steps *)

(** LOG_TRACE .. LOG_FATAL in a function, or LOG_SYSERR and LOG_SYSFATAL. *)
Inductive statement_kind :=
  | Leveled (l : LogLevel) (func : bytes)
  | Errno (toAbort : bool) (errno : Z) (strerror : bytes).

Record Statement := mkStatement {
  st_now : Timestamp; st_mem : bytes; st_file : SourceFile; st_line : Z;
  st_kind : statement_kind; st_items : list item
}.

Definition perform `{Build, Libc} (tid : Z) (s : Statement) (g : Globals)
    : outcome (list log_event * Globals) :=
  match st_kind s with
  | Leveled l func =>
      log_statement (st_mem s) (st_now s) tid (st_file s) (st_line s) l func (st_items s) g
  | Errno toAbort errno strerror =>
      log_sys_statement (st_mem s) (st_now s) tid strerror errno (st_file s) (st_line s) toAbort
        (st_items s) g
  end.

(** A step of the process; a thread that ends takes its variables with it. *)
Inductive op :=
  | Log (tid : Z) (s : Statement)
  | SetLevel (l : LogLevel) | SetTimeZone (tz : TimeZone)
  | SetOutput (out : OutputFunc U) | SetFlush (fl : FlushFunc U)
  | Exit (tid : Z).

Definition step `{Build, Libc} (o : op) p : outcome (Process U) :=
  if ended p then Ok p
  else match o with
       | Log tid s =>
           '(ev, g) ← perform tid s (globals tid p);
           Ok (foldl deliver (set_threads (<[tid := locals_of g]> (threads p)) p) ev)
       | SetLevel l => Ok (set_level l p)
       | SetTimeZone tz => Ok (set_zone tz p)
       | SetOutput out => Ok (setOutput out p)
       | SetFlush fl => Ok (setFlush fl p)
       | Exit tid => Ok (set_threads (delete tid (threads p)) p)
       end.

Fixpoint run `{Build, Libc} (ops : list op) p : outcome (Process U) :=
  match ops with [] => Ok p | o :: ops' => p' ← step o p; run ops' p' end.

(** ** Specification: a log without threads and caches *)

Record Journal := mkJournal {
  j_level : LogLevel; j_zone : TimeZone; j_output : OutputFunc U; j_flush : FlushFunc U;
  j_world : World U; j_ended : bool
}.
Definition abs p : Journal :=
  mkJournal (level p) (zone p) (output p) (flush p) (world p) (ended p).

Definition kind_level (k : statement_kind) : LogLevel :=
  match k with Leveled l _ => l | Errno toAbort _ _ => if toAbort then FATAL else ERROR end.
Definition kind_items (k : statement_kind) : list item :=
  match k with Leveled l func => func_items l func | Errno _ e str => errno_items e str end.

(** A statement is written when its level is at least the threshold, or above INFO. *)
Definition passes (threshold : LogLevel) (s : Statement) : bool :=
  (level_number threshold <=? level_number (kind_level (st_kind s)))
  || (level_number INFO <? level_number (kind_level (st_kind s))).

Definition seconds_of (s : Statement) : Z := secondsSinceEpoch (st_now s).

Definition text `{Build, Libc} (tz : TimeZone) (tid : Z) (s : Statement) : bytes :=
  match zone_time tz (seconds_of s) with
  | Ok t => line_text kSmallBuffer
              (start_items t (micros (st_now s)) (TimeZone_valid tz) tid (kind_level (st_kind s))
               ++ kind_items (st_kind s)) (st_items s) (st_file s) (st_line s)
  | Err _ => []
  end.

Definition j_step `{Build, Libc} (j : Journal) (o : op) : Journal :=
  if j_ended j then j
  else match o with
       | Log tid s =>
           if passes (j_level j) s then
             let w := j_output j (text (j_zone j) tid s) (j_world j) in
             if decide (kind_level (st_kind s) = FATAL)
             then mkJournal (j_level j) (j_zone j) (j_output j) (j_flush j) (j_flush j w) true
             else mkJournal (j_level j) (j_zone j) (j_output j) (j_flush j) w false
           else j
       | SetLevel l => mkJournal l (j_zone j) (j_output j) (j_flush j) (j_world j) false
       | SetTimeZone tz => mkJournal (j_level j) tz (j_output j) (j_flush j) (j_world j) false
       | SetOutput out => mkJournal (j_level j) (j_zone j) out (j_flush j) (j_world j) false
       | SetFlush fl => mkJournal (j_level j) (j_zone j) (j_output j) fl (j_world j) false
       | Exit _ => j
       end.

(** The lines that are written, with the level and the zone of their time, up to the
    first FATAL. *)
Fixpoint lines `{Build, Libc} (lv : LogLevel) (tz : TimeZone) (ops : list op) : list bytes :=
  match ops with
  | [] => []
  | Log tid s :: ops' =>
      if passes lv s then
        text tz tid s
        :: (if decide (kind_level (st_kind s) = FATAL) then [] else lines lv tz ops')
      else lines lv tz ops'
  | SetLevel l :: ops' => lines l tz ops'
  | SetTimeZone tz' :: ops' => lines lv tz' ops'
  | _ :: ops' => lines lv tz ops'
  end.

(** A statement that the logger can write. *)
Definition writable `{Build, Libc} (tz : TimeZone) (tid : Z) (s : Statement) : Prop :=
  0 < tid < 10 ^ 7 /\ (exists t, stampable tz (st_now s) t)
  /\ zlen (st_mem s) = kSmallBuffer /\ position_ok (st_file s) (st_line s)
  /\ Forall item_ok (st_items s)
  /\ match st_kind s with Errno _ e _ => - 2 ^ 31 <= e < 2 ^ 31 | _ => True end.

(** Every statement that passes is writable and later than [floor]: the second 0 at first
    and, after the zone has been set, the [latest] second that has been logged, whose text
    the threads may still have from before. *)
Fixpoint legal `{Build, Libc} (lv : LogLevel) (tz : TimeZone) (floor latest : Z) (ops : list op)
    : Prop :=
  match ops with
  | [] => True
  | Log tid s :: ops' =>
      if passes lv s
      then writable tz tid s /\ floor < seconds_of s
           /\ legal lv tz floor (Z.max latest (seconds_of s)) ops'
      else legal lv tz floor latest ops'
  | SetLevel l :: ops' => legal l tz floor latest ops'
  | SetTimeZone tz' :: ops' => legal lv tz' latest latest ops'
  | _ :: ops' => legal lv tz floor latest ops'
  end.

(** The program leaves the default functions in place. *)
Definition keeps_default (o : op) : Prop :=
  match o with SetOutput _ | SetFlush _ => False | _ => True end.
End process.
Arguments op : clear implicits.
Arguments Journal : clear implicits.

(** ** Lemmas *)

Lemma view_locals_of g : view (locals_of g) (g_logLevel g) (g_logTimeZone g) = g.
Proof. by destruct g. Qed.

Section lemmas.
Context `{Build, Libc} {U : Type}.
Implicit Types (p : Process U) (ops : list (op U)).

Lemma log_enabled_passes lo lv tz l func s :
  st_kind s = Leveled l func -> log_enabled (view lo lv tz) l = passes lv s.
Proof.
  intros E. unfold passes. rewrite E. cbn [kind_level].
  unfold log_enabled. cbn [view g_logLevel]. by destruct l, lv.
Qed.

(** A thread whose cached second is not later than the floor writes the right text. *)
Lemma perform_passes tid s lo lv tz :
  passes lv s = true -> writable tz tid s -> thread_ok tid (view lo lv tz) ->
  l_lastSecond lo < seconds_of s \/ cache_ok (view lo lv tz) ->
  exists g', perform tid s (view lo lv tz) =
      Ok (statement_events (kind_level (st_kind s)) (text tz tid s), g')
    /\ leaves tid (st_now s) (view lo lv tz) g'.
Proof.
  intros Hp (Htid & (t & Ht) & Hmem & Hpos & Hitems & Herr) Hth Hc.
  assert (cache_ok (view lo lv tz) \/ secondsSinceEpoch (st_now s) <> t_lastSecond (view lo lv tz))
    as Hc' by (unfold seconds_of in Hc; cbn; destruct Hc; [right; lia|by left]).
  assert (0 < zlen (st_mem s) < 2 ^ 31) as Hsz by (rewrite Hmem; unfold kSmallBuffer; lia).
  unfold text, seconds_of. rewrite (proj1 Ht). rewrite <- Hmem. unfold perform.
  destruct (st_kind s) as [l func|toAbort e str] eqn:E; cbn [kind_level kind_items].
  - apply log_statement_line; try done. by rewrite (log_enabled_passes _ _ _ l func s).
  - by apply log_sys_statement_line.
Qed.

Lemma perform_blocked tid s lo lv tz :
  passes lv s = false -> perform tid s (view lo lv tz) = Ok ([], view lo lv tz).
Proof.
  intros Hp. unfold perform. destruct (st_kind s) as [l func|[] e str] eqn:E.
  - unfold log_statement. by rewrite (log_enabled_passes _ _ _ l func s), Hp.
  - unfold passes in Hp. rewrite E in Hp. by destruct lv.
  - unfold passes in Hp. rewrite E in Hp. by destruct lv.
Qed.

(** The variables of every thread are as its last statement left them; a cache that is
    not of the current zone is of a second up to the floor. *)
Definition threads_ok (floor latest : Z) p : Prop :=
  0 <= floor <= latest /\
  forall tid, 0 < tid < 10 ^ 7 ->
    thread_ok tid (globals tid p) /\ l_lastSecond (locals tid p) <= latest
    /\ (l_lastSecond (locals tid p) <= floor \/ cache_ok (globals tid p)).

Lemma Locals_init_ok tid lv tz : 0 < tid < 10 ^ 7 -> thread_ok tid (view Locals_init lv tz).
Proof. intros Htid. unfold thread_ok, tid_ok. cbn. split_and!; try done; [apply Htid..|by left]. Qed.

Lemma Process_init_ok `{Stdio} a b (w : World U) : threads_ok 0 0 (Process_init a b w).
Proof.
  split; [done|]. intros tid Htid. unfold globals, locals. cbn. rewrite lookup_empty. cbn.
  split_and!; [by apply Locals_init_ok|done|by left].
Qed.

(** Only the variables of the threads and the zone matter to it. *)
Lemma threads_ok_ext floor latest p q :
  threads p = threads q -> level p = level q -> zone p = zone q ->
  threads_ok floor latest p -> threads_ok floor latest q.
Proof. unfold threads_ok, globals, locals. by intros -> -> ->. Qed.

Lemma threads_ok_level floor latest l p :
  threads_ok floor latest p -> threads_ok floor latest (set_level l p).
Proof. intros Hp. exact Hp. Qed.

Lemma threads_ok_zone floor latest tz p :
  threads_ok floor latest p -> threads_ok latest latest (set_zone tz p).
Proof.
  intros [Hf Hp]. split; [lia|]. intros tid Htid. destruct (Hp tid Htid) as (Hth & Hl & _).
  split_and!; [exact Hth|exact Hl|by left].
Qed.

Lemma threads_ok_exit floor latest tid p :
  threads_ok floor latest p -> threads_ok floor latest (set_threads (delete tid (threads p)) p).
Proof.
  intros [Hf Hp]. split; [done|]. intros i Hi. unfold globals, locals.
  cbn [threads set_threads level zone]. destruct (decide (i = tid)) as [->|Hne].
  - rewrite lookup_delete_eq. cbn.
    split_and!; [by apply Locals_init_ok|lia|left; lia].
  - rewrite lookup_delete_ne by done. by apply Hp.
Qed.

Lemma threads_ok_log floor latest tid s p g' :
  threads_ok floor latest p -> leaves tid (st_now s) (globals tid p) g' ->
  threads_ok floor (Z.max latest (seconds_of s))
    (set_threads (<[tid := locals_of g']> (threads p)) p).
Proof.
  intros [Hf Hp] (Hth & Hc & Hl & _ & Elv & Etz). split; [lia|]. intros i Hi.
  unfold globals, locals. cbn [threads set_threads level zone].
  destruct (decide (i = tid)) as [->|Hne].
  - rewrite lookup_insert_eq. cbn [default from_option id].
    assert (view (locals_of g') (level p) (zone p) = g') as ->.
    { rewrite <- (view_locals_of g') at 2. by rewrite Elv, Etz. }
    split_and!; [done| |by right]. cbn [locals_of l_lastSecond]. rewrite Hl. unfold seconds_of. lia.
  - rewrite lookup_insert_ne by done. destruct (Hp i Hi) as (Hti & Hli & Hci).
    split_and!; [done|unfold locals in Hli; lia|done].
Qed.

Lemma run_ended ops p : ended p = true -> run ops p = Ok p.
Proof.
  intros E. induction ops as [|o ops IH]; [done|]. cbn [run]. unfold step. by rewrite E, bind_Ok.
Qed.
Lemma j_run_ended ops (j : Journal U) : j_ended j = true -> foldl j_step j ops = j.
Proof.
  intros E. induction ops as [|o ops IH]; [done|]. cbn [foldl]. unfold j_step at 2. by rewrite E.
Qed.

(** What the events of a statement do to the process. *)
Lemma abs_deliver lv txt p :
  ended p = false ->
  abs (foldl deliver p (statement_events lv txt)) =
    (let w := output p txt (world p) in
     if decide (lv = FATAL)
     then mkJournal (level p) (zone p) (output p) (flush p) (flush p w) true
     else mkJournal (level p) (zone p) (output p) (flush p) w false).
Proof. intros E. unfold statement_events. case_decide; [done|]. unfold abs. cbn. by rewrite E. Qed.

(** One statement against the specification. *)
Lemma log_step floor latest tid s p :
  ended p = false -> threads_ok floor latest p -> passes (level p) s = true ->
  writable (zone p) tid s -> floor < seconds_of s ->
  exists p', step (Log tid s) p = Ok p' /\ abs p' = j_step (abs p) (Log tid s)
    /\ threads_ok floor (Z.max latest (seconds_of s)) p'.
Proof.
  intros He Hth Hp Hw Hs. pose proof Hth as [_ Ht].
  destruct (Ht tid (proj1 Hw)) as (Hok & _ & Hc).
  destruct (perform_passes tid s (locals tid p) (level p) (zone p) Hp Hw Hok) as (g' & E & Hl).
  { destruct Hc; [left; lia|by right]. }
  unfold step. rewrite He. unfold globals at 1. rewrite E, bind_Ok. eexists. split; [done|].
  split.
  - rewrite abs_deliver by done. unfold j_step. cbn [abs j_ended j_level]. by rewrite He, Hp.
  - eapply threads_ok_ext; [..|by apply (threads_ok_log _ _ _ _ _ _ Hth Hl)].
    all: unfold statement_events; by case_decide.
Qed.

Lemma blocked_step tid s p :
  ended p = false -> passes (level p) s = false ->
  exists p', step (Log tid s) p = Ok p' /\ abs p' = j_step (abs p) (Log tid s)
    /\ forall floor latest, threads_ok floor latest p -> threads_ok floor latest p'.
Proof.
  intros He Hp. unfold step, j_step. cbn [abs j_ended j_level]. rewrite He, Hp.
  unfold globals. rewrite perform_blocked, bind_Ok by done.
  eexists. split; [done|]. split; [done|]. intros floor latest [Hf Hth]. split; [done|].
  intros i Hi. specialize (Hth i Hi). unfold globals, locals in *.
  cbn [foldl threads set_threads level zone].
  destruct (decide (i = tid)) as [->|Hne]; [by rewrite lookup_insert_eq|].
  by rewrite lookup_insert_ne.
Qed.

Lemma run_refines ops floor latest p :
  ended p = false -> threads_ok floor latest p -> legal (level p) (zone p) floor latest ops ->
  exists p', run ops p = Ok p' /\ abs p' = foldl j_step (abs p) ops.
Proof.
  revert floor latest p. induction ops as [|o ops IH]; intros floor latest p He Hth Hl;
    [by exists p|]. cbn [run foldl legal] in *.
  assert (forall q fl la, step o p = Ok q -> abs q = j_step (abs p) o -> ended q = false ->
            threads_ok fl la q -> legal (level q) (zone q) fl la ops ->
            exists p', (p' ← step o p; run ops p') = Ok p' /\
              abs p' = foldl j_step (j_step (abs p) o) ops) as Hnext.
  { intros q fl la -> <- Hq Hq' Hl'. rewrite bind_Ok. by apply (IH fl la). }
  destruct o as [tid s|l|tz|out|fl|tid]; cbn [legal] in Hl.
  2-6: unfold step, j_step in *; cbn [abs j_ended] in *; rewrite He in *; eapply Hnext;
    [reflexivity|by unfold abs; cbn; rewrite ?He|done| |exact Hl];
    first [exact Hth|by eapply threads_ok_zone|by apply threads_ok_exit].
  destruct (passes (level p) s) eqn:Hp.
  - destruct Hl as (Hw & Hs & Hl). destruct (log_step _ _ tid s p He Hth Hp Hw Hs) as (q & E & Ea & Hq).
    destruct (ended q) eqn:Eq.
    + exists q. rewrite E, bind_Ok, run_ended, <- Ea, j_run_ended by done. done.
    + assert (level q = level p /\ zone q = zone p) as [El Ez].
      { unfold j_step in Ea. cbn [abs j_ended j_level] in Ea. rewrite He, Hp in Ea.
        unfold abs in Ea. case_decide; by injection Ea. }
      eapply Hnext; [done..| |]; [exact Hq|]. by rewrite El, Ez.
  - destruct (blocked_step tid s p He Hp) as (q & E & Ea & Hq).
    assert (abs q = abs p) as Eab.
    { rewrite Ea. unfold j_step. cbn [abs j_ended j_level]. by rewrite He, Hp. }
    unfold abs in Eab. injection Eab as El Ez _ _ _ Ee.
    eapply Hnext; [done|done|congruence|by apply Hq|]. by rewrite El, Ez.
Qed.

(** The default functions give stdout the lines of the specification, and before abort()
    everything is passed on. *)
Lemma default_lines `{StdioLaws} ops (j : Journal U) :
  reliable -> j_ended j = false -> j_output j = defaultOutput -> j_flush j = defaultFlush ->
  Forall keeps_default ops ->
  let j' := foldl j_step j ops in
  f_total (stdout_ (j_world j')) =
    f_total (stdout_ (j_world j)) ++ mjoin (lines (j_level j) (j_zone j) ops)
  /\ (j_ended j' = true -> f_buffer (stdout_ (j_world j')) = []).
Proof.
  intros Hrel. revert j. induction ops as [|o ops IH]; intros j He Ho Hf Hk j'; subst j';
    cbn [foldl lines].
  { rewrite app_nil_r. by rewrite He. }
  apply Forall_cons in Hk as [Hk Hks]. unfold j_step at 2 4 6. rewrite He.
  destruct o as [tid s|l|tz|out|fl|tid]; try done.
  2-4: by apply IH.
  destruct (passes (j_level j) s); [|by apply IH].
  rewrite Ho. destruct (Hrel (stdout_ (j_world j)) (text (j_zone j) tid s)) as [Hn _].
  unfold defaultOutput. destruct (fwrite _ _) as [n F] eqn:E. cbn [fst] in Hn.
  apply fwrite_takes in E as [_ E]. rewrite Hn in E.
  rewrite take_ge in E by (unfold zlen; lia).
  case_decide.
  - rewrite j_run_ended by done. cbn [j_world j_ended]. rewrite Hf. unfold defaultFlush.
    cbn [stdout_]. destruct (fflush F) as [r F'] eqn:E'. cbn [stdout_].
    pose proof (proj2 (Hrel F [])) as Hr. rewrite E' in Hr. cbn [fst] in Hr.
    apply fflush_passes in E' as [E' Hb]. cbn [mjoin list_join]. rewrite app_nil_r.
    split; [congruence|intros _; by apply Hb].
  - specialize (IH (mkJournal (j_level j) (j_zone j) (j_output j) (j_flush j)
                     (mkWorld F (user (j_world j))) false) eq_refl Ho Hf Hks).
    cbn [j_world stdout_ j_level j_zone] in IH. rewrite E, <- app_assoc in IH.
    cbn [j_output] in *. rewrite Ho in IH. done.
Qed.
End lemmas.

(** ** Properties *)


(** A stdout that passes its buffer on when it holds [n] bytes or more. *)
Definition buffered (n : nat) : Stdio := {|
  fwrite := fun F msg =>
    (zlen msg,
     let b := f_buffer F ++ msg in
     if Nat.leb n (length b) then mkFILE (f_written F ++ b) [] else mkFILE (f_written F) b);
  fflush := fun F => (0, mkFILE (f_total F) [])
|}.
Lemma buffered_laws n : @StdioLaws (buffered n).
Proof.
  split.
  - intros F msg k F' E. cbn in E. injection E as <- <-. pose proof (zlen_nonneg msg).
    rewrite take_ge by (unfold zlen; lia). split; [lia|]. unfold f_total.
    case_match; cbn; rewrite ?app_nil_r, app_assoc; done.
  - intros F r F' E. cbn in E. injection E as <- <-. unfold f_total. cbn.
    by rewrite app_nil_r.
Qed.

Definition sample_statement (now : Z) (k : statement_kind) (line : Z) (msg : bytes) : Statement :=
  mkStatement (mkTimestamp now) (replicate (Z.to_nat kSmallBuffer) NUL)
    (SourceFile_ctor (cs "arale/net/Acceptor.cc")) line k [ICstr (Some msg)].
(** Two threads, a change of the zone, a level that is not written, and an error. *)
Definition sample_log : list (op unit) :=
  [Log 4242 (sample_statement 1466000000123456 (Leveled INFO []) 20 (cs "up"));
   Log 17 (sample_statement 1466000000500000 (Leveled DEBUG (cs "listen")) 21 (cs "hidden"));
   SetTimeZone (TimeZone_fixed 28800 (cs "CST"));
   Log 17 (sample_statement 1466000001000001 (Leveled WARN []) 22 (cs "busy"));
   Log 4242 (sample_statement 1466000001000002 (Errno true 24 (cs "Too many open files")) 23 (cs "accept"));
   Log 17 (sample_statement 1466000001000003 (Leveled ERROR []) 24 (cs "never"))].
Definition sample_lines : bytes :=
  cs "20160615 14:13:20.123456Z  4242 INFO  up - Acceptor.cc:20" ++ [LF]
  ++ cs "20160615 22:13:21.000001    17 WARN  busy - Acceptor.cc:22" ++ [LF]
  ++ cs "20160615 22:13:21.000002  4242 FATAL Too many open files (errno=24) accept - Acceptor.cc:23"
  ++ [LF].

Definition stampable_b `{Build, Libc} (tz : TimeZone) (now : Timestamp) : bool :=
  match zone_time tz (secondsSinceEpoch now) with
  | Ok t => (zlen (format_second t) =? 17) && bool_decide (NUL ∉ format_second t)
            && (0 <=? microSecondsSinceEpoch now)
  | Err _ => false
  end.
Lemma stampable_b_true `{Build, Libc} tz now :
  stampable_b tz now = true -> exists t, stampable tz now t.
Proof.
  unfold stampable_b. destruct (zone_time _ _) as [t|] eqn:E; [|done]. intros Hb.
  exists t. unfold stampable. rewrite !andb_true_iff, bool_decide_eq_true in Hb.
  destruct Hb as [[? ?] ?]. zify_bool. by split_and!.
Qed.

Lemma sample_writable `{Build, Libc} tz tid now k line msg :
  0 < tid < 10 ^ 7 -> stampable_b tz (mkTimestamp now) = true -> - 2 ^ 31 <= line < 2 ^ 31 ->
  match k with Errno _ e _ => - 2 ^ 31 <= e < 2 ^ 31 | _ => True end ->
  writable tz tid (sample_statement now k line msg).
Proof.
  intros Htid Ht Hline Hk. unfold writable. split; [exact Htid|].
  split; [by apply stampable_b_true|]. split; [done|]. split; [done|].
  split; [by repeat constructor|exact Hk].
Qed.

