(* ===== verification/Http.v ===== *)
(** * HTTP: src/arale/net/http/HttpRequest.h, HttpContext.{h,cc}, HttpResponse.{h,cc},
    HttpServer.{h,cc}

    The request parser works on the input Buffer line by line; [parseRequest] is the
    loop of the source with fuel, [parse_bytes] the same automaton on the bytes the
    buffer holds.  Pointers into a line are offsets; a range whose end is before its
    start is [Err BadRange], which is what std::string::assign throws on. *)

From S2P Require Import Prelude Ordered Format Date Buffer.

(** ** HttpRequest *)

Inductive HttpMethod := kInvalid | kGet | kPost | kHead | kPut | kDelete.
Inductive HttpVersion := kUnknown | kHttp10 | kHttp11.

#[export] Instance HttpMethod_eq_dec : EqDecision HttpMethod.
Proof. solve_decision. Defined.
#[export] Instance HttpVersion_eq_dec : EqDecision HttpVersion.
Proof. solve_decision. Defined.

Record HttpRequest := mkRequest {
  version_ : HttpVersion;
  method_ : HttpMethod;
  path_ : bytes;
  query_ : bytes;
  receiveTime_ : Timestamp;
  headers_ : list (bytes * bytes)
}.

Definition HttpRequest_ctor : HttpRequest := mkRequest kUnknown kInvalid [] [] Timestamp_invalid [].

Definition SP : char := to_char 32.
Definition COLON : char := to_char 58.
Definition QUESTION : char := to_char 63.

(** std::string(first, last) within a block. *)
Definition range (l : bytes) (first last : nat) : outcome bytes :=
  if (last <? first)%nat then Err BadRange
  else if (length l <? last)%nat then Err OutOfBounds
  else Ok (take (last - first) (drop first l)).

(** while (colon != crlf && isspace( *colon)) ++colon; *)
Fixpoint skip_space (l : bytes) : bytes :=
  match l with
  | c :: l' => if isspace c then skip_space l' else l
  | [] => []
  end.
(** while (!value.empty() && isspace(value[size - 1])) value.resize(size - 1); *)
Definition trim_end (l : bytes) : bytes := reverse (skip_space (reverse l)).

Section request.
Implicit Types r : HttpRequest.

(** The line is [star, crlf), [colon] an offset into it. *)
Definition addHeader r (line : bytes) (colon : nat) : outcome HttpRequest :=
  header ← range line 0 colon;
  rest ← range line (S colon) (length line);
  let value := trim_end (skip_space rest) in
  Ok (mkRequest (version_ r) (method_ r) (path_ r) (query_ r) (receiveTime_ r)
        (minsert header value (headers_ r))).

Definition getHeader r (header : bytes) : bytes := default [] (mlookup header (headers_ r)).
Definition getHeaders r := headers_ r.
Definition setReceiveTime r (t : Timestamp) : HttpRequest :=
  mkRequest (version_ r) (method_ r) (path_ r) (query_ r) t (headers_ r).
Definition setVersion r (v : HttpVersion) : HttpRequest :=
  mkRequest v (method_ r) (path_ r) (query_ r) (receiveTime_ r) (headers_ r).

Definition method_of (method : bytes) : HttpMethod :=
  if bool_decide (method = cs "GET") then kGet
  else if bool_decide (method = cs "POST") then kPost
  else if bool_decide (method = cs "PUT") then kPut
  else if bool_decide (method = cs "HEAD") then kHead
  else if bool_decide (method = cs "DELETE") then kDelete
  else kInvalid.
Definition setMethod r (method : bytes) : bool * HttpRequest :=
  let m := method_of method in
  (bool_decide (m <> kInvalid),
   mkRequest (version_ r) m (path_ r) (query_ r) (receiveTime_ r) (headers_ r)).

Definition method_name (m : HttpMethod) : bytes :=
  match m with
  | kGet => cs "GET" | kPost => cs "POST" | kPut => cs "PUT" | kHead => cs "HEAD"
  | kDelete => cs "DELETE" | kInvalid => cs "UNKNOWN"
  end.
Definition methodToString r : bytes := method_name (method_ r).

Definition setPath r (p : bytes) : HttpRequest :=
  mkRequest (version_ r) (method_ r) p (query_ r) (receiveTime_ r) (headers_ r).
Definition setQuery r (q : bytes) : HttpRequest :=
  mkRequest (version_ r) (method_ r) (path_ r) q (receiveTime_ r) (headers_ r).
Definition HttpRequest_swap r rhs : HttpRequest * HttpRequest := (rhs, r).
End request.

(** ** HttpContext *)

Inductive HttpRequestParseState := kExpectRequestLine | kExpectHeaders | kExpectBody | kGotAll.
#[export] Instance ParseState_eq_dec : EqDecision HttpRequestParseState.
Proof. solve_decision. Defined.

Record HttpContext := mkContext { request_ : HttpRequest; parseState_ : HttpRequestParseState }.

Definition HttpContext_ctor : HttpContext := mkContext HttpRequest_ctor kExpectRequestLine.
Definition context_reset (c : HttpContext) : HttpContext :=
  let '(r, _) := HttpRequest_swap (request_ c) HttpRequest_ctor in
  mkContext r kExpectRequestLine.
Definition isGotAll (c : HttpContext) : bool := bool_decide (parseState_ c = kGotAll).

(** Offsets into the line stand for the pointers start, space and question. *)
Definition parseRequestLine (r : HttpRequest) (line : bytes) : outcome (bool * HttpRequest) :=
  let end_ := length line in
  let space := find_char SP line in
  if (space <? end_)%nat then
    method ← range line 0 space;
    let '(known, r) := setMethod r method in
    if known : bool then
      let start := S space in
      let space := (start + find_char SP (drop start line))%nat in
      if (space <? end_)%nat then
        let question := (space + find_char QUESTION (drop space line))%nat in
        r ← (if (question <? end_)%nat then
               p ← range line start question;
               q ← range line question space;
               Ok (setQuery (setPath r p) q)
             else p ← range line start space; Ok (setPath r p));
        let start := S space in
        let rest := drop start line in
        if bool_decide (length rest = 8%nat) && bool_decide (take 7 rest = cs "HTTP/1.") then
          match last line with
          | Some c =>
              if bool_decide (c = to_char 49) then Ok (true, setVersion r kHttp11)
              else if bool_decide (c = to_char 48) then Ok (true, setVersion r kHttp10)
              else Ok (false, r)
          | None => Ok (false, r)
          end
        else Ok (false, r)
      else Ok (false, r)
    else Ok (false, r)
  else Ok (false, r).

Section parse.
Context `{Build}.

(** The bytes [peek(), crlf) of the buffer. *)
Definition line_of (buf : Buffer) (crlf : Z) : outcome bytes :=
  mem_read (buffer_ buf) (peek buf) (crlf - peek buf).

Fixpoint parseRequest (fuel : nat) (c : HttpContext) (buf : Buffer) (receiveTime : Timestamp)
    : outcome (bool * HttpContext * Buffer) :=
  match fuel with
  | O => Err OutOfFuel
  | S fuel' =>
      match parseState_ c with
      | kExpectRequestLine =>
          match findCRLF buf with
          | Some crlf =>
              line ← line_of buf crlf;
              '(ok, r) ← parseRequestLine (request_ c) line;
              if ok : bool then
                buf' ← retrieveUntil buf (crlf + 2);
                parseRequest fuel' (mkContext (setReceiveTime r receiveTime) kExpectHeaders)
                  buf' receiveTime
              else Ok (false, mkContext r kExpectRequestLine, buf)
          | None => Ok (true, c, buf)
          end
      | kExpectHeaders =>
          match findCRLF buf with
          | Some crlf =>
              line ← line_of buf crlf;
              let colon := find_char COLON line in
              if (colon <? length line)%nat then
                r ← addHeader (request_ c) line colon;
                buf' ← retrieveUntil buf (crlf + 2);
                parseRequest fuel' (mkContext r kExpectHeaders) buf' receiveTime
              else
                buf' ← retrieveUntil buf (crlf + 2);
                Ok (true, mkContext (request_ c) kGotAll, buf')
          | None => Ok (true, c, buf)
          end
      | kExpectBody | kGotAll => parseRequest fuel' c buf receiveTime
      end
  end.
End parse.

(** ** HttpResponse *)

Record HttpResponse := mkResponse {
  statusCode_ : Z;
  statusMessage_ : bytes;
  resp_headers_ : list (bytes * bytes);
  body_ : bytes;
  closeConnection_ : bool
}.

Definition k200Ok : Z := 200.
Definition k301MovedPermanently : Z := 301.
Definition k400BadRequest : Z := 400.
Definition k404NotFound : Z := 404.

Definition HttpResponse_ctor (close : bool) : HttpResponse := mkResponse 0 [] [] [] close.

Section response.
Context `{Build}.
Implicit Types p : HttpResponse.

Definition setStatusCode p (code : Z) : HttpResponse :=
  mkResponse code (statusMessage_ p) (resp_headers_ p) (body_ p) (closeConnection_ p).
Definition setStatusMessage p (m : bytes) : HttpResponse :=
  mkResponse (statusCode_ p) m (resp_headers_ p) (body_ p) (closeConnection_ p).
Definition setCloseConnection p (on : bool) : HttpResponse :=
  mkResponse (statusCode_ p) (statusMessage_ p) (resp_headers_ p) (body_ p) on.
Definition resp_addHeader p (header value : bytes) : HttpResponse :=
  mkResponse (statusCode_ p) (statusMessage_ p) (minsert header value (resp_headers_ p))
    (body_ p) (closeConnection_ p).
Definition setContentType p (t : bytes) : HttpResponse := resp_addHeader p (cs "Content-Type") t.
Definition setBody p (b : bytes) : HttpResponse :=
  mkResponse (statusCode_ p) (statusMessage_ p) (resp_headers_ p) b (closeConnection_ p).

Fixpoint append_all (buf : Buffer) (l : list bytes) : outcome Buffer :=
  match l with
  | [] => Ok buf
  | s :: l' => b ← append buf s; append_all b l'
  end.

(** What appendToBuffer appends, in its order. *)
Definition response_pieces p : list bytes :=
  [snprintf 32 (cs "HTTP/1.1 " ++ fmt_d (statusCode_ p)); statusMessage_ p; kCRLF]
  ++ (if closeConnection_ p then [cs "Connection: close" ++ kCRLF]
      else [snprintf 32 (cs "Content-Length: " ++ fmt_d (zlen (body_ p)) ++ kCRLF);
            cs "Connection: Keep-Alive" ++ kCRLF])
  ++ concat ((fun h : bytes * bytes => [h.1; cs ": "; h.2; kCRLF]) <$> resp_headers_ p)
  ++ [kCRLF; body_ p].
Definition appendToBuffer p (buf : Buffer) : outcome Buffer := append_all buf (response_pieces p).
End response.

(** ** HttpServer

    [httpCallback] is the application's; what a handler does to its connection is a
    list of calls. *)

Inductive conn_call := CSend (data : bytes) | CShutdown.

Definition defaultHttpCallback (req : HttpRequest) (resp : HttpResponse) : HttpResponse :=
  setCloseConnection (setStatusMessage (setStatusCode resp k404NotFound) (cs "Not Found")) true.

Section server.
Context `{Build}.
Variable httpCallback : HttpRequest -> HttpResponse -> HttpResponse.

(** onConnection: a new connection gets an HttpContext. *)
Definition http_onConnection (isConnected : bool) (context : option HttpContext)
    : option HttpContext :=
  if isConnected then Some HttpContext_ctor else context.

Definition wants_close (req : HttpRequest) : bool :=
  let connection := getHeader req (cs "Connection") in
  bool_decide (connection = cs "close")
  || (bool_decide (version_ req = kHttp10) && bool_decide (connection <> cs "Keep-Alive")).

Definition onRequest (req : HttpRequest) : outcome (list conn_call) :=
  let response := httpCallback req (HttpResponse_ctor (wants_close req)) in
  buf ← appendToBuffer response Buffer_empty;
  Ok (CSend (contents buf) :: if closeConnection_ response then [CShutdown] else []).

Definition onMessage (fuel : nat) (context : option HttpContext) (buf : Buffer)
    (receiveTime : Timestamp) : outcome (list conn_call * HttpContext * Buffer) :=
  match context with
  | None => Err NullCall      (* any_cast gives NULL *)
  | Some c =>
      '(ok, c, buf) ← parseRequest fuel c buf receiveTime;
      if ok : bool then
        if isGotAll c then
          calls ← onRequest (request_ c);
          Ok (calls, context_reset c, buf)
        else Ok ([], c, buf)
      else Ok ([CSend (cs "HTTP/1.1 400 Bad Request" ++ kCRLF ++ kCRLF); CShutdown], c, buf)
  end.
End server.

(** ** Specification: the parser on bytes *)

(** What one round of parsing [input] gives: the verdict, the context and the bytes
    left.  [None] when the fuel is used up. *)
Fixpoint parse_bytes (fuel : nat) (c : HttpContext) (input : bytes) (t : Timestamp)
    : outcome (bool * HttpContext * bytes) :=
  match fuel with
  | O => Err OutOfFuel
  | S fuel' =>
      match parseState_ c, search kCRLF input with
      | (kExpectBody | kGotAll), _ => parse_bytes fuel' c input t
      | _, None => Ok (true, c, input)
      | kExpectRequestLine, Some i =>
          '(ok, r) ← parseRequestLine (request_ c) (take i input);
          if ok : bool
          then parse_bytes fuel' (mkContext (setReceiveTime r t) kExpectHeaders)
                 (drop (i + 2) input) t
          else Ok (false, mkContext r kExpectRequestLine, input)
      | kExpectHeaders, Some i =>
          let line := take i input in
          let colon := find_char COLON line in
          if (colon <? i)%nat then
            r ← addHeader (request_ c) line colon;
            parse_bytes fuel' (mkContext r kExpectHeaders) (drop (i + 2) input) t
          else Ok (true, mkContext (request_ c) kGotAll, drop (i + 2) input)
      end
  end.

(** Printing a request; the target is what stands between the two spaces. *)
Definition version_name (v : HttpVersion) : bytes :=
  match v with kHttp11 => cs "HTTP/1.1" | _ => cs "HTTP/1.0" end.
Definition print_header (h : bytes * bytes) : bytes := h.1 ++ cs ": " ++ h.2 ++ kCRLF.
Definition print_request (m : HttpMethod) (target : bytes) (v : HttpVersion)
    (headers : list (bytes * bytes)) : bytes :=
  method_name m ++ [SP] ++ target ++ [SP] ++ version_name v ++ kCRLF
  ++ concat (print_header <$> headers) ++ kCRLF.

(** No CR in a text, so no CRLF starts in it. *)
Definition target_ok (target : bytes) : Prop := SP ∉ target /\ CR ∉ target.
Definition trimmed (v : bytes) : Prop :=
  match v with c :: _ => isspace c = false | [] => True end /\
  match last v with Some c => isspace c = false | None => True end.
Definition header_ok (h : bytes * bytes) : Prop :=
  COLON ∉ h.1 /\ CR ∉ h.1 /\ CR ∉ h.2 /\ trimmed h.2.

(** The request such a text describes. *)
Definition parsed_request (m : HttpMethod) (target : bytes) (v : HttpVersion)
    (headers : list (bytes * bytes)) (t : Timestamp) : HttpRequest :=
  mkRequest v m target [] t (foldl (fun hs h => minsert h.1 h.2 hs) [] headers).

(** Two rounds that end alike: the same fault, or the same verdict, context and bytes. *)
Definition same_parse (x y : outcome (bool * HttpContext * Buffer)) : Prop :=
  match x, y with
  | Ok (ok, c, b), Ok (ok', c', b') => ok = ok' /\ c = c' /\ contents b = contents b'
  | Err f, Err f' => f = f'
  | _, _ => False
  end.

Definition parsing (c : HttpContext) : Prop :=
  parseState_ c = kExpectRequestLine \/ parseState_ c = kExpectHeaders.

(** ** Lemmas *)

Section lemmas.
Context `{Build}.

(** The line before the first CRLF and the rest, in the buffer. *)
Lemma buffer_line buf i :
  wf buf -> search kCRLF (contents buf) = Some i ->
  findCRLF buf = Some (peek buf + Z.of_nat i)
  /\ line_of buf (peek buf + Z.of_nat i) = Ok (take i (contents buf))
  /\ length (take i (contents buf)) = i
  /\ exists buf', retrieveUntil buf (peek buf + Z.of_nat i + 2) = Ok buf' /\ wf buf'
     /\ contents buf' = drop (i + 2) (contents buf).
Proof.
  intros Hb Hs. destruct (findCRLF_split_Some _ _ Hs) as (l1 & l2 & E & Hl & _).
  assert (i + 2 <= length (contents buf))%nat as Hle
    by (rewrite E, !length_app; cbn [length kCRLF]; lia).
  pose proof (zlen_contents buf Hb) as Hz. unfold zlen in Hz.
  split; [unfold findCRLF; by rewrite Hs|]. split; [|split].
  - unfold line_of. rewrite mem_read_contents by (done || unfold zlen, peek; lia).
    do 2 f_equal. lia.
  - rewrite length_take. lia.
  - destruct (retrieveUntil_wf buf (peek buf + Z.of_nat i + 2)) as (buf' & -> & Hb' & Hc & _);
      [done|unfold peek; lia|].
    exists buf'. split_and!; try done. rewrite Hc. f_equal. unfold peek. lia.
Qed.

(** [parseRequest] does to the buffer what [parse_bytes] does to its bytes. *)
Lemma parseRequest_bytes fuel c buf t :
  wf buf ->
  match parse_bytes fuel c (contents buf) t with
  | Ok (ok, c', rest) =>
      exists buf', parseRequest fuel c buf t = Ok (ok, c', buf') /\ wf buf' /\ contents buf' = rest
  | Err f => parseRequest fuel c buf t = Err f
  end.
Proof.
  revert c buf. induction fuel as [|fuel IH]; intros c buf Hb; [done|].
  cbn [parse_bytes parseRequest].
  destruct (parseState_ c); try (by apply IH); (destruct (search kCRLF (contents buf)) as [i|] eqn:Es;
    [destruct (buffer_line buf i Hb Es) as (-> & -> & Hl & buf' & Er & Hb' & Hc)
    |unfold findCRLF; rewrite Es; cbn; by exists buf]).
  - rewrite bind_Ok. destruct (parseRequestLine _ _) as [[[] r]|f]; cbn; [|by exists buf|done].
    rewrite Er. cbn. rewrite <- Hc. by apply IH.
  - rewrite bind_Ok, Hl. cbv zeta. destruct (find_char COLON _ <? i)%nat.
    + destruct (addHeader _ _ _) as [r|f]; cbn; [|done]. rewrite Er. cbn.
      rewrite <- Hc. by apply IH.
    + rewrite Er. cbn. by exists buf'.
Qed.
End lemmas.

Lemma range_fault l i j f : range l i j = Err f -> f = BadRange \/ f = OutOfBounds.
Proof. unfold range. repeat case_match; naive_solver. Qed.

(** The parser of a line throws, it does not loop. *)
Definition throws {A} (m : outcome A) : Prop :=
  match m with Err OutOfFuel => False | _ => True end.

Lemma throws_bind {A B} (m : outcome A) (k : A -> outcome B) :
  throws m -> (forall a, throws (k a)) -> throws (m ≫= k).
Proof. destruct m as [a|f]; cbn; auto. Qed.

Lemma throws_range l i j : throws (range l i j).
Proof. unfold range. by repeat case_match. Qed.

Lemma parseRequestLine_throws r line : throws (parseRequestLine r line).
Proof.
  unfold parseRequestLine, setMethod. case_match; [|done].
  apply throws_bind; [apply throws_range|]. intros m. case_match; [|done]. case_match; [|done].
  apply throws_bind.
  - case_match; repeat (apply throws_bind; [apply throws_range|intros ?]); done.
  - intros r'. by repeat case_match.
Qed.

Lemma addHeader_throws r line colon : throws (addHeader r line colon).
Proof.
  unfold addHeader. by repeat (apply throws_bind; [apply throws_range|intros ?]).
Qed.

(** Enough fuel for the bytes there are: the round ends, whatever more is given. *)
Lemma parse_bytes_fuel fuel c input t :
  parsing c -> (length input < fuel)%nat ->
  throws (parse_bytes fuel c input t)
  /\ forall fuel', (fuel <= fuel')%nat -> parse_bytes fuel' c input t = parse_bytes fuel c input t.
Proof.
  revert c input. induction fuel as [|fuel IH]; intros c input Hp Hf; [lia|].
  assert (forall i, search kCRLF input = Some i -> (length (drop (i + 2) input) < fuel)%nat) as Hlt.
  { intros i Hs. destruct (findCRLF_split_Some _ _ Hs) as (l1 & l2 & E & Hl & _).
    apply (f_equal length) in E. rewrite !length_app in E. cbn [length kCRLF] in E.
    rewrite length_drop. lia. }
  split.
  - cbn [parse_bytes]. destruct Hp as [-> | ->]; (destruct (search kCRLF input) as [i|]; [|done]).
    + apply throws_bind; [apply parseRequestLine_throws|]. intros [[] r]; [|done].
      apply IH; [by right|auto].
    + cbv zeta. case_match; [|done].
      apply throws_bind; [apply addHeader_throws|]. intros r. apply IH; [by right|auto].
  - intros fuel' Hle. destruct fuel' as [|fuel']; [lia|].
    cbn [parse_bytes]. destruct Hp as [-> | ->]; (destruct (search kCRLF input) as [i|]; [|done]).
    + destruct (parseRequestLine _ _) as [[[] r]|]; cbn; try done.
      apply IH; [by right|auto|lia].
    + cbv zeta. case_match; [|done]. destruct (addHeader _ _ _); cbn; [|done].
      apply IH; [by right|auto|lia].
Qed.

(** Bytes that come later do not change what the bytes before them gave. *)
Lemma parse_bytes_app fuel c input more t :
  parsing c -> (length input + length more < fuel)%nat ->
  match parse_bytes fuel c input t with
  | Err f => parse_bytes fuel c (input ++ more) t = Err f
  | Ok (ok, c', rest) =>
      if ok && negb (isGotAll c')
      then parse_bytes fuel c (input ++ more) t = parse_bytes fuel c' (rest ++ more) t /\ parsing c'
           /\ (length rest <= length input)%nat
      else parse_bytes fuel c (input ++ more) t = Ok (ok, c', rest ++ more)
  end.
Proof.
  revert c input. induction fuel as [|fuel IH]; intros c input Hp Hf; [lia|].
  assert (forall i, search kCRLF input = Some i ->
    search kCRLF (input ++ more) = Some i /\ take i (input ++ more) = take i input
    /\ drop (i + 2) (input ++ more) = drop (i + 2) input ++ more
    /\ (length (drop (i + 2) input) + 2 <= length input)%nat) as Hs.
  { intros i Hs. split; [by apply search_app|].
    destruct (findCRLF_split_Some _ _ Hs) as (l1 & l2 & E & Hl & _).
    apply (f_equal length) in E. rewrite !length_app in E. cbn [length kCRLF] in E.
    rewrite take_app_le, drop_app_le by lia. rewrite length_drop. split_and!; done || lia. }
  assert (isGotAll c = false) as Hng
    by (unfold isGotAll; by destruct Hp as [-> | ->]).
  destruct (search kCRLF input) as [i|] eqn:Es.
  2: { assert (parse_bytes (S fuel) c input t = Ok (true, c, input)) as ->
         by (cbn [parse_bytes]; rewrite Es; by destruct Hp as [-> | ->]).
       rewrite Hng. cbn [andb negb]. split_and!; [done|done|lia]. }
  destruct (Hs i eq_refl) as (Es' & Et & Ed & Hlen).
  assert (forall c'', parsing c'' ->
    match parse_bytes fuel c'' (drop (i + 2) input) t with
    | Err f => parse_bytes fuel c'' (drop (i + 2) input ++ more) t = Err f
    | Ok (ok, c', rest) =>
      if ok && negb (isGotAll c')
      then parse_bytes fuel c'' (drop (i + 2) input ++ more) t
           = parse_bytes (S fuel) c' (rest ++ more) t /\ parsing c'
           /\ (length rest <= length input)%nat
      else parse_bytes fuel c'' (drop (i + 2) input ++ more) t = Ok (ok, c', rest ++ more)
    end) as Hrec.
  { intros c'' Hc''. specialize (IH c'' (drop (i + 2) input) Hc'' ltac:(lia)).
    destruct (parse_bytes fuel c'' (drop (i + 2) input) t) as [[[ok c'] rest]|f]; [|done].
    destruct (ok && negb (isGotAll c')); [|done]. destruct IH as (-> & Hc' & Hlr).
    split_and!; [|done|lia]. symmetry.
    apply parse_bytes_fuel; [done|rewrite length_app; lia|lia]. }
  destruct Hp as [E|E].
  - assert (forall l, search kCRLF l = Some i -> parse_bytes (S fuel) c l t =
      '(ok, r) ← parseRequestLine (request_ c) (take i l);
      if ok : bool then parse_bytes fuel (mkContext (setReceiveTime r t) kExpectHeaders)
                          (drop (i + 2) l) t
      else Ok (false, mkContext r kExpectRequestLine, l)) as Eq
      by (intros l El; cbn [parse_bytes]; by rewrite E, El).
    rewrite !Eq, Et, Ed by done.
    destruct (parseRequestLine _ _) as [[[] r]|f]; cbn [mbind outcome_bind]; try done.
    apply Hrec. by right.
  - assert (forall l, search kCRLF l = Some i -> parse_bytes (S fuel) c l t =
      let line := take i l in
      let colon := find_char COLON line in
      if (colon <? i)%nat then
        r ← addHeader (request_ c) line colon;
        parse_bytes fuel (mkContext r kExpectHeaders) (drop (i + 2) l) t
      else Ok (true, mkContext (request_ c) kGotAll, drop (i + 2) l)) as Eq
      by (intros l El; cbn [parse_bytes]; by rewrite E, El).
    rewrite !Eq, Et, Ed by done. cbv zeta. destruct (_ <? i)%nat; [|done].
    destruct (addHeader _ _ _) as [r|f]; cbn [mbind outcome_bind]; [|done].
    apply Hrec. by right.
Qed.

(** ** Lemmas: printing and parsing *)

Lemma search_CRLF_line (l k : bytes) : CR ∉ l -> search kCRLF (l ++ kCRLF ++ k) = Some (length l).
Proof.
  induction l as [|c l IH]; intros Hn; [done|]. apply not_elem_of_cons in Hn as [Hc Hn].
  cbn [app search length]. rewrite IH by done.
  assert (starts_with kCRLF (c :: l ++ kCRLF ++ k) = false) as ->; [|done].
  cbn [starts_with kCRLF]. by rewrite bool_decide_eq_false_2 by done.
Qed.

(** The line, and what is left after it. *)
Lemma take_line (l k : bytes) : take (length l) (l ++ kCRLF ++ k) = l.
Proof. by rewrite take_app_length. Qed.
Lemma drop_line (l k : bytes) : drop (length l + 2) (l ++ kCRLF ++ k) = k.
Proof.
  rewrite drop_app_ge by lia. replace (length l + 2 - length l)%nat with 2%nat by lia. done.
Qed.

Lemma range_app (pre mid post : bytes) i j :
  i = length pre -> j = (length pre + length mid)%nat -> range (pre ++ mid ++ post) i j = Ok mid.
Proof.
  intros -> ->. unfold range.
  rewrite (proj2 (Nat.ltb_ge _ _)), (proj2 (Nat.ltb_ge _ _)) by (rewrite ?length_app; lia).
  rewrite drop_app_length. replace (length pre + length mid - length pre)%nat
    with (length mid) by lia. by rewrite take_app_length.
Qed.

Lemma method_name_ok m :
  m <> kInvalid -> SP ∉ method_name m /\ CR ∉ method_name m /\ method_of (method_name m) = m.
Proof.
  intros Hm. destruct m; try done;
    (split_and!; [by eapply bool_decide_eq_false_1|by eapply bool_decide_eq_false_1|done]).
Qed.

(** The state after the method and the two spaces of a line have been found. *)
Lemma request_line_spaces r m target rest :
  m <> kInvalid -> SP ∉ target ->
  parseRequestLine r (method_name m ++ [SP] ++ target ++ [SP] ++ rest) =
    (let line := method_name m ++ [SP] ++ target ++ [SP] ++ rest in
     let r := mkRequest (version_ r) m (path_ r) (query_ r) (receiveTime_ r) (headers_ r) in
     let space := (length (method_name m) + 1 + length target)%nat in
     let question := (space + find_char QUESTION ([SP] ++ rest))%nat in
     r ← (if (question <? length line)%nat then
            p ← range line (length (method_name m) + 1) question;
            q ← range line question space;
            Ok (setQuery (setPath r p) q)
          else Ok (setPath r target));
     if bool_decide (length rest = 8%nat) && bool_decide (take 7 rest = cs "HTTP/1.") then
       match last rest with
       | Some c =>
           if bool_decide (c = to_char 49) then Ok (true, setVersion r kHttp11)
           else if bool_decide (c = to_char 48) then Ok (true, setVersion r kHttp10)
           else Ok (false, r)
       | None => Ok (false, r)
       end
     else Ok (false, r)).
Proof.
  intros Hm Ht. destruct (method_name_ok m Hm) as (Hs & _ & Hof).
  set (line := method_name m ++ [SP] ++ target ++ [SP] ++ rest).
  assert (length line = length (method_name m) + 2 + length target + length rest)%nat as Hlen
    by (subst line; rewrite !length_app; cbn; lia).
  unfold parseRequestLine. cbv zeta.
  assert (find_char SP line = length (method_name m)) as ->
    by (subst line; cbn [app]; by rewrite find_char_hit).
  rewrite (proj2 (Nat.ltb_lt _ _)) by lia.
  assert (range line 0 (length (method_name m)) = Ok (method_name m)) as ->
    by (subst line; by apply (range_app [])).
  rewrite bind_Ok. unfold setMethod. rewrite Hof, bool_decide_eq_true_2 by done.
  assert (drop (S (length (method_name m))) line = target ++ [SP] ++ rest) as Ed.
  { subst line. rewrite (assoc_L (++)).
    replace (S (length (method_name m))) with (length (method_name m ++ [SP]))
      by (rewrite length_app; cbn; lia). by rewrite drop_app_length. }
  rewrite Ed. cbn [app]. rewrite find_char_hit by done.
  replace (S (length (method_name m)) + length target)%nat
    with (length (method_name m) + 1 + length target)%nat by lia.
  rewrite (proj2 (Nat.ltb_lt _ _)) by lia.
  assert (drop (length (method_name m) + 1 + length target) line = SP :: rest) as Ed2.
  { rewrite <- drop_drop, Nat.add_1_r, Ed. apply drop_app_length. }
  rewrite Ed2.
  assert (drop (S (length (method_name m) + 1 + length target)) line = rest) as ->.
  { rewrite <- Nat.add_1_r, <- drop_drop, Ed2. done. }
  replace (S (length (method_name m))) with (length (method_name m) + 1)%nat by lia.
  assert (range line (length (method_name m) + 1) (length (method_name m) + 1 + length target)
          = Ok target) as ->.
  { subst line. rewrite (assoc_L (++)). apply range_app; rewrite length_app; cbn; lia. }
  rewrite bind_Ok. fold line.
  destruct (if (_ <? length line)%nat then _ else _) as [r'|]; [|done]. rewrite !bind_Ok.
  destruct (decide (length rest = 8%nat)) as [H8|H8];
    [|by rewrite bool_decide_eq_false_2 by done].
  assert (last line = last rest) as ->; [|done].
  subst line. rewrite !last_app. destruct (last rest) eqn:El; [done|].
  apply last_None in El. by subst rest.
Qed.

Lemma parseRequestLine_print r m target v :
  m <> kInvalid -> SP ∉ target -> v <> kUnknown ->
  parseRequestLine r (method_name m ++ [SP] ++ target ++ [SP] ++ version_name v) =
    Ok (true, mkRequest v m target (query_ r) (receiveTime_ r) (headers_ r)).
Proof.
  intros Hm Ht Hv. rewrite request_line_spaces by done. cbv zeta.
  rewrite (proj2 (Nat.ltb_ge _ _)).
  - destruct v; [done|..]; reflexivity.
  - assert (find_char QUESTION ([SP] ++ version_name v) = 9%nat
      /\ length (version_name v) = 8%nat) as [-> Hv8] by (by destruct v; vm_compute).
    rewrite !length_app, Hv8. cbn [length]. lia.
Qed.

Lemma skip_space_trimmed v : trimmed v -> skip_space (SP :: v) = v /\ trim_end v = v.
Proof.
  intros [H1 H2]. split.
  - cbn [skip_space]. change (isspace SP) with true. cbn iota.
    destruct v as [|c v]; [done|]. cbn [skip_space]. by rewrite H1.
  - unfold trim_end. destruct v as [|c v _] using rev_ind; [done|].
    rewrite last_snoc in H2. rewrite reverse_snoc. cbn [skip_space]. rewrite H2.
    by rewrite reverse_cons, reverse_involutive.
Qed.

Lemma addHeader_print r h :
  header_ok h ->
  addHeader r (h.1 ++ cs ": " ++ h.2) (length h.1) =
    Ok (mkRequest (version_ r) (method_ r) (path_ r) (query_ r) (receiveTime_ r)
          (minsert h.1 h.2 (headers_ r))).
Proof.
  intros (_ & _ & _ & Htr). unfold addHeader.
  assert (range (h.1 ++ cs ": " ++ h.2) 0 (length h.1) = Ok h.1) as ->
    by (by apply (range_app [])). rewrite bind_Ok.
  assert (range (h.1 ++ cs ": " ++ h.2) (S (length h.1)) (length (h.1 ++ cs ": " ++ h.2))
          = Ok (SP :: h.2)) as ->.
  { change (h.1 ++ cs ": " ++ h.2) with (h.1 ++ [COLON] ++ SP :: h.2).
    rewrite (assoc_L (++)).
    pose proof (range_app (h.1 ++ [COLON]) (SP :: h.2) []) as E. rewrite app_nil_r in E.
    apply E; rewrite !length_app; cbn; lia. }
  rewrite bind_Ok. destruct (skip_space_trimmed h.2 Htr) as [-> ->]. done.
Qed.

Lemma parse_headers fuel r hs more t :
  Forall header_ok hs -> (length hs < fuel)%nat ->
  parse_bytes fuel (mkContext r kExpectHeaders) (concat (print_header <$> hs) ++ kCRLF ++ more) t
  = Ok (true, mkContext (mkRequest (version_ r) (method_ r) (path_ r) (query_ r) (receiveTime_ r)
                 (foldl (fun l h => minsert h.1 h.2 l) (headers_ r) hs)) kGotAll, more).
Proof.
  intros Hok. revert fuel r. induction Hok as [|h hs Hh Hok IH]; intros fuel r Hf.
  - destruct fuel as [|fuel]; [cbn in Hf; lia|]. by destruct r.
  - destruct fuel as [|fuel]; [lia|]. cbn [fmap list_fmap concat foldl].
    set (line := h.1 ++ cs ": " ++ h.2).
    assert (print_header h = line ++ kCRLF) as -> by (subst line; unfold print_header;
      by rewrite <- !(assoc_L (++))).
    rewrite <- !(assoc_L (++)). cbn [parse_bytes parseState_ request_].
    pose proof Hh as (Hc & Hr1 & Hr2 & _).
    assert (CR ∉ line) as Hcr.
    { subst line. rewrite !not_elem_of_app. split_and!; try done.
      by eapply bool_decide_eq_false_1. }
    rewrite search_CRLF_line by done. rewrite take_line, drop_line.
    assert (find_char COLON line = length h.1) as ->
      by (subst line; change (cs ": " ++ h.2) with (COLON :: SP :: h.2); by rewrite find_char_hit).
    rewrite (proj2 (Nat.ltb_lt _ _)) by (subst line; rewrite !length_app; cbn; lia).
    subst line. rewrite addHeader_print, bind_Ok by done.
    rewrite IH by (cbn in Hf; lia). done.
Qed.

(** The pieces of a response go to the end of the buffer, when it has the room. *)
Lemma append_all_room `{Build} l buf :
  wf buf -> zlen (concat l) <= size buf - writeIndex_ buf ->
  exists buf', append_all buf l = Ok buf' /\ wf buf' /\ contents buf' = contents buf ++ concat l.
Proof.
  revert buf. induction l as [|s l IH]; intros buf Hb Hr; cbn [append_all concat] in *.
  - exists buf. by rewrite app_nil_r.
  - rewrite zlen_app in Hr. pose proof (zlen_nonneg (concat l)).
    destruct (append_room buf s) as (b & -> & Hwb & Hc & Hs & Hri); [done|lia|].
    rewrite bind_Ok. destruct (IH b) as (b' & -> & Hb' & Hc'); [done| |].
    { pose proof (zlen_contents b Hwb) as E1. pose proof (zlen_contents buf Hb) as E2.
      rewrite Hc, zlen_app in E1. lia. }
    exists b'. split_and!; try done. by rewrite Hc', Hc, <- (assoc_L (++)).
Qed.

(** ** Properties *)

Lemma request_parsed `{Build} fuel buf m target v hs more t :
  wf buf -> m <> kInvalid -> target_ok target -> v <> kUnknown -> Forall header_ok hs ->
  (length hs + 1 < fuel)%nat ->
  contents buf = print_request m target v hs ++ more ->
  exists buf', parseRequest fuel HttpContext_ctor buf t =
      Ok (true, mkContext (parsed_request m target v hs t) kGotAll, buf')
    /\ wf buf' /\ contents buf' = more.
Proof.
  intros Hb Hm [Ht Hcr] Hv Hhs Hf Hc.
  pose proof (parseRequest_bytes fuel HttpContext_ctor buf t Hb) as Hp.
  assert (parse_bytes fuel HttpContext_ctor (contents buf) t =
    Ok (true, mkContext (parsed_request m target v hs t) kGotAll, more)) as E; [|by rewrite E in Hp].
  rewrite Hc. destruct fuel as [|fuel]; [lia|]. unfold print_request.
  set (line := method_name m ++ [SP] ++ target ++ [SP] ++ version_name v).
  replace (_ ++ more) with (line ++ kCRLF ++ (concat (print_header <$> hs) ++ kCRLF ++ more))
    by (subst line; by rewrite <- !(assoc_L (++))).
  assert (CR ∉ line) as Hcl.
  { destruct (method_name_ok m Hm) as (_ & Hmc & _). subst line. rewrite !not_elem_of_app.
    split_and!; try done; try (by eapply bool_decide_eq_false_1).
    destruct v; by eapply bool_decide_eq_false_1. }
  cbn [parse_bytes parseState_ HttpContext_ctor request_].
  rewrite search_CRLF_line, take_line, drop_line by done.
  subst line. rewrite parseRequestLine_print, bind_Ok by done.
  rewrite parse_headers by (done || lia). done.
Qed.

(** C6: a printed request, with any method, target, version and headers, is parsed
    to exactly that request, from whatever buffer holds it, and the bytes after it
    stay in the buffer.  The target is the path as a whole, its '?' and query
    included, and the query is empty. *)
Theorem http_request_roundtrip `{Build} fuel buf m target v hs more t :
  wf buf -> m <> kInvalid -> target_ok target -> v <> kUnknown -> Forall header_ok hs ->
  (length hs + 1 < fuel)%nat ->
  contents buf = print_request m target v hs ++ more ->
  exists buf', parseRequest fuel HttpContext_ctor buf t =
      Ok (true, mkContext (parsed_request m target v hs t) kGotAll, buf')
    /\ wf buf' /\ contents buf' = more.
Proof. apply request_parsed. Qed.

Definition sample_headers : list (bytes * bytes) :=
  [(cs "Host", cs "localhost:8000"); (cs "Connection", cs "Keep-Alive"); (cs "Accept", [])].

Lemma http_request_roundtrip_witness :
  let buf := mkBuffer (print_request kGet (cs "/search?q=1") kHttp11 sample_headers ++ cs "GET ")
               0 (zlen (print_request kGet (cs "/search?q=1") kHttp11 sample_headers ++ cs "GET ")) in
  exists buf', parseRequest (H := Debug) 5 HttpContext_ctor buf (mkTimestamp 7) =
      Ok (true, mkContext (parsed_request kGet (cs "/search?q=1") kHttp11 sample_headers
                             (mkTimestamp 7)) kGotAll, buf')
    /\ wf buf' /\ contents buf' = cs "GET ".
Proof.
  apply (http_request_roundtrip (H := Debug) 5 _ kGet (cs "/search?q=1") kHttp11 sample_headers
           (cs "GET ")); try done.
  - split; eapply (bool_decide_eq_false_1 _); by vm_compute.
  - repeat constructor; try (eapply (bool_decide_eq_false_1 _)); by vm_compute.
  - cbn. lia.
Defined.

(** C29: it does not matter how the network cuts a request: parsing what has come so
    far and then, if the request is not complete, parsing on once more bytes have been
    added gives the same verdict, context and remaining bytes (or the same exception)
    as parsing everything at once; and a complete or rejected request is not affected
    by later bytes. *)
Theorem http_chunk_independent `{Build} fuel c buf buf1 all more t ok c1 :
  wf buf -> wf all -> parsing c ->
  contents all = contents buf ++ more -> (length (contents all) < fuel)%nat ->
  parseRequest fuel c buf t = Ok (ok, c1, buf1) ->
  if ok && negb (isGotAll c1)
  then forall buf2, wf buf2 -> contents buf2 = contents buf1 ++ more ->
       same_parse (parseRequest fuel c1 buf2 t) (parseRequest fuel c all t)
  else exists all1, parseRequest fuel c all t = Ok (ok, c1, all1)
       /\ contents all1 = contents buf1 ++ more.
Proof.
  intros Hb Ha Hp Hc Hf E. rewrite Hc, length_app in Hf.
  pose proof (parseRequest_bytes fuel c buf t Hb) as H1.
  pose proof (parseRequest_bytes fuel c all t Ha) as H2. rewrite Hc in H2.
  pose proof (parse_bytes_app fuel c (contents buf) more t Hp Hf) as Happ.
  destruct (parse_bytes fuel c (contents buf) t) as [[[ok' c'] rest]|f]; [|by rewrite H1 in E].
  destruct H1 as (buf' & E' & Hb' & Hr). rewrite E' in E. injection E as <- <- <-.
  destruct (ok' && negb (isGotAll c')).
  - destruct Happ as (Happ & Hp' & _). intros buf2 Hb2 Hc2.
    pose proof (parseRequest_bytes fuel c' buf2 t Hb2) as H3.
    rewrite Hc2, Hr in H3. rewrite Happ in H2. unfold same_parse.
    destruct (parse_bytes fuel c' (rest ++ more) t) as [[[ok2 c2] rest2]|f].
    + destruct H3 as (b3 & -> & _ & Hr3), H2 as (b2 & -> & _ & Hr2). by rewrite Hr3, Hr2.
    + by rewrite H3, H2.
  - rewrite Happ in H2. destruct H2 as (b2 & -> & _ & Hr2). exists b2. by rewrite Hr2, Hr.
Qed.

Definition buffer_of (s : bytes) : Buffer := mkBuffer (replicate 8 NUL ++ s) 8 (8 + zlen s).

Lemma http_chunk_independent_witness :
  same_parse
    (parseRequest (H := Debug) 99
       (mkContext (mkRequest kHttp10 kGet (cs "/") [] (mkTimestamp 1) []) kExpectHeaders)
       (buffer_of (cs "Ho" ++ cs "st: a" ++ kCRLF ++ kCRLF)) (mkTimestamp 1))
    (parseRequest (H := Debug) 99 HttpContext_ctor
       (buffer_of (cs "GET / HTTP/1.0" ++ kCRLF ++ cs "Ho" ++ cs "st: a" ++ kCRLF ++ kCRLF))
       (mkTimestamp 1)).
Proof.
  eapply (http_chunk_independent (H := Debug) 99 HttpContext_ctor
    (buffer_of (cs "GET / HTTP/1.0" ++ kCRLF ++ cs "Ho")) _ _
    (cs "st: a" ++ kCRLF ++ kCRLF) (mkTimestamp 1) true
    (mkContext (mkRequest kHttp10 kGet (cs "/") [] (mkTimestamp 1) []) kExpectHeaders)).
  - by repeat split; vm_compute.
  - by repeat split; vm_compute.
  - by left.
  - by vm_compute.
  - vm_compute. lia.
  - by vm_compute.
  - by repeat split; vm_compute.
  - by vm_compute.
Defined.

(** C37: a round of parsing that starts while the request line or the headers are
    expected ends, within one step more than there are bytes in the buffer, whatever
    the bytes are; one that starts when the request is complete (or the body is
    expected) never ends: a context must be reset before it is used again. *)
Theorem parseRequest_terminates `{Build} fuel c buf t :
  wf buf ->
  (parsing c -> (length (contents buf) < fuel)%nat -> parseRequest fuel c buf t <> Err OutOfFuel)
  /\ (~ parsing c -> parseRequest fuel c buf t = Err OutOfFuel).
Proof.
  intros Hb. split.
  - intros Hp Hf. pose proof (parseRequest_bytes fuel c buf t Hb) as H1.
    destruct (parse_bytes_fuel fuel c (contents buf) t Hp Hf) as [Hth _].
    destruct (parse_bytes _ _ _ _) as [[[ok c'] rest]|f].
    + destruct H1 as (b & -> & _). done.
    + rewrite H1. by intros [= ->].
  - intros Hp. induction fuel as [|fuel IH]; [done|]. cbn [parseRequest].
    unfold parsing in Hp. destruct (parseState_ c) eqn:E; try done; [by destruct Hp; left|].
    by destruct Hp; right.
Qed.

Lemma parseRequest_terminates_witness :
  parseRequest (H := Debug) 7 HttpContext_ctor (buffer_of (cs "a" ++ kCRLF)) (mkTimestamp 1)
    <> Err OutOfFuel
  /\ parseRequest (H := Debug) 1000 (mkContext HttpRequest_ctor kGotAll) (buffer_of [])
       (mkTimestamp 1) = Err OutOfFuel.
Proof.
  split; apply (parseRequest_terminates (H := Debug)).
  - by repeat split; vm_compute.
  - by left.
  - vm_compute. lia.
  - by repeat split; vm_compute.
  - by intros [?|?].
Defined.

(** A request line with a '?' after its second space makes the parser build a
    string from a range that ends before it begins, whatever else the line says: the
    exception is not caught anywhere, so one such line ends the server. *)
Theorem http_question_after_target_throws `{Build} fuel c buf m target rest more t :
  wf buf -> parseState_ c = kExpectRequestLine -> m <> kInvalid -> target_ok target ->
  CR ∉ rest -> QUESTION ∈ rest ->
  contents buf = (method_name m ++ [SP] ++ target ++ [SP] ++ rest) ++ kCRLF ++ more ->
  parseRequest (S fuel) c buf t = Err BadRange.
Proof.
  intros Hb Hs Hm [Ht Htc] Hrc Hq Hc.
  pose proof (parseRequest_bytes (S fuel) c buf t Hb) as H1.
  cbn [parse_bytes] in H1. rewrite Hs, Hc, search_CRLF_line, take_line in H1.
  2: { destruct (method_name_ok m Hm) as (_ & Hmc & _). rewrite !not_elem_of_app.
       split_and!; try done; by eapply bool_decide_eq_false_1. }
  rewrite request_line_spaces in H1 by done. cbv zeta in H1.
  set (line := method_name m ++ [SP] ++ target ++ [SP] ++ rest) in *.
  assert (0 < find_char QUESTION ([SP] ++ rest) < length ([SP] ++ rest))%nat as Hq'.
  { split; [cbn [app find_char]; rewrite decide_False by done; lia|].
    pose proof (find_char_le QUESTION ([SP] ++ rest)).
    destruct (Nat.eq_dec (find_char QUESTION ([SP] ++ rest)) (length ([SP] ++ rest))) as [E|]; [|lia].
    apply find_char_notin in E. set_solver. }
  assert (length line = length (method_name m) + 1 + length target + length ([SP] ++ rest))%nat
    as Hlen by (subst line; rewrite !length_app; cbn; lia).
  rewrite (proj2 (Nat.ltb_lt _ _)) in H1 by lia.
  set (q := find_char QUESTION ([SP] ++ rest)) in *.
  unfold range in H1.
  rewrite (proj2 (Nat.ltb_ge (length (method_name m) + 1 + length target + q) _)) in H1 by lia.
  rewrite (proj2 (Nat.ltb_ge (length line) (length (method_name m) + 1 + length target + q)))
    in H1 by lia.
  rewrite bind_Ok in H1. rewrite (proj2 (Nat.ltb_lt _ _)) in H1 by lia.
  done.
Qed.

Lemma http_question_after_target_throws_witness :
  parseRequest (H := Release) 10 HttpContext_ctor
    (buffer_of (cs "GET / HTTP?1.1" ++ kCRLF)) (mkTimestamp 1) = Err BadRange.
Proof.
  apply (http_question_after_target_throws (H := Release) 9 HttpContext_ctor _ kGet (cs "/")
           (cs "HTTP?1.1") []); try done.
  - split; eapply (bool_decide_eq_false_1 _); by vm_compute.
  - eapply (bool_decide_eq_false_1 _); by vm_compute.
  - eapply (bool_decide_eq_true_1 _); by vm_compute.
Defined.

Lemma onMessage_answers `{Build} cb fuel c buf t ok c1 buf1 :
  parseRequest fuel c buf t = Ok (ok, c1, buf1) ->
  let resp := cb (request_ c1) (HttpResponse_ctor (wants_close (request_ c1))) in
  zlen (concat (response_pieces resp)) <= kDefaultInitialSize ->
  onMessage cb fuel (Some c) buf t =
    Ok (if ok then
          if isGotAll c1 then
            (CSend (concat (response_pieces resp))
               :: (if closeConnection_ resp then [CShutdown] else []), HttpContext_ctor, buf1)
          else ([], c1, buf1)
        else ([CSend (cs "HTTP/1.1 400 Bad Request" ++ kCRLF ++ kCRLF); CShutdown], c1, buf1)).
Proof.
  intros E resp Hr. unfold onMessage. rewrite E, bind_Ok.
  destruct ok; [|done]. destruct (isGotAll c1); [|done].
  unfold onRequest, appendToBuffer. fold resp.
  destruct Buffer_empty_wf as [Hwf Hempty].
  destruct (append_all_room (response_pieces resp) Buffer_empty Hwf) as (b & -> & _ & Hc).
  { exact Hr. }
  rewrite !bind_Ok, Hc, Hempty. done.
Qed.

(** A complete request that fits a new buffer is answered with the callback's
    response: the status line (code and message with no space between them), the
    Connection header and, when the connection is kept, the length of the body, the
    headers in the order of their names, an empty line and the body; the connection is
    shut down exactly when the response closes it, and the context starts over.  A
    request line that is not understood is answered with 400 and a shutdown. *)
Theorem http_server_answers `{Build} cb fuel c buf t ok c1 buf1 :
  parseRequest fuel c buf t = Ok (ok, c1, buf1) ->
  let resp := cb (request_ c1) (HttpResponse_ctor (wants_close (request_ c1))) in
  zlen (concat (response_pieces resp)) <= kDefaultInitialSize ->
  onMessage cb fuel (Some c) buf t =
    Ok (if ok then
          if isGotAll c1 then
            (CSend (concat (response_pieces resp))
               :: (if closeConnection_ resp then [CShutdown] else []), HttpContext_ctor, buf1)
          else ([], c1, buf1)
        else ([CSend (cs "HTTP/1.1 400 Bad Request" ++ kCRLF ++ kCRLF); CShutdown], c1, buf1)).
Proof. apply onMessage_answers. Qed.

Lemma http_server_answers_witness :
  onMessage (H := Debug) defaultHttpCallback 99 (Some HttpContext_ctor)
    (buffer_of (cs "GET /x HTTP/1.1" ++ kCRLF ++ kCRLF)) (mkTimestamp 1)
  = Ok ([CSend (cs "HTTP/1.1 404Not Found" ++ kCRLF ++ cs "Connection: close" ++ kCRLF ++ kCRLF);
         CShutdown], HttpContext_ctor,
        retrieveAll (buffer_of (cs "GET /x HTTP/1.1" ++ kCRLF ++ kCRLF))).
Proof.
  rewrite (http_server_answers (H := Debug) defaultHttpCallback 99 HttpContext_ctor _ _ true
    (mkContext (mkRequest kHttp11 kGet (cs "/x") [] (mkTimestamp 1) []) kGotAll)
    (retrieveAll (buffer_of (cs "GET /x HTTP/1.1" ++ kCRLF ++ kCRLF)))); by vm_compute.
Defined.
