(* ===== verification/Channel.v ===== *)
(** * Channels: src/arale/net/Channel.{h,cc}

    A channel is the interest of one file descriptor and the callbacks of its owner.
    Channels live in a heap, addressed by pointers, because the pollers keep pointers
    to them and write to their fields.  [handleEvent] runs the callbacks in a state
    of the owner's choice. *)

From S2P Require Import Prelude Date Format.

(** ** poll(2) *)

Definition POLLIN : Z := 1.
Definition POLLPRI : Z := 2.
Definition POLLOUT : Z := 4.
Definition POLLERR : Z := 8.
Definition POLLHUP : Z := 16.
Definition POLLNVAL : Z := 32.
Definition POLLRDHUP : Z := 8192.

Definition kNoneEvent : Z := 0.
Definition kReadEvent : Z := Z.lor POLLIN POLLPRI.
Definition kWriteEvent : Z := POLLOUT.

(** if (a & b) *)
Definition has (a b : Z) : bool := negb (Z.land a b =? 0).

(** ** The object; [tie_] is the owner a tied channel refers to weakly *)

Record Channel := mkChannel {
  fd_ : Z; events_ : Z; revents_ : Z; isInLoop_ : bool; index_ : Z;
  tie_ : Z; tied_ : bool; isHandlingEvent_ : bool
}.

#[export] Instance Channel_eq_dec : EqDecision Channel.
Proof. solve_decision. Defined.

Definition Channel_ctor (socketFD : Z) : Channel :=
  mkChannel socketFD kNoneEvent kNoneEvent false (-1) 0 false false.

Section fields.
Implicit Types c : Channel.

Definition set_events c (e : Z) : Channel :=
  mkChannel (fd_ c) e (revents_ c) (isInLoop_ c) (index_ c) (tie_ c) (tied_ c) (isHandlingEvent_ c).
Definition set_revents c (r : Z) : Channel :=
  mkChannel (fd_ c) (events_ c) r (isInLoop_ c) (index_ c) (tie_ c) (tied_ c) (isHandlingEvent_ c).
Definition set_isInLoop c (b : bool) : Channel :=
  mkChannel (fd_ c) (events_ c) (revents_ c) b (index_ c) (tie_ c) (tied_ c) (isHandlingEvent_ c).
Definition setIndex c (i : Z) : Channel :=
  mkChannel (fd_ c) (events_ c) (revents_ c) (isInLoop_ c) i (tie_ c) (tied_ c) (isHandlingEvent_ c).
Definition tieTo c (obj : Z) : Channel :=
  mkChannel (fd_ c) (events_ c) (revents_ c) (isInLoop_ c) (index_ c) obj true (isHandlingEvent_ c).
Definition set_handling c (b : bool) : Channel :=
  mkChannel (fd_ c) (events_ c) (revents_ c) (isInLoop_ c) (index_ c) (tie_ c) (tied_ c) b.

Definition getfd c : Z := fd_ c.
Definition getIndex c : Z := index_ c.
Definition getEvents c : Z := events_ c.
Definition isReading c : bool := has (events_ c) kReadEvent.
Definition isWriting c : bool := has (events_ c) kWriteEvent.
Definition isNoneEvent c : bool := events_ c =? kNoneEvent.

(** The new interest each of these sets before it calls update(); ~ is over int. *)
Definition enableRead_events (e : Z) : Z := Z.lor e kReadEvent.
Definition disableRead_events (e : Z) : Z := Z.land e (Z.lnot kReadEvent).
Definition enableWrite_events (e : Z) : Z := Z.lor e kWriteEvent.
Definition disableWrite_events (e : Z) : Z := Z.land e kWriteEvent.
Definition disableAll_events (e : Z) : Z := kNoneEvent.

Definition Channel_dtor `{Build} c : outcome unit :=
  assert_ (negb (isInLoop_ c)) ;; assert_ (negb (isHandlingEvent_ c)).

Definition eventsToString (fd event : Z) : bytes :=
  fmt_d fd ++ cs ":"
  ++ (if has event POLLIN then cs "IN" else [])
  ++ (if has event POLLPRI then cs "PRI" else [])
  ++ (if has event POLLOUT then cs "OUT" else [])
  ++ (if has event POLLHUP then cs "HUP" else [])
  ++ (if has event POLLRDHUP then cs "RDHUP" else [])
  ++ (if has event POLLERR then cs "ERR" else [])
  ++ (if has event POLLNVAL then cs "NVAL" else []).
End fields.

(** ** Dispatch

    [W] is the state the callbacks run in, which holds the channel; an empty
    std::function is None.  [alive] says whether the weak pointer can be locked. *)

Section dispatch.
Context {W : Type} (get_channel : W -> Channel) (put_channel : Channel -> W -> W).

Record Callbacks := mkCallbacks {
  readCallback_ : option (Timestamp -> ST W unit);
  writeCallback_ : option (ST W unit);
  errorCallback_ : option (ST W unit);
  closeCallback_ : option (ST W unit)
}.

Definition call (cb : option (ST W unit)) : ST W unit :=
  match cb with Some f => f | None => mret tt end.
Definition revents_has (mask : Z) : ST W bool :=
  gets (fun w => has (revents_ (get_channel w)) mask).

Definition handleEventWithGuard (cb : Callbacks) (receiveTime : Timestamp) : ST W unit :=
  modify (fun w => put_channel (set_handling (get_channel w) true) w) ;;
  hup ← revents_has POLLHUP;
  inn ← revents_has POLLIN;
  when (hup && negb inn) (call (closeCallback_ cb)) ;;
  err ← revents_has (Z.lor POLLERR POLLNVAL);
  when err (call (errorCallback_ cb)) ;;
  rd ← revents_has (Z.lor (Z.lor POLLIN POLLPRI) POLLRDHUP);
  when rd (call ((fun f => f receiveTime) <$> readCallback_ cb)) ;;
  wr ← revents_has POLLOUT;
  when wr (call (writeCallback_ cb)) ;;
  modify (fun w => put_channel (set_handling (get_channel w) false) w).

Definition handleEvent (alive : W -> Z -> bool) (cb : Callbacks) (receiveTime : Timestamp)
    : ST W unit :=
  c ← gets get_channel;
  if tied_ c then
    ok ← gets (fun w => alive w (tie_ c));
    when ok (handleEventWithGuard cb receiveTime)
  else handleEventWithGuard cb receiveTime.
End dispatch.

(** ** Specification: which callbacks a set of events calls, in which order *)

Inductive cb_kind := CbClose | CbError | CbRead | CbWrite.
Definition dispatch_order (revents : Z) : list cb_kind :=
  (if has revents POLLHUP && negb (has revents POLLIN) then [CbClose] else [])
  ++ (if has revents (Z.lor POLLERR POLLNVAL) then [CbError] else [])
  ++ (if has revents (Z.lor (Z.lor POLLIN POLLPRI) POLLRDHUP) then [CbRead] else [])
  ++ (if has revents POLLOUT then [CbWrite] else []).

(** Callbacks that only record that they ran. *)
Definition recording : Callbacks (W := Channel * list cb_kind) :=
  let note k : ST (Channel * list cb_kind) unit := modify (fun w => (w.1, w.2 ++ [k])) in
  mkCallbacks (Some (fun _ => note CbRead)) (Some (note CbWrite)) (Some (note CbError))
    (Some (note CbClose)).

(** ** Lemmas on the interest bits *)

Lemma land_pow2 a n : 0 <= n -> Z.land a (2 ^ n) = (Z.b2z (Z.testbit a n)) * 2 ^ n.
Proof.
  intros Hn. apply Z.bits_inj'. intros i Hi. rewrite Z.land_spec, Z.pow2_bits_eqb by done.
  destruct (Z.eqb_spec n i) as [->|Hne].
  - rewrite andb_true_r. destruct (Z.testbit a i) eqn:E; cbn [Z.b2z].
    + by rewrite Z.mul_1_l, Z.pow2_bits_true.
    + by rewrite Z.mul_0_l, Z.bits_0.
  - rewrite andb_false_r. destruct (Z.testbit a n); cbn [Z.b2z].
    + by rewrite Z.mul_1_l, Z.pow2_bits_false.
    + by rewrite Z.mul_0_l, Z.bits_0.
Qed.

Lemma isWriting_bit c : isWriting c = Z.testbit (events_ c) 2.
Proof.
  unfold isWriting, has, kWriteEvent, POLLOUT. change 4 with (2 ^ 2) at 1.
  rewrite land_pow2 by lia. by destruct (Z.testbit (events_ c) 2).
Qed.

(** ** Properties *)

(** DisableWrite does the opposite of its name: it keeps the write interest a
    channel has and drops its read interest, while enableWrite, disableRead, enableRead
    and disableAll set what their names say, whatever the interest was. *)
Theorem channel_interest c :
  isWriting (set_events c (disableWrite_events (events_ c))) = isWriting c
  /\ isReading (set_events c (disableWrite_events (events_ c))) = false
  /\ isWriting (set_events c (enableWrite_events (events_ c))) = true
  /\ isReading (set_events c (enableWrite_events (events_ c))) = isReading c
  /\ isReading (set_events c (enableRead_events (events_ c))) = true
  /\ isWriting (set_events c (enableRead_events (events_ c))) = isWriting c
  /\ isReading (set_events c (disableRead_events (events_ c))) = false
  /\ isWriting (set_events c (disableRead_events (events_ c))) = isWriting c
  /\ isNoneEvent (set_events c (disableAll_events (events_ c))) = true.
Proof.
  rewrite !isWriting_bit. unfold isReading, isNoneEvent, has. cbn [events_ set_events].
  unfold disableWrite_events, enableWrite_events, enableRead_events, disableRead_events.
  rewrite !Z.land_lor_distr_l, <- !Z.land_assoc.
  change (Z.land kWriteEvent kReadEvent) with 0.
  change (Z.land kReadEvent kReadEvent) with 3.
  change (Z.land (Z.lnot kReadEvent) kReadEvent) with 0.
  rewrite !Z.land_0_r, !Z.lor_0_r, !Z.land_spec, !Z.lor_spec.
  change (Z.testbit kWriteEvent 2) with true. change (Z.testbit kReadEvent 2) with false.
  change (Z.testbit (Z.lnot kReadEvent) 2) with true.
  rewrite !andb_true_r, orb_true_r, orb_false_r. split_and!; try done.
  destruct (_ =? 0) eqn:E; [|done]. apply Z.eqb_eq, Z.lor_eq_0_iff in E as [_ E]. done.
Qed.

(** An event calls the callbacks its bits ask for, each at most once, in the order
    close, error, read, write, and close only when there is nothing left to read; a
    channel tied to an object that is gone calls nothing.  The channel is marked as
    handling an event meanwhile and not afterwards. *)
Theorem handleEvent_dispatch c log t alive :
  handleEvent fst (fun c w => (c, w.2)) (fun _ => alive) recording t (c, log) =
    Ok (tt, if tied_ c && negb (alive (tie_ c)) then (c, log)
            else (set_handling c false, log ++ dispatch_order (revents_ c))).
Proof.
  unfold handleEvent, mbind, ST_bind, gets. cbn [fst].
  assert (handleEventWithGuard fst (fun c w => (c, w.2)) recording t (c, log) =
    Ok (tt, (set_handling c false, log ++ dispatch_order (revents_ c)))) as E.
  { unfold handleEventWithGuard, dispatch_order, revents_has, recording.
    unfold mbind, ST_bind, modify, gets, when, call, mret, ST_ret. cbn [fst snd].
    cbn [revents_ set_handling].
    destruct (has (revents_ c) POLLHUP && negb (has (revents_ c) POLLIN)); cbn;
    destruct (has (revents_ c) (Z.lor POLLERR POLLNVAL)); cbn;
    destruct (has (revents_ c) (Z.lor (Z.lor POLLIN POLLPRI) POLLRDHUP)); cbn;
    destruct (has (revents_ c) POLLOUT); cbn;
    rewrite ?app_nil_r, <- ?(assoc_L (++)); done. }
  destruct (tied_ c); cbn [andb].
  - destruct (alive (tie_ c)); cbn [negb when]; [exact E|done].
  - exact E.
Qed.
