(* ===== verification/Poller.v ===== *)
(** * Pollers: src/arale/net/Poller.{h,cc}, PollPoller.{h,cc}, EPollPoller.{h,cc},
    DefaultPoller.cc

    Both pollers keep pointers to channels of the heap and write their index_ and
    revents_.  [Poller] is the interface the event loop uses: the operations, and what
    they promise about the set of descriptors the kernel is asked to watch.  The
    instances discharge it for PollPoller (an array of pollfd, with the swap that
    keeps the indices right on removal) and EPollPoller (epoll_ctl on the kernel's
    interest list). *)

From S2P Require Import Prelude Date Channel.

(** The channels, by address. *)
Abbreviation heap := (gmap Z Channel).

Section deref.
(** *p *)
Definition deref (h : heap) (p : Z) : outcome Channel :=
  match h !! p with Some c => Ok c | None => Err StaleRead end.
End deref.

(** ** PollPoller *)

Record pollfd := mkPollfd { pfd_fd : Z; pfd_events : Z; pfd_revents : Z }.
Record PollPoller := mkPollPoller { pp_channels : gmap Z Z; pollfds_ : list pollfd }.

Definition PollPoller_ctor : PollPoller := mkPollPoller ∅ [].

Section poll_poller.
Context `{Build}.
Implicit Types (p : PollPoller) (h : heap).

(** The address of a pollfd in the vector; out of range is undefined. *)
Definition pollfd_at p (i : Z) : outcome pollfd :=
  if i <? 0 then Err OutOfBounds
  else match pollfds_ p !! Z.to_nat i with Some x => Ok x | None => Err OutOfBounds end.

Definition poll_updateChannel (ptr : Z) (p : PollPoller) (h : heap)
    : outcome (PollPoller * heap) :=
  ch ← deref h ptr;
  if index_ ch <? 0 then
    assert_ (bool_decide (pp_channels p !! fd_ ch = None)) ;;
    let pfd := mkPollfd (fd_ ch) (i16 (events_ ch)) 0 in
    let pollfds := pollfds_ p ++ [pfd] in
    Ok (mkPollPoller (<[fd_ ch := ptr]> (pp_channels p)) pollfds,
        <[ptr := setIndex ch (i32 (zlen pollfds - 1))]> h)
  else
    assert_ (bool_decide (pp_channels p !! fd_ ch <> None)) ;;
    pfd ← pollfd_at p (index_ ch);
    assert_ ((pfd_fd pfd =? fd_ ch) || (pfd_fd pfd =? - fd_ ch - 1)) ;;
    let pfd' := mkPollfd (if isNoneEvent ch then - fd_ ch - 1 else pfd_fd pfd)
                  (i16 (events_ ch)) 0 in
    Ok (mkPollPoller (pp_channels p) (<[Z.to_nat (index_ ch) := pfd']> (pollfds_ p)), h).

Definition poll_removeChannel (ptr : Z) (p : PollPoller) (h : heap)
    : outcome (PollPoller * heap) :=
  ch ← deref h ptr;
  assert_ (bool_decide (pp_channels p !! fd_ ch <> None)) ;;
  let index := index_ ch in
  assert_ ((0 <=? index) && (index <? i32 (zlen (pollfds_ p)))) ;;
  assert_ (isNoneEvent ch) ;;
  let channels := delete (fd_ ch) (pp_channels p) in
  assert_ (bool_decide (pp_channels p !! fd_ ch <> None)) ;;
  '(pollfds, h) ←
    (if negb (u64 index =? u64 (zlen (pollfds_ p) - 1)) then
       last ← pollfd_at p (zlen (pollfds_ p) - 1);
       pfd ← pollfd_at p index;
       let pollfds := <[Z.to_nat (zlen (pollfds_ p) - 1) := pfd]>
                        (<[Z.to_nat index := last]> (pollfds_ p)) in
       let lastChannel := if pfd_fd last <? 0 then - pfd_fd last - 1 else pfd_fd last in
       match channels !! lastChannel with
       | Some q => c ← deref h q; Ok (pollfds, <[q := setIndex c index]> h)
       | None => Err NullCall     (* operator[] makes a null pointer *)
       end
     else Ok (pollfds_ p, h));
  match pollfds with
  | [] => Err OutOfBounds        (* pop_back() of an empty vector *)
  | _ => Ok (mkPollPoller channels (take (length pollfds - 1) pollfds), h)
  end.

(** poll(2) has written [rs] to the revents of the pollfds. *)
Definition kernel_poll (rs : list Z) (l : list pollfd) : list pollfd :=
  zip_with (fun x r => mkPollfd (pfd_fd x) (pfd_events x) r) l rs.

Fixpoint poll_fillActiveChannels (p : PollPoller) (l : list pollfd) (numEvents : Z) (h : heap)
    (active : list Z) : outcome (list Z * heap) :=
  match l with
  | [] => Ok (active, h)
  | pfd :: l' =>
      if numEvents =? 0 then Ok (active, h)
      else if 0 <? pfd_revents pfd then
        match pp_channels p !! pfd_fd pfd with
        | Some q =>
            ch ← deref h q;
            assert_ (fd_ ch =? pfd_fd pfd) ;;
            poll_fillActiveChannels p l' (numEvents - 1)
              (<[q := Channel.set_revents ch (pfd_revents pfd)]> h) (active ++ [q])
        | None => assert_ false ;; Err StaleRead
        end
      else poll_fillActiveChannels p l' numEvents h active
  end.

(** poll(): what the system call returned, with the revents it wrote; a failure other
    than EINTR is only logged. *)
Definition poll_poll (nEvents : Z) (rs : list Z) (p : PollPoller) (h : heap)
    : outcome (list Z * PollPoller * heap) :=
  let p := mkPollPoller (pp_channels p) (kernel_poll rs (pollfds_ p)) in
  if 0 <? nEvents then
    '(active, h) ← poll_fillActiveChannels p (pollfds_ p) nEvents h [];
    Ok (active, p, h)
  else Ok ([], p, h).
End poll_poller.

(** ** EPollPoller *)

Definition kNew : Z := -1.
Definition kAdded : Z := 1.
Definition kDeleted : Z := 2.
Definition kInitEPollEventListSize : Z := 16.

Definition EPOLL_CTL_ADD : Z := 1.
Definition EPOLL_CTL_DEL : Z := 2.
Definition EPOLL_CTL_MOD : Z := 3.

(** [interest] is the kernel's: what epoll_ctl has been told, by descriptor. *)
Record EPollPoller := mkEPollPoller {
  ep_channels : gmap Z Z;
  interest : gmap Z (Z * Z);      (* fd to events and data.ptr *)
  epollEvents_size : Z
}.

Definition EPollPoller_ctor : EPollPoller := mkEPollPoller ∅ ∅ kInitEPollEventListSize.

(** The poller of a new loop; is ARALE_USE_POLL in the environment? *)
Definition setDefaultPoller (arale_use_poll : bool) : PollPoller + EPollPoller :=
  if arale_use_poll then inl PollPoller_ctor else inr EPollPoller_ctor.

Section epoll_poller.
Context `{Build}.
Implicit Types (p : EPollPoller) (h : heap).

(** epoll_ctl(2): EEXIST for an fd that is there, ENOENT for one that is not. *)
Definition epoll_ctl (op fd : Z) (event : Z * Z) (m : gmap Z (Z * Z)) : option (gmap Z (Z * Z)) :=
  match m !! fd with
  | None => if op =? EPOLL_CTL_ADD then Some (<[fd := event]> m) else None
  | Some _ => if op =? EPOLL_CTL_ADD then None
              else if op =? EPOLL_CTL_DEL then Some (delete fd m) else Some (<[fd := event]> m)
  end.

Definition operationToString (operation : Z) : outcome bytes :=
  if operation =? EPOLL_CTL_ADD then Ok (cs "ADD")
  else if operation =? EPOLL_CTL_DEL then Ok (cs "DEL")
  else if operation =? EPOLL_CTL_MOD then Ok (cs "MOD")
  else assert_ false ;; Ok (cs "Unknown Operation").

(** A failure is fatal unless [operation == kDeleted]. *)
Definition epoll_update (operation ptr : Z) (ch : Channel) (p : EPollPoller) : outcome EPollPoller :=
  match epoll_ctl operation (fd_ ch) (events_ ch, ptr) (interest p) with
  | Some m => Ok (mkEPollPoller (ep_channels p) m (epollEvents_size p))
  | None => if operation =? kDeleted then Ok p else Err FatalLog
  end.

Definition epoll_updateChannel (ptr : Z) (p : EPollPoller) (h : heap)
    : outcome (EPollPoller * heap) :=
  ch ← deref h ptr;
  let index := index_ ch in
  let fd := fd_ ch in
  if (index =? kNew) || (index =? kDeleted) then
    assert_ (bool_decide (ep_channels p !! fd = None)) ;;
    p ← (if index =? kNew
         then Ok (mkEPollPoller (<[fd := ptr]> (ep_channels p)) (interest p) (epollEvents_size p))
         else assert_ (bool_decide (ep_channels p !! fd = Some ptr)) ;; Ok p);
    let ch := setIndex ch kAdded in
    p ← epoll_update EPOLL_CTL_ADD ptr ch p;
    Ok (p, <[ptr := ch]> h)
  else
    assert_ (bool_decide (ep_channels p !! fd <> None)) ;;
    assert_ (bool_decide (ep_channels p !! fd = Some ptr)) ;;
    assert_ (index =? kAdded) ;;
    if isNoneEvent ch then
      let ch := setIndex ch kDeleted in
      p ← epoll_update EPOLL_CTL_DEL ptr ch p; Ok (p, <[ptr := ch]> h)
    else p ← epoll_update EPOLL_CTL_MOD ptr ch p; Ok (p, h).

Definition epoll_removeChannel (ptr : Z) (p : EPollPoller) (h : heap)
    : outcome (EPollPoller * heap) :=
  ch ← deref h ptr;
  let fd := fd_ ch in
  assert_ (bool_decide (ep_channels p !! fd <> None)) ;;
  assert_ (bool_decide (ep_channels p !! fd = Some ptr)) ;;
  assert_ (isNoneEvent ch) ;;
  let index := index_ ch in
  assert_ ((index =? kAdded) || (index =? kDeleted)) ;;
  let p' := mkEPollPoller (delete fd (ep_channels p)) (interest p) (epollEvents_size p) in
  assert_ (bool_decide (ep_channels p !! fd <> None)) ;;
  p' ← (if index =? kAdded then epoll_update EPOLL_CTL_DEL ptr ch p' else Ok p');
  Ok (p', <[ptr := setIndex ch kNew]> h).

(** The elements of epollEvents_ epoll_wait has filled: pairs of data.ptr and events. *)
Fixpoint epoll_fillActiveChannels (p : EPollPoller) (events : list (Z * Z)) (h : heap)
    (active : list Z) : outcome (list Z * heap) :=
  match events with
  | [] => Ok (active, h)
  | (ptr, ev) :: l =>
      ch ← deref h ptr;
      assert_ (bool_decide (ep_channels p !! fd_ ch = Some ptr)) ;;
      epoll_fillActiveChannels p l (<[ptr := Channel.set_revents ch (i32 ev)]> h) (active ++ [ptr])
  end.

(** [num]: what epoll_wait returned; [events]: what epollEvents_ holds then. *)
Definition epoll_poll (num : Z) (events : list (Z * Z)) (p : EPollPoller) (h : heap)
    : outcome (list Z * EPollPoller * heap) :=
  if 0 <? num then
    assert_ (num <=? epollEvents_size p) ;;
    '(active, h) ← epoll_fillActiveChannels p (take (Z.to_nat num) events) h [];
    Ok (active,
        mkEPollPoller (ep_channels p) (interest p)
          (if num =? epollEvents_size p then epollEvents_size p * 2
           else epollEvents_size p), h)
  else Ok ([], p, h).
End epoll_poller.

(** ** The interface

    What the loop relies on: which descriptors are registered, with which channel, and
    what the kernel is asked to watch.  A channel is [fresh] until it is first updated;
    one whose interest was set to none is registered but not watched, and the contract
    says nothing of updating it again. *)

(** The heaps differ at most in the indices of channels. *)
Definition same_but_index (c d : Channel) : Prop := setIndex c 0 = setIndex d 0.
Definition same_channels (h h' : heap) : Prop :=
  forall p, option_Forall2 same_but_index (h !! p) (h' !! p).

(** What an operation on [ptr] may change of the heap, [r] being registered. *)
Definition frame (r : gmap Z Z) (ptr : Z) (h h' : heap) : Prop :=
  same_channels h h' /\
  forall q, q <> ptr -> (forall fd, r !! fd <> Some q) -> h' !! q = h !! q.

Class Poller (P : Type) := {
  updateChannel : forall `{Build}, Z -> P -> heap -> outcome (P * heap);
  removeChannel : forall `{Build}, Z -> P -> heap -> outcome (P * heap);
  registered : P -> gmap Z Z;
  watching : P -> gmap Z Z;
  poller_inv : P -> heap -> Prop
}.

Definition fd_ok (c : Channel) : Prop := 0 <= fd_ c < 2 ^ 31 /\ 0 <= events_ c < 2 ^ 15.

Class PollerLaws (P : Type) `{Poller P} := {
  (** a channel's owner may change what the poller does not own *)
  inv_stable p h ptr c c' :
    poller_inv p h -> h !! ptr = Some c -> fd_ c' = fd_ c -> index_ c' = index_ c ->
    poller_inv p (<[ptr := c']> h);
  update_fresh `{Build} p h ptr c :
    poller_inv p h -> h !! ptr = Some c -> fd_ok c -> index_ c = -1 ->
    registered p !! fd_ c = None -> Z.of_nat (size (registered p)) < 2 ^ 31 - 1 ->
    exists p' h', updateChannel ptr p h = Ok (p', h') /\ poller_inv p' h' /\ frame (registered p) ptr h h'
      /\ registered p' = <[fd_ c := ptr]> (registered p)
      /\ watching p' = <[fd_ c := events_ c]> (watching p);
  update_watched `{Build} p h ptr c :
    poller_inv p h -> h !! ptr = Some c -> fd_ok c ->
    registered p !! fd_ c = Some ptr -> is_Some (watching p !! fd_ c) ->
    exists p' h', updateChannel ptr p h = Ok (p', h') /\ poller_inv p' h' /\ frame (registered p) ptr h h'
      /\ registered p' = registered p
      /\ watching p' = if events_ c =? 0 then delete (fd_ c) (watching p)
                       else <[fd_ c := events_ c]> (watching p);
  remove_registered `{Build} p h ptr c :
    poller_inv p h -> h !! ptr = Some c -> registered p !! fd_ c = Some ptr -> events_ c = 0 ->
    Z.of_nat (size (registered p)) < 2 ^ 31 ->
    exists p' h', removeChannel ptr p h = Ok (p', h') /\ poller_inv p' h' /\ frame (registered p) ptr h h'
      /\ registered p' = delete (fd_ c) (registered p)
      /\ watching p' = delete (fd_ c) (watching p)
}.

(** ** EPollPoller keeps the contract *)

Lemma same_channels_refl h : same_channels h h.
Proof. intros p. destruct (h !! p); by constructor. Qed.

Lemma same_channels_setIndex h ptr c i :
  h !! ptr = Some c -> same_channels h (<[ptr := setIndex c i]> h).
Proof.
  intros Hc p. destruct (decide (p = ptr)) as [->|Hne].
  - rewrite lookup_insert_eq, Hc. by constructor.
  - rewrite lookup_insert_ne by done. destruct (h !! p); by constructor.
Qed.

Lemma frame_refl r ptr h : frame r ptr h h.
Proof. split; [apply same_channels_refl|done]. Qed.

Lemma frame_setIndex r ptr h c i : h !! ptr = Some c -> frame r ptr h (<[ptr := setIndex c i]> h).
Proof.
  intros Hc. split; [by apply same_channels_setIndex|]. intros q Hq _. by rewrite lookup_insert_ne.
Qed.

Lemma frame_setIndex_registered (r : gmap Z Z) ptr fd q h c i :
  r !! fd = Some q -> h !! q = Some c -> frame r ptr h (<[q := setIndex c i]> h).
Proof.
  intros Hr Hc. split; [by apply same_channels_setIndex|]. intros q' _ Hq'.
  rewrite lookup_insert_ne; [done|]. intros <-. by apply (Hq' fd).
Qed.

(** A channel is in the kernel's list exactly when its index says so. *)
Definition epoll_inv (p : EPollPoller) (h : heap) : Prop :=
  (forall fd ptr, ep_channels p !! fd = Some ptr ->
     exists c, h !! ptr = Some c /\ fd_ c = fd
       /\ (index_ c = kAdded /\ (exists ev, interest p !! fd = Some (ev, ptr))
           \/ index_ c = kDeleted /\ interest p !! fd = None))
  /\ (forall fd, is_Some (interest p !! fd) -> is_Some (ep_channels p !! fd)).

#[export] Instance epoll_poller : Poller EPollPoller := {|
  updateChannel := @epoll_updateChannel;
  removeChannel := @epoll_removeChannel;
  registered := ep_channels;
  watching p := fst <$> interest p;
  poller_inv := epoll_inv
|}.

(** Changing one channel's entry, the others are as they were. *)
Lemma epoll_inv_insert p h fd ptr c m :
  epoll_inv p h -> fd_ c = fd ->
  (forall ptr', ep_channels p !! fd = Some ptr' -> ptr' = ptr) ->
  (forall fd', fd' <> fd -> ep_channels p !! fd' <> Some ptr) ->
  (forall fd', fd' <> fd -> m !! fd' = interest p !! fd') ->
  (index_ c = kAdded /\ (exists ev, m !! fd = Some (ev, ptr))
   \/ index_ c = kDeleted /\ m !! fd = None) ->
  epoll_inv (mkEPollPoller (<[fd := ptr]> (ep_channels p)) m (epollEvents_size p)) (<[ptr := c]> h).
Proof.
  intros [H1 H2] Hfd Hsame Hne Hm Hidx. split; cbn [ep_channels interest].
  - intros fd' ptr'. destruct (decide (fd' = fd)) as [->|Hn].
    + rewrite lookup_insert_eq. intros [= <-]. exists c. by rewrite lookup_insert_eq.
    + rewrite lookup_insert_ne by done. intros Hp'.
      destruct (decide (ptr' = ptr)) as [->|Hpp]; [by destruct (Hne fd' Hn)|].
      rewrite lookup_insert_ne, Hm by done. by apply H1.
  - intros fd' Hs. destruct (decide (fd' = fd)) as [->|Hn].
    + rewrite lookup_insert_eq. eauto.
    + rewrite lookup_insert_ne by done. rewrite Hm in Hs by done. by apply H2.
Qed.

Lemma epoll_inj p h fd fd' ptr :
  epoll_inv p h -> ep_channels p !! fd = Some ptr -> ep_channels p !! fd' = Some ptr -> fd' = fd.
Proof.
  intros [H1 _] E E'. destruct (H1 _ _ E) as (c & Hc & <- & _).
  destruct (H1 _ _ E') as (c' & Hc' & <- & _). congruence.
Qed.

Section epoll_law_lemmas.
Implicit Types (p : EPollPoller) (h : heap).

Lemma epoll_inv_stable p h ptr c c' :
  epoll_inv p h -> h !! ptr = Some c -> fd_ c' = fd_ c -> index_ c' = index_ c ->
  epoll_inv p (<[ptr := c']> h).
Proof.
  intros [H1 H2] Hc Hfd Hi. split; [|done]. intros fd q Hq.
  destruct (H1 _ _ Hq) as (d & Hd & Hdfd & Hdi). destruct (decide (q = ptr)) as [->|Hne].
  - exists c'. rewrite lookup_insert_eq. assert (c = d) as <- by congruence.
    rewrite Hfd, Hi. done.
  - exists d. by rewrite lookup_insert_ne.
Qed.

Lemma epoll_update_fresh `{Build} p h ptr c :
  epoll_inv p h -> h !! ptr = Some c -> index_ c = -1 -> ep_channels p !! fd_ c = None ->
  exists p' h', epoll_updateChannel ptr p h = Ok (p', h') /\ epoll_inv p' h' /\ frame (ep_channels p) ptr h h'
    /\ ep_channels p' = <[fd_ c := ptr]> (ep_channels p)
    /\ fst <$> interest p' = <[fd_ c := events_ c]> (fst <$> interest p).
Proof.
  intros Hinv Hc Hi Hr. pose proof Hinv as [H1 H2].
  assert (interest p !! fd_ c = None) as Hint.
  { destruct (interest p !! fd_ c) eqn:E; [|done]. destruct (H2 (fd_ c)) as [? ?]; [eauto|congruence]. }
  unfold epoll_updateChannel, deref. rewrite Hc, bind_Ok, Hi. cbn [Z.eqb kNew Pos.eqb orb].
  rewrite assert_true, !bind_Ok by (by apply bool_decide_eq_true).
  unfold epoll_update, epoll_ctl. cbn [interest fd_ setIndex events_ ep_channels].
  rewrite Hint. cbn [Z.eqb EPOLL_CTL_ADD Pos.eqb]. rewrite !bind_Ok.
  eexists _, _. split; [reflexivity|].
  split; [|split; [by apply frame_setIndex|split; [done|]]].
  - apply (epoll_inv_insert p h (fd_ c) ptr (setIndex c kAdded)
             (<[fd_ c := (events_ c, ptr)]> (interest p))); try done.
    + intros ptr' E. congruence.
    + intros fd' Hn E. destruct (H1 _ _ E) as (d & Hd & <- & _). congruence.
    + intros fd' Hn. by rewrite lookup_insert_ne by done.
    + left. split; [done|]. exists (events_ c). by rewrite lookup_insert_eq.
  - cbn [interest]. by rewrite fmap_insert.
Qed.

Lemma epoll_update_watched `{Build} p h ptr c :
  epoll_inv p h -> h !! ptr = Some c -> ep_channels p !! fd_ c = Some ptr ->
  is_Some ((fst <$> interest p) !! fd_ c) ->
  exists p' h', epoll_updateChannel ptr p h = Ok (p', h') /\ epoll_inv p' h' /\ frame (ep_channels p) ptr h h'
    /\ ep_channels p' = ep_channels p
    /\ fst <$> interest p' = if events_ c =? 0 then delete (fd_ c) (fst <$> interest p)
                             else <[fd_ c := events_ c]> (fst <$> interest p).
Proof.
  intros Hinv Hc Hr Hw. pose proof Hinv as [H1 H2].
  destruct (H1 _ _ Hr) as (d & Hd & _ & Hdi). assert (d = c) as -> by congruence.
  rewrite lookup_fmap in Hw. destruct Hdi as [[Hi (ev & Hint)]|[_ Hn]];
    [|rewrite Hn in Hw; by destruct Hw].
  unfold epoll_updateChannel, deref. rewrite Hc, bind_Ok, Hi.
  cbn [Z.eqb kNew kDeleted kAdded Pos.eqb orb]. rewrite Hr.
  rewrite !assert_true, !bind_Ok by (done || by apply bool_decide_eq_true).
  assert (forall fd', fd' <> fd_ c -> ep_channels p !! fd' <> Some ptr) as Hne.
  { intros fd' Hn E. apply Hn. by eapply epoll_inj. }
  unfold epoll_update, epoll_ctl, isNoneEvent. cbn [fd_ setIndex events_].
  rewrite Hint. change kNoneEvent with 0. destruct (events_ c =? 0) eqn:Ee;
    cbn [Z.eqb EPOLL_CTL_DEL EPOLL_CTL_ADD EPOLL_CTL_MOD Pos.eqb];
    rewrite !bind_Ok; eexists _, _; (split; [reflexivity|]).
  - split; [|split; [by apply frame_setIndex|split; [done|cbn [interest]; by rewrite fmap_delete]]].
    rewrite <- (insert_id (ep_channels p) (fd_ c) ptr) by done.
    eapply epoll_inv_insert; try done; [congruence| |].
    + intros fd' Hn. by rewrite lookup_delete_ne by done.
    + right. split; [done|]. apply lookup_delete_eq.
  - split; [|split; [apply frame_refl|split; [done|cbn [interest]; by rewrite fmap_insert]]].
    rewrite <- (insert_id h ptr c) by done.
    rewrite <- (insert_id (ep_channels p) (fd_ c) ptr) by done.
    eapply epoll_inv_insert; try done; [congruence| |].
    + intros fd' Hn. by rewrite lookup_insert_ne by done.
    + left. split; [done|]. exists (events_ c). by rewrite lookup_insert_eq.
Qed.

(** The invariant after the entry of a channel is gone from both tables. *)
Lemma epoll_inv_delete p h ptr c d m :
  epoll_inv p h -> h !! ptr = Some c -> ep_channels p !! fd_ c = Some ptr ->
  (forall fd', fd' <> fd_ c -> m !! fd' = interest p !! fd') -> m !! fd_ c = None ->
  epoll_inv (mkEPollPoller (delete (fd_ c) (ep_channels p)) m (epollEvents_size p))
    (<[ptr := d]> h).
Proof.
  intros [H1 H2] Hc Hr Hm Hmn. split; cbn [ep_channels interest].
  - intros fd' ptr' [Hne E]%lookup_delete_Some. destruct (H1 _ _ E) as (d' & Hd' & Hfd & Hd'i).
    exists d'. assert (ptr' <> ptr) by congruence. by rewrite lookup_insert_ne, Hm by done.
  - intros fd' Hs. assert (fd' <> fd_ c) by (intros ->; rewrite Hmn in Hs; by destruct Hs).
    rewrite Hm in Hs by done. rewrite lookup_delete_ne by done. by apply H2.
Qed.

Lemma epoll_remove `{Build} p h ptr c :
  epoll_inv p h -> h !! ptr = Some c -> ep_channels p !! fd_ c = Some ptr -> events_ c = 0 ->
  exists p' h', epoll_removeChannel ptr p h = Ok (p', h') /\ epoll_inv p' h' /\ frame (ep_channels p) ptr h h'
    /\ ep_channels p' = delete (fd_ c) (ep_channels p)
    /\ fst <$> interest p' = delete (fd_ c) (fst <$> interest p).
Proof.
  intros Hinv Hc Hr Hev. pose proof Hinv as [H1 H2].
  destruct (H1 _ _ Hr) as (d & Hd & _ & Hdi). assert (d = c) as -> by congruence.
  unfold epoll_removeChannel, deref. rewrite Hc, bind_Ok, Hr. unfold isNoneEvent. rewrite Hev.
  assert (((index_ c =? kAdded) || (index_ c =? kDeleted)) = true) as Hidx
    by (by destruct Hdi as [[-> _]|[-> _]]).
  rewrite !assert_true, !bind_Ok by (done || by apply bool_decide_eq_true).
  unfold epoll_update, epoll_ctl. cbn [interest fd_ events_ ep_channels epollEvents_size].
  destruct Hdi as [[Hi (ev & Hint)]|[Hi Hn]]; rewrite Hi;
    cbn [Z.eqb kAdded kDeleted Pos.eqb EPOLL_CTL_DEL EPOLL_CTL_ADD]; rewrite ?Hint, !bind_Ok;
    eexists _, _; (split; [reflexivity|]);
    (split; [|split; [by apply frame_setIndex|split; [done|]]]).
  - eapply epoll_inv_delete; try done; [|apply lookup_delete_eq].
    intros. by rewrite lookup_delete_ne.
  - cbn [interest]. by rewrite fmap_delete.
  - by eapply epoll_inv_delete.
  - cbn [interest]. rewrite delete_id; [done|]. by rewrite lookup_fmap, Hn.
Qed.
End epoll_law_lemmas.

#[export] Instance epoll_laws : PollerLaws EPollPoller.
Proof.
  split; cbn [poller_inv registered watching updateChannel removeChannel epoll_poller].
  - apply epoll_inv_stable.
  - intros. by apply epoll_update_fresh.
  - intros. by apply epoll_update_watched.
  - intros. by apply epoll_remove.
Qed.

(** ** PollPoller keeps the contract *)

(** The descriptor a pollfd is for, ignored or not. *)
Definition slot (x : pollfd) : Z := if pfd_fd x <? 0 then - pfd_fd x - 1 else pfd_fd x.

(** Every registered channel has its pollfd at its index, and every pollfd belongs to
    a registered channel. *)
Definition poll_inv (p : PollPoller) (h : heap) : Prop :=
  (forall fd ptr, pp_channels p !! fd = Some ptr ->
     exists c i x, h !! ptr = Some c /\ fd_ c = fd /\ 0 <= fd < 2 ^ 31
       /\ index_ c = Z.of_nat i /\ pollfds_ p !! i = Some x /\ slot x = fd)
  /\ (forall i x, pollfds_ p !! i = Some x ->
        exists ptr c, pp_channels p !! slot x = Some ptr /\ h !! ptr = Some c
          /\ index_ c = Z.of_nat i)
  /\ length (pollfds_ p) = size (pp_channels p).

Definition watched_of (x : pollfd) : option (Z * Z) :=
  if 0 <=? pfd_fd x then Some (pfd_fd x, pfd_events x) else None.

#[export] Instance poll_poller : Poller PollPoller := {|
  updateChannel := @poll_updateChannel;
  removeChannel := @poll_removeChannel;
  registered := pp_channels;
  watching p := list_to_map (omap watched_of (pollfds_ p));
  poller_inv := poll_inv
|}.

Section poll_lemmas.
Implicit Types (p : PollPoller) (h : heap) (l : list pollfd).

(** Different positions are for different descriptors. *)
Definition slots_inj l : Prop :=
  forall i j x y, l !! i = Some x -> l !! j = Some y -> slot x = slot y -> i = j.

Lemma poll_inv_inj p h : poll_inv p h -> slots_inj (pollfds_ p).
Proof.
  intros (_ & H2 & _) i j x y Hx Hy Hs.
  destruct (H2 _ _ Hx) as (ptr & c & E1 & E2 & E3), (H2 _ _ Hy) as (ptr' & c' & E1' & E2' & E3').
  rewrite Hs in E1. assert (ptr' = ptr) as -> by congruence. assert (c' = c) as -> by congruence. lia.
Qed.

Lemma watched_NoDup l : slots_inj l -> NoDup (omap watched_of l).*1.
Proof.
  induction l as [|x l IH]; intros Hinj; [constructor|].
  assert (NoDup (omap watched_of l).*1) as Hl.
  { apply IH. intros i j y z Hy Hz Hs. by pose proof (Hinj (S i) (S j) y z Hy Hz Hs) as [= ->]. }
  cbn [omap list_omap]. unfold watched_of at 1. destruct (0 <=? pfd_fd x) eqn:E; [|done].
  cbn. constructor; [|done]. intros Hin. apply list_elem_of_fmap in Hin as ([fd ev] & Hfd & Hin).
  apply list_elem_of_omap in Hin as (y & Hy & Hw). unfold watched_of in Hw.
  destruct (0 <=? pfd_fd y) eqn:E'; [|done]. injection Hw as <- <-. cbn in Hfd.
  apply list_elem_of_lookup in Hy as [j Hj].
  assert (slot x = slot y) as Hs by (unfold slot; zify_bool; rw_cmp; lia).
  by pose proof (Hinj 0%nat (S j) x y eq_refl Hj Hs).
Qed.

(** What the kernel is asked of a descriptor is what its pollfd says. *)
Lemma watching_lookup p fd ev :
  slots_inj (pollfds_ p) ->
  watching p !! fd = Some ev <->
  exists i x, pollfds_ p !! i = Some x /\ 0 <= fd /\ pfd_fd x = fd /\ pfd_events x = ev.
Proof.
  intros Hinj. cbn [watching poll_poller].
  rewrite <- elem_of_list_to_map by (by apply watched_NoDup).
  rewrite list_elem_of_omap. unfold watched_of. split.
  - intros (x & Hx & Hw). destruct (0 <=? pfd_fd x) eqn:E; [|done]. injection Hw as <- <-.
    apply list_elem_of_lookup in Hx as [i Hi]. zify_bool. exists i, x. auto.
  - intros (i & x & Hx & H0 & <- & <-). exists x. split; [by eapply list_elem_of_lookup_2|].
    by rw_cmp.
Qed.

Lemma slot_nonneg x : 0 <= pfd_fd x -> slot x = pfd_fd x.
Proof. intros. unfold slot. by rw_cmp. Qed.

Lemma poll_inv_stable p h ptr c c' :
  poll_inv p h -> h !! ptr = Some c -> fd_ c' = fd_ c -> index_ c' = index_ c ->
  poll_inv p (<[ptr := c']> h).
Proof.
  intros (H1 & H2 & H3) Hc Hfd Hi. split_and!; [..|done].
  - intros fd q Hq. destruct (H1 _ _ Hq) as (d & i & x & Hd & Hrest).
    destruct (decide (q = ptr)) as [->|Hne].
    + exists c', i, x. rewrite lookup_insert_eq. assert (d = c) as -> by congruence.
      by rewrite Hfd, Hi.
    + exists d, i, x. by rewrite lookup_insert_ne.
  - intros i x Hx. destruct (H2 _ _ Hx) as (q & d & Hq & Hd & Hdi).
    destruct (decide (q = ptr)) as [->|Hne].
    + exists ptr, c'. rewrite lookup_insert_eq. split_and!; [done|done|congruence].
    + exists q, d. by rewrite lookup_insert_ne.
Qed.

Lemma poll_update_fresh `{Build} p h ptr c :
  poll_inv p h -> h !! ptr = Some c -> fd_ok c -> index_ c = -1 ->
  pp_channels p !! fd_ c = None -> Z.of_nat (size (pp_channels p)) < 2 ^ 31 - 1 ->
  exists p' h', poll_updateChannel ptr p h = Ok (p', h') /\ poll_inv p' h' /\ frame (pp_channels p) ptr h h'
    /\ pp_channels p' = <[fd_ c := ptr]> (pp_channels p)
    /\ watching p' = <[fd_ c := events_ c]> (watching p).
Proof.
  intros Hinv Hc [Hfd Hev] Hi Hr Hsz. pose proof Hinv as (H1 & H2 & H3).
  unfold poll_updateChannel, deref. rewrite Hc, bind_Ok, Hi. cbn [Z.ltb Z.compare].
  rewrite assert_true, !bind_Ok by (by apply bool_decide_eq_true).
  set (x := mkPollfd (fd_ c) (i16 (events_ c)) 0).
  assert (i16 (events_ c) = events_ c) as Hev16 by (apply wraps_small; lia).
  assert (i32 (zlen (pollfds_ p ++ [x]) - 1) = Z.of_nat (length (pollfds_ p))) as Hidx.
  { rewrite zlen_app. change (zlen [x]) with 1. unfold zlen. rewrite wraps_small; lia. }
  rewrite Hidx. eexists _, _. split; [reflexivity|].
  set (c' := setIndex c (Z.of_nat (length (pollfds_ p)))).
  assert (forall fd q, pp_channels p !! fd = Some q -> q <> ptr) as Hptr.
  { intros fd q Hq ->. destruct (H1 _ _ Hq) as (d & i & y & Hd & _ & _ & Hdi & _).
    assert (d = c) as -> by congruence. lia. }
  assert (poll_inv (mkPollPoller (<[fd_ c := ptr]> (pp_channels p)) (pollfds_ p ++ [x]))
            (<[ptr := c']> h)) as Hinv'.
  { split_and!; cbn [pp_channels pollfds_].
    - intros fd q. destruct (decide (fd = fd_ c)) as [->|Hne].
      + rewrite lookup_insert_eq. intros [= <-]. exists c', (length (pollfds_ p)), x.
        rewrite lookup_insert_eq, list_lookup_middle by done.
        split_and!; try done; try lia. apply slot_nonneg; cbn; lia.
      + rewrite lookup_insert_ne by done. intros Hq. destruct (H1 _ _ Hq) as (d & i & y & Hd & Hrest).
        exists d, i, y. rewrite lookup_insert_ne by (by apply not_eq_sym, (Hptr fd)).
        destruct Hrest as (? & ? & ? & Hy & ?). split_and!; try done; try lia.
        by apply lookup_app_l_Some.
    - intros i y Hy. apply lookup_snoc_Some in Hy as [[Hlt Hy]|[-> <-]].
      + destruct (H2 _ _ Hy) as (q & d & Hq & Hd & Hdi). exists q, d.
        assert (q <> ptr) by (by eapply Hptr).
        rewrite !lookup_insert_ne by (done || congruence). done.
      + exists ptr, c'. rewrite (slot_nonneg x) by (cbn; lia). cbn [pfd_fd].
        by rewrite !lookup_insert_eq.
    - rewrite length_app, map_size_insert_None by done. cbn. lia. }
  split; [done|]. split; [by apply frame_setIndex|]. split; [done|].
  apply map_eq. intros fd. apply option_eq. intros ev.
  rewrite watching_lookup by (by eapply poll_inv_inj). cbn [pollfds_].
  rewrite lookup_insert_Some, watching_lookup by (by eapply poll_inv_inj). split.
  - intros (i & y & Hy & H0 & Hyf & Hye). apply lookup_snoc_Some in Hy as [[_ Hy]|[-> <-]].
    + right. split; [|by exists i, y]. intros E. destruct (H2 _ _ Hy) as (q & d & Hq & _).
      rewrite slot_nonneg in Hq by lia. congruence.
    + left. cbn in *. split; [done|congruence].
  - intros [[<- <-]|[Hne (i & y & Hy & Hrest)]].
    + exists (length (pollfds_ p)), x. rewrite list_lookup_middle by done.
      split_and!; done || lia.
    + exists i, y. split; [by apply lookup_app_l_Some|done].
Qed.

(** A pollfd may change as long as it stays for the same descriptor. *)
Lemma poll_inv_replace p h i x y :
  poll_inv p h -> pollfds_ p !! i = Some x -> slot y = slot x ->
  poll_inv (mkPollPoller (pp_channels p) (<[i := y]> (pollfds_ p))) h.
Proof.
  intros (H1 & H2 & H3) Hx Hs. pose proof (lookup_lt_Some _ _ _ Hx) as Hlt.
  split_and!; cbn [pp_channels pollfds_].
  - intros fd q Hq. destruct (H1 _ _ Hq) as (d & j & z & Hd & Hdf & Hf & Hdi & Hz & Hzs).
    destruct (decide (j = i)) as [->|Hne].
    + exists d, i, y. rewrite list_lookup_insert_eq by done.
      assert (z = x) as -> by congruence. by rewrite Hs.
    + exists d, j, z. by rewrite list_lookup_insert_ne.
  - intros j z Hz. destruct (decide (j = i)) as [->|Hne].
    + rewrite list_lookup_insert_eq in Hz by done. injection Hz as <-. rewrite Hs. by apply H2.
    + rewrite list_lookup_insert_ne in Hz by done. by apply H2.
  - by rewrite length_insert.
Qed.

(** The pollfd of a watched channel. *)
Lemma poll_watched_at p h ptr c :
  poll_inv p h -> h !! ptr = Some c -> pp_channels p !! fd_ c = Some ptr ->
  is_Some (watching p !! fd_ c) ->
  exists i x, index_ c = Z.of_nat i /\ pollfds_ p !! i = Some x /\ pfd_fd x = fd_ c /\ 0 <= fd_ c.
Proof.
  intros Hinv Hc Hr [ev Hev]. pose proof (poll_inv_inj _ _ Hinv) as Hinj.
  apply watching_lookup in Hev as (i & x & Hx & H0 & Hf & _); [|done].
  destruct Hinv as (H1 & _ & _). destruct (H1 _ _ Hr) as (d & j & y & Hd & _ & _ & Hdi & Hy & Hys).
  assert (d = c) as -> by congruence.
  assert (j = i) as -> by (eapply Hinj; try done; rewrite Hys, slot_nonneg; lia).
  exists i, x. done.
Qed.

Lemma poll_update_watched `{Build} p h ptr c :
  poll_inv p h -> h !! ptr = Some c -> fd_ok c -> pp_channels p !! fd_ c = Some ptr ->
  is_Some (watching p !! fd_ c) ->
  exists p' h', poll_updateChannel ptr p h = Ok (p', h') /\ poll_inv p' h' /\ frame (pp_channels p) ptr h h'
    /\ pp_channels p' = pp_channels p
    /\ watching p' = if events_ c =? 0 then delete (fd_ c) (watching p)
                     else <[fd_ c := events_ c]> (watching p).
Proof.
  intros Hinv Hc [Hfd Hev] Hr Hw.
  destruct (poll_watched_at p h ptr c Hinv Hc Hr Hw) as (i & x & Hi & Hx & Hxf & H0).
  assert (i16 (events_ c) = events_ c) as Hev16 by (apply wraps_small; lia).
  unfold poll_updateChannel, deref, pollfd_at. rewrite Hc, bind_Ok, Hi, Hr.
  rewrite !(proj2 (Z.ltb_ge _ _)) by lia. rewrite Nat2Z.id, Hx.
  rewrite assert_true, !bind_Ok by (by apply bool_decide_eq_true).
  rewrite assert_true, bind_Ok by (by rewrite Hxf, Z.eqb_refl).
  set (y := mkPollfd _ _ 0). eexists _, _. split; [reflexivity|].
  assert (slot y = slot x) as Hs.
  { subst y. unfold slot. cbn [pfd_fd]. destruct (isNoneEvent c); rewrite Hxf; rw_cmp; lia. }
  pose proof (poll_inv_replace p h i x y Hinv Hx Hs) as Hinv'.
  pose proof (lookup_lt_Some _ _ _ Hx) as Hlt. pose proof (poll_inv_inj _ _ Hinv) as Hinj.
  split; [done|]. split; [apply frame_refl|]. split; [done|].
  assert (forall j z, pollfds_ p !! j = Some z -> pfd_fd z = fd_ c -> j = i) as Hat.
  { intros j z Hz Hzf. eapply Hinj; try done. rewrite !slot_nonneg by lia; congruence. }
  unfold isNoneEvent in y. change kNoneEvent with 0 in y.
  apply map_eq. intros fd. apply option_eq. intros ev.
  rewrite watching_lookup by (by eapply poll_inv_inj). cbn [pollfds_].
  assert (forall j z, <[i := y]> (pollfds_ p) !! j = Some z <->
    (j = i /\ z = y) \/ (j <> i /\ pollfds_ p !! j = Some z)) as Hins.
  { intros j z. rewrite list_lookup_insert_Some. naive_solver. }
  destruct (events_ c =? 0) eqn:Ee.
  - rewrite lookup_delete_Some, watching_lookup by done. split.
    + intros (j & z & Hz & Hf0 & Hzf & Hze). apply Hins in Hz as [[-> ->]|[Hne Hz]].
      * subst y. cbn in Hzf. lia.
      * split; [|by exists j, z]. intros <-. by apply Hne, (Hat j z).
    + intros [Hne (j & z & Hz & Hf0 & Hzf & Hze)]. exists j, z. split; [|done].
      apply Hins. right. split; [|done]. intros ->. congruence.
  - rewrite lookup_insert_Some, watching_lookup by done. split.
    + intros (j & z & Hz & Hf0 & Hzf & Hze). apply Hins in Hz as [[-> ->]|[Hne Hz]].
      * left. subst y. cbn in *. split; congruence.
      * right. split; [|by exists j, z]. intros E. apply Hne, (Hat j z); congruence.
    + intros [[<- <-]|[Hne (j & z & Hz & Hf0 & Hzf & Hze)]].
      * exists i, y. split; [apply Hins; auto|]. subst y. cbn. done.
      * exists j, z. split; [|done]. apply Hins. right. split; [|done]. intros ->. congruence.
Qed.

(** The vector after element [i] was swapped with the last one and popped. *)
Definition swap_pop (i : nat) (l : list pollfd) : list pollfd :=
  match l !! i, last l with
  | Some x, Some y => take (length l - 1) (<[(length l - 1)%nat := x]> (<[i := y]> l))
  | _, _ => l
  end.

Lemma swap_pop_lookup i l k y :
  (i < length l)%nat ->
  swap_pop i l !! k = Some y <->
  exists k', l !! k' = Some y /\ k' <> i
    /\ k = if decide (k' = length l - 1)%nat then i else k'.
Proof.
  intros Hi. unfold swap_pop. destruct (lookup_lt_is_Some_2 l i Hi) as [x Hx]. rewrite Hx.
  rewrite last_lookup. destruct (lookup_lt_is_Some_2 l (pred (length l))) as [z Hz]; [lia|].
  rewrite Hz. rewrite lookup_take_Some.
  replace (pred (length l)) with (length l - 1)%nat in Hz by lia. split.
  - intros [Hk Hlt]. rewrite list_lookup_insert_ne in Hk by lia.
    apply list_lookup_insert_Some in Hk as [(-> & <- & _)|[Hne Hk]].
    + exists (length l - 1)%nat. rewrite decide_True by done. split_and!; [done|lia|done].
    + exists k. rewrite decide_False by lia. done.
  - intros (k' & Hk' & Hne & ->). pose proof (lookup_lt_Some _ _ _ Hk').
    destruct (decide (k' = length l - 1)%nat) as [->|Hn].
    + assert (y = z) as -> by congruence. split; [|lia].
      rewrite list_lookup_insert_ne by lia. by rewrite list_lookup_insert_eq.
    + split; [|lia]. rewrite !list_lookup_insert_ne by lia. done.
Qed.

Lemma swap_pop_length i l : (i < length l)%nat -> length (swap_pop i l) = (length l - 1)%nat.
Proof.
  intros Hi. unfold swap_pop. destruct (lookup_lt_is_Some_2 l i Hi) as [x ->].
  destruct (last l) eqn:E; [|apply last_None in E; subst; cbn in Hi; lia].
  rewrite length_take, !length_insert. lia.
Qed.

(** The invariant after the swap: the channel of the last pollfd got the free index. *)
Lemma poll_inv_swap_pop p h h' ptr c i x :
  poll_inv p h -> h !! ptr = Some c -> pp_channels p !! fd_ c = Some ptr ->
  index_ c = Z.of_nat i -> pollfds_ p !! i = Some x -> slot x = fd_ c ->
  (forall q d k y, pp_channels p !! slot y = Some q -> q <> ptr -> h !! q = Some d ->
     pollfds_ p !! k = Some y ->
     h' !! q = Some (if decide (k = length (pollfds_ p) - 1)%nat
                     then setIndex d (Z.of_nat i) else d)) ->
  poll_inv (mkPollPoller (delete (fd_ c) (pp_channels p)) (swap_pop i (pollfds_ p))) h'.
Proof.
  intros Hinv Hc Hr Hi Hx Hxs Hh'. pose proof Hinv as (H1 & H2 & H3).
  pose proof (poll_inv_inj _ _ Hinv) as Hinj. pose proof (lookup_lt_Some _ _ _ Hx) as Hlt.
  assert (forall fd q, fd <> fd_ c -> pp_channels p !! fd = Some q -> q <> ptr) as Hptr.
  { intros fd q Hne Hq ->. destruct (H1 _ _ Hq) as (d & ? & ? & Hd & <- & _). congruence. }
  split_and!; cbn [pp_channels pollfds_].
  - intros fd q [Hne Hq]%lookup_delete_Some.
    destruct (H1 _ _ Hq) as (d & k & y & Hd & Hdf & Hf & Hdi & Hy & Hys).
    assert (k <> i) by (intros ->; assert (y = x) as -> by congruence; congruence).
    pose proof (Hh' q d k y ltac:(by rewrite Hys) ltac:(by eapply Hptr) Hd Hy) as Hq'.
    exists (if decide (k = length (pollfds_ p) - 1)%nat then setIndex d (Z.of_nat i) else d),
      (if decide (k = length (pollfds_ p) - 1)%nat then i else k), y.
    split; [done|]. split; [by case_decide|]. split; [done|]. split; [by case_decide|].
    split; [|done]. apply swap_pop_lookup; [done|]. by exists k.
  - intros k y Hy. apply swap_pop_lookup in Hy as (k' & Hk' & Hne & ->); [|done].
    destruct (H2 _ _ Hk') as (q & d & Hq & Hd & Hdi).
    assert (slot y <> fd_ c) as Hsy by (intros E; apply Hne; eapply Hinj; try done; congruence).
    pose proof (Hh' q d k' y Hq ltac:(by eapply Hptr) Hd Hk') as Hq'.
    eexists q, _. rewrite lookup_delete_ne by done. split; [done|]. split; [exact Hq'|].
    by case_decide.
  - rewrite swap_pop_length, map_size_delete_Some by eauto. lia.
Qed.

Lemma watching_swap_pop p h h' c i x ptr :
  poll_inv p h -> h !! ptr = Some c -> index_ c = Z.of_nat i -> pollfds_ p !! i = Some x ->
  slot x = fd_ c ->
  poll_inv (mkPollPoller (delete (fd_ c) (pp_channels p)) (swap_pop i (pollfds_ p))) h' ->
  watching (mkPollPoller (delete (fd_ c) (pp_channels p)) (swap_pop i (pollfds_ p)))
  = delete (fd_ c) (watching p).
Proof.
  intros Hinv Hc Hi Hx Hxs Hinv'. pose proof (poll_inv_inj _ _ Hinv) as Hinj.
  pose proof (lookup_lt_Some _ _ _ Hx) as Hlt.
  apply map_eq. intros fd. apply option_eq. intros ev.
  rewrite watching_lookup by (by eapply poll_inv_inj). cbn [pollfds_].
  rewrite lookup_delete_Some, watching_lookup by done. split.
  - intros (k & y & Hy & H0 & Hyf & Hye). apply swap_pop_lookup in Hy as (k' & Hk' & Hne & _); [|done].
    split; [|by exists k', y]. intros E. apply Hne. eapply Hinj; try done.
    rewrite Hxs, slot_nonneg; lia.
  - intros [Hne (k' & y & Hk' & H0 & Hyf & Hye)].
    assert (k' <> i).
    { intros ->. assert (y = x) as -> by congruence. rewrite slot_nonneg in Hxs; lia. }
    eexists _, y. split; [|done]. apply swap_pop_lookup; [done|]. by exists k'.
Qed.

Lemma poll_remove `{Build} p h ptr c :
  poll_inv p h -> h !! ptr = Some c -> pp_channels p !! fd_ c = Some ptr -> events_ c = 0 ->
  Z.of_nat (size (pp_channels p)) < 2 ^ 31 ->
  exists p' h', poll_removeChannel ptr p h = Ok (p', h') /\ poll_inv p' h' /\ frame (pp_channels p) ptr h h'
    /\ pp_channels p' = delete (fd_ c) (pp_channels p)
    /\ watching p' = delete (fd_ c) (watching p).
Proof.
  intros Hinv Hc Hr Hev Hsz. pose proof Hinv as (H1 & H2 & H3).
  destruct (H1 _ _ Hr) as (c' & i & x & Hc' & _ & Hfd & Hi & Hx & Hxs).
  assert (c' = c) as -> by congruence. clear Hc'.
  pose proof (lookup_lt_Some _ _ _ Hx) as Hlt. pose proof (poll_inv_inj _ _ Hinv) as Hinj.
  unfold poll_removeChannel, deref. rewrite Hc, bind_Ok, Hr, Hi. unfold isNoneEvent. rewrite Hev.
  rewrite !(assert_true (bool_decide (Some ptr <> None))) by done.
  rewrite (assert_true (_ && _)).
  2: { unfold zlen. rewrite wraps_small by lia. apply andb_true_iff. lia. }
  rewrite (assert_true (_ =? _)) by done. rewrite !bind_Ok. unfold zlen.
  rewrite !u64_small by lia. unfold pollfd_at.
  destruct (Nat.eq_dec i (length (pollfds_ p) - 1)) as [Ei|Ei].
  - (* the last pollfd goes *)
    rewrite (proj2 (Z.eqb_eq _ _)) by lia. cbn [negb]. rewrite bind_Ok.
    assert (take (length (pollfds_ p) - 1) (pollfds_ p) = swap_pop i (pollfds_ p)) as Et.
    { unfold swap_pop. rewrite Hx, last_lookup.
      replace (pred (length (pollfds_ p))) with i by lia. rewrite Hx, <- Ei.
      by rewrite !(list_insert_id _ _ _ Hx). }
    destruct (pollfds_ p) as [|z l] eqn:El; [done|]. rewrite <- El in *. rewrite Et.
    eexists _, h. split; [reflexivity|].
    assert (poll_inv (mkPollPoller (delete (fd_ c) (pp_channels p)) (swap_pop i (pollfds_ p))) h)
      as Hinv'.
    { eapply poll_inv_swap_pop; try done. intros q d k y Hq Hne Hd Hy. rewrite decide_False; [done|].
      intros ->. rewrite <- Ei in Hy. assert (y = x) as -> by congruence. congruence. }
    split; [done|]. split; [apply frame_refl|]. split; [done|].
    by eapply watching_swap_pop.
  - rewrite (proj2 (Z.eqb_neq _ _)) by lia. cbn [negb].
    destruct (lookup_lt_is_Some_2 (pollfds_ p) (length (pollfds_ p) - 1)) as [z Hz]; [lia|].
    replace (Z.to_nat (Z.of_nat (length (pollfds_ p)) - 1)) with (length (pollfds_ p) - 1)%nat by lia.
    rewrite !(proj2 (Z.ltb_ge _ 0)) by lia. rewrite Hz, Nat2Z.id, Hx, !bind_Ok.
    change (if pfd_fd z <? 0 then - pfd_fd z - 1 else pfd_fd z) with (slot z).
    destruct (H2 _ _ Hz) as (q & d & Hq & Hd & Hdi).
    assert (slot z <> fd_ c) as Hzne.
    { rewrite <- Hxs. intros E. apply Ei. symmetry. by eapply Hinj. }
    rewrite lookup_delete_ne, Hq, Hd, !bind_Ok by done.
    assert (swap_pop i (pollfds_ p) = take (length (pollfds_ p) - 1)
              (<[(length (pollfds_ p) - 1)%nat := x]> (<[i := z]> (pollfds_ p)))) as Et.
    { unfold swap_pop. rewrite Hx, last_lookup.
      replace (pred (length (pollfds_ p))) with (length (pollfds_ p) - 1)%nat by lia. by rewrite Hz. }
    set (l' := <[(length (pollfds_ p) - 1)%nat := x]> (<[i := z]> (pollfds_ p))) in *.
    assert (length l' = length (pollfds_ p)) as El' by (subst l'; by rewrite !length_insert).
    destruct l' as [|z' l''] eqn:Hl'; [cbn in El'; lia|]. rewrite <- Hl' in *.
    rewrite El', <- Et. eexists _, _. split; [reflexivity|].
    assert (poll_inv (mkPollPoller (delete (fd_ c) (pp_channels p)) (swap_pop i (pollfds_ p)))
              (<[q := setIndex d (Z.of_nat i)]> h)) as Hinv'.
    { eapply poll_inv_swap_pop; try done. intros q' d' k y Hq' Hne Hd' Hy.
      destruct (decide (k = length (pollfds_ p) - 1)%nat) as [->|Hk].
      - assert (y = z) as -> by congruence. assert (q' = q) as -> by congruence.
        assert (d' = d) as -> by congruence. by rewrite lookup_insert_eq.
      - rewrite lookup_insert_ne; [done|]. intros <-. apply Hk.
        destruct (H2 _ _ Hy) as (q0 & d0 & E1 & E2 & E3). assert (q0 = q) as -> by congruence.
        assert (d0 = d) as -> by congruence. lia. }
    split; [done|]. split; [by eapply frame_setIndex_registered|]. split; [done|].
    by eapply watching_swap_pop.
Qed.
End poll_lemmas.

#[export] Instance poll_laws : PollerLaws PollPoller.
Proof.
  split; cbn [poller_inv registered updateChannel removeChannel poll_poller].
  - apply poll_inv_stable.
  - intros. by apply poll_update_fresh.
  - intros. by apply poll_update_watched.
  - intros. by apply poll_remove.
Qed.

(** ** The registrations of the channels of a loop, against the interface

    What Channel::update() and Channel::remove() do, for any poller. *)

Inductive reg_op :=
  | RUpdate (ptr events : Z)      (* enableRead() and the like: events_ = ..., update() *)
  | RRemove (ptr : Z).            (* remove() *)

Section client.
Context {P : Type} `{Poller P, Build}.

Definition reg_step (op : reg_op) (s : P * heap) : outcome (P * heap) :=
  let '(p, h) := s in
  match op with
  | RUpdate ptr ev =>
      c ← deref h ptr;
      updateChannel ptr p (<[ptr := set_isInLoop (set_events c ev) true]> h)
  | RRemove ptr =>
      c ← deref h ptr;
      removeChannel ptr p (<[ptr := set_isInLoop c false]> h)
  end.

Fixpoint reg_run (ops : list reg_op) (s : P * heap) : outcome (P * heap) :=
  match ops with
  | [] => Ok s
  | op :: ops' => s' ← reg_step op s; reg_run ops' s'
  end.
End client.

(** The abstract registry: who is registered, what is watched, and which channel
    objects have been used; [fds] are the descriptors of the channels. *)
Record registry := mkRegistry {
  r_reg : gmap Z Z; r_watch : gmap Z Z; r_used : gset Z
}.
Definition registry_empty : registry := mkRegistry ∅ ∅ ∅.

(** None when the discipline of the owners does not allow the step: a channel is used
    for one registration, is not updated after its interest was set to none, and is
    removed only then. *)
Definition spec_step (fds : gmap Z Z) (op : reg_op) (s : registry) : option registry :=
  match op with
  | RUpdate ptr ev =>
      fd ← fds !! ptr;
      if decide (0 <= ev < 2 ^ 15) then
        if decide (ptr ∈ r_used s) then
          if decide (r_reg s !! fd = Some ptr /\ is_Some (r_watch s !! fd)) then
            Some (mkRegistry (r_reg s)
                    (if ev =? 0 then delete fd (r_watch s) else <[fd := ev]> (r_watch s)) (r_used s))
          else None
        else if decide (r_reg s !! fd = None /\ Z.of_nat (size (r_reg s)) < 2 ^ 31 - 1) then
          Some (mkRegistry (<[fd := ptr]> (r_reg s)) (<[fd := ev]> (r_watch s)) ({[ptr]} ∪ r_used s))
        else None
      else None
  | RRemove ptr =>
      fd ← fds !! ptr;
      if decide (r_reg s !! fd = Some ptr /\ default 0 (r_watch s !! fd) = 0) then
        Some (mkRegistry (delete fd (r_reg s)) (delete fd (r_watch s)) (r_used s))
      else None
  end.

Fixpoint spec_run (fds : gmap Z Z) (ops : list reg_op) (s : registry) : option registry :=
  match ops with
  | [] => Some s
  | op :: ops' => s' ← spec_step fds op s; spec_run fds ops' s'
  end.

Section simulation.
Context {P : Type} `{PollerLaws P, Build} (fds : gmap Z Z).

Definition reg_sim (s : registry) (p : P) (h : heap) : Prop :=
  poller_inv p h /\ registered p = r_reg s /\ watching p = r_watch s
  /\ Z.of_nat (size (r_reg s)) < 2 ^ 31
  /\ (forall ptr fd, fds !! ptr = Some fd -> exists c, h !! ptr = Some c /\ fd_ c = fd
        /\ 0 <= fd < 2 ^ 31 /\ (ptr ∉ r_used s -> index_ c = -1))
  /\ (forall fd ptr, r_reg s !! fd = Some ptr -> fds !! ptr = Some fd /\ ptr ∈ r_used s
        /\ exists c, h !! ptr = Some c /\ events_ c = default 0 (r_watch s !! fd)).

(** The owners' part of the relation survives what a poller may change. *)
Lemma sim_heap s s' p p' h h' ptr c c1 fd :
  reg_sim s p h -> fds !! ptr = Some fd -> h !! ptr = Some c ->
  (forall q, q <> ptr -> q ∉ r_used s' -> q ∉ r_used s) -> ptr ∈ r_used s' ->
  fd_ c1 = fd_ c ->
  frame (registered p) ptr (<[ptr := c1]> h) h' ->
  (forall fd' q, r_reg s' !! fd' = Some q -> q <> ptr -> r_reg s !! fd' = Some q
     /\ r_watch s' !! fd' = r_watch s !! fd' /\ q ∈ r_used s') ->
  (forall fd', r_reg s' !! fd' = Some ptr -> fd' = fd /\ events_ c1 = default 0 (r_watch s' !! fd)) ->
  poller_inv p' h' -> registered p' = r_reg s' -> watching p' = r_watch s' ->
  Z.of_nat (size (r_reg s')) < 2 ^ 31 -> reg_sim s' p' h'.
Proof.
  intros (_ & Hreg & _ & _ & H5 & H6) Hfd Hc Hused Hpu Hc1 [Hsame Hfr] Hothers Hself
    Hinv' Hreg' Hw' Hsz'.
  assert (forall q d, <[ptr := c1]> h !! q = Some d ->
    exists d', h' !! q = Some d' /\ fd_ d' = fd_ d /\ events_ d' = events_ d) as Hh'.
  { intros q d Hd. specialize (Hsame q). rewrite Hd in Hsame. inversion Hsame as [? d' E|].
    exists d'. unfold same_but_index, setIndex in E. split_and!; [done|..]; congruence. }
  split_and!; try done.
  - intros q fd' Hq. destruct (H5 q fd' Hq) as (d & Hd & Hdf & Hr & Hdi).
    destruct (decide (q = ptr)) as [->|Hne].
    + destruct (Hh' ptr c1) as (d' & Hd' & Hfd' & _); [by rewrite lookup_insert_eq|].
      exists d'. split_and!; try done; [|lia|lia]. rewrite Hfd', Hc1. congruence.
    + destruct (Hh' q d) as (d' & Hd' & Hfd' & _); [by rewrite lookup_insert_ne|].
      exists d'. split_and!; try done; [congruence|lia|lia|]. intros Hnu.
      specialize (Hdi (Hused q Hne Hnu)).
      rewrite Hfr, lookup_insert_ne in Hd' by (try done; intros fd'' E; rewrite Hreg in E;
        destruct (H6 _ _ E) as (_ & Hin & _); by apply (Hused q Hne Hnu)). congruence.
  - intros fd' q Hq. destruct (decide (q = ptr)) as [->|Hne].
    + destruct (Hself fd' Hq) as [-> Hev]. split; [done|]. split; [done|].
      destruct (Hh' ptr c1) as (d' & Hd' & _ & Hev'); [by rewrite lookup_insert_eq|].
      exists d'. by rewrite Hev'.
    + destruct (Hothers fd' q Hq Hne) as (Hq0 & Hwq & Hqu).
      destruct (H6 _ _ Hq0) as (Hqf & _ & d & Hd & Hdev). split; [done|]. split; [done|].
      destruct (Hh' q d) as (d' & Hd' & _ & Hev'); [by rewrite lookup_insert_ne|].
      exists d'. by rewrite Hev', Hwq.
Qed.

Lemma reg_step_sim op s s' p h :
  reg_sim s p h -> spec_step fds op s = Some s' ->
  exists p' h', reg_step op (p, h) = Ok (p', h') /\ reg_sim s' p' h'.
Proof.
  intros Hsim Hs. pose proof Hsim as (Hinv & Hreg & Hw & Hsz & H5 & H6).
  destruct op as [ptr ev|ptr]; cbn [spec_step reg_step] in *;
    apply bind_Some in Hs as (fd & Hfd & Hs); destruct (H5 _ _ Hfd) as (c & Hc & Hcf & Hfr & Hci);
    unfold deref; rewrite Hc, bind_Ok.
  - case_decide as Hev; [|done].
    set (c1 := set_isInLoop (set_events c ev) true).
    assert (poller_inv p (<[ptr := c1]> h)) as Hinv1 by (by eapply inv_stable).
    assert (<[ptr := c1]> h !! ptr = Some c1) as Hc1 by apply lookup_insert_eq.
    assert (fd_ok c1) as Hok by (split; cbn; lia).
    assert (fd_ c1 = fd) as Hc1f by done.
    case_decide as Hu.
    + case_decide as Hp; [|done]. destruct Hp as [Hr Hwa]. injection Hs as <-.
      destruct (update_watched p _ ptr c1 Hinv1 Hc1 Hok) as (p' & h' & E & Hinv' & Hfr' & Hr' & Hw');
        [by rewrite Hreg, Hc1f|by rewrite Hw, Hc1f|].
      exists p', h'. split; [done|]. change (events_ c1) with ev in Hw'. rewrite Hc1f, Hw in Hw'.
      rewrite Hreg in Hr'.
      eapply (sim_heap s _ p p' h h' ptr c c1 fd); try done.
      * intros fd' q Hq Hne. cbn in *. assert (fd' <> fd) by (intros ->; congruence).
        split_and!; [done| |by apply (H6 fd')].
        destruct (ev =? 0); by rewrite ?lookup_delete_ne, ?lookup_insert_ne.
      * intros fd' Hq. cbn in *. destruct (H6 _ _ Hq) as (Hf' & _). split; [congruence|].
        destruct (ev =? 0) eqn:E0; rewrite ?lookup_delete_eq, ?lookup_insert_eq; cbn; [|done].
        by zify_bool.
    + case_decide as Hp; [|done]. destruct Hp as [Hr Hsz1]. injection Hs as <-.
      destruct (update_fresh p _ ptr c1 Hinv1 Hc1 Hok) as (p' & h' & E & Hinv' & Hfr' & Hr' & Hw');
        [by apply Hci|by rewrite Hreg, Hc1f|by rewrite Hreg|].
      exists p', h'. split; [done|]. change (events_ c1) with ev in Hw'. rewrite Hc1f, Hw in Hw'.
      rewrite Hc1f, Hreg in Hr'.
      eapply (sim_heap s _ p p' h h' ptr c c1 fd); try done; cbn [r_reg r_watch r_used].
      * set_solver.
      * set_solver.
      * intros fd' q Hq Hne. apply lookup_insert_Some in Hq as [[_ ?]|[Hn Hq]]; [congruence|].
        split_and!; [done|by rewrite lookup_insert_ne|]. destruct (H6 _ _ Hq). set_solver.
      * intros fd' Hq. apply lookup_insert_Some in Hq as [[-> _]|[Hn Hq]].
        -- by rewrite lookup_insert_eq.
        -- by destruct (H6 _ _ Hq) as (_ & ? & _).
      * rewrite map_size_insert_None by done. lia.
  - case_decide as Hp; [|done]. destruct Hp as [Hr Hwa]. injection Hs as <-.
    set (c1 := set_isInLoop c false).
    assert (poller_inv p (<[ptr := c1]> h)) as Hinv1 by (by eapply inv_stable).
    assert (<[ptr := c1]> h !! ptr = Some c1) as Hc1 by apply lookup_insert_eq.
    assert (fd_ c1 = fd) as Hc1f by done.
    destruct (H6 _ _ Hr) as (_ & Hin & c' & Hc' & Hev). assert (c' = c) as -> by congruence.
    destruct (remove_registered p _ ptr c1 Hinv1 Hc1) as (p' & h' & E & Hinv' & Hfr' & Hr' & Hw');
      [by rewrite Hreg, Hc1f|cbn; by rewrite Hev|by rewrite Hreg|].
    exists p', h'. split; [done|]. rewrite Hc1f, Hw in Hw'. rewrite Hc1f, Hreg in Hr'.
    eapply (sim_heap s _ p p' h h' ptr c c1 fd); try done; cbn [r_reg r_watch r_used].
    + intros fd' q Hq Hne. apply lookup_delete_Some in Hq as [Hn Hq].
      split_and!; [done|by rewrite lookup_delete_ne|by apply (H6 fd')].
    + intros fd' Hq. apply lookup_delete_Some in Hq as [Hn Hq].
      destruct (H6 _ _ Hq) as (Hf' & _). congruence.
    + rewrite map_size_delete_Some by eauto. lia.
Qed.

Lemma reg_run_sim ops s s' p h :
  reg_sim s p h -> spec_run fds ops s = Some s' ->
  exists p' h', reg_run ops (p, h) = Ok (p', h') /\ reg_sim s' p' h'.
Proof.
  revert s p h. induction ops as [|op ops IH]; intros s p h Hsim Hs;
    cbn [spec_run reg_run] in *.
  - injection Hs as <-. eauto.
  - apply bind_Some in Hs as (s1 & Hs1 & Hs).
    destruct (reg_step_sim op s s1 p h Hsim Hs1) as (p1 & h1 & -> & Hsim1).
    rewrite bind_Ok. eauto.
Qed.
End simulation.

(** What a poller is asked in the life of a loop, on both pollers. *)
Definition fresh_heap (fds : gmap Z Z) : heap := Channel_ctor <$> fds.

Lemma fresh_sim {P} `{PollerLaws P} fds (p : P) :
  map_Forall (fun _ fd => 0 <= fd < 2 ^ 31) fds ->
  poller_inv p (fresh_heap fds) -> registered p = ∅ -> watching p = ∅ ->
  reg_sim fds registry_empty p (fresh_heap fds).
Proof.
  intros Hfds Hinv Hr Hw. split_and!; try done.
  intros ptr fd Hfd. exists (Channel_ctor fd). unfold fresh_heap. rewrite lookup_fmap, Hfd.
  split_and!; try done; by apply (Hfds ptr fd).
Qed.

(** ** Properties *)

(** C3: for every sequence of updates and removals that follows the owners' discipline
    (one registration per channel object, no update after disableAll, removal with no
    interest left), PollPoller and EPollPoller both run without a failed assert, an
    access out of range or a fatal epoll error, in every build, and both ask the kernel
    to watch exactly what the abstract registry says. *)
Theorem pollers_refine_registry `{Build} fds ops s :
  map_Forall (fun _ fd => 0 <= fd < 2 ^ 31) fds ->
  spec_run fds ops registry_empty = Some s ->
  (exists p h, reg_run ops (PollPoller_ctor, fresh_heap fds) = Ok (p, h)
     /\ watching p = r_watch s /\ registered p = r_reg s)
  /\ (exists p h, reg_run ops (EPollPoller_ctor, fresh_heap fds) = Ok (p, h)
     /\ watching p = r_watch s /\ registered p = r_reg s).
Proof.
  intros Hfds Hs. split.
  - destruct (reg_run_sim fds ops registry_empty s PollPoller_ctor (fresh_heap fds))
      as (p & h & E & (_ & Hr & Hw & _)); [|done|by exists p, h].
    by apply fresh_sim.
  - destruct (reg_run_sim fds ops registry_empty s EPollPoller_ctor (fresh_heap fds))
      as (p & h & E & (_ & Hr & Hw & _)); [|done|by exists p, h].
    apply fresh_sim; try done. split; cbn; [done|]. intros fd [? Hx]. by rewrite lookup_empty in Hx.
Qed.

Definition sample_fds : gmap Z Z := list_to_map [(100, 5); (101, 6); (102, 7)].
Definition sample_ops : list reg_op :=
  [RUpdate 100 3; RUpdate 101 3; RUpdate 102 3; RUpdate 101 7; RUpdate 100 0; RRemove 100;
   RUpdate 102 4].

Definition sample_registry : registry :=
  mkRegistry (list_to_map [(6, 101); (7, 102)]) (list_to_map [(6, 7); (7, 4)])
    (list_to_set [100; 101; 102]).

Lemma pollers_refine_registry_witness :
  (exists p h, reg_run (H0 := Debug) sample_ops (PollPoller_ctor, fresh_heap sample_fds) = Ok (p, h)
     /\ watching p = r_watch sample_registry /\ registered p = r_reg sample_registry)
  /\ (exists p h, reg_run (H0 := Debug) sample_ops (EPollPoller_ctor, fresh_heap sample_fds) = Ok (p, h)
     /\ watching p = r_watch sample_registry /\ registered p = r_reg sample_registry).
Proof.
  apply (pollers_refine_registry (H := Debug) sample_fds sample_ops sample_registry).
  - eapply (bool_decide_eq_true_1 _). by vm_compute.
  - by vm_compute.
Defined.

(** The pollers part when interest comes back after disableAll: PollPoller stores
    the new interest but leaves the descriptor negative, so the kernel is never asked
    again and the channel is dead; EPollPoller stops at its assert in a debug build and
    watches the descriptor again in a release build. *)
Theorem reenabled_channel_lost `{Build} ptr c i (pp : PollPoller) hp (ep : EPollPoller) d he :
  hp !! ptr = Some c -> he !! ptr = Some d ->
  0 <= fd_ c < 2 ^ 31 -> 0 < events_ c < 2 ^ 15 ->
  poll_inv pp hp -> pp_channels pp !! fd_ c = Some ptr -> index_ c = Z.of_nat i ->
  (pfd_fd <$> pollfds_ pp !! i) = Some (- fd_ c - 1) ->
  epoll_inv ep he -> ep_channels ep !! fd_ d = Some ptr -> index_ d = kDeleted ->
  (exists pp', poll_updateChannel ptr pp hp = Ok (pp', hp) /\ watching pp' !! fd_ c = None)
  /\ if NDEBUG
     then exists ep' he', epoll_updateChannel ptr ep he = Ok (ep', he')
            /\ watching ep' !! fd_ d = Some (events_ d)
     else epoll_updateChannel ptr ep he = Err AssertFailed.
Proof.
  intros Hc Hd Hfd Hev Hinv Hr Hi (x & Hx & Hxf)%fmap_Some [H1 _] Hr' Hi'. split.
  - (* PollPoller *)
    unfold poll_updateChannel, deref, pollfd_at. rewrite Hc, bind_Ok, Hi, Hr.
    rewrite !(proj2 (Z.ltb_ge _ _)) by lia. rewrite Nat2Z.id, Hx.
    rewrite assert_true, !bind_Ok by (by apply bool_decide_eq_true).
    rewrite assert_true, bind_Ok by (rewrite <- Hxf, Z.eqb_refl; apply orb_true_r).
    unfold isNoneEvent. rewrite (proj2 (Z.eqb_neq _ _)) by (unfold kNoneEvent; lia).
    eexists. split; [reflexivity|].
    set (y := mkPollfd (pfd_fd x) _ 0).
    pose proof (poll_inv_replace pp hp i x y Hinv Hx eq_refl) as Hinv'.
    destruct (watching _ !! fd_ c) as [ev|] eqn:E; [exfalso|done].
    apply watching_lookup in E as (j & z & Hz & _ & Hzf & _); [|by eapply poll_inv_inj].
    pose proof (poll_inv_inj _ _ Hinv') as Hinj. cbn [pollfds_] in *.
    assert (<[i := y]> (pollfds_ pp) !! i = Some y) as Hy
      by (apply list_lookup_insert_eq; by eapply lookup_lt_Some).
    assert (j = i) as -> by (eapply Hinj; try done; subst y; unfold slot; cbn; rw_cmp; lia).
    assert (z = y) as -> by congruence. subst y. cbn in Hzf. lia.
  - destruct (H1 _ _ Hr') as (d' & Hd' & _ & Hdi). assert (d' = d) as -> by congruence.
    destruct Hdi as [[Hi2 _]|[_ Hint]]; [by rewrite Hi' in Hi2|].
    unfold epoll_updateChannel, deref. rewrite Hd, bind_Ok, Hi', Hr'.
    cbn [Z.eqb kNew kDeleted Pos.eqb orb].
    rewrite (assert_false (bool_decide (Some ptr = None))) by done.
    rewrite (assert_true (bool_decide (Some ptr = Some ptr))) by (by apply bool_decide_eq_true).
    destruct NDEBUG eqn:En; [|done]. rewrite !bind_Ok.
    unfold epoll_update, epoll_ctl. cbn [fd_ setIndex events_]. rewrite Hint.
    eexists _, _. split; [reflexivity|]. cbn [watching epoll_poller interest].
    by rewrite lookup_fmap, lookup_insert_eq.
Qed.

(** A channel that was disabled, on both pollers. *)
Definition parked_ops : list reg_op := [RUpdate 100 3; RUpdate 101 3; RUpdate 101 0].
Definition parked_registry : registry :=
  mkRegistry (list_to_map [(5, 100); (6, 101)]) (list_to_map [(5, 3)]) (list_to_set [100; 101]).
Definition parked_poll : PollPoller :=
  mkPollPoller (list_to_map [(5, 100); (6, 101)]) [mkPollfd 5 3 0; mkPollfd (-7) 0 0].
Definition parked_epoll : EPollPoller :=
  mkEPollPoller (list_to_map [(5, 100); (6, 101)]) (list_to_map [(5, (3, 100))]) 16.
Definition parked_heap (i0 i1 ev : Z) : heap :=
  list_to_map [(100, mkChannel 5 3 0 true i0 0 false false);
               (101, mkChannel 6 ev 0 true i1 0 false false);
               (102, Channel_ctor 7)].

Lemma parked_inv :
  poll_inv parked_poll (parked_heap 0 1 0) /\ epoll_inv parked_epoll (parked_heap 1 2 0).
Proof.
  split.
  - destruct (reg_run_sim (P := PollPoller) (H1 := Debug) sample_fds parked_ops registry_empty
      parked_registry PollPoller_ctor (fresh_heap sample_fds)) as (p & h & E & Hsim).
    + apply fresh_sim; try done. eapply (bool_decide_eq_true_1 _). by vm_compute.
    + by vm_compute.
    + assert (reg_run (H0 := Debug) parked_ops (PollPoller_ctor, fresh_heap sample_fds)
              = Ok (parked_poll, parked_heap 0 1 0)) as E' by (vm_compute; reflexivity).
      rewrite E in E'. injection E' as <- <-. apply Hsim.
  - destruct (reg_run_sim (P := EPollPoller) (H1 := Debug) sample_fds parked_ops registry_empty
      parked_registry EPollPoller_ctor (fresh_heap sample_fds)) as (p & h & E & Hsim).
    + apply fresh_sim; try done; [|split; cbn; [done|]; intros fd [? Hx]; by rewrite lookup_empty in Hx].
      eapply (bool_decide_eq_true_1 _). by vm_compute.
    + by vm_compute.
    + assert (reg_run (H0 := Debug) parked_ops (EPollPoller_ctor, fresh_heap sample_fds)
              = Ok (parked_epoll, parked_heap 1 2 0)) as E' by (vm_compute; reflexivity).
      rewrite E in E'. injection E' as <- <-. apply Hsim.
Qed.

Lemma reenabled_channel_lost_witness :
  (exists pp', poll_updateChannel (H := Debug) 101 parked_poll (parked_heap 0 1 3)
               = Ok (pp', parked_heap 0 1 3) /\ watching pp' !! 6 = None)
  /\ epoll_updateChannel (H := Debug) 101 parked_epoll (parked_heap 1 2 3) = Err AssertFailed.
Proof.
  apply (reenabled_channel_lost (H := Debug) 101 (mkChannel 6 3 0 true 1 0 false false) 1
    parked_poll (parked_heap 0 1 3) parked_epoll (mkChannel 6 3 0 true 2 0 false false)
    (parked_heap 1 2 3)).
  1-4: by vm_compute.
  2-4: by vm_compute.
  3-4: by vm_compute.
  - assert (parked_heap 0 1 3 = <[101 := mkChannel 6 3 0 true 1 0 false false]> (parked_heap 0 1 0))
      as -> by (vm_compute; reflexivity).
    eapply poll_inv_stable; [apply parked_inv|by vm_compute|done|done].
  - assert (parked_heap 1 2 3 = <[101 := mkChannel 6 3 0 true 2 0 false false]> (parked_heap 1 2 0))
      as -> by (vm_compute; reflexivity).
    eapply epoll_inv_stable; [apply parked_inv|by vm_compute|done|done].
Defined.
