(* ===== verification/TimerQueue.v ===== *)
(** * Timers: src/arale/net/Timer.{h,cc}, TimerID.h, TimerQueue.{h,cc}

    Timers live in a heap; the queue keeps pointers to them in two ordered sets, by
    expiration and by address.  A timer whose callback is running is in neither set:
    it is [detached], held by the local vector of handleTimeout only.  Allocation is a
    parameter (operator new may fail); a delay is a whole number of microseconds.
    [isHandlingTimeout_] is None until it is first set, because no constructor
    initialises it. *)

From S2P Require Import Prelude Ordered Date.

(** ** Timer, TimerID *)

Record Timer := mkTimer {
  timerCallback_ : Z;          (* which callback *)
  expiration_ : Z;             (* microseconds since the epoch *)
  interval_ : Z;               (* microseconds *)
  sequence_ : Z
}.
Definition isRepeated (t : Timer) : bool := 0 <? interval_ t.
Definition Timer_reset (t : Timer) (time : Z) : Timer :=
  mkTimer (timerCallback_ t)
    (if 0 <? interval_ t
     then microSecondsSinceEpoch (addTime (mkTimestamp time) (interval_ t))
     else microSecondsSinceEpoch Timestamp_invalid)
    (interval_ t) (sequence_ t).

Record TimerID := mkTimerID { id_timer_ : Z; id_sequence_ : Z }.
Definition TimerID_null : TimerID := mkTimerID 0 0.

(** ** The queue

    [heap_] are the live timers, [counter_] is Timer::counter_, [clock] what
    gettimeofday would say, [armed] when the timerfd is set to fire (nanoseconds on
    the same clock). *)

Record TimerQueue := mkTQ {
  heap_ : gmap Z Timer;
  counter_ : Z;
  timers_ : list (Z * Z);              (* std::set<pair<Timestamp, Timer*>> *)
  activeTimers_ : list (Z * Z);        (* std::set<pair<Timer*, int64_t>> *)
  cancelledTimers_ : list (Z * Z);
  isHandlingTimeout_ : option bool;
  clock : Z;
  armed : option Z
}.

Definition TimerQueue_ctor (now : Z) : TimerQueue := mkTQ ∅ 0 [] [] [] None now None.

Section fields.
Implicit Types q : TimerQueue.
Definition set_heap q h := mkTQ h (counter_ q) (timers_ q) (activeTimers_ q) (cancelledTimers_ q)
  (isHandlingTimeout_ q) (clock q) (armed q).
Definition set_sets q t a := mkTQ (heap_ q) (counter_ q) t a (cancelledTimers_ q)
  (isHandlingTimeout_ q) (clock q) (armed q).
Definition set_cancelled q c := mkTQ (heap_ q) (counter_ q) (timers_ q) (activeTimers_ q) c
  (isHandlingTimeout_ q) (clock q) (armed q).
Definition set_handling q b := mkTQ (heap_ q) (counter_ q) (timers_ q) (activeTimers_ q)
  (cancelledTimers_ q) (Some b) (clock q) (armed q).
Definition set_armed q a := mkTQ (heap_ q) (counter_ q) (timers_ q) (activeTimers_ q)
  (cancelledTimers_ q) (isHandlingTimeout_ q) (clock q) (Some a).
Definition set_counter q n := mkTQ (heap_ q) n (timers_ q) (activeTimers_ q)
  (cancelledTimers_ q) (isHandlingTimeout_ q) (clock q) (armed q).
End fields.

(** ** timerfd *)

(** A timespec; at least 100 microseconds. *)
Definition howMuchTimeFromNow (when_ now : Z) : Z * Z :=
  let microseconds := when_ - now in
  let microseconds := if microseconds <? 100 then 100 else microseconds in
  (Z.quot microseconds kMicroSecondsPerSecond, Z.rem microseconds kMicroSecondsPerSecond * 1000).

(** timerfd_settime with a relative time. *)
Definition resetTimerfd (when_ : Z) (q : TimerQueue) : TimerQueue :=
  let '(tv_sec, tv_nsec) := howMuchTimeFromNow when_ (clock q) in
  set_armed q (clock q * 1000 + tv_sec * 1000000000 + tv_nsec).

Section ops.
Context `{Build}.
Implicit Types q : TimerQueue.

Definition deref q (p : Z) : outcome Timer :=
  match heap_ q !! p with Some t => Ok t | None => Err StaleRead end.
Definition sizes_agree q : bool := bool_decide (length (timers_ q) = length (activeTimers_ q)).

Definition insert (timer : Z) q : outcome (bool * TimerQueue) :=
  assert_ (sizes_agree q) ;;
  t ← deref q timer;
  let when_ := expiration_ t in
  let needResetTimerfd :=
    match timers_ q with [] => true | (first, _) :: _ => when_ <? first end in
  let '(timers, ok) := oinsert (when_, timer) (timers_ q) in
  assert_ ok ;;
  let '(active, ok') := oinsert (timer, sequence_ t) (activeTimers_ q) in
  assert_ ok' ;;
  let q := set_sets q timers active in
  assert_ (sizes_agree q) ;;
  Ok (needResetTimerfd, q).

Definition addTimerInLoop (timer : Z) q : outcome TimerQueue :=
  '(earliestChanged, q) ← insert timer q;
  t ← deref q timer;
  Ok (if earliestChanged : bool then resetTimerfd (expiration_ t) q else q).

Definition cancelTimerInLoop (timer : TimerID) q : outcome TimerQueue :=
  assert_ (sizes_agree q) ;;
  let canceledTimer := (id_timer_ timer, id_sequence_ timer) in
  q ← (if omem canceledTimer (activeTimers_ q) then
         t ← deref q (id_timer_ timer);
         let '(timers, num) := oerase (expiration_ t, id_timer_ timer) (timers_ q) in
         assert_ (bool_decide (num = 1%nat)) ;;
         let '(active, num) := oerase canceledTimer (activeTimers_ q) in
         assert_ (bool_decide (num = 1%nat)) ;;
         let q := set_sets q timers active in
         (* delete it->first: the erase has invalidated it *)
         if stale_reads then Ok (set_heap q (delete (id_timer_ timer) (heap_ q)))
         else Err StaleRead
       else
         match isHandlingTimeout_ q with
         | None => Err Uninitialised
         | Some false => Ok q
         | Some true =>
             let '(cancelled, ok) := oinsert canceledTimer (cancelledTimers_ q) in
             assert_ ok ;; Ok (set_cancelled q cancelled)
         end);
  assert_ (sizes_agree q) ;;
  Ok q.

(** activeTimers_.erase of every expired timer. *)
Fixpoint erase_active (expired : list (Z * Z)) q : outcome TimerQueue :=
  match expired with
  | [] => Ok q
  | (_, p) :: l =>
      t ← deref q p;
      let '(active, num) := oerase (p, sequence_ t) (activeTimers_ q) in
      assert_ (bool_decide (num = 1%nat)) ;;
      erase_active l (set_sets q (timers_ q) active)
  end.

Definition UINTPTR_MAX : Z := 2 ^ 64 - 1.

Definition getExpiredTimers (now : Z) q : outcome (list (Z * Z) * TimerQueue) :=
  assert_ (sizes_agree q) ;;
  let '(expired, rest) := osplit (now, UINTPTR_MAX) (timers_ q) in
  q ← erase_active expired (set_sets q rest (activeTimers_ q));
  assert_ (sizes_agree q) ;;
  Ok (expired, q).

Fixpoint reset_each (timers : list (Z * Z)) (now : Z) q : outcome TimerQueue :=
  match timers with
  | [] => Ok q
  | (_, p) :: l =>
      t ← deref q p;
      if isRepeated t && negb (omem (p, sequence_ t) (cancelledTimers_ q)) then
        '(_, q) ← insert p (set_heap q (<[p := Timer_reset t now]> (heap_ q)));
        reset_each l now q
      else reset_each l now (set_heap q (delete p (heap_ q)))
  end.

Definition resetTimers (timers : list (Z * Z)) (now : Z) q : outcome TimerQueue :=
  assert_ (sizes_agree q) ;;
  q ← reset_each timers now q;
  q ← match timers_ q with
      | [] => Ok q
      | (_, p) :: _ =>
          t ← deref q p;
          Ok (if Timestamp_valid (mkTimestamp (expiration_ t))
              then resetTimerfd (expiration_ t) q else q)
      end;
  assert_ (sizes_agree q) ;;
  Ok q.

(** What a callback does to the queue, in the loop's thread: runInLoop calls at once. *)
Inductive taction :=
  | TAdd (callback when_ interval : Z)
  | TCancel (id : TimerID)
  | TTick (microseconds : Z).       (* time passes *)

Variable alloc : gset Z -> option Z.      (* operator new *)

(** addTimer: new Timer, then addTimerInLoop. *)
Definition addTimer (callback when_ interval : Z) q : outcome (TimerID * TimerQueue) :=
  match alloc (dom (heap_ q)) with
  | None => Err OutOfMemory
  | Some p =>
      let n := i64 (counter_ q + 1) in
      let q := set_counter (set_heap q (<[p := mkTimer callback when_ interval n]> (heap_ q))) n in
      q ← addTimerInLoop p q;
      Ok (mkTimerID p n, q)
  end.
Definition cancelTimer (id : TimerID) q : outcome TimerQueue := cancelTimerInLoop id q.

Definition run_action (a : taction) q : outcome TimerQueue :=
  match a with
  | TAdd c w i => '(_, q) ← addTimer c w i q; Ok q
  | TCancel id => cancelTimer id q
  | TTick us => Ok (mkTQ (heap_ q) (counter_ q) (timers_ q) (activeTimers_ q) (cancelledTimers_ q)
                      (isHandlingTimeout_ q) (clock q + Z.abs us) (armed q))
  end.

Fixpoint run_actions (l : list taction) q : outcome TimerQueue :=
  match l with [] => Ok q | a :: l' => q ← run_action a q; run_actions l' q end.

Variable callbacks : Z -> list taction.

(** it->second->run() for every expired timer. *)
Fixpoint run_each (expired : list (Z * Z)) q : outcome TimerQueue :=
  match expired with
  | [] => Ok q
  | (_, p) :: l =>
      t ← deref q p;
      q ← run_actions (callbacks (timerCallback_ t)) q;
      run_each l q
  end.

Definition handleTimeout q : outcome TimerQueue :=
  assert_ (sizes_agree q) ;;
  let now := clock q in
  '(expired, q) ← getExpiredTimers now q;
  let q := set_cancelled (set_handling q true) [] in
  q ← run_each expired q;
  let q := set_handling q false in
  q ← resetTimers expired now q;
  assert_ (sizes_agree q) ;;
  Ok q.
End ops.

(** ** Specification *)

(** The two sets hold the same timers; those of [D] are detached: alive, and in
    neither set.  Addresses are below UINTPTR_MAX. *)
Definition tq_inv (q : TimerQueue) (D : list Z) : Prop :=
  osorted (timers_ q) /\ osorted (activeTimers_ q) /\ osorted (cancelledTimers_ q)
  /\ length (timers_ q) = length (activeTimers_ q)
  /\ (forall w p, (w, p) ∈ timers_ q ->
        exists t, heap_ q !! p = Some t /\ expiration_ t = w /\ (p, sequence_ t) ∈ activeTimers_ q)
  /\ (forall p s, (p, s) ∈ activeTimers_ q ->
        exists t, heap_ q !! p = Some t /\ sequence_ t = s /\ (expiration_ t, p) ∈ timers_ q)
  /\ (forall p, p ∈ D -> exists t, heap_ q !! p = Some t /\ (p, sequence_ t) ∉ activeTimers_ q)
  /\ NoDup D
  /\ (forall p, is_Some (heap_ q !! p) -> 0 < p < UINTPTR_MAX).

(** What the code relies on of operator new: a non-null address not in use. *)
Definition alloc_ok (alloc : gset Z -> option Z) : Prop :=
  forall X p, alloc X = Some p -> p ∉ X /\ 0 < p < UINTPTR_MAX.

(** A call ends well, or new has thrown. *)
Definition ok_or_oom {A} (P : A -> Prop) (m : outcome A) : Prop :=
  match m with Ok a => P a | Err f => f = OutOfMemory end.

(** ** Lemmas *)

Section lemmas.
Context `{Build}.
Implicit Types (q : TimerQueue) (D : list Z).

Lemma tq_sizes q D : tq_inv q D -> sizes_agree q = true.
Proof. intros (_ & _ & _ & E & _). by apply bool_decide_eq_true. Qed.

(** A detached timer is in neither set, whatever the second component. *)
Lemma tq_detached q D p t :
  tq_inv q D -> p ∈ D -> heap_ q !! p = Some t ->
  (forall s, (p, s) ∉ activeTimers_ q) /\ (forall w, (w, p) ∉ timers_ q).
Proof.
  intros (_ & _ & _ & _ & Ha & Hb & Hd & _) Hp Ht.
  destruct (Hd p Hp) as (t' & Ht' & Hn). assert (t' = t) as -> by congruence. split.
  - intros s Hs. destruct (Hb _ _ Hs) as (t' & E & <- & _). congruence.
  - intros w Hw. destruct (Ha _ _ Hw) as (t' & E & _ & Hin). congruence.
Qed.

(** Changing a detached timer, or freeing it. *)
Lemma tq_update_detached q D p t t' :
  tq_inv q (p :: D) -> heap_ q !! p = Some t ->
  tq_inv (set_heap q (<[p := t']> (heap_ q))) (p :: D).
Proof.
  intros Hinv Ht. destruct (tq_detached q (p :: D) p t) as [Hna Hnt]; [done|left|done|].
  destruct Hinv as (H1 & H2 & H3 & H4 & Ha & Hb & Hd & Hn & Hr).
  split_and!; cbn [set_heap timers_ activeTimers_ cancelledTimers_ heap_]; try done.
  - intros w p' Hp. destruct (Ha _ _ Hp) as (u & Hu & ?). exists u.
    rewrite lookup_insert_ne; [done|]. intros ->. by apply (Hnt w).
  - intros p' s Hp. destruct (Hb _ _ Hp) as (u & Hu & ?). exists u.
    rewrite lookup_insert_ne; [done|]. intros ->. by apply (Hna s).
  - intros p' Hp. destruct (decide (p' = p)) as [->|Hne].
    + exists t'. rewrite lookup_insert_eq. split; [done|apply Hna].
    + rewrite lookup_insert_ne by done. by apply Hd.
  - intros p'. destruct (decide (p' = p)) as [->|Hne]; [intros _; apply Hr; eauto|].
    rewrite lookup_insert_ne by done. apply Hr.
Qed.

Lemma tq_free_detached q D p :
  tq_inv q (p :: D) -> tq_inv (set_heap q (delete p (heap_ q))) D.
Proof.
  intros Hinv. pose proof Hinv as (H1 & H2 & H3 & H4 & Ha & Hb & Hd & Hn & Hr).
  apply NoDup_cons in Hn as [Hp Hn]. destruct (Hd p) as (t & Ht & _); [left|].
  destruct (tq_detached q (p :: D) p t) as [Hna Hnt]; [done|left|done|].
  split_and!; cbn [set_heap timers_ activeTimers_ cancelledTimers_ heap_]; try done.
  - intros w p' Hp'. destruct (Ha _ _ Hp') as (u & Hu & ?). exists u.
    rewrite lookup_delete_ne; [done|]. intros ->. by apply (Hnt w).
  - intros p' s Hp'. destruct (Hb _ _ Hp') as (u & Hu & ?). exists u.
    rewrite lookup_delete_ne; [done|]. intros ->. by apply (Hna s).
  - intros p' Hp'. rewrite lookup_delete_ne by (intros ->; done). apply Hd. by right.
  - intros p' [u [_ Hu]%lookup_delete_Some]. eauto.
Qed.

(** A timer that has just been allocated is detached. *)
Lemma tq_alloc q D p t n :
  tq_inv q D -> heap_ q !! p = None -> 0 < p < UINTPTR_MAX ->
  tq_inv (set_counter (set_heap q (<[p := t]> (heap_ q))) n) (p :: D).
Proof.
  intros (H1 & H2 & H3 & H4 & Ha & Hb & Hd & Hn & Hr) Hp Hrange.
  split_and!; cbn [set_counter set_heap timers_ activeTimers_ cancelledTimers_ heap_]; try done.
  - intros w p' Hp'. destruct (Ha _ _ Hp') as (u & Hu & ?). exists u.
    rewrite lookup_insert_ne; [done|]. congruence.
  - intros p' s Hp'. destruct (Hb _ _ Hp') as (u & Hu & ?). exists u.
    rewrite lookup_insert_ne; [done|]. congruence.
  - intros p' [->|Hp']%elem_of_cons.
    + exists t. rewrite lookup_insert_eq. split; [done|]. intros Hin.
      destruct (Hb _ _ Hin) as (u & Hu & _). congruence.
    + destruct (Hd _ Hp') as (u & Hu & ?). exists u. rewrite lookup_insert_ne; [done|]. congruence.
  - constructor; [|done]. intros Hin. destruct (Hd _ Hin) as (u & Hu & _). congruence.
  - intros p'. destruct (decide (p' = p)) as [->|Hne]; [done|].
    rewrite lookup_insert_ne by done. apply Hr.
Qed.

(** insert() puts a detached timer into both sets. *)
Lemma insert_ok q D p t :
  tq_inv q (p :: D) -> heap_ q !! p = Some t ->
  exists b timers active, insert p q = Ok (b, set_sets q timers active)
    /\ tq_inv (set_sets q timers active) D
    /\ (forall x, x ∈ timers <-> x = (expiration_ t, p) \/ x ∈ timers_ q)
    /\ b = match timers_ q with [] => true | (first, _) :: _ => expiration_ t <? first end.
Proof.
  intros Hinv Ht. destruct (tq_detached q (p :: D) p t) as [Hna Hnt]; [done|left|done|].
  pose proof (tq_sizes _ _ Hinv) as Hsz.
  pose proof Hinv as (H1 & H2 & H3 & H4 & Ha & Hb & Hd & Hn & Hr).
  apply NoDup_cons in Hn as [Hp Hn].
  unfold insert, deref. rewrite Hsz, assert_true, bind_Ok, Ht, bind_Ok by done.
  destruct (oinsert (expiration_ t, p) (timers_ q)) as [timers ok] eqn:Eo.
  destruct (oinsert (p, sequence_ t) (activeTimers_ q)) as [active ok'] eqn:Eo'.
  pose proof (oinsert_fresh _ _ H1 (Hnt (expiration_ t))) as F1.
  pose proof (oinsert_fresh _ _ H2 (Hna (sequence_ t))) as F2.
  pose proof (oinsert_length _ _ H1 (Hnt (expiration_ t))) as L1.
  pose proof (oinsert_length _ _ H2 (Hna (sequence_ t))) as L2.
  pose proof (oinsert_sorted (expiration_ t, p) _ H1) as S1.
  pose proof (oinsert_sorted (p, sequence_ t) _ H2) as S2.
  pose proof (fun y => oinsert_elem (expiration_ t, p) y _ H1) as M1.
  pose proof (fun y => oinsert_elem (p, sequence_ t) y _ H2) as M2.
  rewrite Eo in *. rewrite Eo' in *. cbn [fst snd] in *. subst ok ok'.
  rewrite !assert_true, !bind_Ok by (done || (unfold sizes_agree; cbn; by rewrite L1, L2, H4, bool_decide_eq_true_2)).
  exists (match timers_ q with [] => true | (first, _) :: _ => expiration_ t <? first end),
    timers, active. split; [done|]. split; [|done].
  split_and!; cbn [set_sets timers_ activeTimers_ cancelledTimers_ heap_]; try done; [lia|..].
  - intros w p' [[= -> ->]|Hw]%M1.
    + exists t. split_and!; [done|done|]. apply M2. by left.
    + destruct (Ha _ _ Hw) as (u & Hu & Hue & Hus). exists u. split_and!; [done|done|].
      apply M2. by right.
  - intros p' s [[= -> ->]|Hs]%M2.
    + exists t. split_and!; [done|done|]. apply M1. by left.
    + destruct (Hb _ _ Hs) as (u & Hu & Hue & Hus). exists u. split_and!; [done|done|].
      apply M1. by right.
  - intros p' Hp'. destruct (Hd p') as (u & Hu & Hun); [by right|]. exists u. split; [done|].
    intros [[= -> _]|Hin]%M2; done.
Qed.

Lemma tq_resetTimerfd q D w : tq_inv q D -> tq_inv (resetTimerfd w q) D.
Proof. unfold resetTimerfd. by destruct (howMuchTimeFromNow w (clock q)). Qed.

Lemma addTimer_inv alloc c w i q D :
  alloc_ok alloc -> tq_inv q D ->
  ok_or_oom (fun r : TimerID * TimerQueue => tq_inv r.2 D) (addTimer alloc c w i q).
Proof.
  intros Hal Hinv. unfold addTimer. destruct (alloc (dom (heap_ q))) as [p|] eqn:Ep; [|done].
  destruct (Hal _ _ Ep) as [Hp Hrange]. apply not_elem_of_dom in Hp.
  pose proof (tq_alloc q D p (mkTimer c w i (i64 (counter_ q + 1))) (i64 (counter_ q + 1)) Hinv Hp Hrange) as Hinv1.
  set (q1 := set_counter _ _) in *. unfold addTimerInLoop.
  destruct (insert_ok q1 D p (mkTimer c w i (i64 (counter_ q + 1))) Hinv1) as (b & ts & act & -> & Hinv2 & _).
  { subst q1. cbn. apply lookup_insert_eq. }
  rewrite bind_Ok. unfold deref. subst q1. cbn [heap_ set_sets set_counter set_heap].
  rewrite lookup_insert_eq, !bind_Ok. cbn [ok_or_oom snd].
  destruct b; [by apply tq_resetTimerfd|done].
Qed.

(** Cancelling, in a build where the read through the erased iterator still works. *)
Lemma cancel_active q D id t :
  tq_inv q D -> (id_timer_ id, id_sequence_ id) ∈ activeTimers_ q ->
  heap_ q !! id_timer_ id = Some t ->
  exists timers active,
    cancelTimerInLoop id q =
      (if stale_reads
       then Ok (set_heap (set_sets q timers active) (delete (id_timer_ id) (heap_ q)))
       else Err StaleRead)
    /\ tq_inv (set_heap (set_sets q timers active) (delete (id_timer_ id) (heap_ q))) D
    /\ (forall x, x ∈ timers <-> x <> (expiration_ t, id_timer_ id) /\ x ∈ timers_ q).
Proof.
  intros Hinv Hin Ht. pose proof (tq_sizes _ _ Hinv) as Hsz.
  pose proof Hinv as (H1 & H2 & H3 & H4 & Ha & Hb & Hd & Hn & Hr).
  destruct (Hb _ _ Hin) as (t' & Ht' & Hs & Hw). assert (t' = t) as -> by congruence.
  unfold cancelTimerInLoop, deref. rewrite Hsz, assert_true, bind_Ok by done.
  rewrite (proj2 (omem_spec _ _ H2) Hin), Ht, bind_Ok.
  pose proof (oerase_present _ _ H1 Hw) as [N1 L1]. pose proof (oerase_present _ _ H2 Hin) as [N2 L2].
  pose proof (oerase_sorted (expiration_ t, id_timer_ id) _ H1) as S1.
  pose proof (oerase_sorted (id_timer_ id, id_sequence_ id) _ H2) as S2.
  pose proof (fun y => oerase_elem (expiration_ t, id_timer_ id) y _ H1) as M1.
  pose proof (fun y => oerase_elem (id_timer_ id, id_sequence_ id) y _ H2) as M2.
  destruct (oerase (expiration_ t, id_timer_ id) (timers_ q)) as [timers n1].
  destruct (oerase (id_timer_ id, id_sequence_ id) (activeTimers_ q)) as [active n2].
  cbn [fst snd] in *. subst n1 n2. rewrite !(assert_true (bool_decide (1%nat = 1%nat))) by done.
  rewrite !bind_Ok.
  assert (tq_inv (set_heap (set_sets q timers active) (delete (id_timer_ id) (heap_ q))) D) as Hinv'.
  { split_and!; cbn [set_heap set_sets timers_ activeTimers_ cancelledTimers_ heap_]; try done; [lia|..].
    - intros w p [Hne Hp]%M1. destruct (Ha _ _ Hp) as (u & Hu & Huw & Hua). exists u.
      assert (p <> id_timer_ id) by (intros ->; apply Hne; congruence).
      rewrite lookup_delete_ne by done. split_and!; [done|done|]. apply M2. split; [congruence|done].
    - intros p s [Hne Hp]%M2. destruct (Hb _ _ Hp) as (u & Hu & Hus & Hut). exists u.
      assert (p <> id_timer_ id) by (intros ->; apply Hne; congruence).
      rewrite lookup_delete_ne by done. split_and!; [done|done|]. apply M1. split; [congruence|done].
    - intros p Hp. destruct (Hd p Hp) as (u & Hu & Hun). exists u.
      assert (p <> id_timer_ id) by (intros ->; apply Hun; congruence).
      rewrite lookup_delete_ne by done. split; [done|]. intros [_ ?]%M2. done.
    - intros p [u [_ Hu]%lookup_delete_Some]. eauto. }
  exists timers, active. split; [|done]. destruct stale_reads; [|done]. rewrite bind_Ok.
  change (heap_ (set_sets q timers active)) with (heap_ q).
  by rewrite (tq_sizes _ _ Hinv'), assert_true.
Qed.

Lemma cancel_inactive q D id :
  tq_inv q D -> (id_timer_ id, id_sequence_ id) ∉ activeTimers_ q ->
  cancelTimerInLoop id q =
    match isHandlingTimeout_ q with
    | None => Err Uninitialised
    | Some false => Ok q
    | Some true =>
        let '(cancelled, ok) := oinsert (id_timer_ id, id_sequence_ id) (cancelledTimers_ q) in
        assert_ ok ;; Ok (set_cancelled q cancelled)
    end.
Proof.
  intros Hinv Hin. pose proof (tq_sizes _ _ Hinv) as Hsz. pose proof Hinv as (_ & H2 & _).
  unfold cancelTimerInLoop. rewrite Hsz, assert_true, bind_Ok by done.
  destruct (omem _ _) eqn:E; [by apply omem_spec in E|].
  destruct (isHandlingTimeout_ q) as [[]|]; [|by rewrite bind_Ok, Hsz, assert_true|done].
  destruct (oinsert _ _) as [c ok]. destruct (assert_ ok); [|done]. rewrite !bind_Ok.
  unfold sizes_agree in *. cbn [timers_ activeTimers_ set_cancelled]. by rewrite Hsz, assert_true.
Qed.
End lemmas.

Section run_lemmas.
Context `{Build}.
Implicit Types (q : TimerQueue) (D : list Z).

(** The expired timers: those not after [now], in the order of the set. *)
Lemma expired_split q D now :
  tq_inv q D ->
  let '(expired, rest) := osplit (now, UINTPTR_MAX) (timers_ q) in
  timers_ q = expired ++ rest /\ Forall (fun e => e.1 <= now) expired
  /\ Forall (fun e => now < e.1) rest.
Proof.
  intros (H1 & _ & _ & _ & Ha & _ & _ & _ & Hr).
  pose proof (osplit_app (now, UINTPTR_MAX) (timers_ q)) as Happ.
  pose proof (fun y => osplit_lt (now, UINTPTR_MAX) (timers_ q) y) as Hlt.
  pose proof (fun y => osplit_ge (now, UINTPTR_MAX) (timers_ q) y H1) as Hge.
  destruct (osplit _ _) as [expired rest]. cbn [fst snd] in *.
  assert (forall w p, (w, p) ∈ timers_ q -> 0 < p < UINTPTR_MAX) as Hptr.
  { intros w p Hp. destruct (Ha _ _ Hp) as (t & Ht & _). eauto. }
  split; [done|]. split; apply Forall_forall; intros [w p] Hin; cbn [fst].
  - specialize (Hlt _ Hin). unfold ltb, prod_ordb, ltb, Z_ordb in Hlt. cbn [fst snd] in Hlt. lia.
  - assert (0 < p < UINTPTR_MAX) by (apply (Hptr w); rewrite <- Happ; set_solver).
    specialize (Hge _ Hin). unfold ltb, prod_ordb, ltb, Z_ordb in Hge. cbn [fst snd] in Hge. lia.
Qed.

(** Taking the expired timers out of the second set, one after the other. *)
Lemma erase_active_ok q D expired rest :
  tq_inv (set_sets q (expired ++ rest) (activeTimers_ q)) D ->
  exists active, erase_active expired (set_sets q rest (activeTimers_ q))
                 = Ok (set_sets q rest active)
    /\ tq_inv (set_sets q rest active) (expired.*2 ++ D).
Proof.
  revert q D. induction expired as [|[w p] expired IH]; intros q D Hinv.
  - exists (activeTimers_ q). done.
  - cbn [app fmap list_fmap] in *.
    pose proof Hinv as (H1 & H2 & H3 & H4 & Ha & Hb & Hd & Hn & Hr).
    cbn [set_sets timers_ activeTimers_ cancelledTimers_ heap_] in *.
    destruct (Ha w p) as (t & Ht & Hw & Hin); [left|].
    cbn [erase_active]. unfold deref. cbn [heap_ set_sets activeTimers_ timers_].
    rewrite Ht, bind_Ok.
    pose proof (oerase_present _ _ H2 Hin) as [N2 L2].
    pose proof (oerase_sorted (p, sequence_ t) _ H2) as S2.
    pose proof (fun y => oerase_elem (p, sequence_ t) y _ H2) as M2.
    destruct (oerase (p, sequence_ t) (activeTimers_ q)) as [active n2].
    cbn [fst snd] in *. subst n2. rewrite assert_true, bind_Ok by done.
    apply osorted_cons in H1 as [H1 Hw1].
    assert (forall w', (w', p) ∉ expired ++ rest) as Hnp.
    { intros w' Hw'. destruct (Ha w' p) as (t' & Ht' & Hw'' & _); [by right|].
      assert (w' = w) as -> by congruence. specialize (Hw1 _ Hw'). by rewrite ltb_irrefl in Hw1. }
    destruct (IH (set_sets q (timers_ q) active) (p :: D)) as (active' & E & Hinv').
    { cbn [set_sets timers_ activeTimers_ cancelledTimers_ heap_].
      split_and!; cbn [set_sets timers_ activeTimers_ cancelledTimers_ heap_]; try done;
        [cbn [length] in H4; lia|..].
      - intros w' p' Hp'. destruct (Ha w' p') as (u & Hu & Huw & Hus); [by right|].
        exists u. split_and!; [done|done|]. apply M2. split; [|done].
        intros [= -> _]. by apply (Hnp w').
      - intros p' s [Hne Hp']%M2. destruct (Hb _ _ Hp') as (u & Hu & Hus & Hut).
        exists u. split_and!; [done|done|]. apply elem_of_cons in Hut as [[= Eu ->]|Hut]; [|done].
        congruence.
      - intros p' [->|Hp']%elem_of_cons.
        + exists t. split; [done|]. intros [? _]%M2. done.
        + destruct (Hd _ Hp') as (u & Hu & Hun). exists u. split; [done|]. intros [_ ?]%M2. done.
      - constructor; [|done]. intros Hp. destruct (Hd _ Hp) as (u & Hu & Hun). congruence. }
    cbn [set_sets activeTimers_ timers_] in *. exists active'. split; [exact E|].
    destruct Hinv' as (? & ? & ? & ? & ? & ? & Hd' & Hn' & ?).
    split_and!; try done.
    + intros p' Hp'. apply Hd'. set_solver.
    + rewrite <- Permutation_middle in Hn'. done.
Qed.

Lemma getExpiredTimers_ok q now :
  tq_inv q [] ->
  exists expired rest active,
    getExpiredTimers now q = Ok (expired, set_sets q rest active)
    /\ tq_inv (set_sets q rest active) expired.*2
    /\ timers_ q = expired ++ rest /\ Forall (fun e => e.1 <= now) expired
    /\ Forall (fun e => now < e.1) rest.
Proof.
  intros Hinv. pose proof (expired_split q [] now Hinv) as Hs. unfold getExpiredTimers.
  rewrite (tq_sizes _ _ Hinv), assert_true, bind_Ok by done.
  destruct (osplit _ _) as [expired rest]. destruct Hs as (Happ & He & Hr).
  destruct (erase_active_ok q [] expired rest) as (active & -> & Hinv').
  { rewrite <- Happ. by destruct q. }
  rewrite app_nil_r in Hinv'. rewrite bind_Ok, (tq_sizes _ _ Hinv'), assert_true by done.
  exists expired, rest, active. done.
Qed.

Lemma reset_each_ok q now l D :
  tq_inv q (l.*2 ++ D) ->
  exists q', reset_each l now q = Ok q' /\ tq_inv q' D
    /\ isHandlingTimeout_ q' = isHandlingTimeout_ q
    /\ (forall w p t, (w, p) ∈ l -> heap_ q !! p = Some t ->
          heap_ q' !! p = if isRepeated t && negb (omem (p, sequence_ t) (cancelledTimers_ q))
                          then Some (Timer_reset t now) else None)
    /\ (forall p, p ∉ l.*2 -> heap_ q' !! p = heap_ q !! p).
Proof.
  revert q. induction l as [|[w p] l IH]; intros q Hinv.
  - exists q. split_and!; try done. set_solver.
  - cbn [fmap list_fmap app reset_each] in *. unfold deref.
    pose proof Hinv as (_ & _ & _ & _ & _ & _ & Hd & Hn & _).
    destruct (Hd p) as (t & Ht & _); [left|]. rewrite Ht, bind_Ok.
    apply NoDup_cons in Hn as [Hpl Hn].
    assert (forall q', heap_ q' = heap_ q -> p ∉ l.*2) as Hpn by (intros; set_solver).
    destruct (isRepeated t && negb (omem (p, sequence_ t) (cancelledTimers_ q))) eqn:Er.
    + pose proof (tq_update_detached q _ p t (Timer_reset t now) Hinv Ht) as Hinv1.
      destruct (insert_ok _ _ p (Timer_reset t now) Hinv1) as (b & ts & act & -> & Hinv2 & _).
      { cbn. apply lookup_insert_eq. }
      rewrite bind_Ok. destruct (IH _ Hinv2) as (q' & E & Hinv' & Hclk & Hl & Ho).
      exists q'. split_and!; [exact E|done|done|..].
      * intros w' p' t' [[= -> ->]|Hin]%elem_of_cons Ht'.
        -- assert (t' = t) as -> by congruence. rewrite Er, Ho by (by eapply Hpn).
           cbn. apply lookup_insert_eq.
        -- assert (p' <> p) by (intros ->; apply (Hpn q eq_refl), list_elem_of_fmap; by exists (w', p)).
           apply (Hl w' p' t' Hin). cbn. by rewrite lookup_insert_ne.
      * intros p' Hp'. rewrite Ho by set_solver. cbn. rewrite lookup_insert_ne; [done|set_solver].
    + pose proof (tq_free_detached q _ p Hinv) as Hinv1.
      destruct (IH _ Hinv1) as (q' & E & Hinv' & Hclk & Hl & Ho).
      exists q'. split_and!; [exact E|done|done|..].
      * intros w' p' t' [[= -> ->]|Hin]%elem_of_cons Ht'.
        -- assert (t' = t) as -> by congruence. rewrite Er, Ho by (by eapply Hpn).
           cbn. apply lookup_delete_eq.
        -- assert (p' <> p) by (intros ->; apply (Hpn q eq_refl), list_elem_of_fmap; by exists (w', p)).
           apply (Hl w' p' t' Hin). cbn. by rewrite lookup_delete_ne.
      * intros p' Hp'. rewrite Ho by set_solver. cbn. rewrite lookup_delete_ne; [done|set_solver].
Qed.

(** The timerfd is set for the first timer of the set. *)
Definition armed_for_first q : Prop :=
  match timers_ q with
  | [] => True
  | (w, _) :: _ => 0 < w -> armed q = armed (resetTimerfd w q)
  end.

Lemma resetTimers_ok q now l :
  tq_inv q l.*2 ->
  exists q', resetTimers l now q = Ok q' /\ tq_inv q' [] /\ armed_for_first q'
    /\ isHandlingTimeout_ q' = isHandlingTimeout_ q
    /\ (forall w p t, (w, p) ∈ l -> heap_ q !! p = Some t ->
          heap_ q' !! p = if isRepeated t && negb (omem (p, sequence_ t) (cancelledTimers_ q))
                          then Some (Timer_reset t now) else None)
    /\ (forall p, p ∉ l.*2 -> heap_ q' !! p = heap_ q !! p).
Proof.
  intros Hinv. unfold resetTimers. rewrite (tq_sizes _ _ Hinv), assert_true, bind_Ok by done.
  destruct (reset_each_ok q now l []) as (q1 & -> & Hinv1 & Hh & Hl & Ho); [by rewrite app_nil_r|].
  rewrite bind_Ok. pose proof Hinv1 as (_ & _ & _ & _ & Ha & _).
  destruct (timers_ q1) as [|[w p] ts] eqn:Ets.
  - rewrite bind_Ok, (tq_sizes _ _ Hinv1), assert_true by done.
    exists q1. split_and!; try done. unfold armed_for_first. by rewrite Ets.
  - destruct (Ha w p) as (t & Ht & Hw & _); [left|]. unfold deref. rewrite Ht, !bind_Ok, Hw.
    unfold Timestamp_valid. cbn [microSecondsSinceEpoch].
    destruct (0 <? w) eqn:E0.
    + pose proof (tq_resetTimerfd q1 [] w Hinv1) as Hinv2.
      rewrite (tq_sizes _ _ Hinv2), assert_true, bind_Ok by done.
      exists (resetTimerfd w q1). unfold armed_for_first, resetTimerfd in *.
      destruct (howMuchTimeFromNow w (clock q1)) as [s n] eqn:Eh.
      cbn [timers_ set_armed clock]. rewrite Ets, Eh. by split_and!.
    + rewrite (tq_sizes _ _ Hinv1), assert_true, bind_Ok by done.
      exists q1. split_and!; try done. unfold armed_for_first. rewrite Ets. zify_bool. lia.
Qed.

(** A callback keeps the detached timers of its caller and their contents, and notes as
    cancelled only what it cancels. *)
Definition keeps (D : list Z) (ids : TimerID -> Prop) q q' : Prop :=
  (forall p, p ∈ D -> heap_ q' !! p = heap_ q !! p)
  /\ isHandlingTimeout_ q' = isHandlingTimeout_ q
  /\ (forall x, x ∈ cancelledTimers_ q' ->
        x ∈ cancelledTimers_ q \/ exists id, ids id /\ x = (id_timer_ id, id_sequence_ id)).

Lemma keeps_refl D ids q : keeps D ids q q.
Proof. split_and!; auto. Qed.

Lemma keeps_trans D (i1 i2 ids : TimerID -> Prop) q1 q2 q3 :
  (forall id, i1 id -> ids id) -> (forall id, i2 id -> ids id) ->
  keeps D i1 q1 q2 -> keeps D i2 q2 q3 -> keeps D ids q1 q3.
Proof.
  intros Hi1 Hi2 (H1 & H1' & H1'') (H2 & H2' & H2''). split_and!; [|congruence|].
  - intros p Hp. by rewrite H2, H1.
  - intros x Hx. destruct (H2'' x Hx) as [Hx'|(id & ? & ->)]; [|right; eauto].
    destruct (H1'' x Hx') as [?|(id & ? & ->)]; [by left|right; eauto].
Qed.

Lemma run_action_ok alloc a q D :
  alloc_ok alloc -> stale_reads = true -> NDEBUG = true -> tq_inv q D ->
  isHandlingTimeout_ q = Some true ->
  ok_or_oom (fun q' => tq_inv q' D /\ keeps D (fun id => a = TCancel id) q q') (run_action alloc a q).
Proof.
  intros Hal Hst Hnd Hinv Hh. destruct a as [c w i|id|us]; cbn [run_action].
  - pose proof (addTimer_inv alloc c w i q D Hal Hinv) as Hadd.
    assert (forall r, addTimer alloc c w i q = Ok r -> keeps D (fun _ => False) q r.2) as Hk.
    { unfold addTimer. destruct (alloc (dom (heap_ q))) as [p|] eqn:Ep; [|done].
      destruct (Hal _ _ Ep) as [Hp _]. apply not_elem_of_dom in Hp.
      intros [id q'] E. cbn [snd].
      apply bind_Ok_inv in E as (q2 & E & [= <- <-]). unfold addTimerInLoop, insert, deref in E.
      cbn [heap_ set_counter set_heap set_sets] in E. rewrite lookup_insert_eq in E.
      assert (forall b, @assert_ _ b = Ok tt) as Has by (intros b; unfold assert_; by rewrite Hnd).
      rewrite !Has in E. rewrite !bind_Ok in E.
      destruct (oinsert _ _) as [ts ok], (oinsert _ _) as [act ok']. rewrite !Has, !bind_Ok in E.
      cbn [heap_ set_counter set_heap set_sets] in E. rewrite lookup_insert_eq, !bind_Ok in E.
      injection E as <-. destruct Hinv as (_ & _ & _ & _ & _ & _ & Hd & _).
      assert (forall p', p' ∈ D -> <[p := mkTimer c w i (i64 (counter_ q + 1))]> (heap_ q) !! p' = heap_ q !! p')
        as Hins.
      { intros p' Hp'. rewrite lookup_insert_ne; [done|]. intros <-.
        destruct (Hd p Hp') as (u & Hu & _). congruence. }
      case_match; [|by split_and!; auto].
      unfold resetTimerfd. destruct (howMuchTimeFromNow _ _). by split_and!; auto. }
    destruct (addTimer alloc c w i q) as [[id q']|f]; cbn; [|done].
    split; [done|]. destruct (Hk (id, q') eq_refl) as (? & ? & Hx). split_and!; try done.
    intros x [?|(? & [] & _)]%Hx. by left.
  - unfold cancelTimer. destruct (decide ((id_timer_ id, id_sequence_ id) ∈ activeTimers_ q)) as [Hin|Hin].
    + pose proof Hinv as (_ & _ & _ & _ & _ & Hb & Hd & _).
      destruct (Hb _ _ Hin) as (t & Ht & Hs & _).
      destruct (cancel_active q D id t Hinv Hin Ht) as (ts & act & -> & Hinv' & _).
      rewrite Hst. cbn [ok_or_oom]. split; [done|]. split_and!; [|done|by left]. intros p Hp. cbn.
      rewrite lookup_delete_ne; [done|]. intros E. destruct (Hd p Hp) as (u & Hu & Hun).
      rewrite <- E in Hu, Hun. congruence.
    + rewrite (cancel_inactive q D id Hinv Hin), Hh.
      pose proof Hinv as (H1 & H2 & H3 & H4 & Ha & Hb & Hd & Hn & Hr).
      pose proof (oinsert_sorted (id_timer_ id, id_sequence_ id) _ H3) as S3.
      pose proof (fun y => oinsert_elem (id_timer_ id, id_sequence_ id) y _ H3) as M3.
      destruct (oinsert _ _) as [c ok]. unfold assert_. rewrite Hnd. cbn [ok_or_oom mbind outcome_bind].
      split; [by split_and!|]. split_and!; try done. cbn [cancelledTimers_ set_cancelled fst] in *.
      intros x [->|?]%M3; [right; by exists id|by left].
  - cbn [ok_or_oom]. split; [done|]. by split_and!; auto.
Qed.

Lemma run_actions_ok alloc l q D :
  alloc_ok alloc -> stale_reads = true -> NDEBUG = true -> tq_inv q D ->
  isHandlingTimeout_ q = Some true ->
  ok_or_oom (fun q' => tq_inv q' D /\ keeps D (fun id => TCancel id ∈ l) q q') (run_actions alloc l q).
Proof.
  intros Hal Hst Hnd. revert q. induction l as [|a l IH]; intros q Hinv Hh; cbn [run_actions].
  - cbn. split; [done|apply keeps_refl].
  - pose proof (run_action_ok alloc a q D Hal Hst Hnd Hinv Hh) as Ha.
    destruct (run_action alloc a q) as [q1|f]; cbn; [|done]. destruct Ha as [Hinv1 Hk].
    specialize (IH q1 Hinv1 ltac:(destruct Hk as (? & ? & ?); congruence)).
    destruct (run_actions alloc l q1) as [q2|f]; cbn in *; [|done].
    destruct IH as [? ?]. split; [done|].
    eapply keeps_trans; [..|done|done]; cbn; [intros ? <-; left|by right].
Qed.

Lemma run_each_ok alloc callbacks expired q D :
  alloc_ok alloc -> stale_reads = true -> NDEBUG = true -> tq_inv q D ->
  isHandlingTimeout_ q = Some true -> (forall e, e ∈ expired -> e.2 ∈ D) ->
  ok_or_oom (fun q' => tq_inv q' D /\ keeps D (fun id => exists cb, TCancel id ∈ callbacks cb) q q')
    (run_each alloc callbacks expired q).
Proof.
  intros Hal Hst Hnd. revert q. induction expired as [|[w p] l IH]; intros q Hinv Hh Hin;
    cbn [run_each]; [cbn; split; [done|apply keeps_refl]|].
  pose proof Hinv as (_ & _ & _ & _ & _ & _ & Hd & _).
  destruct (Hd p) as (t & Ht & _); [apply (Hin (w, p)); left|]. unfold deref. rewrite Ht, bind_Ok.
  pose proof (run_actions_ok alloc (callbacks (timerCallback_ t)) q D Hal Hst Hnd Hinv Hh) as Ha.
  destruct (run_actions _ _ q) as [q1|f]; cbn; [|done]. destruct Ha as [Hinv1 Hk].
  specialize (IH q1 Hinv1 ltac:(destruct Hk as (? & ? & ?); congruence) ltac:(set_solver)).
  destruct (run_each _ _ l q1) as [q2|f]; cbn in *; [|done].
  destruct IH as [? ?]. split; [done|].
  eapply keeps_trans; [..|done|done]; cbn; eauto.
Qed.
End run_lemmas.

(** ** Properties *)


(** An allocator, and a queue to run it on. *)
Definition first_free (X : gset Z) : option Z :=
  find (fun p => bool_decide (p ∉ X)) (Z.of_nat <$> seq 1 64).

Lemma first_free_ok : alloc_ok first_free.
Proof.
  intros X p E. unfold first_free in E. apply find_some in E as [Hin Hp].
  apply bool_decide_eq_true in Hp. split; [done|].
  apply list_elem_of_In, list_elem_of_fmap in Hin as (n & -> & Hn). apply elem_of_seq in Hn.
  unfold UINTPTR_MAX. lia.
Qed.

Definition sample_queue : TimerQueue :=
  mkTQ (list_to_map [(1, mkTimer 10 500 0 1); (2, mkTimer 11 400 250 2); (3, mkTimer 12 900 0 3)])
    3 [(400, 2); (500, 1); (900, 3)] [(1, 1); (2, 2); (3, 3)] [] None 600 None.

Lemma sample_queue_inv : tq_inv sample_queue [].
Proof.
  split_and!.
  - repeat constructor; by vm_compute.
  - repeat constructor; by vm_compute.
  - constructor.
  - done.
  - intros w p Hin. repeat (apply elem_of_cons in Hin as [[= -> ->]|Hin];
      [eexists; split_and!; [by vm_compute|done|cbn; set_solver]|]). by apply elem_of_nil in Hin.
  - intros p s Hin. repeat (apply elem_of_cons in Hin as [[= -> ->]|Hin];
      [eexists; split_and!; [by vm_compute|done|cbn; set_solver]|]). by apply elem_of_nil in Hin.
  - intros p Hin. by apply elem_of_nil in Hin.
  - constructor.
  - intros p [t Ht]. apply elem_of_list_to_map_2 in Ht.
    repeat (apply elem_of_cons in Ht as [[= -> ->]|Ht]; [unfold UINTPTR_MAX; lia|]).
    by apply elem_of_nil in Ht.
Qed.

Definition sample_callbacks (cb : Z) : list taction :=
  if cb =? 11 then [TAdd 13 700 0; TCancel (mkTimerID 1 1)] else [TTick 5].


(** C30: cancelling a timer that is waiting takes it out of both sets and frees it, but
    through an iterator the erase has just invalidated; cancelling one that is not
    waiting does nothing outside a timeout, is remembered during one (and fails an
    assert in a debug build if it is cancelled twice), and before the first timeout
    branches on a member that was never initialised. *)
Theorem cancelTimer_spec `{Build} q id :
  tq_inv q [] ->
  ((id_timer_ id, id_sequence_ id) ∈ activeTimers_ q ->
     if stale_reads then exists q', cancelTimer id q = Ok q' /\ tq_inv q' []
        /\ heap_ q' = delete (id_timer_ id) (heap_ q)
        /\ (forall w, (w, id_timer_ id) ∉ timers_ q')
        /\ (forall w p, p <> id_timer_ id -> (w, p) ∈ timers_ q' <-> (w, p) ∈ timers_ q)
     else cancelTimer id q = Err StaleRead)
  /\ ((id_timer_ id, id_sequence_ id) ∉ activeTimers_ q ->
     cancelTimer id q =
       match isHandlingTimeout_ q with
       | None => Err Uninitialised
       | Some false => Ok q
       | Some true =>
           if bool_decide ((id_timer_ id, id_sequence_ id) ∈ cancelledTimers_ q)
           then if NDEBUG then Ok q else Err AssertFailed
           else Ok (set_cancelled q (oinsert (id_timer_ id, id_sequence_ id) (cancelledTimers_ q)).1)
       end).
Proof.
  intros Hinv. split; intros Hin; unfold cancelTimer.
  - pose proof Hinv as (_ & _ & _ & _ & Ha & Hb & _). destruct (Hb _ _ Hin) as (t & Ht & Hs & Hw).
    destruct (cancel_active q [] id t Hinv Hin Ht) as (ts & act & -> & Hinv' & Hts).
    destruct stale_reads; [|done]. eexists. split; [reflexivity|]. split; [done|]. split; [done|].
    cbn [timers_ set_heap set_sets]. split.
    + intros w [Hne Hw']%Hts. destruct (Ha _ _ Hw') as (t' & Ht' & Hw'' & _). congruence.
    + intros w p Hp. rewrite Hts. split; [by intros [_ ?]|]. intros Hwp. split; [congruence|done].
  - rewrite (cancel_inactive q [] id Hinv Hin).
    destruct (isHandlingTimeout_ q) as [[]|]; [|done|done].
    pose proof Hinv as (_ & _ & H3 & _). case_bool_decide as Hc.
    + rewrite (oinsert_present _ _ H3 Hc). rewrite assert_false by done.
      destruct NDEBUG; [|done]. cbn. by destruct q.
    + pose proof (oinsert_fresh _ _ H3 Hc) as Hf. destruct (oinsert _ _) as [c ok].
      cbn [snd fst] in *. subst ok. by rewrite assert_true.
Qed.

Lemma cancelTimer_spec_witness :
  (exists q', cancelTimer (H := Release) (mkTimerID 2 2) sample_queue = Ok q' /\ tq_inv q' []
     /\ heap_ q' = delete 2 (heap_ sample_queue)
     /\ (forall w, (w, 2) ∉ timers_ q')
     /\ (forall w p, p <> 2 -> (w, p) ∈ timers_ q' <-> (w, p) ∈ timers_ sample_queue))
  /\ cancelTimer (H := Release) (mkTimerID 9 9) sample_queue = Err Uninitialised.
Proof.
  split.
  - apply (cancelTimer_spec (H := Release) sample_queue (mkTimerID 2 2)).
    + apply sample_queue_inv.
    + cbn. set_solver.
  - apply (cancelTimer_spec (H := Release) sample_queue (mkTimerID 9 9)).
    + apply sample_queue_inv.
    + intros Hin. cbn in Hin. set_solver.
Defined.
