(* ===== verification/EventLoop.v ===== *)
(** * The event loop: src/arale/net/EventLoop.{h,cc}, EventLoopThread.{h,cc},
    EventLoopThreadPool.{h,cc}

    The loop thread and the threads that post to it interleave; the state has what they
    share.  The operations are functions on it, cut where another thread can come in
    between (postFuntor pushes under the lock and then, in a second step, writes the
    eventfd), and [loop_step] is the interleaving.  Functors are names; [run_functors] and
    [doPendingFunctors] take what running one does to the loop.  An EventLoopThread is a
    second step relation, [elt_step], of its owner's thread and its own; the pool hands
    out the loops of its threads. *)

From S2P Require Import Prelude Date Channel Poller TimerQueue.

(** ** The loop *)

(** Where the loop thread is: not in loop(), before the test of its while, in poll(), in
    the event callbacks, or in doPendingFunctors with the functors it has taken and not
    run yet. *)
Inductive phase_t := Outside | Testing | Polling | Handling | Pending (functors : list Z).

Record EventLoop := mkLoop {
  islooping_ : bool;
  quit_ : bool;
  isHandlingPendingFunctors_ : bool;
  pendingFunctors_ : list Z;
  wakeupCount : Z;                  (* the counter of the eventfd *)
  phase : phase_t;
  inflight : nat;                   (* other threads between push_back and weakup() *)
  quitting : nat;                   (* other threads between quit_ = true and weakup() *)
  early : bool;                     (* ghost: the loop thread has posted outside loop() *)
  posted : list Z;                  (* ghost: every functor pushed so far, in order *)
  executed : list Z                 (* ghost: every functor run so far, in order *)
}.

Definition EventLoop_ctor : EventLoop :=
  mkLoop false false false [] 0 Outside 0 0 false [] [].

Section ops.
Implicit Types s : EventLoop.

Definition set_phase s p :=
  mkLoop (islooping_ s) (quit_ s) (isHandlingPendingFunctors_ s) (pendingFunctors_ s)
    (wakeupCount s) p (inflight s) (quitting s) (early s) (posted s) (executed s).
Definition set_inflight s n m :=
  mkLoop (islooping_ s) (quit_ s) (isHandlingPendingFunctors_ s) (pendingFunctors_ s)
    (wakeupCount s) (phase s) n m (early s) (posted s) (executed s).
Definition set_early s b :=
  mkLoop (islooping_ s) (quit_ s) (isHandlingPendingFunctors_ s) (pendingFunctors_ s)
    (wakeupCount s) (phase s) (inflight s) (quitting s) b (posted s) (executed s).

(** weakup(): adds one to the eventfd; handleWakeup(): reads it, which resets it. *)
Definition weakup s : EventLoop :=
  mkLoop (islooping_ s) (quit_ s) (isHandlingPendingFunctors_ s) (pendingFunctors_ s)
    (wakeupCount s + 1) (phase s) (inflight s) (quitting s) (early s) (posted s) (executed s).
Definition handleWakeup s : EventLoop :=
  mkLoop (islooping_ s) (quit_ s) (isHandlingPendingFunctors_ s) (pendingFunctors_ s)
    0 (phase s) (inflight s) (quitting s) (early s) (posted s) (executed s).

(** postFuntor, first part: push_back under the lock. *)
Definition post_push (f : Z) s : EventLoop :=
  mkLoop (islooping_ s) (quit_ s) (isHandlingPendingFunctors_ s) (pendingFunctors_ s ++ [f])
    (wakeupCount s) (phase s) (inflight s) (quitting s) (early s) (posted s ++ [f]) (executed s).
(** second part: wake the loop thread up unless it will look by itself. *)
Definition post_wake (isInLoopThread : bool) s : EventLoop :=
  if negb isInLoopThread || isHandlingPendingFunctors_ s then weakup s else s.
(** postFuntor as one thread sees it, with nobody in between. *)
Definition postFuntor (isInLoopThread : bool) (f : Z) s : EventLoop :=
  post_wake isInLoopThread (post_push f s).

(** quitLoop, first part and second part. *)
Definition quit_set s : EventLoop :=
  mkLoop (islooping_ s) true (isHandlingPendingFunctors_ s) (pendingFunctors_ s)
    (wakeupCount s) (phase s) (inflight s) (quitting s) (early s) (posted s) (executed s).
Definition quit_wake (isInLoopThread : bool) s : EventLoop :=
  if negb isInLoopThread then weakup s else s.
Definition quitLoop (isInLoopThread : bool) s : EventLoop :=
  quit_wake isInLoopThread (quit_set s).

(** loop(): the entry, in the loop's thread. *)
Definition loop_enter `{Build} s : outcome EventLoop :=
  assert_ (negb (islooping_ s)) ;;
  Ok (mkLoop true false (isHandlingPendingFunctors_ s) (pendingFunctors_ s)
        (wakeupCount s) Testing (inflight s) (quitting s) (early s) (posted s) (executed s)).
(** The test of the while and, when quit_ is set, the end of loop(). *)
Definition loop_test s : EventLoop :=
  if quit_ s
  then mkLoop false (quit_ s) (isHandlingPendingFunctors_ s) (pendingFunctors_ s)
         (wakeupCount s) Outside (inflight s) (quitting s) (early s) (posted s) (executed s)
  else set_phase s Polling.

(** doPendingFunctors: the swap under the lock, one functor, the end. *)
Definition pending_begin s : EventLoop :=
  mkLoop (islooping_ s) (quit_ s) true [] (wakeupCount s) (Pending (pendingFunctors_ s))
    (inflight s) (quitting s) false (posted s) (executed s).
Definition pending_pop f l s : EventLoop :=
  mkLoop (islooping_ s) (quit_ s) (isHandlingPendingFunctors_ s) (pendingFunctors_ s)
    (wakeupCount s) (Pending l) (inflight s) (quitting s) (early s) (posted s)
    (executed s ++ [f]).
Definition pending_end s : EventLoop :=
  mkLoop (islooping_ s) (quit_ s) false (pendingFunctors_ s) (wakeupCount s)
    Testing (inflight s) (quitting s) (early s) (posted s) (executed s).

(** What a callback or a functor, which run in the loop's thread, does to the loop. *)
Inductive loop_act := LPost (f : Z) | LQuit.
#[global] Instance loop_act_eq_dec : EqDecision loop_act.
Proof. solve_decision. Defined.
Definition run_act (a : loop_act) s : EventLoop :=
  match a with
  | LPost f => postFuntor true f s
  | LQuit => quitLoop true s
  end.
Definition run_acts (l : list loop_act) s : EventLoop :=
  foldl (fun s a => run_act a s) s l.

(** The for loop of doPendingFunctors over the functors taken; [body f] is what the
    functor [f] does to the loop. *)
Fixpoint run_functors (body : Z -> list loop_act) (l : list Z) s : EventLoop :=
  match l with
  | [] => s
  | f :: l' => run_functors body l' (run_acts (body f) (pending_pop f l' s))
  end.
Definition doPendingFunctors (body : Z -> list loop_act) s : EventLoop :=
  pending_end (run_functors body (pendingFunctors_ s) (pending_begin s)).

(** runInLoop: call at once in the loop's thread, post otherwise. *)
Definition runInLoop (isInLoopThread : bool) (functor : list loop_act) (f : Z) s : EventLoop :=
  if isInLoopThread then run_acts functor s else postFuntor false f s.
End ops.

(** ** The interleaving *)

Section steps.
Context `{Build}.

Inductive loop_step : EventLoop -> EventLoop -> Prop :=
  (* the loop thread: loop() starts; it tests quit_; poll() returns; handleWakeup is called
     if the eventfd was readable; functors are taken, run one by one, and done with *)
  | step_enter s s' : phase s = Outside -> loop_enter s = Ok s' -> loop_step s s'
  | step_test s : phase s = Testing -> loop_step s (loop_test s)
  | step_poll s : phase s = Polling -> loop_step s (set_phase s Handling)
  | step_wakeup s : phase s = Handling -> 0 < wakeupCount s -> loop_step s (handleWakeup s)
  | step_begin s : phase s = Handling -> loop_step s (pending_begin s)
  | step_functor s f l : phase s = Pending (f :: l) -> loop_step s (pending_pop f l s)
  | step_end s : phase s = Pending [] -> loop_step s (pending_end s)
  (* code that runs in the loop thread: in callbacks and functors, and outside loop() *)
  | step_act s a :
      phase s = Handling \/ (exists l, phase s = Pending l) -> loop_step s (run_act a s)
  | step_act_outside s a :
      phase s = Outside -> loop_step s (set_early (run_act a s) true)
  (* another thread *)
  | step_post s f :
      loop_step s (let s := post_push f s in set_inflight s (S (inflight s)) (quitting s))
  | step_post_wake s n :
      inflight s = S n -> loop_step s (set_inflight (post_wake false s) n (quitting s))
  | step_quit s :
      loop_step s (let s := quit_set s in set_inflight s (inflight s) (S (quitting s)))
  | step_quit_wake s n :
      quitting s = S n -> loop_step s (set_inflight (quit_wake false s) (inflight s) n).

Definition loop_reachable : EventLoop -> Prop := rtc loop_step EventLoop_ctor.
End steps.

(** ** The operations on channels and timers *)

Section wrappers.
Context {P : Type} `{Poller P, Build}.

(** [isInLoopThread] false is LOG_FATAL. *)
Definition assertInLoopThread (isInLoopThread : bool) : outcome unit :=
  if isInLoopThread then Ok tt else Err FatalLog.

Definition loop_updateChannel (isInLoopThread same_loop : bool) (ptr : Z) (p : P) (h : heap)
    : outcome (P * heap) :=
  assert_ same_loop ;; assertInLoopThread isInLoopThread ;; updateChannel ptr p h.
Definition loop_removeChannel (isInLoopThread same_loop : bool) (ptr : Z) (p : P) (h : heap)
    : outcome (P * heap) :=
  assert_ same_loop ;; assertInLoopThread isInLoopThread ;; removeChannel ptr p h.

Variable alloc : gset Z -> option Z.
Definition runAt (when_ callback : Z) (q : TimerQueue) : outcome (TimerID * TimerQueue) :=
  addTimer alloc callback when_ 0 q.
Definition runAfter (delay callback : Z) (q : TimerQueue) : outcome (TimerID * TimerQueue) :=
  runAt (microSecondsSinceEpoch (addTime (mkTimestamp (clock q)) delay)) callback q.
Definition runEvery (interval callback : Z) (q : TimerQueue) : outcome (TimerID * TimerQueue) :=
  addTimer alloc callback (microSecondsSinceEpoch (addTime (mkTimestamp (clock q)) interval))
    interval q.
Definition loop_cancelTimer (id : TimerID) (q : TimerQueue) : outcome TimerQueue :=
  cancelTimer id q.
End wrappers.

(** ** EventLoopThread

    The owner's thread calls startLoop and, at the end of the object's life, the
    destructor; the other thread runs threadFunc.  [start_] and [loop_] are guarded by a
    mutex and a condition variable each, so a thread that waits goes on exactly when its
    condition holds.  What is read outside the locks is a step of its own. *)

Inductive owner_pc :=
  | SBegin        (* startLoop not called *)
  | SWaiting      (* in startLoop, waiting for loop_ *)
  | SAwake        (* out of the wait, before return loop_ *)
  | SDone         (* startLoop has returned *)
  | SJoining      (* in the destructor, in thread_.join() *)
  | SDestroyed.
Inductive worker_pc :=
  | TWaiting      (* waiting for start_ *)
  | TInit         (* making the loop, running initCallback_ *)
  | TPublished    (* loop_ is set, loop.loop() not called yet *)
  | TLooping      (* in loop.loop() *)
  | TLeft         (* loop() has returned, loop_ = NULL not done yet *)
  | TExited.

Record EventLoopThread := mkELT {
  start_ : bool;
  loop_ : option Z;               (* the EventLoop of the thread, NULL if none *)
  thread_quit : bool;             (* quit_ of that loop *)
  owner : owner_pc;
  worker : worker_pc;
  returned : option (option Z)    (* what startLoop has returned *)
}.

Definition EventLoopThread_ctor : EventLoopThread :=
  mkELT false None false SBegin TWaiting None.

Section thread.
Context `{Build} (loop_address : Z).   (* &loop *)
Implicit Types s : EventLoopThread.

(** startLoop, up to the wait. *)
Definition startLoop s : outcome EventLoopThread :=
  assert_ (bool_decide (loop_ s = None)) ;;
  Ok (mkELT true (loop_ s) (thread_quit s) SWaiting (worker s) (returned s)).
(** ~EventLoopThread: quit the loop and join the thread if loop_ is set; otherwise the
    std::thread member is destroyed, which ends the program while it is joinable. *)
Definition EventLoopThread_dtor s : outcome EventLoopThread :=
  match loop_ s with
  | Some _ => Ok (mkELT (start_ s) (loop_ s) true SJoining (worker s) (returned s))
  | None => Err Terminated
  end.

Inductive elt_step : EventLoopThread -> EventLoopThread -> Prop :=
  (* the owner *)
  | elt_start s s' : owner s = SBegin -> startLoop s = Ok s' -> elt_step s s'
  | elt_awake s : owner s = SWaiting -> loop_ s <> None ->
      elt_step s (mkELT (start_ s) (loop_ s) (thread_quit s) SAwake (worker s) (returned s))
  | elt_return s : owner s = SAwake ->
      elt_step s (mkELT (start_ s) (loop_ s) (thread_quit s) SDone (worker s) (Some (loop_ s)))
  | elt_dtor s s' : owner s = SDone -> EventLoopThread_dtor s = Ok s' -> elt_step s s'
  | elt_joined s : owner s = SJoining -> worker s = TExited ->
      elt_step s (mkELT (start_ s) (loop_ s) (thread_quit s) SDestroyed (worker s) (returned s))
  (* threadFunc *)
  | elt_go s : worker s = TWaiting -> start_ s = true ->
      elt_step s (mkELT (start_ s) (loop_ s) false (owner s) TInit (returned s))
  | elt_publish s : worker s = TInit ->
      elt_step s (mkELT (start_ s) (Some loop_address) (thread_quit s) (owner s) TPublished (returned s))
  | elt_loop s : worker s = TPublished ->
      (* loop() sets quit_ to false *)
      elt_step s (mkELT (start_ s) (loop_ s) false (owner s) TLooping (returned s))
  | elt_left s : worker s = TLooping -> thread_quit s = true ->
      elt_step s (mkELT (start_ s) (loop_ s) (thread_quit s) (owner s) TLeft (returned s))
  | elt_exit s : worker s = TLeft ->
      elt_step s (mkELT (start_ s) None (thread_quit s) (owner s) TExited (returned s)).

Definition elt_reachable : EventLoopThread -> Prop := rtc elt_step EventLoopThread_ctor.
End thread.

(** ** EventLoopThreadPool: loops are named by numbers, the base loop is one of them *)

Record EventLoopThreadPool := mkPool {
  baseLoop_ : Z; numThread_ : Z; pool_start_ : bool; next_ : Z; loops_ : list Z
}.
Definition Pool_ctor (loop : Z) : EventLoopThreadPool := mkPool loop 0 false 0 [].
Definition setThreadNum (n : Z) (p : EventLoopThreadPool) : EventLoopThreadPool :=
  mkPool (baseLoop_ p) n (pool_start_ p) (next_ p) (loops_ p).

Section pool.
Context `{Build}.

(** [new_loops i] is what startLoop of the i-th thread returns; the second component
    says whether the callback was run on the base loop. *)
Definition pool_start (isInLoopThread has_callback : bool) (new_loops : nat -> Z)
    (p : EventLoopThreadPool) : outcome (EventLoopThreadPool * bool) :=
  assert_ (negb (pool_start_ p)) ;;
  assertInLoopThread isInLoopThread ;;
  Ok (mkPool (baseLoop_ p) (numThread_ p) true (next_ p)
        (loops_ p ++ (new_loops <$> seq 0 (Z.to_nat (numThread_ p)))),
      (numThread_ p =? 0) && has_callback).

Definition getNextLoop (isInLoopThread : bool) (p : EventLoopThreadPool)
    : outcome (Z * EventLoopThreadPool) :=
  assertInLoopThread isInLoopThread ;;
  match loops_ p with
  | [] => Ok (baseLoop_ p, p)
  | _ =>
      match loops_ p !! Z.to_nat (next_ p) with
      | Some l =>
          let next := next_ p + 1 in
          Ok (l, mkPool (baseLoop_ p) (numThread_ p) (pool_start_ p)
                   (if zlen (loops_ p) <=? next then 0 else next) (loops_ p))
      | None => Err OutOfBounds
      end
  end.

Definition getAllLoops (isInLoopThread : bool) (p : EventLoopThreadPool) : outcome (list Z) :=
  assert_ (pool_start_ p) ;;
  assertInLoopThread isInLoopThread ;;
  Ok (match loops_ p with [] => [baseLoop_ p] | l => l end).
End pool.

(** [k] calls of getNextLoop. *)
Fixpoint next_loops (k : nat) (p : EventLoopThreadPool) : outcome (list Z) :=
  match k with
  | O => Ok []
  | S k' => '(l, p) ← getNextLoop true p; ls ← next_loops k' p; Ok (l :: ls)
  end.

(** ** Specification *)

(** The functors the loop thread has taken and not run. *)
Definition taken (s : EventLoop) : list Z :=
  match phase s with Pending l => l | _ => [] end.

(** The eventfd is readable, or a thread is just about to make it so. *)
Definition will_wake (threads : nat) (s : EventLoop) : Prop :=
  0 < wakeupCount s \/ (0 < threads)%nat.

(** The functors that a list of acts posts. *)
Definition posts (l : list loop_act) : list Z :=
  omap (fun a => match a with LPost f => Some f | LQuit => None end) l.

(** What holds between any two steps: every functor posted has been run, is about to be
    run by this round, or is pending, in the order of the posts; and the loop thread
    cannot go to sleep on a functor or on a request to quit. *)
Definition loop_inv (s : EventLoop) : Prop :=
  posted s = executed s ++ taken s ++ pendingFunctors_ s
  /\ 0 <= wakeupCount s
  /\ islooping_ s = (match phase s with Outside => false | _ => true end)
  /\ isHandlingPendingFunctors_ s = (match phase s with Pending _ => true | _ => false end)
  /\ (phase s <> Handling -> pendingFunctors_ s <> [] -> early s = false ->
      will_wake (inflight s) s)
  /\ (phase s = Polling -> quit_ s = true -> will_wake (quitting s) s).

(** ** Invariant of the loop *)

Section loop_proofs.
Context `{Build}.
Implicit Types s : EventLoop.

(** Split the invariant of a state given by its fields and close what is immediate. *)
Ltac inv_fields :=
  unfold loop_inv, will_wake, taken in *; cbn in *; subst;
  repeat match goal with H : _ /\ _ |- _ => destruct H end; subst; cbn;
  split_and!; try done; intros; try done; try lia; try (left; lia); try (right; lia);
  try (by simplify_list_eq);
  match goal with
  | H : _ -> _ -> ?G |- ?G => by apply H
  | H : _ -> _ -> _ -> ?G |- ?G => by apply H
  end.

Lemma loop_inv_init : loop_inv EventLoop_ctor.
Proof. unfold loop_inv, will_wake; cbn; split_and!; done. Qed.

Lemma loop_inv_act s a :
  phase s = Handling \/ (exists l, phase s = Pending l) ->
  loop_inv s -> loop_inv (run_act a s) /\ phase (run_act a s) = phase s.
Proof.
  intros Hp Hi. destruct s, a as [f|];
    unfold run_act, postFuntor, post_wake, quitLoop, quit_wake, post_push, quit_set in *; cbn in *.
  - destruct Hp as [-> | [l ->] ]; inv_fields.
  - destruct Hp as [-> | [l ->] ]; inv_fields.
Qed.

Lemma loop_inv_step s s' : loop_step s s' -> loop_inv s -> loop_inv s'.
Proof.
  intros Hs Hi. destruct Hs as
    [s s' Hp He|s Hp|s Hp|s Hp Hw|s Hp|s f l Hp|s Hp|s a Hp|s a Hp|s f|s n Hn|s|s n Hn].
  - destruct s. unfold loop_enter in He. cbn in *. subst.
    apply bind_Ok_inv in He as (? & _ & [= <-]). inv_fields.
  - destruct s as [? q]. unfold loop_test. destruct q; inv_fields.
  - destruct s. inv_fields.
  - destruct s. inv_fields.
  - destruct s. inv_fields.
  - destruct s. inv_fields.
  - destruct s. inv_fields.
  - by apply loop_inv_act.
  - destruct s, a as [f|];
      unfold run_act, postFuntor, post_wake, quitLoop, quit_wake, post_push, quit_set in *;
      inv_fields.
  - destruct s. inv_fields.
  - destruct s. unfold post_wake. inv_fields.
  - destruct s. inv_fields.
  - destruct s. unfold quit_wake. inv_fields.
Qed.

Lemma loop_inv_reachable s : loop_reachable s -> loop_inv s.
Proof.
  intros Hr. cut (forall s0, loop_inv s0 -> rtc loop_step s0 s -> loop_inv s).
  { intros Hc. exact (Hc _ loop_inv_init Hr). }
  intros s0 H0 Hs. induction Hs; [done|]. eauto using loop_inv_step.
Qed.

(** ** One round of doPendingFunctors *)

Lemma run_acts_spec acts s l :
  phase s = Pending l -> isHandlingPendingFunctors_ s = true -> 0 <= wakeupCount s ->
  let s' := run_acts acts s in
  rtc loop_step s s' /\ phase s' = Pending l /\ isHandlingPendingFunctors_ s' = true
  /\ executed s' = executed s /\ pendingFunctors_ s' = pendingFunctors_ s ++ posts acts
  /\ wakeupCount s' = wakeupCount s + zlen (posts acts)
  /\ quit_ s' = quit_ s || bool_decide (LQuit ∈ acts).
Proof.
  revert s. induction acts as [|a acts IH]; intros s Hp Hh Hw;
    [|change (run_acts (a :: acts) s) with (run_acts acts (run_act a s))]; cbv zeta.
  { cbn. rewrite app_nil_r, orb_false_r. split_and!; try done. change (zlen []) with 0. lia. }
  assert (loop_step s (run_act a s)) as Hstep by (apply step_act; eauto).
  destruct (IH (run_act a s)) as (Hr & Hp' & Hh' & He & Hq & Hw' & Hquit).
  - by destruct s, a; cbn in *; subst.
  - by destruct s, a; cbn in *; subst.
  - destruct s, a; cbn in *; subst; cbn; lia.
  - split_and!; try done.
    + by eapply rtc_l.
    + rewrite He. by destruct s, a; cbn in *; subst.
    + rewrite Hq. destruct s, a; cbn in *; subst; cbn; by simplify_list_eq.
    + rewrite Hw'. unfold posts. destruct s, a; cbn in *; subst; cbn; rewrite ?zlen_cons; [lia|done].
    + rewrite Hquit. destruct s as [? q], a; cbn in *; subst; cbn; destruct q; cbn; try done.
      apply bool_decide_ext. set_solver.
Qed.

Lemma run_functors_spec body fs s :
  phase s = Pending fs -> isHandlingPendingFunctors_ s = true -> 0 <= wakeupCount s ->
  let s' := run_functors body fs s in
  rtc loop_step s s' /\ phase s' = Pending [] /\ executed s' = executed s ++ fs
  /\ pendingFunctors_ s' = pendingFunctors_ s ++ posts (mjoin (body <$> fs))
  /\ wakeupCount s' = wakeupCount s + zlen (posts (mjoin (body <$> fs)))
  /\ quit_ s' = quit_ s || bool_decide (LQuit ∈ mjoin (body <$> fs)).
Proof.
  revert s. induction fs as [|f fs IH]; intros s Hp Hh Hw; cbn [run_functors].
  { cbn. rewrite !app_nil_r, orb_false_r. split_and!; try done.
    change (zlen []) with 0. lia. }
  destruct (run_acts_spec (body f) (pending_pop f fs s) fs) as (Hr & Hp' & Hh' & He & Hq & Hw' & Hquit);
    [done..|].
  destruct (IH (run_acts (body f) (pending_pop f fs s))) as (Hr2 & Hp2 & He2 & Hq2 & Hw2 & Hquit2);
    [done..|rewrite Hw'; cbn; pose proof (zlen_nonneg (posts (body f))); lia|].
  cbn [fmap list_fmap mjoin list_join]. unfold posts in *. rewrite omap_app.
  split_and!.
  - eapply rtc_l; [by apply step_functor|]. by etrans.
  - done.
  - rewrite He2, He. cbn. by simplify_list_eq.
  - rewrite Hq2, Hq. cbn. by simplify_list_eq.
  - rewrite Hw2, Hw', zlen_app. rewrite Z.add_assoc. done.
  - rewrite Hquit2, Hquit. cbn. rewrite <- orb_assoc. f_equal.
    rewrite <- bool_decide_or. apply bool_decide_ext. set_solver.
Qed.
End loop_proofs.

(** C2: the queue of functors, under every interleaving of the loop thread with threads
    that post functors and ask it to quit.  In every reachable state, the functors posted
    are those run, those this round has taken, and those pending, in this order and each
    once; loop() called from outside never trips its assert; and when the loop thread
    sits in poll() with a pending functor or a request to quit, the eventfd is readable or
    a thread is about to write it - unless the functor was posted by the loop's own
    thread before loop(). *)
Theorem loop_functors_and_wakeups `{Build} (s : EventLoop) :
  loop_reachable s ->
  posted s = executed s ++ taken s ++ pendingFunctors_ s
  /\ (phase s = Outside -> exists s', loop_enter s = Ok s')
  /\ (phase s = Polling -> pendingFunctors_ s <> [] -> early s = false ->
      will_wake (inflight s) s)
  /\ (phase s = Polling -> quit_ s = true -> will_wake (quitting s) s).
Proof.
  intros (Hf & _ & Hl & _ & Hw & Hq)%loop_inv_reachable. split_and!; [done| | |done].
  - intros Hp. rewrite Hp in Hl. unfold loop_enter. rewrite Hl.
    rewrite assert_true by done. eauto.
  - intros Hp. apply Hw. by rewrite Hp.
Qed.

(** C8: one round of doPendingFunctors, from the callbacks of any reachable state: it is
    a run of the loop thread, it executes exactly the functors that were pending at the
    swap, in order, and leaves for the next round exactly what they post, in order, with
    the eventfd written for each, so that the next poll() returns at once; loop() goes on
    unless quit_ was set or one of the functors quits. *)
Theorem doPendingFunctors_round `{Build} (body : Z -> list loop_act) (s : EventLoop) :
  loop_reachable s -> phase s = Handling ->
  let s' := doPendingFunctors body s in
  let acts := mjoin (body <$> pendingFunctors_ s) in
  rtc loop_step s (loop_test s')
  /\ executed s' = executed s ++ pendingFunctors_ s
  /\ pendingFunctors_ s' = posts acts
  /\ wakeupCount s' = wakeupCount s + zlen (posts acts) /\ 0 <= wakeupCount s
  /\ phase (loop_test s') = (if quit_ s || bool_decide (LQuit ∈ acts) then Outside else Polling).
Proof.
  intros (_ & Hw & _)%loop_inv_reachable Hp. unfold doPendingFunctors.
  destruct (run_functors_spec body (pendingFunctors_ s) (pending_begin s))
    as (Hr & Hp' & He & Hq & Hw' & Hquit); [done..|].
  cbn. split_and!; try done.
  - eapply rtc_l; [by apply step_begin|]. etrans; [done|].
    eapply rtc_l; [by apply step_end|]. apply rtc_once. by apply step_test.
  - unfold loop_test. cbn [quit_ pending_end]. rewrite Hquit. cbn [pending_begin quit_].
    by destruct (_ || _).
Qed.

(** A run in which another thread posts 7 while the loop polls and its wakeup is still to
    come, and one in which the loop goes on to the callbacks. *)
Definition loop_example : EventLoop :=
  mkLoop true false false [7] 0 Polling 1 0 false [7] [].
Definition loop_example_handling : EventLoop := set_phase loop_example Handling.

Lemma loop_example_reachable `{Build} : loop_reachable loop_example.
Proof.
  eapply rtc_l; [apply step_enter; [done|]; unfold loop_enter; rewrite assert_true by done; done|].
  eapply rtc_l; [by apply step_test|].
  eapply rtc_l; [apply (step_post _ 7)|]. apply rtc_refl.
Qed.

Lemma loop_functors_and_wakeups_witness :
  let H := Debug in loop_reachable loop_example /\ will_wake 1 loop_example.
Proof.
  split; [apply loop_example_reachable|].
  apply (@loop_functors_and_wakeups Debug loop_example); [apply loop_example_reachable|done..].
Defined.

Lemma doPendingFunctors_round_witness :
  let s' := doPendingFunctors (fun f => [LPost (f + 1)]) loop_example_handling in
  executed s' = [7] /\ pendingFunctors_ s' = [8].
Proof.
  destruct (@doPendingFunctors_round Debug (fun f => [LPost (f + 1)]) loop_example_handling)
    as (_ & He & Hp & _); [|done|by split].
  eapply rtc_r; [apply (@loop_example_reachable Debug)|]. by apply step_poll.
Defined.

(** ** The hand-over of EventLoopThread *)

Section elt_proofs.
Context `{Build} (addr : Z).
Implicit Types s : EventLoopThread.

(** Which combinations of the two threads occur. *)
Definition elt_inv s : Prop :=
  (owner s = SBegin -> start_ s = false /\ worker s = TWaiting)
  /\ (owner s <> SBegin -> start_ s = true)
  /\ (match worker s with
      | TWaiting | TInit =>
          loop_ s = None /\ thread_quit s = false /\ (owner s = SBegin \/ owner s = SWaiting)
      | TPublished => loop_ s = Some addr /\ (thread_quit s = true <-> owner s = SJoining)
          /\ owner s <> SDestroyed
      | TLooping => loop_ s = Some addr /\ (thread_quit s = true -> owner s = SJoining)
          /\ owner s <> SDestroyed
      | TLeft => loop_ s = Some addr /\ owner s = SJoining
      | TExited => loop_ s = None /\ (owner s = SJoining \/ owner s = SDestroyed)
      end)
  /\ (match owner s with
      | SBegin | SWaiting | SAwake => returned s = None
      | _ => returned s = Some (Some addr) end).

Lemma elt_inv_step s s' : elt_step addr s s' -> elt_inv s -> elt_inv s'.
Proof.
  intros Hs (H1 & H2 & H3 & H4).
  destruct Hs as [s s' Ho Hs|s Ho Hl|s Ho|s s' Ho Hs|s Ho Hw|s Hw Hst|s Hw|s Hw|s Hw Hq|s Hw].
  - apply bind_Ok_inv in Hs as (? & _ & [= <-]). destruct s; cbn in *; subst.
    destruct (H1 eq_refl) as [-> ->]. unfold elt_inv; cbn. naive_solver.
  - destruct s as [st l q o w r]; destruct w; unfold elt_inv; cbn in *; subst; naive_solver.
  - destruct s as [st l q o w r]; destruct w; unfold elt_inv; cbn in *; subst; naive_solver.
  - destruct s as [st l q o w r]. unfold EventLoopThread_dtor in Hs. cbn in *. subst.
    destruct l; [|done]. injection Hs as <-.
    destruct w; unfold elt_inv; cbn in *; naive_solver.
  - destruct s as [st l q o w r]; destruct w; unfold elt_inv; cbn in *; subst; naive_solver.
  - destruct s as [st l q o w r]; destruct o; unfold elt_inv; cbn in *; subst; naive_solver.
  - destruct s as [st l q o w r]; destruct o; unfold elt_inv; cbn in *; subst; naive_solver.
  - destruct s as [st l q o w r]; destruct o; unfold elt_inv; cbn in *; subst; naive_solver.
  - destruct s as [st l q o w r]; destruct o; unfold elt_inv; cbn in *; subst; naive_solver.
  - destruct s as [st l q o w r]; destruct o; unfold elt_inv; cbn in *; subst; naive_solver.
Qed.

Lemma elt_inv_reachable s : elt_reachable addr s -> elt_inv s.
Proof.
  intros Hr. cut (forall s0, elt_inv s0 -> rtc (elt_step addr) s0 s -> elt_inv s).
  { intros Hc. apply (Hc EventLoopThread_ctor); [|done]. unfold elt_inv; cbn; naive_solver. }
  intros s0 H0 Hs. induction Hs; [done|]. eauto using elt_inv_step.
Qed.

(** The destructor joins a loop that has forgotten the request to quit. *)
Definition elt_deadlock s : Prop :=
  owner s = SJoining /\ worker s = TLooping /\ thread_quit s = false.

Lemma elt_progress s :
  elt_inv s -> owner s = SDestroyed \/ elt_deadlock s \/ exists s', elt_step addr s s'.
Proof.
  intros (H1 & H2 & H3 & H4). destruct s as [st l q o w r]; cbn in *.
  destruct w; cbn in *.
  - destruct H3 as (-> & -> & [-> | ->]).
    + right; right. eexists. apply elt_start; [done|].
      unfold startLoop. rewrite assert_true by done. done.
    + right; right. eexists. apply elt_go; [done|]. by apply H2.
  - right; right. eexists. by apply elt_publish.
  - right; right. eexists. by apply elt_loop.
  - destruct H3 as (-> & Hq & Hd). destruct q.
    { right; right. eexists. by apply elt_left. }
    destruct o.
    + destruct (H1 eq_refl) as [_ ?]. done.
    + right; right. eexists. by apply elt_awake.
    + right; right. eexists. by apply elt_return.
    + right; right. eexists. by apply elt_dtor.
    + right; left. done.
    + done.
  - right; right. eexists. by apply elt_exit.
  - destruct H3 as (_ & [-> | ->]); [|by left].
    right; right. eexists. by apply elt_joined.
Qed.

Lemma elt_deadlock_stuck s s' : elt_deadlock s -> ~ elt_step addr s s'.
Proof.
  intros (Ho & Hw & Hq) Hs. destruct s; cbn in *; subst.
  inversion Hs; cbn in *; congruence.
Qed.
End elt_proofs.

(** C32: EventLoopThread.  For every interleaving of the owner with threadFunc: startLoop
    never returns NULL but the loop of the new thread; the destructor after it always
    finds that loop; and the two threads are never stuck before the object is destroyed,
    with one exception, which does occur: the destructor's quitLoop between the
    publication of loop_ and the call of loop(), which resets quit_, is forgotten, and the
    join waits for ever.  Destroyed before startLoop, the joinable thread ends the
    program. *)
Theorem event_loop_thread_handover `{Build} (addr : Z) :
  (forall s, elt_reachable addr s ->
     (forall r, returned s = Some r -> r = Some addr)
     /\ (owner s = SDone -> exists s', EventLoopThread_dtor s = Ok s')
     /\ (owner s = SDestroyed \/ elt_deadlock s \/ exists s', elt_step addr s s'))
  /\ (exists s, elt_reachable addr s /\ elt_deadlock s /\ forall s', ~ elt_step addr s s')
  /\ EventLoopThread_dtor EventLoopThread_ctor = Err Terminated.
Proof.
  split_and!; [| |done].
  - intros s Hs%elt_inv_reachable. split_and!; [| |by apply elt_progress].
    + intros r Hr. destruct Hs as (_ & _ & _ & Hs). destruct (owner s); congruence.
    + intros Ho. destruct Hs as (_ & _ & Hs & _). unfold EventLoopThread_dtor.
      destruct (loop_ s); [by eexists|]. destruct (worker s); destruct_and?; destruct_or?; congruence.
  - exists (mkELT true (Some addr) false SJoining TLooping (Some (Some addr))).
    assert (elt_deadlock (mkELT true (Some addr) false SJoining TLooping (Some (Some addr))))
      as Hd by done.
    split_and!; [|done|intros s'; by apply elt_deadlock_stuck].
    eapply rtc_l; [apply elt_start; [done|]; unfold startLoop; rewrite assert_true by done; done|].
    eapply rtc_l; [by apply elt_go|]. eapply rtc_l; [by apply elt_publish|].
    eapply rtc_l; [by apply elt_awake|]. eapply rtc_l; [by apply elt_return|].
    eapply rtc_l; [by apply elt_dtor|]. eapply rtc_l; [by apply elt_loop|].
    apply rtc_refl.
Qed.

(** ** The pool *)

Lemma next_loops_app k p l p' :
  getNextLoop true p = Ok (l, p') ->
  next_loops (S k) p = (ls ← next_loops k p'; Ok (l :: ls)).
Proof. intros E. cbn [next_loops]. rewrite E. done. Qed.

Lemma next_loops_spec k p :
  loops_ p <> [] -> 0 <= next_ p < zlen (loops_ p) ->
  exists ls, next_loops k p = Ok ls /\ length ls = k /\
    forall i, (i < k)%nat ->
      ls !! i = loops_ p !! Z.to_nat ((next_ p + Z.of_nat i) mod zlen (loops_ p)).
Proof.
  revert p. induction k as [|k IH]; intros p Hne Hn.
  { exists []. split_and!; [done|done|lia]. }
  destruct (lookup_lt_is_Some_2 (loops_ p) (Z.to_nat (next_ p))) as [l Hl];
    [unfold zlen in Hn; lia|].
  set (p' := mkPool (baseLoop_ p) (numThread_ p) (pool_start_ p)
    (if zlen (loops_ p) <=? next_ p + 1 then 0 else next_ p + 1) (loops_ p)).
  rewrite (next_loops_app _ p l p').
  2:{ unfold getNextLoop. cbn. destruct (loops_ p) eqn:El; [done|]. cbn in Hl |- *.
      rewrite Hl. done. }
  assert (zlen (loops_ p) <=? next_ p + 1 = true -> next_ p + 1 = zlen (loops_ p)) as Hz.
  { intros ?%Z.leb_le. lia. }
  destruct (IH p') as (ls & -> & Hlen & Hls).
  { done. }
  { cbn. destruct (zlen (loops_ p) <=? next_ p + 1) eqn:E; [lia|]. zify_bool. lia. }
  exists (l :: ls). cbn [mbind outcome_bind length]. split_and!; [done|lia|].
  intros [|i] Hi; cbn [lookup list_lookup].
  { rewrite Z.add_0_r, Z.mod_small by lia. done. }
  rewrite Hls by lia. cbn [p' loops_ next_]. f_equal. f_equal.
  destruct (zlen (loops_ p) <=? next_ p + 1) eqn:E.
  - rewrite Nat2Z.inj_succ, <- Z.add_1_l, Z.add_assoc, (Hz eq_refl), Z.add_0_l.
    rewrite <- (Z_mod_plus_full (Z.of_nat i) 1). f_equal. lia.
  - f_equal. lia.
Qed.

(** The pool hands its loops out in turn: after setThreadNum(n) and start() on a
    fresh pool, the i-th call of getNextLoop returns the loop of thread i mod n, and the
    base loop every time when n is not positive. *)
Theorem pool_round_robin `{Build} (base n : Z) (new_loops : nat -> Z) (k : nat) cb :
  exists p b, pool_start true cb new_loops (setThreadNum n (Pool_ctor base)) = Ok (p, b)
    /\ b = (n =? 0) && cb
    /\ exists ls, next_loops k p = Ok ls /\ length ls = k /\
       forall i, (i < k)%nat ->
         ls !! i = Some (if 0 <? n then new_loops (Z.to_nat (Z.of_nat i mod n)) else base).
Proof.
  unfold pool_start. rewrite assert_true by done. cbn.
  eexists _, _. split_and!; [done|done|].
  destruct (Z.ltb_spec 0 n) as [Hn|Hn].
  - assert (zlen (new_loops <$> seq 0 (Z.to_nat n)) = n) as Hlen
      by (unfold zlen; rewrite length_fmap, length_seq; lia).
    destruct (next_loops_spec k (mkPool base n true 0 (new_loops <$> seq 0 (Z.to_nat n))))
      as (ls & Hk & Hl & Hls).
    + cbn. intros E. rewrite E in Hlen. change (zlen []) with 0 in Hlen. lia.
    + cbn [next_ loops_]. lia.
    + exists ls. split_and!; [done|done|]. intros i Hi. rewrite Hls by done.
      cbn [next_ loops_]. rewrite Hlen, Z.add_0_l, list_lookup_fmap, lookup_seq_lt; [done|].
      pose proof (Z.mod_pos_bound (Z.of_nat i) n). lia.
  - rewrite (Z2Nat.nonpos n) by done. cbn.
    exists (replicate k base). split_and!.
    + induction k as [|k IH]; [done|]. cbn [next_loops getNextLoop]. cbn. rewrite IH. done.
    + apply length_replicate.
    + intros i Hi. by apply lookup_replicate_2.
Qed.
