(* ===== verification/TcpConnection.v ===== *)
(** * Connections: src/arale/net/TcpConnection.{h,cc}

    [Conn] is one connection with the part of its surroundings it acts on: its channel
    and the poller of its loop, the functors and timers it gives the loop, the socket
    (what the kernel has accepted and whether the write side is shut down, with the
    results of the next write(2) calls as an oracle), the memory of its users that
    send() is given pointers to, and a log of the user callbacks it calls directly.
    Operations run in the loop's thread unless they take [isInLoopThread].  The poller is
    any instance of the interface of Poller.v. *)

From S2P Require Import Prelude Date Buffer Channel Poller EventLoop.

Inductive State := kConnecting | kConnected | kDisconnecting | kDisconnected.
#[global] Instance State_eq_dec : EqDecision State.
Proof. solve_decision. Defined.

Definition stateToString (s : State) : bytes :=
  match s with
  | kDisconnected => cs "kDisconnected"
  | kConnected => cs "kConnected"
  | kConnecting => cs "kConnecting"
  | kDisconnecting => cs "kDisconnecting"
  end.

(** errno values of <errno.h> on Linux. *)
Definition EAGAIN : Z := 11.
Definition EWOULDBLOCK : Z := EAGAIN.
Definition EPIPE : Z := 32.
Definition ECONNRESET : Z := 104.

(** What a write(2) of [len] bytes does: accept the first [n] of them, or fail. *)
Inductive write_result := Wrote (n : Z) | WriteErr (errno : Z).

(** Functors bound to the connection.  [FSendInLoop] holds a pointer to the data. *)
Inductive functor :=
  | FWriteComplete
  | FHighWaterMark (n : Z)
  | FShutdownInLoop
  | FSendInLoop (data len : Z)
  | FSend (msg : bytes)
  | FForceCloseInLoop
  | FForceClose
  | FStartReadInLoop
  | FStopReadInLoop.

(** The user callbacks the connection calls itself, with what they can observe. *)
Inductive note :=
  | NConnection (connected : bool)
  | NMessage (input : bytes)
  | NClose.

Section connection.
Context {P : Type} `{Poller P, Build}.

Record Conn := mkConn {
  state_ : State;
  readWriteChannel_ : Z;            (* the address of the channel *)
  inputBuffer_ : Buffer;
  outputBuffer_ : Buffer;
  highWaterMark_ : Z;
  reading_ : bool;
  poller_ : P;                      (* of the loop *)
  channels : heap;
  functors : list functor;          (* posted to the loop *)
  timers : list (Z * functor);      (* runAfter *)
  memory : gmap Z bytes;            (* blocks of the users of send() *)
  writes : list write_result;       (* what the next write(2) calls do *)
  sent : bytes;                     (* what the kernel has accepted *)
  shut_wr : bool;                   (* shutdown(fd, SHUT_WR) was called *)
  notes : list note
}.

Section setters.
Implicit Types w : Conn.
Definition setState s w := mkConn s (readWriteChannel_ w) (inputBuffer_ w) (outputBuffer_ w)
  (highWaterMark_ w) (reading_ w) (poller_ w) (channels w) (functors w) (timers w) (memory w)
  (writes w) (sent w) (shut_wr w) (notes w).
Definition set_input b w := mkConn (state_ w) (readWriteChannel_ w) b (outputBuffer_ w)
  (highWaterMark_ w) (reading_ w) (poller_ w) (channels w) (functors w) (timers w) (memory w)
  (writes w) (sent w) (shut_wr w) (notes w).
Definition set_output b w := mkConn (state_ w) (readWriteChannel_ w) (inputBuffer_ w) b
  (highWaterMark_ w) (reading_ w) (poller_ w) (channels w) (functors w) (timers w) (memory w)
  (writes w) (sent w) (shut_wr w) (notes w).
Definition set_reading r w := mkConn (state_ w) (readWriteChannel_ w) (inputBuffer_ w)
  (outputBuffer_ w) (highWaterMark_ w) r (poller_ w) (channels w) (functors w) (timers w)
  (memory w) (writes w) (sent w) (shut_wr w) (notes w).
Definition set_poller p h w := mkConn (state_ w) (readWriteChannel_ w) (inputBuffer_ w)
  (outputBuffer_ w) (highWaterMark_ w) (reading_ w) p h (functors w) (timers w) (memory w)
  (writes w) (sent w) (shut_wr w) (notes w).
Definition set_functors f t w := mkConn (state_ w) (readWriteChannel_ w) (inputBuffer_ w)
  (outputBuffer_ w) (highWaterMark_ w) (reading_ w) (poller_ w) (channels w) f t (memory w)
  (writes w) (sent w) (shut_wr w) (notes w).
Definition set_memory m w := mkConn (state_ w) (readWriteChannel_ w) (inputBuffer_ w)
  (outputBuffer_ w) (highWaterMark_ w) (reading_ w) (poller_ w) (channels w) (functors w)
  (timers w) m (writes w) (sent w) (shut_wr w) (notes w).
Definition set_socket ws s sh w := mkConn (state_ w) (readWriteChannel_ w) (inputBuffer_ w)
  (outputBuffer_ w) (highWaterMark_ w) (reading_ w) (poller_ w) (channels w) (functors w)
  (timers w) (memory w) ws s sh (notes w).
Definition add_note n w := mkConn (state_ w) (readWriteChannel_ w) (inputBuffer_ w)
  (outputBuffer_ w) (highWaterMark_ w) (reading_ w) (poller_ w) (channels w) (functors w)
  (timers w) (memory w) (writes w) (sent w) (shut_wr w) (notes w ++ [n]).
End setters.

(** The user's callbacks; None is an empty std::function. *)
Record UserCallbacks := mkUser {
  connectionCallback_ : option (ST Conn unit);
  messageCallback_ : option (Timestamp -> ST Conn unit);
  writeCompleteCallback_ : option (ST Conn unit);
  highWaterMarkCallback_ : option (Z -> ST Conn unit);
  closeCallback_ : option (ST Conn unit)
}.

(** A call of a std::function that may be empty. *)
Definition call_cb (cb : option (ST Conn unit)) : ST Conn unit :=
  match cb with Some f => f | None => fail NullCall end.

(** ** What the connection uses of the channel, the loop and the socket *)

Definition channel : ST Conn Channel :=
  fun w => c ← deref (channels w) (readWriteChannel_ w); Ok (c, w).

(** events_ = f(events_); update(); *)
Definition update_events (f : Z -> Z) : ST Conn unit := fun w =>
  c ← deref (channels w) (readWriteChannel_ w);
  let c := set_isInLoop (set_events c (f (events_ c))) true in
  '(p, h) ← loop_updateChannel true true (readWriteChannel_ w) (poller_ w)
              (<[readWriteChannel_ w := c]> (channels w));
  Ok (tt, set_poller p h w).
Definition enableRead : ST Conn unit := update_events enableRead_events.
Definition disableRead : ST Conn unit := update_events disableRead_events.
Definition enableWrite : ST Conn unit := update_events enableWrite_events.
Definition disableWrite : ST Conn unit := update_events disableWrite_events.
Definition disableAll : ST Conn unit := update_events disableAll_events.
Definition channel_remove : ST Conn unit := fun w =>
  c ← deref (channels w) (readWriteChannel_ w);
  '(p, h) ← loop_removeChannel true true (readWriteChannel_ w) (poller_ w)
              (<[readWriteChannel_ w := set_isInLoop c false]> (channels w));
  Ok (tt, set_poller p h w).
Definition channel_tieTo (obj : Z) : ST Conn unit := fun w =>
  c ← deref (channels w) (readWriteChannel_ w);
  Ok (tt, set_poller (poller_ w) (<[readWriteChannel_ w := tieTo c obj]> (channels w)) w).

Definition postFunctor (f : functor) : ST Conn unit :=
  modify (fun w => set_functors (functors w ++ [f]) (timers w) w).
(** loop_->runInLoop(bind(m)) *)
Definition run_in_loop (isInLoopThread : bool) (m : ST Conn unit) (f : functor) : ST Conn unit :=
  if isInLoopThread then m else postFunctor f.

(** sockets::write: the return value and errno; a call with no result left in the oracle
    would block. *)
Definition sock_write (data : bytes) : ST Conn (Z * Z) := fun w =>
  match writes w with
  | Wrote n :: l =>
      let n := Z.max 0 (Z.min n (zlen data)) in
      Ok ((n, 0), set_socket l (sent w ++ take (Z.to_nat n) data) (shut_wr w) w)
  | WriteErr e :: l => Ok ((-1, e), set_socket l (sent w) (shut_wr w) w)
  | [] => Ok ((-1, EWOULDBLOCK), w)
  end.
Definition shutDownWrite : ST Conn unit :=
  modify (fun w => set_socket (writes w) (sent w) true w).

(** The [len] bytes at the pointer [data]. *)
Definition read_block (data len : Z) : ST Conn bytes := fun w =>
  match memory w !! data with
  | Some block => d ← mem_read block 0 len; Ok (d, w)
  | None => Err StaleRead
  end.

(** ** The operations *)

Section operations.
Context (U : UserCallbacks).

Definition call_connection : ST Conn unit :=
  modify (fun w => add_note (NConnection (bool_decide (state_ w = kConnected))) w) ;;
  call_cb (connectionCallback_ U).

Definition connectionEstablished (self : Z) : ST Conn unit :=
  s ← gets state_;
  lift (assert_ (bool_decide (s = kConnecting))) ;;
  modify (setState kConnected) ;;
  channel_tieTo self ;;
  enableRead ;;
  call_connection.

Definition connectionDestroyed : ST Conn unit :=
  s ← gets state_;
  when (bool_decide (s = kConnected))
    (modify (setState kDisconnected) ;; disableAll ;; call_connection) ;;
  channel_remove.

Definition handleClose : ST Conn unit :=
  s ← gets state_;
  lift (assert_ (bool_decide (s = kConnected) || bool_decide (s = kDisconnecting))) ;;
  modify (setState kDisconnected) ;;
  disableAll ;;
  call_connection ;;
  modify (add_note NClose) ;;
  call_cb (closeCallback_ U).

(** Only logs. *)
Definition handleError : ST Conn unit := mret tt.

(** [r] is what readv(2) does.  The ssize_t of readFd is stored in a size_t. *)
Definition handleRead (r : read_result) (receiveTime : Timestamp) : ST Conn unit :=
  b ← gets inputBuffer_;
  '(n, saveErrno, b) ← lift (readFd b r);
  modify (set_input b) ;;
  let res := u64 n in
  if 0 <? res then
    modify (fun w => add_note (NMessage (contents (inputBuffer_ w))) w) ;;
    match messageCallback_ U with Some f => f receiveTime | None => fail NullCall end
  else if res =? 0 then handleClose
  else handleError.

Definition shutdownInLoop : ST Conn unit :=
  c ← channel; when (negb (isWriting c)) shutDownWrite.

Definition shutdown (isInLoopThread : bool) : ST Conn unit :=
  s ← gets state_;
  when (bool_decide (s = kConnected))
    (modify (setState kDisconnecting) ;;
     run_in_loop isInLoopThread shutdownInLoop FShutdownInLoop).

Definition has_cb {A} (cb : option A) : bool := match cb with Some _ => true | None => false end.

Definition handleWrite : ST Conn unit :=
  c ← channel;
  if isWriting c then
    b ← gets outputBuffer_;
    '(res, _) ← sock_write (contents b);
    if 0 <? res then
      b ← lift (retrieve b res);
      modify (set_output b) ;;
      when (readableBytes b =? 0)
        (disableWrite ;;
         when (has_cb (writeCompleteCallback_ U)) (postFunctor FWriteComplete) ;;
         s ← gets state_;
         when (bool_decide (s = kDisconnecting)) shutdownInLoop)
    else mret tt
  else mret tt.

(** sendInLoop, first half: if no data is queued, try to write it at once.  How many
    bytes are left, and whether the connection is broken. *)
Definition send_direct (data : bytes) : ST Conn (Z * bool) :=
  let len := zlen data in
  c ← channel;
  b ← gets outputBuffer_;
  if negb (isWriting c) && (readableBytes b =? 0) then
    '(nwrote, errno) ← sock_write data;
    if 0 <=? nwrote then
      let left_ := u64 (len - nwrote) in
      when ((left_ =? 0) && has_cb (writeCompleteCallback_ U)) (postFunctor FWriteComplete) ;;
      mret (left_, false)
    else mret (len, negb (errno =? EWOULDBLOCK) && ((errno =? EPIPE) || (errno =? ECONNRESET)))
  else mret (len, false).
(** Second half: queue what is left - outputBuffer_.append(data, left), the first [left]
    bytes of data. *)
Definition send_queue (data : bytes) (left_ : Z) : ST Conn unit :=
  having ← gets (fun w => readableBytes (outputBuffer_ w));
  hwm ← gets highWaterMark_;
  when ((having <? hwm) && (hwm <=? u64 (having + left_)) && has_cb (highWaterMarkCallback_ U))
    (postFunctor (FHighWaterMark (u64 (having + left_)))) ;;
  b ← gets outputBuffer_;
  b ← lift (append b (take (Z.to_nat left_) data));
  modify (set_output b) ;;
  c ← channel;
  when (negb (isWriting c)) enableWrite.
Definition sendInLoop (data : bytes) : ST Conn unit :=
  '(left_, error) ← send_direct data;
  lift (assert_ (left_ <=? zlen data)) ;;
  when (negb error && (0 <? left_)) (send_queue data left_).

(** send(const void *data, size_t len) *)
Definition send_ptr (isInLoopThread : bool) (data len : Z) : ST Conn unit :=
  s ← gets state_;
  when (bool_decide (s = kConnected))
    (if isInLoopThread then d ← read_block data len; sendInLoop d
     else postFunctor (FSendInLoop data len)).
(** send(const std::string &msg), the string's bytes being the block [msg] *)
Definition send_string (isInLoopThread : bool) (msg : Z) : ST Conn unit := fun w =>
  match memory w !! msg with
  | Some block => send_ptr isInLoopThread msg (zlen block) w
  | None => Err StaleRead
  end.
(** send(Buffer *buf); the buffer afterwards *)
Definition send_buffer (isInLoopThread : bool) (buf : Buffer) : ST Conn Buffer :=
  s ← gets state_;
  if bool_decide (s = kConnected) then
    if isInLoopThread then sendInLoop (contents buf) ;; mret (retrieveAll buf)
    else '(msg, buf) ← lift (retrieveAllAsString buf); postFunctor (FSend msg) ;; mret buf
  else mret buf.

Definition forceCloseInLoop : ST Conn unit :=
  s ← gets state_;
  lift (assert_ (bool_decide (s = kDisconnecting))) ;;
  handleClose.
Definition forceClose (isInLoopThread : bool) : ST Conn unit :=
  s ← gets state_;
  when (bool_decide (s = kConnected) || bool_decide (s = kDisconnecting))
    (modify (setState kDisconnecting) ;;
     run_in_loop isInLoopThread forceCloseInLoop FForceCloseInLoop).
(** The timer's functor is a weak callback to forceClose. *)
Definition forceCloseWithDelay (delay : Z) : ST Conn unit :=
  s ← gets state_;
  when (bool_decide (s = kConnected) || bool_decide (s = kDisconnecting))
    (modify (setState kDisconnecting) ;;
     modify (fun w => set_functors (functors w) (timers w ++ [(delay, FForceClose)]) w)).

Definition startReadInLoop : ST Conn unit :=
  c ← channel;
  r ← gets reading_;
  when (negb r || negb (isReading c)) (enableRead ;; modify (set_reading true)).
Definition startRead (isInLoopThread : bool) : ST Conn unit :=
  s ← gets state_;
  lift (assert_ (bool_decide (s = kConnected))) ;;
  run_in_loop isInLoopThread startReadInLoop FStartReadInLoop.
Definition stopReadInLoop : ST Conn unit :=
  c ← channel;
  r ← gets reading_;
  when (r || isReading c) (disableRead ;; modify (set_reading false)).
(** The message callback of a server whose user sets none. *)
Definition defaultMessageCallback : ST Conn unit :=
  b ← gets inputBuffer_; modify (set_input (retrieveAll b)).
Definition stopRead (isInLoopThread : bool) : ST Conn unit :=
  s ← gets state_;
  lift (assert_ (bool_decide (s = kConnected))) ;;
  run_in_loop isInLoopThread stopReadInLoop FStopReadInLoop.

(** The loop runs a functor; FSend is send(const std::string &) on the bound copy. *)
Definition run_functor (f : functor) : ST Conn unit :=
  match f with
  | FWriteComplete => call_cb (writeCompleteCallback_ U)
  | FHighWaterMark n => match highWaterMarkCallback_ U with Some g => g n | None => fail NullCall end
  | FShutdownInLoop => shutdownInLoop
  | FSendInLoop data len => d ← read_block data len; sendInLoop d
  | FSend msg => s ← gets state_; when (bool_decide (s = kConnected)) (sendInLoop msg)
  | FForceCloseInLoop => forceCloseInLoop
  | FForceClose => forceClose true
  | FStartReadInLoop => startReadInLoop
  | FStopReadInLoop => stopReadInLoop
  end.
Definition run_pending : ST Conn unit :=
  l ← gets functors;
  modify (fun w => set_functors [] (timers w) w) ;;
  for_each run_functor l.

(** The channel's callbacks, as the constructor binds them. *)
Definition conn_callbacks (r : read_result) : Channel.Callbacks (W := Conn) :=
  mkCallbacks (Some (handleRead r)) (Some handleWrite) (Some handleError) (Some handleClose).
End operations.

Definition TcpConnection_ctor (channel_address : Z) (p : P) (h : heap) (sockfd : Z)
    (mem : gmap Z bytes) (ws : list write_result) : Conn :=
  mkConn kConnecting channel_address Buffer_empty Buffer_empty (64 * 1024 * 1024) false p
    (<[channel_address := Channel_ctor sockfd]> h) [] [] mem ws [] false [].
Definition TcpConnection_dtor (w : Conn) : outcome unit :=
  assert_ (bool_decide (state_ w = kDisconnected)).
End connection.

(** ** Specification *)

Section spec.
Context {P : Type} `{PollerLaws P, Build}.
Implicit Types (w : Conn (P := P)) (c : Channel).

(** The channel of the connection is registered and watched with its interest. *)
Definition chan_ok w c : Prop :=
  channels w !! readWriteChannel_ w = Some c
  /\ poller_inv (poller_ w) (channels w)
  /\ 0 <= fd_ c < 2 ^ 31 /\ 0 <= events_ c < 8
  /\ registered (poller_ w) !! fd_ c = Some (readWriteChannel_ w)
  /\ watching (poller_ w) !! fd_ c = Some (events_ c).

(** The output queue: data waits only while the channel is watched for writing. *)
Definition conn_ok w c : Prop :=
  chan_ok w c
  /\ wf (outputBuffer_ w) /\ kCheapPrependSize <= readIndex_ (outputBuffer_ w)
  /\ (contents (outputBuffer_ w) <> [] -> isWriting c = true).

(** Is the data written at once rather than queued? *)
Definition direct w c : bool :=
  negb (isWriting c) && bool_decide (contents (outputBuffer_ w) = []).
(** How much of [data] the next write(2) accepts, and whether it finds the connection
    broken. *)
Definition written w (data : bytes) : Z :=
  match writes w with Wrote n :: _ => Z.max 0 (Z.min n (zlen data)) | _ => 0 end.
Definition broken w : bool :=
  match writes w with WriteErr e :: _ => (e =? EPIPE) || (e =? ECONNRESET) | _ => false end.

(** What sendInLoop adds to the end of the output buffer. *)
Definition queued w c (data : bytes) : bytes :=
  if direct w c
  then if broken w then [] else take (Z.to_nat (zlen data - written w data)) data
  else data.
End spec.

(** ** Lemmas *)

(** Run the state monad. *)
Ltac st_simp :=
  unfold mbind, ST_bind, outcome_bind, mret, ST_ret, outcome_ret, gets, modify, lift, when,
    postFunctor, fail; cbv beta iota.

Section conn_proofs.
Context {P : Type} `{PollerLaws P, Build} (U : UserCallbacks (P := P)).
Implicit Types (w : Conn (P := P)) (c : Channel).

Lemma channel_eq w c : channels w !! readWriteChannel_ w = Some c -> channel w = Ok (c, w).
Proof. intros E. unfold channel, deref. by rewrite E. Qed.

Lemma update_events_spec w c f :
  chan_ok w c -> 0 < f (events_ c) < 8 ->
  exists p h c', update_events f w = Ok (tt, set_poller p h w)
    /\ chan_ok (set_poller p h w) c' /\ events_ c' = f (events_ c) /\ fd_ c' = fd_ c.
Proof.
  intros (Hc & Hinv & Hfd & Hev & Hr & Hw) Hf. unfold update_events, deref.
  rewrite Hc, bind_Ok. set (c1 := set_isInLoop _ true).
  unfold loop_updateChannel, assertInLoopThread. rewrite assert_true, !bind_Ok by done.
  assert (poller_inv (poller_ w) (<[readWriteChannel_ w := c1]> (channels w))) as Hinv1
    by (by eapply inv_stable).
  destruct (update_watched (poller_ w) _ (readWriteChannel_ w) c1 Hinv1)
    as (p & h & -> & Hinv' & [Hsame _] & Hr' & Hw').
  - apply lookup_insert_eq.
  - split; cbn [c1 fd_ events_ set_isInLoop set_events]; lia.
  - done.
  - by exists (events_ c).
  - rewrite bind_Ok. specialize (Hsame (readWriteChannel_ w)). rewrite lookup_insert_eq in Hsame.
    inversion Hsame as [x c' Hx Hx1 Hx2|]; subst x.
    unfold same_but_index in Hx. injection Hx as Hx3 Hx4 Hx5 Hx6 Hx7 Hx8 Hx9.
    exists p, h, c'. split; [done|]. split; [|by split].
    unfold chan_ok. cbn [channels poller_ readWriteChannel_ set_poller].
    rewrite <- Hx3, <- Hx4, Hr', Hw'. cbn [c1 fd_ events_ set_isInLoop set_events].
    rewrite (proj2 (Z.eqb_neq _ _)) by lia.
    split_and!; try done; try lia. apply lookup_insert_eq.
Qed.

(** The three bits of interest. *)
Lemma events_small e : 0 <= e < 8 ->
  0 < enableWrite_events e < 8 /\ 0 < enableRead_events e < 8
  /\ has (enableWrite_events e) kWriteEvent = true
  /\ (has e kWriteEvent = true -> disableWrite_events e = POLLOUT).
Proof.
  intros He. assert (e = 0 \/ e = 1 \/ e = 2 \/ e = 3 \/ e = 4 \/ e = 5 \/ e = 6 \/ e = 7) as Hc by lia.
  destruct_or! Hc; subst; vm_compute; done.
Qed.

(** The write of sendInLoop completes the data. *)
Definition complete w (data : bytes) : bool :=
  match writes w with Wrote _ :: _ => written w data =? zlen data | _ => false end.

Lemma written_range w data : 0 <= written w data <= zlen data.
Proof. pose proof (zlen_nonneg data). unfold written. destruct (writes w) as [|[]]; lia. Qed.

Lemma readable_zero b : wf b -> (readableBytes b =? 0) = bool_decide (contents b = []).
Proof.
  intros Hb. rewrite readableBytes_wf by done. by destruct (contents b).
Qed.

Lemma send_direct_spec w c data :
  channels w !! readWriteChannel_ w = Some c -> wf (outputBuffer_ w) -> zlen data <= max_size ->
  let n := if direct w c then written w data else 0 in
  send_direct U data w =
    Ok ((zlen data - n, direct w c && broken w),
        set_functors (functors w ++ if direct w c && complete w data
                                       && has_cb (writeCompleteCallback_ U)
                                    then [FWriteComplete] else [])
          (timers w)
          (set_socket (if direct w c then tail (writes w) else writes w)
             (sent w ++ take (Z.to_nat n) data) (shut_wr w) w)).
Proof.
  intros Hc Hb Hlen. cbv zeta. unfold send_direct.
  unfold mbind at 1, ST_bind at 1. rewrite (channel_eq w c Hc). st_simp.
  rewrite readable_zero by done. fold (direct w c).
  assert (w = set_functors (functors w ++ []) (timers w)
                (set_socket (writes w) (sent w ++ []) (shut_wr w) w)) as Hid
    by (destruct w; unfold set_functors, set_socket; cbn; by rewrite !app_nil_r).
  pose proof (written_range w data) as Hwr.
  destruct (direct w c); [|rewrite Z.sub_0_r;
    change (take (Z.to_nat 0) data) with (@nil char); cbn [andb]; by rewrite <- Hid].
  unfold sock_write, complete, broken in *.
  unfold written in *. destruct (writes w) as [|[n|e] l] eqn:Ew.
  - cbn [tail Z.leb Z.compare andb orb negb Z.eqb]. rewrite Z.sub_0_r.
    change (take (Z.to_nat 0) data) with (@nil char). rewrite <- Hid. done.
  - set (m := Z.max 0 (Z.min n (zlen data))) in *.
    rewrite (proj2 (Z.leb_le _ _)) by lia. unfold max_size in *. rewrite u64_small by lia.
    cbn [andb]. replace (zlen data - m =? 0) with (m =? zlen data)
      by (destruct (Z.eqb_spec m (zlen data)), (Z.eqb_spec (zlen data - m) 0); lia || done).
    destruct ((m =? zlen data) && has_cb (writeCompleteCallback_ U)).
    + done.
    + rewrite app_nil_r. by destruct w.
  - cbn [Z.leb Z.compare andb]. rewrite Z.sub_0_r, app_nil_r.
    change (take (Z.to_nat 0) data) with (@nil char). rewrite app_nil_r.
    replace (negb (e =? EWOULDBLOCK) && ((e =? EPIPE) || (e =? ECONNRESET)))
      with ((e =? EPIPE) || (e =? ECONNRESET)); [by destruct w|].
    unfold EWOULDBLOCK, EAGAIN, EPIPE, ECONNRESET.
    destruct (Z.eqb_spec e 11) as [->|]; [done|by cbn].
Qed.

(** The queue crosses the high-water mark. *)
Definition crosses w (n : Z) : bool :=
  let having := zlen (contents (outputBuffer_ w)) in
  (having <? highWaterMark_ w) && (highWaterMark_ w <=? having + n)
  && has_cb (highWaterMarkCallback_ U).

Lemma send_queue_spec w c data n :
  chan_ok w c -> wf (outputBuffer_ w) -> kCheapPrependSize <= readIndex_ (outputBuffer_ w) ->
  0 < n <= zlen data -> fits (outputBuffer_ w) n -> zlen data <= max_size ->
  exists w' c', send_queue U data n w = Ok (tt, w') /\ conn_ok w' c' /\ isWriting c' = true
    /\ events_ c' = (if isWriting c then events_ c else enableWrite_events (events_ c))
    /\ contents (outputBuffer_ w') = contents (outputBuffer_ w) ++ take (Z.to_nat n) data
    /\ sent w' = sent w /\ state_ w' = state_ w /\ writes w' = writes w /\ fd_ c' = fd_ c
    /\ functors w' = functors w ++
         (if crosses w n then [FHighWaterMark (zlen (contents (outputBuffer_ w)) + n)] else [])
    /\ timers w' = timers w.
Proof.
  intros Hch Hb Hr Hn Hf Hlen.
  assert (zlen (take (Z.to_nat n) data) = n) as Hzt by (apply zlen_take; lia).
  destruct (append_fits (outputBuffer_ w) (take (Z.to_nat n) data))
    as (b' & Ea & Hb' & Hc' & _); [done|by left|by rewrite Hzt|].
  pose proof (append_readIndex _ _ _ Ea Hr) as Hr'.
  unfold send_queue. st_simp. rewrite readableBytes_wf by done.
  assert (zlen (contents (outputBuffer_ w)) <= max_size) as Hzc
    by (rewrite zlen_contents by done; destruct Hb as (? & ? & ?); lia).
  pose proof (zlen_nonneg (contents (outputBuffer_ w))).
  rewrite u64_small by (unfold max_size in *; lia). fold (crosses w n).
  set (fs := functors w ++ if crosses w n then _ else []).
  set (w1 := set_functors fs (timers w) w) in *.
  match goal with |- context [match ?m w with _ => _ end] =>
    assert (m w = Ok (tt, w1)) as -> end.
  { subst w1 fs. destruct (crosses w n); [done|]. rewrite app_nil_r. by destruct w. }
  replace (outputBuffer_ w1) with (outputBuffer_ w) by done. rewrite Ea.
  set (w2 := set_output b' w1).
  assert (chan_ok w2 c) as Hch2 by done.
  rewrite (channel_eq w2 c) by apply Hch.
  destruct (isWriting c) eqn:Ew; cbn [negb].
  - exists w2, c. split_and!; try done.
  - destruct (events_small (events_ c)) as (He & _ & He2 & _); [apply Hch|].
    unfold enableWrite. destruct (update_events_spec w2 c enableWrite_events Hch2 He)
      as (p & h & c' & -> & Hch' & Hev & Hfd).
    exists (set_poller p h w2), c'.
    assert (isWriting c' = true) as Hw' by (unfold isWriting; by rewrite Hev).
    split_and!; try done.
Qed.

Lemma sendInLoop_spec w c data :
  conn_ok w c -> zlen data <= max_size ->
  (queued w c data <> [] -> fits (outputBuffer_ w) (zlen (queued w c data))) ->
  exists w' c', sendInLoop U data w = Ok (tt, w') /\ conn_ok w' c'
    /\ sent w' = sent w ++ (if direct w c then take (Z.to_nat (written w data)) data else [])
    /\ contents (outputBuffer_ w') = contents (outputBuffer_ w) ++ queued w c data
    /\ writes w' = (if direct w c then tail (writes w) else writes w)
    /\ state_ w' = state_ w /\ fd_ c' = fd_ c
    /\ events_ c' = (if bool_decide (queued w c data = []) || isWriting c then events_ c
                     else enableWrite_events (events_ c))
    /\ functors w' = functors w
         ++ (if direct w c && complete w data && has_cb (writeCompleteCallback_ U)
             then [FWriteComplete] else [])
         ++ (if negb (bool_decide (queued w c data = [])) && crosses w (zlen (queued w c data))
             then [FHighWaterMark (zlen (contents (outputBuffer_ w)) + zlen (queued w c data))]
             else [])
    /\ timers w' = timers w.
Proof.
  intros (Hch & Hb & Hr & Hcw) Hlen Hf. unfold sendInLoop.
  unfold mbind at 1, ST_bind at 1. rewrite (send_direct_spec w c data) by (apply Hch || done).
  set (n := if direct w c then written w data else 0).
  assert (0 <= n <= zlen data) as Hn
    by (subst n; pose proof (written_range w data); pose proof (zlen_nonneg data);
        destruct (direct w c); lia).
  st_simp. rewrite assert_true by (apply Z.leb_le; lia).
  assert (take (Z.to_nat n) data
          = if direct w c then take (Z.to_nat (written w data)) data else []) as Hsent
    by (subst n; by destruct (direct w c)).
  assert (queued w c data = if direct w c && broken w then []
            else take (Z.to_nat (zlen data - n)) data) as Hq.
  { unfold queued. subst n. destruct (direct w c); [done|]. cbn [andb].
    rewrite Z.sub_0_r, take_ge by (unfold zlen; lia). done. }
  set (fs := functors w ++ if direct w c && _ && _ then _ else _).
  set (w1 := set_functors fs _ _).
  destruct (negb (direct w c && broken w) && (0 <? zlen data - n)) eqn:E.
  - apply andb_true_iff in E as [E%negb_true_iff E2%Z.ltb_lt]. rewrite E in Hq.
    assert (zlen (queued w c data) = zlen data - n) as Hzq by (rewrite Hq, zlen_take; lia).
    assert (bool_decide (queued w c data = []) = false) as Hne.
    { apply bool_decide_eq_false_2. intros Hz. rewrite Hz in Hzq. change (zlen []) with 0 in Hzq. lia. }
    destruct (send_queue_spec w1 c data (zlen data - n))
      as (w' & c' & -> & Hok & Hw' & He' & Hc' & Hs' & Hst' & Hwr' & Hfd' & Hfs' & Ht');
      [done|done|done|lia|rewrite <- Hzq; apply Hf; by apply bool_decide_eq_false in Hne|done|].
    exists w', c'. rewrite Hne, Hs', Hc', Hst', Hwr', Hfd', Hfs', He', Hzq, <- Hsent.
    cbn [negb andb orb]. rewrite (assoc_L (++)), Hq. split_and!; done.
  - assert (queued w c data = []) as Hq0.
    { rewrite Hq. destruct (direct w c && broken w); [done|]. cbn [negb andb] in E. zify_bool.
      assert (zlen data - n = 0) as -> by lia. done. }
    rewrite Hq0. exists w1, c. rewrite bool_decide_eq_true_2 by done. cbn [negb andb orb].
    rewrite !app_nil_r, <- Hsent. split_and!; done.
Qed.

(** The channel is writable. *)
Lemma handleWrite_spec w c :
  conn_ok w c -> isWriting c = true ->
  let out := contents (outputBuffer_ w) in
  let n := written w out in
  let drained := (0 <? n) && (n =? zlen out) in
  exists w' c', handleWrite U w = Ok (tt, w') /\ conn_ok w' c'
    /\ sent w' = sent w ++ take (Z.to_nat n) out
    /\ contents (outputBuffer_ w') = drop (Z.to_nat n) out
    /\ writes w' = tail (writes w)
    /\ state_ w' = state_ w /\ shut_wr w' = shut_wr w /\ fd_ c' = fd_ c
    /\ events_ c' = (if drained then POLLOUT else events_ c)
    /\ functors w' = functors w ++
         (if drained && has_cb (writeCompleteCallback_ U) then [FWriteComplete] else [])
    /\ timers w' = timers w.
Proof.
  intros (Hch & Hb & Hr & Hcw) Hw. cbv zeta. unfold handleWrite.
  unfold mbind at 1, ST_bind at 1. rewrite (channel_eq w c) by apply Hch. rewrite Hw. st_simp.
  set (out := contents (outputBuffer_ w)) in *.
  pose proof (written_range w out) as Hn.
  set (w1 := set_socket (tail (writes w)) (sent w ++ take (Z.to_nat (written w out)) out) (shut_wr w) w).
  assert (exists res e, sock_write out w = Ok ((res, e), w1)
          /\ (0 <? res) = (0 <? written w out) /\ (0 < res -> res = written w out))
    as (res & e & -> & Hres & Hres').
  { subst w1. unfold sock_write, written in *. destruct (writes w) as [|[n|e] l] eqn:Ew; cbn [tail].
    - exists (-1), EWOULDBLOCK. split; [|split; [done|lia]]. rewrite app_nil_r, <- Ew. by destruct w.
    - eexists _, _. split; [done|split; [done|done]].
    - exists (-1), e. split; [rewrite app_nil_r; done|split; [done|lia]]. }
  rewrite Hres. destruct (0 <? written w out) eqn:E; cbn [andb].
  2:{ zify_bool. assert (written w out = 0) as E0 by lia. subst w1.
      exists (set_socket (tail (writes w)) (sent w ++ take (Z.to_nat (written w out)) out)
                (shut_wr w) w), c.
      rewrite E0. rewrite !app_nil_r. split_and!; done. }
  zify_bool. rewrite Hres' by lia. clear res Hres Hres' e.
  destruct (retrieve_wf (outputBuffer_ w) (written w out)) as (b' & Er & Hb' & Hc' & _); [done|done|].
  pose proof (retrieve_readIndex _ _ _ Hb (proj1 Hn) Er Hr) as Hr'. rewrite Er.
  set (w2 := set_output b' w1). assert (chan_ok w2 c) as Hch2 by done.
  rewrite readable_zero by done. rewrite Hc'. fold out.
  destruct (Z.eqb_spec (written w out) (zlen out)) as [Ez|Ez].
  - rewrite bool_decide_eq_true_2 by (apply drop_ge; unfold zlen in *; lia).
    destruct (events_small (events_ c)) as (_ & _ & _ & He); [apply Hch|].
    specialize (He Hw). unfold disableWrite.
    destruct (update_events_spec w2 c disableWrite_events Hch2) as (p & h & c' & -> & Hch' & Hev & Hfd);
      [rewrite He; unfold POLLOUT; lia|].
    rewrite He in Hev. assert (isWriting c' = true) as Hw' by (unfold isWriting; by rewrite Hev).
    set (fs := functors w ++ if has_cb (writeCompleteCallback_ U) then [FWriteComplete] else []).
    set (w3 := set_functors fs (timers w) (set_poller p h w2)).
    match goal with |- context [match ?m (set_poller p h w2) with _ => _ end] =>
      assert (m (set_poller p h w2) = Ok (tt, w3)) as -> end.
    { subst w3 fs. destruct (has_cb (writeCompleteCallback_ U)); [done|].
      rewrite app_nil_r. by destruct w. }
    assert (conn_ok w3 c') as Hok3 by (split_and!; done).
    exists w3, c'. split; [|split_and!; done].
    destruct (bool_decide _); [|done]. unfold shutdownInLoop. unfold mbind, ST_bind.
    rewrite (channel_eq w3 c') by apply Hok3. rewrite Hw'. done.
  - rewrite bool_decide_eq_false_2.
    2:{ intros Ed. apply (f_equal length) in Ed. rewrite length_drop in Ed.
        unfold zlen in *. cbn in Ed. lia. }
    exists w2, c. rewrite app_nil_r. split_and!; try done.
Qed.
End conn_proofs.

(** ** The byte stream *)

Section stream.
Context {P : Type} `{PollerLaws P, Build} (U : UserCallbacks (P := P)).
Implicit Types (w : Conn (P := P)) (c : Channel).

(** What happens to the output side of a connection in its loop. *)
Inductive conn_op := CSend (data : bytes) | CWritable.
Definition run_op (op : conn_op) : ST (Conn (P := P)) unit :=
  match op with CSend data => sendInLoop U data | CWritable => handleWrite U end.
Definition op_data (op : conn_op) : bytes :=
  match op with CSend data => data | CWritable => [] end.

(** A send whose direct write takes all or nothing, and for which the queue has room. *)
Definition op_ok (op : conn_op) w : Prop :=
  match op with
  | CSend data => forall c, channels w !! readWriteChannel_ w = Some c ->
      zlen data <= max_size
      /\ (direct w c = true -> broken w = false /\ (written w data = 0 \/ written w data = zlen data))
      /\ (queued w c data <> [] -> fits (outputBuffer_ w) (zlen (queued w c data)))
  | CWritable => True
  end.
Fixpoint ops_ok (ops : list conn_op) w : Prop :=
  match ops with
  | [] => True
  | op :: ops' => op_ok op w /\ forall w', run_op op w = Ok (tt, w') -> ops_ok ops' w'
  end.

Lemma handleWrite_idle w c :
  channels w !! readWriteChannel_ w = Some c -> isWriting c = false -> handleWrite U w = Ok (tt, w).
Proof.
  intros Hc Hw. unfold handleWrite. st_simp. by rewrite (channel_eq w c Hc), Hw.
Qed.

Lemma run_op_stream op w c :
  conn_ok w c -> op_ok op w ->
  exists w' c', run_op op w = Ok (tt, w') /\ conn_ok w' c' /\ fd_ c' = fd_ c
    /\ sent w' ++ contents (outputBuffer_ w')
       = (sent w ++ contents (outputBuffer_ w)) ++ op_data op
    /\ state_ w' = state_ w /\ timers w' = timers w.
Proof.
  intros Hok Hop. destruct op as [data|]; cbn [run_op op_data].
  - destruct (Hop c) as (Hlen & Hd & Hf); [apply Hok|].
    destruct (sendInLoop_spec U w c data Hok Hlen Hf)
      as (w' & c' & E & Hok' & Hs & Hq & _ & Hst & Hfd & _ & _ & Ht).
    exists w', c'. split_and!; try done. rewrite Hs, Hq. unfold queued.
    destruct (direct w c) eqn:Ed; [|by rewrite app_nil_r, (assoc_L (++))].
    destruct (Hd eq_refl) as [-> Hn]. unfold direct in Ed. zify_bool.
    match goal with E : bool_decide _ = true |- _ => apply bool_decide_eq_true in E as -> end.
    rewrite !app_nil_r. cbn [app]. rewrite <- (assoc_L (++)). f_equal.
    destruct Hn as [-> | ->].
    + rewrite Z.sub_0_r. apply take_ge. unfold zlen. lia.
    + rewrite Z.sub_diag. change (take (Z.to_nat 0) data) with (@nil char).
      rewrite app_nil_r. apply take_ge. unfold zlen. lia.
  - destruct (isWriting c) eqn:Ew.
    + destruct (handleWrite_spec U w c Hok Ew) as (w' & c' & E & Hok' & Hs & Hq & _ & Hst & _ & Hfd & _ & _ & Ht).
      exists w', c'. split_and!; try done.
      rewrite Hs, Hq, app_nil_r, <- (assoc_L (++)). by rewrite take_drop.
    + exists w, c. rewrite (handleWrite_idle w c) by (apply Hok || done).
      by rewrite app_nil_r.
Qed.
End stream.

(** C1: the byte stream of a connection, on any poller that keeps its contract.  For
    every sequence of sends in the loop's thread and writable events, with write(2)
    accepting any part of the queued data, refusing, or taking a fresh message whole, no
    byte is lost, repeated or reordered: what the kernel has and what is queued is the
    concatenation of the data sent; and while something is queued the poller watches the
    socket for writability. *)
Theorem connection_stream {P : Type} `{PollerLaws P, Build} (U : UserCallbacks (P := P)) w c ops :
  conn_ok w c -> ops_ok U ops w ->
  exists w' c', for_each (run_op U) ops w = Ok (tt, w') /\ conn_ok w' c'
    /\ sent w' ++ contents (outputBuffer_ w')
       = (sent w ++ contents (outputBuffer_ w)) ++ mjoin (op_data <$> ops)
    /\ (contents (outputBuffer_ w') <> [] ->
        exists e, watching (poller_ w') !! fd_ c = Some e /\ has e POLLOUT = true).
Proof.
  revert w c. induction ops as [|op ops IH]; intros w c Hok Hops; cbn [for_each].
  - exists w, c. cbn. rewrite app_nil_r. split_and!; try done.
    intros Hne. destruct Hok as ((_ & _ & _ & _ & _ & Hw) & _ & _ & Hcw).
    exists (events_ c). split; [done|]. by apply Hcw.
  - destruct Hops as [Hop Hops].
    destruct (run_op_stream U op w c Hok Hop) as (w1 & c1 & E1 & Hok1 & Hfd1 & Hs1 & _).
    destruct (IH w1 c1 Hok1 (Hops _ E1)) as (w' & c' & E & Hok' & Hs & Hwt).
    exists w', c'. unfold mbind, ST_bind. rewrite E1, E, Hs, Hs1. cbn.
    rewrite <- (assoc_L (++)), <- Hfd1. done.
Qed.

(** C38: a direct write that the kernel accepts only in part corrupts the stream:
    sendInLoop queues the first len - n bytes of the data again instead of the bytes
    after the n already written, so the peer receives the beginning twice and never the
    end. *)
Theorem partial_write_corrupts {P : Type} `{PollerLaws P, Build} (U : UserCallbacks (P := P)) w c data :
  conn_ok w c -> zlen data <= max_size -> direct w c = true ->
  0 < written w data < zlen data ->
  fits (outputBuffer_ w) (zlen data - written w data) ->
  let n := Z.to_nat (written w data) in
  exists w', sendInLoop U data w = Ok (tt, w')
    /\ sent w' = sent w ++ take n data
    /\ contents (outputBuffer_ w') = take (length data - n) data.
Proof.
  intros Hok Hlen Hd Hn Hf. cbv zeta.
  assert (broken w = false) as Hbr.
  { unfold broken, written in *. destruct (writes w) as [|[]]; [done|done|lia]. }
  assert (queued w c data = take (length data - Z.to_nat (written w data)) data) as Hq.
  { unfold queued. rewrite Hd, Hbr. f_equal. unfold zlen. lia. }
  destruct (sendInLoop_spec U w c data Hok Hlen) as (w' & c' & E & _ & Hs & Hc & _).
  - intros _. rewrite Hq. unfold zlen in *. rewrite length_take.
    replace (Z.of_nat _) with (Z.of_nat (length data) - written w data) by lia. done.
  - exists w'. split; [done|]. rewrite Hs, Hc, Hd, Hq. split; [done|].
    unfold direct in Hd. zify_bool.
    match goal with E : bool_decide _ = true |- _ => by apply bool_decide_eq_true in E as -> end.
Qed.

(** When handleWrite has written out the whole queue, disableWrite leaves the
    channel with write interest only: the poller no longer watches the socket for
    reading, so the peer is not heard again; the write side is not shut down although the
    connection was waiting for just that; a shutdown() asked for now does nothing
    either; and the next writable event, which comes at once, changes nothing. *)
Theorem drained_connection_stuck {P : Type} `{PollerLaws P, Build} (U : UserCallbacks (P := P)) w c :
  conn_ok w c -> isWriting c = true -> contents (outputBuffer_ w) <> [] ->
  written w (contents (outputBuffer_ w)) = zlen (contents (outputBuffer_ w)) ->
  exists w', handleWrite U w = Ok (tt, w')
    /\ sent w' = sent w ++ contents (outputBuffer_ w) /\ contents (outputBuffer_ w') = []
    /\ watching (poller_ w') !! fd_ c = Some POLLOUT
    /\ shut_wr w' = shut_wr w
    /\ shutdownInLoop w' = Ok (tt, w')
    /\ exists w'', handleWrite U w' = Ok (tt, w'') /\ sent w'' = sent w'
         /\ contents (outputBuffer_ w'') = [] /\ shut_wr w'' = shut_wr w
         /\ watching (poller_ w'') !! fd_ c = Some POLLOUT.
Proof.
  intros Hok Hw Hne Hall. set (out := contents (outputBuffer_ w)) in *.
  assert (0 < zlen out) as Hpos by (destruct out; [done|rewrite zlen_cons; pose proof (zlen_nonneg out); lia]).
  destruct (handleWrite_spec U w c Hok Hw) as (w' & c' & E & Hok' & Hs & Hc & _ & _ & Hsh & Hfd & Hev & _).
  fold out in Hs, Hc, Hev. rewrite Hall in Hs, Hc, Hev.
  rewrite (proj2 (Z.ltb_lt _ _)), Z.eqb_refl in Hev by lia. cbn [andb] in Hev.
  rewrite take_ge in Hs by (unfold zlen; lia). rewrite drop_ge in Hc by (unfold zlen; lia).
  assert (isWriting c' = true) as Hw' by (unfold isWriting; by rewrite Hev).
  exists w'. split_and!; try done.
  - rewrite <- Hfd, <- Hev. apply Hok'.
  - unfold shutdownInLoop. unfold mbind, ST_bind. rewrite (channel_eq w' c') by apply Hok'.
    by rewrite Hw'.
  - destruct (handleWrite_spec U w' c' Hok' Hw')
      as (w'' & c'' & E2 & Hok2 & Hs2 & Hc2 & _ & _ & Hsh2 & Hfd2 & Hev2 & _).
    rewrite Hc in Hs2, Hc2, Hev2. rewrite take_nil, app_nil_r in Hs2. rewrite drop_nil in Hc2.
    pose proof (written_range w' []) as Hz. change (zlen []) with 0 in Hz.
    rewrite (proj2 (Z.ltb_ge _ _)) in Hev2 by lia. cbn [andb] in Hev2.
    exists w''. split_and!; try done; [congruence|].
    rewrite <- Hfd, <- Hfd2, <- Hev, <- Hev2. apply Hok2.
Qed.

(** ** A connection on an EPollPoller *)

Definition quiet_user : UserCallbacks (P := EPollPoller) :=
  mkUser (Some (mret tt)) (Some (fun _ => mret tt)) (Some (mret tt)) (Some (fun _ => mret tt))
    (Some (mret tt)).

(** Connected, on descriptor 5, with interest [e] and [out] queued. *)
Definition sample_conn (s : State) (e : Z) (out : Buffer) (mem : gmap Z bytes)
    (ws : list write_result) : Conn (P := EPollPoller) :=
  mkConn s 100 Buffer_empty out 65536 false
    (mkEPollPoller {[ 5 := 100 ]} {[ 5 := (e, 100) ]} 16)
    {[ 100 := mkChannel 5 e 0 true kAdded 7 true false ]} [] [] mem ws [] false [].

Definition queue_of (data : bytes) : Buffer :=
  match append (H := Release) Buffer_empty data with Ok b => b | Err _ => Buffer_empty end.

Lemma sample_epoll_inv e c :
  fd_ c = 5 -> index_ c = kAdded ->
  epoll_inv (mkEPollPoller {[ 5 := 100 ]} {[ 5 := (e, 100) ]} 16) {[ 100 := c ]}.
Proof.
  intros Hfd Hi. split; cbn.
  - intros fd ptr Hp. apply lookup_singleton_Some in Hp as [<- <-]. exists c.
    rewrite lookup_singleton_eq. split_and!; [done|done|]. left. split; [done|].
    exists e. apply lookup_singleton_eq.
  - intros fd Hx. destruct (decide (fd = 5)) as [->|Hne]; [by rewrite lookup_singleton_eq|].
    rewrite lookup_singleton_ne in Hx by done. by destruct Hx.
Qed.

Lemma sample_conn_ok s e out mem ws :
  0 < e < 8 -> wf out -> kCheapPrependSize <= readIndex_ out ->
  (contents out <> [] -> has e kWriteEvent = true) ->
  conn_ok (sample_conn s e out mem ws) (mkChannel 5 e 0 true kAdded 7 true false).
Proof.
  intros He Hb Hr Hw. split_and!; [|done..].
  unfold chan_ok. cbn [channels readWriteChannel_ sample_conn poller_ fd_ events_].
  split_and!; try lia; [apply lookup_singleton_eq|by apply sample_epoll_inv|
    apply lookup_singleton_eq|].
  cbn [watching epoll_poller interest]. by rewrite map_fmap_singleton, lookup_singleton_eq.
Qed.

Lemma queue_of_ok data :
  zlen data <= 1000 -> wf (queue_of data) /\ kCheapPrependSize <= readIndex_ (queue_of data)
    /\ contents (queue_of data) = data.
Proof.
  intros Hd. destruct Buffer_empty_wf as [Hb Hc]. unfold queue_of.
  assert (size Buffer_empty = 1032 /\ writeIndex_ Buffer_empty = 8
          /\ readIndex_ Buffer_empty = 8) as (Hs & Hw & Hr) by (by vm_compute).
  destruct (append_fits (H := Release) Buffer_empty data) as (b' & E & Hb' & Hc' & _).
  - done.
  - left. by vm_compute.
  - left. lia.
  - rewrite E. split_and!; [done| |by rewrite Hc', Hc].
    eapply append_readIndex; [exact E|]. by vm_compute.
Qed.

Definition stream_conn : Conn (P := EPollPoller) :=
  sample_conn kConnected 3 Buffer_empty ∅ [Wrote 3; WriteErr EAGAIN; Wrote 2; Wrote 9].
Definition stream_ops : list conn_op :=
  [CSend (cs "abc"); CSend (cs "defg"); CWritable; CSend (cs "h"); CWritable].

Lemma connection_stream_witness :
  exists w', for_each (run_op (H1 := Debug) quiet_user) stream_ops stream_conn = Ok (tt, w')
    /\ sent w' ++ contents (outputBuffer_ w') = cs "abcdefgh".
Proof.
  destruct (connection_stream (H1 := Debug) quiet_user stream_conn
    (mkChannel 5 3 0 true kAdded 7 true false) stream_ops) as (w' & c' & E & _ & Hs & _).
  - apply sample_conn_ok; [lia|apply Buffer_empty_wf|by vm_compute|].
    intros Hne. by destruct Hne.
  - unfold stream_ops. cbn [ops_ok].
    repeat match goal with
    | |- _ /\ _ => split
    | |- op_ok CWritable _ => exact I
    | |- op_ok _ _ => intros c Hc; vm_compute in Hc; injection Hc as <-; split_and!;
        [by vm_compute
        |intros Hd; vm_compute in Hd; first [discriminate Hd|split;
           [by vm_compute|first [left; by vm_compute|right; by vm_compute] ] ]
        |intros _; left; by vm_compute]
    | |- forall w', run_op _ _ _ = Ok (tt, w') -> _ =>
        let w' := fresh "w'" in let E := fresh "E" in
        intros w' E; vm_compute in E; injection E as <-
    | |- True => done
    end.
  - exists w'. split; [done|]. rewrite Hs. by vm_compute.
Defined.

Definition partial_conn : Conn (P := EPollPoller) := sample_conn kConnected 3 Buffer_empty ∅ [Wrote 1].

Lemma partial_write_corrupts_witness :
  exists w', sendInLoop (H0 := Debug) quiet_user (cs "abc") partial_conn = Ok (tt, w')
    /\ sent w' = cs "a" /\ contents (outputBuffer_ w') = cs "ab".
Proof.
  apply (partial_write_corrupts (H1 := Debug) quiet_user partial_conn
    (mkChannel 5 3 0 true kAdded 7 true false) (cs "abc")).
  - apply sample_conn_ok; [lia|apply Buffer_empty_wf|by vm_compute|].
    intros Hne. by destruct Hne.
  - by vm_compute.
  - by vm_compute.
  - by vm_compute.
  - left. by vm_compute.
Defined.

Definition backlog_conn : Conn (P := EPollPoller) :=
  sample_conn kDisconnecting 7 (queue_of (cs "xyz")) ∅ [Wrote 3].

Lemma drained_connection_stuck_witness :
  exists w', handleWrite (H0 := Debug) quiet_user backlog_conn = Ok (tt, w')
    /\ watching (poller_ w') !! 5 = Some POLLOUT /\ shut_wr w' = false.
Proof.
  destruct (queue_of_ok (cs "xyz")) as (Hb & Hr & Hc); [by vm_compute|].
  destruct (drained_connection_stuck (H1 := Debug) quiet_user backlog_conn
    (mkChannel 5 7 0 true kAdded 7 true false)) as (w' & E & _ & _ & Hw & Hs & _).
  - by apply sample_conn_ok.
  - by vm_compute.
  - cbn [outputBuffer_ backlog_conn sample_conn]. by rewrite Hc.
  - by vm_compute.
  - by exists w'.
Defined.

(** ** The life of a connection *)

Section life.
Context {P : Type} `{PollerLaws P, Build} (U : UserCallbacks (P := P)).
Implicit Types (w : Conn (P := P)) (c : Channel).

(** A callback that leaves the connection alone. *)
Definition harmless (cb : option (ST (Conn (P := P)) unit)) : Prop :=
  exists f, cb = Some f /\ forall w, f w = Ok (tt, w).

(** The channel is registered with the poller and no longer watched. *)
Definition parked w c : Prop :=
  channels w !! readWriteChannel_ w = Some c /\ poller_inv (poller_ w) (channels w)
  /\ registered (poller_ w) !! fd_ c = Some (readWriteChannel_ w) /\ events_ c = 0.

Lemma disableAll_spec w c :
  chan_ok w c ->
  exists p h c', disableAll w = Ok (tt, set_poller p h w) /\ parked (set_poller p h w) c'
    /\ fd_ c' = fd_ c /\ registered p = registered (poller_ w)
    /\ watching p = delete (fd_ c) (watching (poller_ w)).
Proof.
  intros (Hc & Hinv & Hfd & Hev & Hr & Hw). unfold disableAll, update_events, deref.
  rewrite Hc, bind_Ok. set (c1 := set_isInLoop _ true).
  unfold loop_updateChannel, assertInLoopThread. rewrite assert_true, !bind_Ok by done.
  assert (poller_inv (poller_ w) (<[readWriteChannel_ w := c1]> (channels w))) as Hinv1
    by (by eapply inv_stable).
  destruct (update_watched (poller_ w) _ (readWriteChannel_ w) c1 Hinv1)
    as (p & h & -> & Hinv' & [Hsame _] & Hr' & Hw');
    [apply lookup_insert_eq|split; [exact Hfd|done]|done|by exists (events_ c)|].
  rewrite bind_Ok. specialize (Hsame (readWriteChannel_ w)). rewrite lookup_insert_eq in Hsame.
  inversion Hsame as [x c' Hx Hx1 Hx2|]; subst x.
  unfold same_but_index in Hx. injection Hx as Hx3 Hx4 Hx5 Hx6 Hx7 Hx8 Hx9.
  exists p, h, c'. unfold parked. cbn [channels poller_ readWriteChannel_ set_poller].
  rewrite <- Hx3, <- Hx4, Hr'. split_and!; done.
Qed.

Lemma channel_remove_spec w c :
  parked w c -> Z.of_nat (base.size (registered (poller_ w))) < 2 ^ 31 ->
  exists p h, channel_remove w = Ok (tt, set_poller p h w) /\ poller_inv p h
    /\ registered p = delete (fd_ c) (registered (poller_ w))
    /\ watching p = delete (fd_ c) (watching (poller_ w)).
Proof.
  intros (Hc & Hinv & Hr & Hev) Hs. unfold channel_remove, deref. rewrite Hc, bind_Ok.
  set (c1 := set_isInLoop c false).
  unfold loop_removeChannel, assertInLoopThread. rewrite assert_true, !bind_Ok by done.
  assert (poller_inv (poller_ w) (<[readWriteChannel_ w := c1]> (channels w))) as Hinv1
    by (by eapply inv_stable).
  destruct (remove_registered (poller_ w) _ (readWriteChannel_ w) c1 Hinv1)
    as (p & h & -> & Hinv' & _ & Hr' & Hw'); [apply lookup_insert_eq|done..|].
  exists p, h. by split_and!.
Qed.

Lemma call_connection_spec w :
  harmless (connectionCallback_ U) ->
  call_connection U w
  = Ok (tt, add_note (NConnection (bool_decide (state_ w = kConnected))) w).
Proof.
  intros (f & Hf & Hid). unfold call_connection, call_cb. rewrite Hf. st_simp. apply Hid.
Qed.

Lemma handleClose_spec w c :
  chan_ok w c -> state_ w = kConnected \/ state_ w = kDisconnecting ->
  harmless (connectionCallback_ U) -> harmless (closeCallback_ U) ->
  exists w' c', handleClose U w = Ok (tt, w') /\ parked w' c' /\ fd_ c' = fd_ c
    /\ state_ w' = kDisconnected /\ notes w' = notes w ++ [NConnection false; NClose]
    /\ registered (poller_ w') = registered (poller_ w)
    /\ watching (poller_ w') = delete (fd_ c) (watching (poller_ w))
    /\ functors w' = functors w.
Proof.
  intros Hch Hs Hcb (g & Hg & Hgid). unfold handleClose, call_cb. rewrite Hg. st_simp.
  rewrite assert_true by (by destruct Hs as [-> | ->]).
  destruct (disableAll_spec (setState kDisconnected w) c Hch)
    as (p & h & c' & -> & Hp & Hfd & Hr & Hw).
  rewrite call_connection_spec, Hgid by done.
  eexists _, c'. split; [done|]. split_and!; try done.
  cbn. by rewrite <- (assoc_L (++)).
Qed.

Lemma connectionDestroyed_spec w c :
  parked w c -> state_ w <> kConnected ->
  Z.of_nat (base.size (registered (poller_ w))) < 2 ^ 31 ->
  exists w', connectionDestroyed U w = Ok (tt, w') /\ state_ w' = state_ w /\ notes w' = notes w
    /\ registered (poller_ w') = delete (fd_ c) (registered (poller_ w))
    /\ watching (poller_ w') = delete (fd_ c) (watching (poller_ w)).
Proof.
  intros Hp Hs Hsz. unfold connectionDestroyed. st_simp.
  rewrite bool_decide_eq_false_2 by done. unfold mret, ST_ret. cbv beta iota.
  destruct (channel_remove_spec w c Hp Hsz) as (p & h & -> & _ & Hr & Hw).
  eexists. split; [done|]. by split_and!.
Qed.

Lemma connectionEstablished_spec w self c :
  state_ w = kConnecting -> channels w !! readWriteChannel_ w = Some c ->
  poller_inv (poller_ w) (channels w) -> 0 <= fd_ c < 2 ^ 31 -> events_ c = 0 -> index_ c = -1 ->
  registered (poller_ w) !! fd_ c = None ->
  Z.of_nat (base.size (registered (poller_ w))) < 2 ^ 31 - 1 ->
  harmless (connectionCallback_ U) ->
  exists w' c', connectionEstablished U self w = Ok (tt, w') /\ chan_ok w' c' /\ fd_ c' = fd_ c
    /\ isReading c' = true /\ state_ w' = kConnected /\ notes w' = notes w ++ [NConnection true]
    /\ registered (poller_ w') = <[fd_ c := readWriteChannel_ w]> (registered (poller_ w))
    /\ watching (poller_ w') = <[fd_ c := kReadEvent]> (watching (poller_ w)).
Proof.
  intros Hs Hc Hinv Hfd Hev Hi Hr Hsz Hcb. unfold connectionEstablished. st_simp.
  rewrite assert_true by (by rewrite Hs). unfold channel_tieTo, deref.
  cbn [channels readWriteChannel_ setState]. rewrite Hc, bind_Ok.
  unfold enableRead, update_events, deref. cbn [channels readWriteChannel_ setState set_poller].
  rewrite lookup_insert_eq, bind_Ok, insert_insert_eq.
  set (c1 := set_isInLoop _ true).
  unfold loop_updateChannel, assertInLoopThread. rewrite assert_true, !bind_Ok by done.
  cbn [poller_ setState set_poller].
  assert (poller_inv (poller_ w) (<[readWriteChannel_ w := c1]> (channels w))) as Hinv1
    by (by eapply inv_stable).
  assert (events_ c1 = kReadEvent) as He1.
  { subst c1. cbn [set_isInLoop set_events events_ tieTo]. rewrite Hev. done. }
  destruct (update_fresh (poller_ w) _ (readWriteChannel_ w) c1 Hinv1)
    as (p & h & -> & Hinv' & [Hsame _] & Hr' & Hw');
    [apply lookup_insert_eq|split; [exact Hfd|by rewrite He1]|done|done|done|].
  rewrite bind_Ok. rewrite call_connection_spec by done.
  specialize (Hsame (readWriteChannel_ w)). rewrite lookup_insert_eq in Hsame.
  inversion Hsame as [x c' Hx Hx1 Hx2|]; subst x.
  unfold same_but_index in Hx. injection Hx as Hx3 Hx4 Hx5 Hx6 Hx7 Hx8 Hx9.
  eexists _, c'. split; [done|].
  unfold chan_ok. cbn. rewrite <- Hx3, Hr', Hw'. unfold isReading. rewrite <- Hx4.
  change (fd_ c1) with (fd_ c). rewrite He1, !lookup_insert_eq. rewrite Hev. split_and!; try done; try lia.
Qed.
End life.

(** C7: the life of a connection, from its constructor on any poller with room: after
    connectionEstablished, the peer's close and connectionDestroyed the user has been
    told "up", "down" and "closed" once each and in this order, the state is
    kDisconnected as the destructor asserts, and the poller is back to exactly what it
    registered and watched before; no assert on the way fails in any build. *)
Theorem connection_lifecycle {P : Type} `{PollerLaws P, Build} (U : UserCallbacks (P := P))
    (addr sockfd self : Z) (p : P) h mem ws :
  poller_inv p (<[addr := Channel_ctor sockfd]> h) -> 0 <= sockfd < 2 ^ 31 ->
  registered p !! sockfd = None -> watching p !! sockfd = None ->
  Z.of_nat (base.size (registered p)) < 2 ^ 31 - 1 ->
  harmless (connectionCallback_ U) -> harmless (closeCallback_ U) ->
  exists w,
    (connectionEstablished U self ;; handleClose U ;; connectionDestroyed U)
      (TcpConnection_ctor addr p h sockfd mem ws) = Ok (tt, w)
    /\ notes w = [NConnection true; NConnection false; NClose]
    /\ state_ w = kDisconnected /\ TcpConnection_dtor w = Ok tt
    /\ registered (poller_ w) = registered p /\ watching (poller_ w) = watching p.
Proof.
  intros Hinv Hfd Hr Hw Hsz Hcb Hcl.
  destruct (connectionEstablished_spec U (TcpConnection_ctor addr p h sockfd mem ws) self
    (Channel_ctor sockfd)) as (w1 & c1 & E1 & Hch1 & Hfd1 & _ & Hs1 & Hn1 & Hr1 & Hw1);
    [done|apply lookup_insert_eq|done..|].
  destruct (handleClose_spec U w1 c1 Hch1) as (w2 & c2 & E2 & Hp2 & Hfd2 & Hs2 & Hn2 & Hr2 & Hw2 & _);
    [by left|done..|].
  cbn [poller_ TcpConnection_ctor fd_ Channel_ctor] in *.
  destruct (connectionDestroyed_spec U w2 c2 Hp2) as (w3 & E3 & Hs3 & Hn3 & Hr3 & Hw3);
    [by rewrite Hs2|rewrite Hr2, Hr1, map_size_insert_None by done; lia|].
  exists w3. unfold mbind, ST_bind. rewrite E1, E2, E3. split; [done|].
  rewrite Hn3, Hn2, Hn1, Hs3, Hs2. split_and!; [done|done| | |].
  - unfold TcpConnection_dtor. rewrite Hs3, Hs2. by rewrite assert_true.
  - rewrite Hr3, Hr2, Hr1, Hfd2, Hfd1. by apply delete_insert_id.
  - rewrite Hw3, Hw2, Hw1, Hfd2, Hfd1, delete_delete_eq. by apply delete_insert_id.
Qed.

Lemma connection_lifecycle_witness :
  exists w,
    (connectionEstablished (H0 := Debug) quiet_user 7 ;; handleClose (H0 := Debug) quiet_user ;;
     connectionDestroyed (H0 := Debug) quiet_user)
      (TcpConnection_ctor 100 EPollPoller_ctor ∅ 5 ∅ []) = Ok (tt, w)
    /\ notes w = [NConnection true; NConnection false; NClose].
Proof.
  destruct (connection_lifecycle (H1 := Debug) quiet_user 100 5 7 EPollPoller_ctor ∅ ∅ [])
    as (w & E & Hn & _); [|lia|done|done|done|by eexists|by eexists|by exists w].
  split; cbn; [done|]. intros fd [? Hx]. by rewrite lookup_empty in Hx.
Defined.

(** ** Reading, and calls from other threads *)

(** A readable event, on every result of readv(2).  Data is appended to the input
    buffer and the message callback sees all of it; end of file closes the connection as
    handleClose does; an error, whose -1 is stored in a size_t, is taken for data: the
    message callback is called with nothing new to read and the error branch is never
    reached. *)
Theorem handleRead_results {P : Type} `{PollerLaws P, Build} (U : UserCallbacks (P := P)) w t f data err :
  messageCallback_ U = Some f -> wf (inputBuffer_ w) ->
  kCheapPrependSize <= readIndex_ (inputBuffer_ w) ->
  0 < zlen data <= Buffer.size (inputBuffer_ w) - writeIndex_ (inputBuffer_ w) ->
  (exists b', contents b' = contents (inputBuffer_ w) ++ data /\ wf b'
     /\ handleRead U (ReadOk data) t w
        = f t (add_note (NMessage (contents (inputBuffer_ w) ++ data)) (set_input b' w)))
  /\ (exists b', contents b' = contents (inputBuffer_ w)
     /\ handleRead U (ReadOk []) t w = handleClose U (set_input b' w))
  /\ handleRead U (ReadErr err) t w
     = f t (add_note (NMessage (contents (inputBuffer_ w))) (set_input (inputBuffer_ w) w)).
Proof.
  intros Hf Hb Hr Hd. unfold handleRead. rewrite Hf. split_and!.
  - destruct (readFd_ok (inputBuffer_ w) data) as (b' & E & Hb' & Hc'); [done|done|left; lia|].
    exists b'. split_and!; [done|done|]. st_simp. rewrite E.
    rewrite u64_small by (destruct Hb as (? & ? & ?); unfold max_size in *; lia).
    rewrite (proj2 (Z.ltb_lt _ _)) by lia. st_simp. cbn [inputBuffer_ set_input]. by rewrite Hc'.
  - destruct (readFd_ok (inputBuffer_ w) []) as (b' & E & Hb' & Hc');
      [done|done|left; change (zlen []) with 0; destruct Hb; lia|].
    exists b'. rewrite app_nil_r in Hc'. split; [done|]. st_simp. rewrite E. done.
  - st_simp. unfold readFd. st_simp. done.
Qed.

Definition echo_user : UserCallbacks (P := EPollPoller) :=
  mkUser (Some (mret tt)) (Some (fun _ w => Ok (tt, w))) None None (Some (mret tt)).

Lemma handleRead_results_witness :
  exists b', contents b' = cs "hi"
    /\ handleRead (H0 := Debug) echo_user (ReadOk (cs "hi")) (mkTimestamp 0) partial_conn
       = Ok (tt, add_note (NMessage (cs "hi")) (set_input b' partial_conn)).
Proof.
  destruct (handleRead_results (H1 := Debug) echo_user partial_conn (mkTimestamp 0)
    (fun _ w => Ok (tt, w)) (cs "hi") 0) as ((b' & Hc & _ & E) & _ & _).
  - done.
  - apply Buffer_empty_wf.
  - by vm_compute.
  - by vm_compute.
  - exists b'. by split.
Defined.

(** Send() from another thread.  With a string or a pointer only the address is
    bound into the functor: if the caller's block is gone when the loop runs it, the loop
    reads freed memory, and if it is still there its bytes go to sendInLoop; with a
    Buffer the bytes are copied, the buffer is emptied, and the functor sends them
    whatever happens to the caller's memory. *)
Theorem cross_thread_send {P : Type} `{PollerLaws P, Build} (U : UserCallbacks (P := P)) w msg block buf :
  state_ w = kConnected -> memory w !! msg = Some block -> wf buf ->
  (exists w', send_string U false msg w = Ok (tt, w')
     /\ functors w' = functors w ++ [FSendInLoop msg (zlen block)]
     /\ (forall w2, memory w2 !! msg = None ->
           run_functor U (FSendInLoop msg (zlen block)) w2 = Err StaleRead)
     /\ (forall w2, memory w2 !! msg = Some block ->
           run_functor U (FSendInLoop msg (zlen block)) w2 = sendInLoop U block w2))
  /\ (exists w' buf', send_buffer U false buf w = Ok (buf', w')
     /\ functors w' = functors w ++ [FSend (contents buf)] /\ contents buf' = []
     /\ forall w2, state_ w2 = kConnected ->
          run_functor U (FSend (contents buf)) w2 = sendInLoop U (contents buf) w2).
Proof.
  intros Hs Hm Hb. split.
  - unfold send_string, send_ptr. rewrite Hm. st_simp. rewrite Hs.
    eexists. split; [done|]. split; [done|].
    split; intros w2 Hm2; cbn [run_functor]; unfold read_block; st_simp; rewrite Hm2; [done|].
    rewrite mem_read_ok by (pose proof (zlen_nonneg block); lia).
    change (drop (Z.to_nat 0) block) with block. rewrite take_ge by (unfold zlen; lia). done.
  - unfold send_buffer. st_simp. rewrite Hs. unfold retrieveAllAsString.
    rewrite readableBytes_wf by done.
    destruct (retrieveAsString_wf buf (zlen (contents buf))) as (b' & -> & Hb' & Hc' & _);
      [done|pose proof (zlen_nonneg (contents buf)); lia|].
    rewrite take_ge by (unfold zlen; lia). rewrite drop_ge in Hc' by (unfold zlen; lia).
    eexists _, b'. split; [done|]. split; [done|]. split; [done|].
    intros w2 Hs2. cbn [run_functor]. st_simp. by rewrite Hs2.
Qed.

Definition lent_conn (mem : gmap Z bytes) : Conn (P := EPollPoller) :=
  sample_conn kConnected 3 Buffer_empty mem [].

Lemma cross_thread_send_witness :
  run_functor (H0 := Debug) quiet_user (FSendInLoop 1 (zlen (cs "data"))) (lent_conn ∅) = Err StaleRead
  /\ functors (lent_conn ∅) = [].
Proof.
  split; [|done].
  destruct (cross_thread_send (H1 := Debug) quiet_user (lent_conn {[ 1 := cs "data" ]}) 1
    (cs "data") Buffer_empty) as ((w' & _ & _ & Hgone & _) & _).
  - done.
  - apply lookup_singleton_eq.
  - apply Buffer_empty_wf.
  - by apply Hgone.
Defined.
