(* ===== verification/Connector.v ===== *)
(** * Outgoing connections: src/arale/net/Connector.{h,cc}, TcpClient.{h,cc}

    The connector creates sockets, waits for them to become writable on a channel of its
    own, hands a connected socket to its owner, and otherwise closes it and tries again
    after a delay that doubles.  Its state here has, besides its members, what it gives
    the loop (the posted resetChannel, the retry timers) and a ledger of descriptors:
    opened, closed, and handed over.  [run_event] is one turn of the loop: an event, then
    the functors it posted. *)

From S2P Require Import Prelude Date Format.

Module Connector.

Inductive State := kDisconnected | kConnecting | kConnected.
#[global] Instance State_eq_dec : EqDecision State.
Proof. solve_decision. Defined.

Definition kMaxRetryDelayMs : Z := 30 * 1000.
Definition kInitRetryDelayMs : Z := 500.

Record Connector := mkConnector {
  connectChannel_ : option Z;       (* the descriptor of the channel, if there is one *)
  state_ : State;
  connected_ : bool;
  retryDelayMs_ : Z;
  resets : nat;                     (* resetChannel functors posted to the loop *)
  timers : list Z;                  (* startInLoop timers, by their delay in ms *)
  next_fd : Z;                      (* the descriptor the next socket(2) returns *)
  closed : list Z;
  given : list Z                    (* passed to connectionCallback_ *)
}.

Definition ctor (fd : Z) : Connector :=
  mkConnector None kDisconnected false kInitRetryDelayMs 0 [] fd [] [].

Section ops.
Context `{Build}.
Implicit Types s : Connector.

Definition setState (st : State) s := mkConnector (connectChannel_ s) st (connected_ s)
  (retryDelayMs_ s) (resets s) (timers s) (next_fd s) (closed s) (given s).
Definition set_connected (b : bool) s := mkConnector (connectChannel_ s) (state_ s) b
  (retryDelayMs_ s) (resets s) (timers s) (next_fd s) (closed s) (given s).
Definition set_channel (c : option Z) (n : nat) s := mkConnector c (state_ s) (connected_ s)
  (retryDelayMs_ s) n (timers s) (next_fd s) (closed s) (given s).
Definition set_retry (d : Z) (l : list Z) s := mkConnector (connectChannel_ s) (state_ s)
  (connected_ s) d (resets s) l (next_fd s) (closed s) (given s).
Definition set_next (n : Z) s := mkConnector (connectChannel_ s) (state_ s) (connected_ s)
  (retryDelayMs_ s) (resets s) (timers s) n (closed s) (given s).
Definition close_fd (fd : Z) s := mkConnector (connectChannel_ s) (state_ s) (connected_ s)
  (retryDelayMs_ s) (resets s) (timers s) (next_fd s) (closed s ++ [fd]) (given s).
Definition give_fd (fd : Z) s := mkConnector (connectChannel_ s) (state_ s) (connected_ s)
  (retryDelayMs_ s) (resets s) (timers s) (next_fd s) (closed s) (given s ++ [fd]).

(** errno values of <errno.h> on Linux. *)
Definition EINTR : Z := 4.
Definition EAGAIN : Z := 11.
Definition EADDRINUSE : Z := 98.
Definition EADDRNOTAVAIL : Z := 99.
Definition ENETUNREACH : Z := 101.
Definition EISCONN : Z := 106.
Definition ECONNREFUSED : Z := 111.
Definition EINPROGRESS : Z := 115.

Definition retry (sockfd : Z) s : outcome Connector :=
  let s := setState kDisconnected (close_fd sockfd s) in
  if connected_ s
  then Ok (set_retry (Z.min (retryDelayMs_ s * 2) kMaxRetryDelayMs)
             (timers s ++ [retryDelayMs_ s]) s)
  else Ok s.

Definition connecting (sockfd : Z) s : outcome Connector :=
  assert_ (connected_ s) ;;
  assert_ (bool_decide (connectChannel_ s = None)) ;;
  Ok (set_channel (Some sockfd) (resets s) (setState kConnecting s)).

(** [savedError]: what connect(2) on the new socket results in. *)
Definition connect (savedError : Z) s : outcome Connector :=
  let sock := next_fd s in
  let s := set_next (sock + 1) s in
  if bool_decide (savedError ∈ [0; EINPROGRESS; EINTR; EISCONN]) then connecting sock s
  else if bool_decide (savedError ∈ [EAGAIN; EADDRINUSE; EADDRNOTAVAIL; ECONNREFUSED; ENETUNREACH])
  then retry sock s
  else Ok (close_fd sock s).

Definition startInLoop (savedError : Z) s : outcome Connector :=
  assert_ (bool_decide (state_ s = kDisconnected)) ;;
  if connected_ s then connect savedError s else Ok s.
Definition start (savedError : Z) s : outcome Connector :=
  startInLoop savedError (set_connected true s).

(** disableAll() and remove() on the channel; the reset is posted. *)
Definition removeAndResetChannel s : outcome (Z * Connector) :=
  match connectChannel_ s with
  | Some fd => Ok (fd, set_channel (connectChannel_ s) (S (resets s)) s)
  | None => Err NullCall
  end.
Definition resetChannel s : Connector := set_channel None (resets s) s.

(** [err]: SO_ERROR of the socket; [self]: isSelfConnect. *)
Definition handleWrite (err : Z) (self : bool) s : outcome Connector :=
  if bool_decide (state_ s = kConnecting) then
    '(sockfd, s) ← removeAndResetChannel s;
    if negb (err =? 0) then retry sockfd s
    else if self then retry sockfd s
    else if connected_ s then Ok (give_fd sockfd (setState kConnected s))
    else Ok (setState kDisconnected (close_fd sockfd s))
  else assert_ (bool_decide (state_ s = kDisconnected)) ;; Ok s.

Definition handleError s : outcome Connector :=
  if bool_decide (state_ s = kConnecting) then
    '(sockfd, s) ← removeAndResetChannel s; retry sockfd s
  else Ok s.

Definition stopInLoop s : outcome Connector :=
  if bool_decide (state_ s = kConnecting) then
    '(sockfd, s) ← removeAndResetChannel (setState kDisconnected s); retry sockfd s
  else Ok s.
Definition stop s : outcome Connector := stopInLoop (set_connected false s).

Definition restart (savedError : Z) s : outcome Connector :=
  startInLoop savedError (set_retry kInitRetryDelayMs (timers s) (setState kDisconnected (set_connected true s))).

(** ** Turns of the loop *)

Inductive event :=
  | EvStart (savedError : Z)
  | EvTimer (savedError : Z)                (* the oldest retry timer fires *)
  | EvWritable (err : Z) (self : bool)
  | EvError
  | EvStop
  | EvRestart (savedError : Z).             (* the connection handed over has ended *)

Definition handle (ev : event) s : outcome Connector :=
  match ev with
  | EvStart e => start e s
  | EvTimer e => startInLoop e (set_retry (retryDelayMs_ s) (tail (timers s)) s)
  | EvWritable err self => handleWrite err self s
  | EvError => handleError s
  | EvStop => stop s
  | EvRestart e => restart e s
  end.
(** The posted resets run after the callbacks. *)
Definition run_resets s : Connector :=
  match resets s with
  | O => s
  | S _ => set_channel (connectChannel_ (resetChannel s)) 0 s
  end.
Definition run_event (ev : event) s : outcome Connector :=
  s ← handle ev s; Ok (run_resets s).
Fixpoint run_events (evs : list event) s : outcome Connector :=
  match evs with
  | [] => Ok s
  | ev :: evs' => s ← run_event ev s; run_events evs' s
  end.
End ops.

(** ** Specification *)

(** When an event can occur; start() is called only on an idle connector with no retry
    under way, restart() only after a socket was handed over. *)
Definition allowed (ev : event) (s : Connector) : Prop :=
  match ev with
  | EvStart _ => state_ s = kDisconnected /\ timers s = []
  | EvTimer _ => timers s <> []
  | EvWritable _ _ | EvError => state_ s = kConnecting
  | EvStop => True
  | EvRestart _ => state_ s = kConnected
  end.
Fixpoint allowed_all `{Build} (evs : list event) (s : Connector) : Prop :=
  match evs with
  | [] => True
  | ev :: evs' => allowed ev s /\ forall s', run_event ev s = Ok s' -> allowed_all evs' s'
  end.

(** The descriptors from [fd] on that socket(2) has returned. *)
Definition opened (fd : Z) (s : Connector) : list Z :=
  (fun i => fd + Z.of_nat i) <$> seq 0 (Z.to_nat (next_fd s - fd)).

Definition inv (fd : Z) (s : Connector) : Prop :=
  fd <= next_fd s /\ resets s = O
  /\ (state_ s = kConnecting <-> connectChannel_ s <> None)
  /\ (timers s = [] \/ (exists d, timers s = [d]) /\ state_ s = kDisconnected)
  /\ (state_ s = kConnecting -> connected_ s = true)
  /\ kInitRetryDelayMs <= retryDelayMs_ s <= kMaxRetryDelayMs
  /\ Forall (fun d => kInitRetryDelayMs <= d <= kMaxRetryDelayMs) (timers s)
  /\ opened fd s ≡ₚ closed s ++ given s ++ option_list (connectChannel_ s).

Lemma opened_next fd s : fd <= next_fd s ->
  opened fd (set_next (next_fd s + 1) s) = opened fd s ++ [next_fd s].
Proof.
  intros Hle. unfold opened. cbn [next_fd set_next].
  replace (Z.to_nat (next_fd s + 1 - fd)) with (S (Z.to_nat (next_fd s - fd))) by lia.
  rewrite seq_S, fmap_app. cbn. repeat f_equal. lia.
Qed.

(** Split the invariant of a state given by its fields; [Hl] is the ledger before. *)
Ltac inv_split Hl :=
  unfold inv, opened, run_resets, kInitRetryDelayMs, kMaxRetryDelayMs in *; cbn in *;
  rewrite ?Hl; split_and!; try done; try lia; try (by left); try (by repeat constructor; lia);
  try (right; split; [by eexists|done]); try solve_Permutation.

Section proofs.
Context `{Build} (fd : Z).
Implicit Types s : Connector.

Lemma connect_inv e s :
  inv fd s -> state_ s = kDisconnected -> connected_ s = true -> timers s = [] ->
  exists s', connect e s = Ok s' /\ inv fd s' /\ run_resets s' = s'.
Proof.
  intros (Hn & Hr & Hc & Ht & Hco & Hd & Hf & Hl) Hs Hb Ht0.
  assert (connectChannel_ s = None) as Hn0.
  { destruct (connectChannel_ s) eqn:E; [|done]. rewrite Hs in Hc. naive_solver. }
  pose proof (opened_next fd s Hn) as Ho. rewrite Hn0 in Hl. cbn in Hl. rewrite app_nil_r in Hl.
  destruct s as [ch st b d r t n cl g]; cbn in *; subst. unfold connect; cbn.
  destruct (bool_decide (e ∈ [0; EINPROGRESS; EINTR; EISCONN])); [|destruct (bool_decide _)].
  - unfold connecting. cbn. rewrite !assert_true by done. cbn. eexists. split; [done|].
    split; [|done]. unfold opened in Ho; cbn in Ho. inv_split Ho. rewrite Hl. solve_Permutation.
  - unfold retry. cbn. eexists. split; [done|]. split; [|done].
    unfold opened in Ho; cbn in Ho. inv_split Ho. rewrite Hl. solve_Permutation.
  - eexists. split; [done|]. split; [|done].
    unfold opened in Ho; cbn in Ho. inv_split Ho. rewrite Hl. solve_Permutation.
Qed.

(** Whatever ends the attempt in progress: the socket is closed or handed over, the
    channel goes. *)
Lemma channel_of s : inv fd s -> state_ s = kConnecting -> exists c, connectChannel_ s = Some c.
Proof.
  intros (_ & _ & Hc & _) Hs. destruct (connectChannel_ s); [by eexists|]. naive_solver.
Qed.

Lemma retry_inv s c b :
  inv fd s -> state_ s = kConnecting -> connectChannel_ s = Some c ->
  exists s', (retry c (set_channel (Some c) (S (resets s)) (set_connected b s))) = Ok s'
    /\ inv fd (run_resets s').
Proof.
  intros (Hn & Hr & Hc & Ht & Hco & Hd & Hf & Hl) Hs Hch.
  assert (timers s = []) as Ht0 by (destruct Ht as [?|[_ ?] ]; [done|congruence]).
  rewrite Hch in Hl. destruct s as [ch st b' d r t n cl g]; cbn in *; subst.
  unfold retry; cbn. destruct b; (eexists; split; [done|]); inv_split Hl.
Qed.

Lemma run_event_inv ev s :
  inv fd s -> allowed ev s -> exists s', run_event ev s = Ok s' /\ inv fd s'.
Proof.
  intros Hi Ha. unfold run_event. destruct ev as [e|e|err self| | |e]; cbn [handle allowed] in *.
  - (* start *)
    destruct Ha as [Hs Ht]. unfold start, startInLoop.
    rewrite assert_true, bind_Ok by (cbn; by rewrite Hs). cbn [connected_ set_connected].
    destruct (connect_inv e (set_connected true s)) as (s' & -> & Hi' & Er); try done.
    { unfold inv, opened in *; cbn. naive_solver. }
    exists s'. cbn. by rewrite Er.
  - (* timer *)
    pose proof Hi as (Hn & Hr & Hc & Ht & Hco & Hd & Hf & Hl).
    destruct Ht as [?|[ [d Ht] Hs] ]; [done|].
    unfold startInLoop. rewrite assert_true, bind_Ok by (cbn; by rewrite Hs).
    rewrite Ht. cbn [tail]. set (s1 := set_retry (retryDelayMs_ s) [] s).
    assert (inv fd s1) as Hi1 by (unfold inv, opened in *; cbn; naive_solver).
    destruct (connected_ s1) eqn:Eb.
    + destruct (connect_inv e s1) as (s' & -> & Hi' & Er); try done. exists s'. cbn. by rewrite Er.
    + exists s1. split; [|done]. cbn. unfold run_resets. cbn. by rewrite Hr.
  - (* writable *)
    destruct (channel_of s Hi Ha) as [c Hc].
    unfold handleWrite. rewrite bool_decide_eq_true_2 by done.
    unfold removeAndResetChannel. rewrite Hc. cbn [mbind outcome_bind].
    destruct (retry_inv s c (connected_ s) Hi Ha Hc) as (s' & Er & Hi').
    assert (set_connected (connected_ s) s = s) as Hid by (by destruct s). rewrite Hid in Er.
    destruct (negb (err =? 0)); [rewrite Er; by eexists|].
    destruct self; [rewrite Er; by eexists|]. cbn [connected_ set_channel].
    destruct Hi as (Hn & Hr & Hcc & Ht & Hco & Hd & Hf & Hl). rewrite (Hco Ha).
    assert (timers s = []) as Ht0 by (destruct Ht as [?|[_ ?] ]; [done|congruence]).
    eexists. split; [done|]. rewrite Hc in Hl. destruct s; cbn in *; subst. inv_split Hl.
  - (* error *)
    destruct (channel_of s Hi Ha) as [c Hc].
    unfold handleError. rewrite bool_decide_eq_true_2 by done.
    unfold removeAndResetChannel. rewrite Hc. cbn [mbind outcome_bind].
    destruct (retry_inv s c (connected_ s) Hi Ha Hc) as (s' & Er & Hi').
    assert (set_connected (connected_ s) s = s) as Hid by (by destruct s). rewrite Hid in Er.
    rewrite Er. by eexists.
  - (* stop *)
    unfold stop, stopInLoop. cbn [state_ set_connected].
    destruct (decide (state_ s = kConnecting)) as [Hs|Hs].
    + rewrite bool_decide_eq_true_2 by done. destruct (channel_of s Hi Hs) as [c Hc].
      unfold removeAndResetChannel. cbn [connectChannel_ setState set_connected]. rewrite Hc.
      cbn [mbind outcome_bind].
      destruct (retry_inv s c false Hi Hs Hc) as (s' & Er & Hi').
      exists (run_resets s'). split; [|done]. unfold retry in *. cbn in *. by injection Er as <-.
    + rewrite bool_decide_eq_false_2 by done. eexists. split; [done|].
      destruct Hi as (Hn & Hr & Hcc & Ht & Hco & Hd & Hf & Hl).
      unfold run_resets. cbn [resets set_connected]. rewrite Hr.
      unfold inv, opened in *; cbn. split_and!; try done; try lia; naive_solver.
  - (* restart *)
    unfold restart, startInLoop. rewrite assert_true, bind_Ok by done.
    cbn [connected_ set_connected setState set_retry].
    pose proof Hi as (Hn & Hr & Hcc & Ht & Hco & Hd & Hf & Hl).
    assert (timers s = []) as Ht0 by (destruct Ht as [?|[_ ?] ]; [done|congruence]).
    assert (connectChannel_ s = None) as Hc0.
    { destruct (connectChannel_ s) eqn:E; [|done]. rewrite Ha in Hcc. naive_solver. }
    set (s1 := set_retry _ _ _).
    destruct (connect_inv e s1) as (s' & -> & Hi' & Er); try done.
    { subst s1. destruct s; cbn in *; subst. inv_split Hl. }
    exists s'. cbn. by rewrite Er.
Qed.
End proofs.
End Connector.

Import Connector.

(** ** Refusals *)

Definition refused (d delay fd : Z) (cl g : list Z) : Connector :=
  mkConnector None kDisconnected true delay 0 [d] fd cl g.

Lemma refused_start `{Build} fd :
  run_event (EvStart ECONNREFUSED) (ctor fd) = Ok (refused 500 1000 (fd + 1) [fd] []).
Proof.
  unfold run_event, handle, start, startInLoop. rewrite assert_true by done. done.
Qed.

Lemma refused_timer `{Build} d delay fd cl g :
  run_event (EvTimer ECONNREFUSED) (refused d delay fd cl g)
  = Ok (refused delay (Z.min (delay * 2) kMaxRetryDelayMs) (fd + 1) (cl ++ [fd]) g).
Proof.
  unfold run_event, handle, startInLoop. rewrite assert_true by done. done.
Qed.

Lemma refusals `{Build} k d delay fd cl g :
  0 < delay <= kMaxRetryDelayMs ->
  exists s, run_events (replicate (S k) (EvTimer ECONNREFUSED)) (refused d delay fd cl g) = Ok s
    /\ timers s = [Z.min (delay * 2 ^ Z.of_nat k) kMaxRetryDelayMs].
Proof.
  revert d delay fd cl. induction k as [|k IH]; intros d delay fd cl Hd;
    cbn [replicate run_events]; rewrite refused_timer, bind_Ok.
  - eexists. split; [done|]. cbn [timers refused]. f_equal. change (2 ^ Z.of_nat 0) with 1. lia.
  - destruct (IH delay (Z.min (delay * 2) kMaxRetryDelayMs) (fd + 1) (cl ++ [fd])) as (s & E & Ht);
      [unfold kMaxRetryDelayMs in *; lia|].
    exists s. split; [exact E|]. rewrite Ht. f_equal.
    rewrite Nat2Z.inj_succ, Z.pow_succ_r by lia.
    pose proof (Z.pow_pos_nonneg 2 (Z.of_nat k)). unfold kMaxRetryDelayMs in *. nia.
Qed.

(** The connector's descriptors and delays.  For every sequence of loop turns in
    which start() is called only on an idle connector, no assert fails, every socket
    created is closed exactly once, or handed to the owner, or the one being connected;
    retries wait between half a second and thirty seconds; and after k refusals in a row
    the next retry waits min(500 * 2^k, 30000) ms. *)
Theorem connector_ledger_and_backoff `{Build} (fd : Z) (evs : list event) (k : nat) :
  allowed_all evs (ctor fd) ->
  (exists s, run_events evs (ctor fd) = Ok s
     /\ opened fd s ≡ₚ closed s ++ given s ++ option_list (connectChannel_ s)
     /\ Forall (fun d => kInitRetryDelayMs <= d <= kMaxRetryDelayMs) (timers s)
     /\ (state_ s = kConnecting <-> connectChannel_ s <> None))
  /\ exists s, run_events (EvStart ECONNREFUSED :: replicate k (EvTimer ECONNREFUSED)) (ctor fd) = Ok s
     /\ timers s = [Z.min (kInitRetryDelayMs * 2 ^ Z.of_nat k) kMaxRetryDelayMs].
Proof.
  intros Ha. split.
  - assert (inv fd (ctor fd)) as Hi.
    { unfold inv, opened, kInitRetryDelayMs, kMaxRetryDelayMs. cbn. rewrite Z.sub_diag.
      split_and!; try done; try lia. by left. }
    revert Hi Ha. generalize (ctor fd). induction evs as [|ev evs IH]; intros s Hi Ha.
    + exists s. destruct Hi as (_ & _ & Hc & _ & _ & _ & Hf & Hl). done.
    + destruct Ha as [Ha Hn]. destruct (run_event_inv fd ev s Hi Ha) as (s' & E & Hi').
      cbn [run_events]. rewrite E. cbn [mbind outcome_bind]. auto.
  - cbn [run_events]. rewrite refused_start, bind_Ok. destruct k as [|k]; [by eexists|].
    destruct (refusals k 500 1000 (fd + 1) [fd] []) as (s & E & Ht); [unfold kMaxRetryDelayMs; lia|].
    exists s. split; [exact E|]. rewrite Ht. f_equal.
    rewrite Nat2Z.inj_succ, Z.pow_succ_r by lia. f_equal. unfold kInitRetryDelayMs. lia.
Qed.

Definition connector_sample : list event :=
  [EvStart EINPROGRESS; EvWritable ECONNREFUSED false; EvTimer EINPROGRESS; EvWritable 0 false;
   EvRestart EINPROGRESS; EvStop].

Lemma connector_ledger_and_backoff_witness :
  exists s, run_events (H := Debug) connector_sample (ctor 3) = Ok s
    /\ opened 3 s ≡ₚ closed s ++ given s ++ option_list (connectChannel_ s).
Proof.
  destruct (connector_ledger_and_backoff (H := Debug) 3 connector_sample 4) as ((s & E & Hl & _) & _).
  - repeat match goal with
    | |- allowed_all _ _ => split
    | |- allowed _ _ => by vm_compute
    | |- forall s', run_event _ _ = Ok s' -> _ =>
        let E := fresh "E" in intros ? E; vm_compute in E; injection E as <-
    end.
  - by exists s.
Defined.

(** Stop() followed by start() is not safe.  In one turn of the loop, while an
    attempt is in progress, the channel of the old attempt is still there: a debug build
    stops at the assert of connecting(), a release build makes a new channel that the
    posted resetChannel of the old one then destroys, still connecting and registered.
    And stop() leaves the retry timer: start() after it makes the timer's startInLoop
    fail its assert, or make a second attempt. *)
Theorem connector_stop_start `{Build} (fd : Z) (s : Connector) d delay n cl g :
  inv fd s -> state_ s = kConnecting ->
  (if NDEBUG
   then exists s', (s1 ← stop s; start EINPROGRESS s1) = Ok s'
          /\ state_ s' = kConnecting /\ connectChannel_ s' = Some (next_fd s)
          /\ connectChannel_ (run_resets s') = None /\ state_ (run_resets s') = kConnecting
   else (s1 ← stop s; start EINPROGRESS s1) = Err AssertFailed)
  /\ (if NDEBUG
      then exists s', run_events [EvStop; EvStart EINPROGRESS; EvTimer EINPROGRESS] (refused d delay n cl g)
             = Ok s' /\ next_fd s' = n + 2 /\ connectChannel_ s' = Some (n + 1)
             /\ closed s' = cl /\ given s' = g
      else run_events [EvStop; EvStart EINPROGRESS; EvTimer EINPROGRESS] (refused d delay n cl g)
             = Err AssertFailed).
Proof.
  intros Hi Hs. destruct (channel_of fd s Hi Hs) as [c Hc]. destruct Hi as (_ & Hr & _).
  destruct s as [ch st b dl r t nf cls gv]; cbn in *; subst. destruct H as [ [] ? ?]; split.
  - eexists. split; [vm_compute; reflexivity|]. done.
  - eexists. split; [cbn; reflexivity|]. cbn. split_and!; try done; lia.
  - done.
  - done.
Qed.

Lemma connector_stop_start_witness :
  (s1 ← stop (mkConnector (Some 3) kConnecting true 500 0 [] 4 [] []);
   start (H := Debug) EINPROGRESS s1) = Err AssertFailed.
Proof.
  apply (connector_stop_start (H := Debug) 3
    (mkConnector (Some 3) kConnecting true 500 0 [] 4 [] []) 500 1000 4 [] []).
  - unfold inv, kInitRetryDelayMs, kMaxRetryDelayMs; cbn. split_and!; try done; try lia. by left.
  - done.
Defined.

(** ** TcpClient *)

Record TcpClient := mkClient {
  name_ : bytes;
  connID_ : Z;
  retry_ : bool;
  connect_ : bool;
  connector_ : Connector;
  connection_ : option bytes;       (* the connection, by its name *)
  established : list bytes;         (* connectionEstablished run on these *)
  destroyed : list bytes;           (* connectionDestroyed posted for these *)
  shut : list bytes;                (* shutdown() called on these *)
  force_closed : list bytes;        (* forceClose() called on these *)
  detached : list bytes             (* setCloseCallback(removeTcpConnection) run on these *)
}.

Definition TcpClient_ctor (name : bytes) (fd : Z) : TcpClient :=
  mkClient name 1 false true (ctor fd) None [] [] [] [] [].

Section client.
Context `{Build}.
Implicit Types s : TcpClient.

Definition set_connector (c : Connector) s := mkClient (name_ s) (connID_ s) (retry_ s) (connect_ s)
  c (connection_ s) (established s) (destroyed s) (shut s) (force_closed s) (detached s).
Definition set_connect (b : bool) s := mkClient (name_ s) (connID_ s) (retry_ s) b
  (connector_ s) (connection_ s) (established s) (destroyed s) (shut s) (force_closed s) (detached s).
Definition enableRetry s := mkClient (name_ s) (connID_ s) true (connect_ s)
  (connector_ s) (connection_ s) (established s) (destroyed s) (shut s) (force_closed s) (detached s).

(** snprintf(buf, 32, ":%s#%d", ...) *)
Definition connName s (peer : bytes) : bytes :=
  name_ s ++ take 31 (cs ":" ++ peer ++ cs "#" ++ fmt_d (connID_ s)).

(** [peer]: toIpPort() of the peer's address.  connectionEstablished runs at once. *)
Definition newConnection (peer : bytes) s : TcpClient :=
  let conn := connName s peer in
  mkClient (name_ s) (i32 (connID_ s + 1)) (retry_ s) (connect_ s) (connector_ s) (Some conn)
    (established s ++ [conn]) (destroyed s) (shut s) (force_closed s) (detached s).

Definition removeConnection (conn : bytes) (savedError : Z) s : outcome TcpClient :=
  assert_ (bool_decide (connection_ s = Some conn)) ;;
  let s := mkClient (name_ s) (connID_ s) (retry_ s) (connect_ s) (connector_ s) None
             (established s) (destroyed s ++ [conn]) (shut s) (force_closed s) (detached s) in
  if retry_ s && connect_ s
  then c ← restart savedError (connector_ s); Ok (set_connector c s)
  else Ok s.

Definition client_connect (savedError : Z) s : outcome TcpClient :=
  c ← start savedError (connector_ s); Ok (set_connector c (set_connect true s)).
Definition client_stop s : outcome TcpClient :=
  c ← stop (connector_ s); Ok (set_connector c (set_connect false s)).
Definition disconnect s : TcpClient :=
  let s := set_connect false s in
  match connection_ s with
  | Some conn => mkClient (name_ s) (connID_ s) (retry_ s) (connect_ s) (connector_ s)
                   (connection_ s) (established s) (destroyed s) (shut s ++ [conn]) (force_closed s)
                   (detached s)
  | None => s
  end.

(** [unique]: nobody else holds the connection. *)
Definition TcpClient_dtor (unique : bool) s : outcome TcpClient :=
  match connection_ s with
  | Some conn =>
      Ok (mkClient (name_ s) (connID_ s) (retry_ s) (connect_ s) (connector_ s) (connection_ s)
            (established s) (destroyed s) (shut s)
            (if unique then force_closed s ++ [conn] else force_closed s) (detached s ++ [conn]))
  | None => c ← stop (connector_ s); Ok (set_connector c s)
  end.

(** One turn: the connector's socket is writable and the connection is made. *)
Definition client_connected (peer : bytes) s : outcome TcpClient :=
  c ← handleWrite 0 false (connector_ s);
  let s := set_connector (run_resets c) s in
  Ok (if bool_decide (Connector.state_ c = kConnected) then newConnection peer s else s).
End client.

(** A client that was told to retry reconnects.  When the connection it made ends,
    connectionDestroyed is posted for it, once, and if retrying is enabled and neither
    stop() nor disconnect() was called the connector begins a new attempt on a new socket
    with the delay reset, with its ledger of descriptors intact; otherwise the connector
    is left alone. *)
Theorem client_reconnects `{Build} (fd : Z) (s : TcpClient) conn :
  inv fd (connector_ s) -> Connector.state_ (connector_ s) = kConnected ->
  connection_ s = Some conn ->
  exists s', removeConnection conn EINPROGRESS s = Ok s'
    /\ connection_ s' = None /\ destroyed s' = destroyed s ++ [conn]
    /\ (if retry_ s && connect_ s
        then Connector.state_ (connector_ s') = kConnecting
             /\ connectChannel_ (connector_ s') = Some (next_fd (connector_ s))
             /\ retryDelayMs_ (connector_ s') = kInitRetryDelayMs
             /\ inv fd (connector_ s')
        else connector_ s' = connector_ s).
Proof.
  intros Hi Hs Hc. unfold removeConnection. rewrite assert_true by (by apply bool_decide_eq_true).
  rewrite bind_Ok. cbn [retry_ connect_ connector_].
  destruct (retry_ s && connect_ s); [|by eexists].
  destruct (run_event_inv fd (EvRestart EINPROGRESS) (connector_ s) Hi Hs) as (c' & E & Hi').
  unfold run_event in E. cbn [handle] in E. apply bind_Ok_inv in E as (c1 & E1 & [= <-]).
  rewrite E1, bind_Ok. eexists. split; [done|]. cbn [connection_ destroyed connector_ set_connector].
  split_and!; [done|done|..].
  4: unfold run_resets in Hi'; destruct (resets c1) eqn:Er; [done|].
  all: destruct Hi as (_ & Hr & Hcc & _); destruct (connector_ s) as [ch st b d r t nf cl g];
    cbn in Hs, Hr, Hcc; subst; destruct ch; [exfalso; naive_solver|];
    destruct H as [ [] ? ?]; vm_compute in E1; injection E1 as <-; done.
Qed.

Definition retrying_client : TcpClient :=
  mkClient (cs "c") 2 true true (mkConnector None kConnected true 1000 0 [] 4 [] [3])
    (Some (cs "c:peer#1")) [cs "c:peer#1"] [] [] [] [].

Lemma client_reconnects_witness :
  exists s', removeConnection (H := Debug) (cs "c:peer#1") EINPROGRESS retrying_client = Ok s'
    /\ connectChannel_ (connector_ s') = Some 4 /\ destroyed s' = [cs "c:peer#1"].
Proof.
  destruct (client_reconnects (H := Debug) 3 retrying_client (cs "c:peer#1"))
    as (s' & E & _ & Hd & _ & Hc & _).
  - unfold inv, kInitRetryDelayMs, kMaxRetryDelayMs; cbn. split_and!; try done; try lia. by left.
  - done.
  - done.
  - by exists s'.
Defined.
