(* ===== verification/Server.v ===== *)
(** * Incoming connections: src/arale/net/InetAddress.{h,cc}, SocketsOps.cc, Socket.cc,
    Acceptor.{h,cc}, TcpServer.{h,cc} and src/arale/base/Atomic.h

    Addresses as the union of sockaddr_in and sockaddr_in6 sees them; what the wrappers
    of the socket calls do with each result; the acceptor; and the server: the map of its
    connections, which loop each is given to, and what is run or posted there. *)

From stdpp Require Import pretty.
From S2P Require Import Prelude Endian Format EventLoop.

(** ** AtomicIntegerT<int32_t>; the __sync builtins are atomic *)

Module Atomic.
Definition get (v : Z) : Z * Z := (v, v).
Definition getAndAdd (x v : Z) : Z * Z := (v, i32 (v + x)).
Definition addAndGet (x v : Z) : Z * Z := let '(old, v) := getAndAdd x v in (i32 (old + x), v).
Definition incrementAndGet (v : Z) : Z * Z := addAndGet 1 v.
Definition decrementAndGet (v : Z) : Z * Z := addAndGet (-1) v.
Definition add (x v : Z) : Z := (getAndAdd x v).2.
Definition increment (v : Z) : Z := (incrementAndGet v).2.
Definition decrement (v : Z) : Z := (decrementAndGet v).2.
Definition getAndSet (newValue v : Z) : Z * Z := (v, newValue).
End Atomic.

(** ** Addresses *)

Definition AF_INET : Z := 2.
Definition AF_INET6 : Z := 10.

(** The union of sockaddr_in and sockaddr_in6, as stored (network byte order): family and
    port are at the same place in both, sin_addr shares its bytes with sin6_flowinfo, and
    what follows them is sin6_addr. *)
Record InetAddress := mkAddr { family : Z; port_net : Z; sin_addr : bytes; sin6_addr : bytes }.

Section address.
Context `{Build}.
(** inet_ntop for IPv6 and inet_pton; the latter gives the bytes of the address. *)
Context (ntop6 : bytes -> bytes) (pton : Z -> bytes -> option bytes).

Definition zeros (n : nat) : bytes := replicate n NUL.
Definition in6addr_any : bytes := zeros 16.
Definition in6addr_loopback : bytes := zeros 15 ++ [to_char 1].
Definition INADDR_ANY : Z := 0.
Definition INADDR_LOOPBACK : Z := 2130706433.        (* 127.0.0.1 *)

Definition InetAddress_port (port : Z) (loopbackOnly ipv6 : bool) : InetAddress :=
  if ipv6
  then mkAddr AF_INET6 (hostToNetwork16 port) (zeros 4)
         (if loopbackOnly then in6addr_loopback else in6addr_any)
  else mkAddr AF_INET (hostToNetwork16 port)
         (host_bytes 4 (hostToNetwork32 (if loopbackOnly then INADDR_LOOPBACK else INADDR_ANY)))
         (zeros 16).

(** sockets::fromIpPort, for sockaddr_in6 and sockaddr_in: an address that does not parse
    leaves what was there (and a line in the log). *)
Definition fromIpPort6 (ip : bytes) (port : Z) (addr : InetAddress) : InetAddress :=
  mkAddr AF_INET6 (hostToNetwork16 port) (sin_addr addr) (default (sin6_addr addr) (pton AF_INET6 ip)).
Definition fromIpPort4 (ip : bytes) (port : Z) (addr : InetAddress) : InetAddress :=
  mkAddr AF_INET (hostToNetwork16 port) (default (sin_addr addr) (pton AF_INET ip)) (sin6_addr addr).
(** bzero'd before. *)
Definition InetAddress_ip (s : bytes) (port : Z) (ipv6 : bool) : InetAddress :=
  let addr := mkAddr 0 0 (zeros 4) (zeros 16) in
  if ipv6 then fromIpPort6 s port addr else fromIpPort4 s port addr.

(** inet_ntop for IPv4. *)
Definition ntop4 (a : bytes) : bytes :=
  match a with
  | [b0; b1; b2; b3] =>
      fmt_d (uchar b0) ++ cs "." ++ fmt_d (uchar b1) ++ cs "." ++ fmt_d (uchar b2)
      ++ cs "." ++ fmt_d (uchar b3)
  | _ => []
  end.

Definition toIp (a : InetAddress) : bytes :=
  if family a =? AF_INET then ntop4 (sin_addr a) else ntop6 (sin6_addr a).
Definition toPort (a : InetAddress) : Z := networkToHost16 (port_net a).
(** buf has 64 bytes. *)
Definition toIpPort (a : InetAddress) : bytes :=
  take 63 (toIp a ++ cs ":" ++ fmt_d (networkToHost16 (port_net a))).
Definition ipNetEndian (a : InetAddress) : outcome Z :=
  assert_ (family a =? AF_INET) ;; Ok (host_val (sin_addr a)).
(** [he]: the first address gethostbyname_r finds, as (h_addrtype, h_addr). *)
Definition resolve (he : option (Z * bytes)) (out : InetAddress) : outcome (bool * InetAddress) :=
  match he with
  | Some (h_addrtype, addr) =>
      assert_ ((h_addrtype =? AF_INET) && (zlen addr =? 4)) ;;
      Ok (true, mkAddr (family out) (port_net out) addr (sin6_addr out))
  | None => Ok (false, out)
  end.

(** The second test is the same as the first. *)
Definition isSelfConnect (localaddr peeraddr : InetAddress) : bool :=
  if family localaddr =? AF_INET then
    (port_net localaddr =? port_net peeraddr)
    && bool_decide (sin_addr localaddr = sin_addr peeraddr)
  else if family localaddr =? AF_INET then
    (family localaddr =? family peeraddr) && bool_decide (sin6_addr localaddr = sin6_addr peeraddr)
  else false.
End address.

(** ** The socket calls *)

Definition createNonblockingOrDie (ret : Z) : outcome Z :=
  if ret <? 0 then Err FatalLog else Ok ret.
Definition bindOrDie (ret : Z) : outcome unit := if ret <? 0 then Err FatalLog else Ok tt.
Definition listenOrDie (ret : Z) : outcome unit := if ret <? 0 then Err FatalLog else Ok tt.

(** accept4 returns a descriptor and the peer, or an errno. *)
Inductive accept_result := Accepted (fd : Z) (peer : InetAddress) | AcceptErr (errno : Z).
Definition EMFILE : Z := 24.

(** LOG_SYSFATAL comes before the switch that tells the errors apart. *)
Definition sockets_accept (r : accept_result) : outcome (Z * InetAddress) :=
  match r with
  | Accepted fd peer => Ok (fd, peer)
  | AcceptErr _ => Err FatalLog
  end.

(** ** Acceptor *)

Record Acceptor := mkAcceptor { isListening_ : bool; acceptReading : bool; backupFd_ : Z }.

(** The return values of socket, bind and open of /dev/null. *)
Definition Acceptor_ctor (sock bind_ret devnull : Z) : outcome Acceptor :=
  createNonblockingOrDie sock ;; bindOrDie bind_ret ;; Ok (mkAcceptor false false devnull).
Definition startListening (listen_ret : Z) (a : Acceptor) : outcome Acceptor :=
  listenOrDie listen_ret ;; Ok (mkAcceptor true true (backupFd_ a)).
(** What to do with the accepted descriptor: pass it on (if there is a callback) or close
    it.  After a failure with EMFILE the backup descriptor makes room for a second accept. *)
Inductive accept_action := PassOn (fd : Z) (peer : InetAddress) | CloseFd (fd : Z).
Definition handleNewConnection (has_callback : bool) (r : accept_result) (errno : Z)
    (r2 : accept_result) (devnull : Z) (a : Acceptor) : outcome (list accept_action * Acceptor) :=
  '(newconnfd, peeraddr) ← sockets_accept r;
  if 0 <? newconnfd then
    Ok (if has_callback then [PassOn newconnfd peeraddr] else [CloseFd newconnfd], a)
  else if errno =? EMFILE then
    '(fd2, _) ← sockets_accept r2;
    Ok ([CloseFd (backupFd_ a); CloseFd fd2], mkAcceptor (isListening_ a) (acceptReading a) devnull)
  else Ok ([], a).
(** disableAll() and remove() on the channel if it was listening; the backup is closed. *)
Definition Acceptor_dtor (a : Acceptor) : list accept_action * Acceptor :=
  ([CloseFd (backupFd_ a)],
   mkAcceptor (isListening_ a) (if isListening_ a then false else acceptReading a) (backupFd_ a)).

(** When descriptors run out the process ends: the branch for EMFILE is not reached. *)
Lemma accept_failure_fatal has_callback e errno r2 devnull a :
  handleNewConnection has_callback (AcceptErr e) errno r2 devnull a = Err FatalLog.
Proof. done. Qed.

(** ** TcpServer *)

(** A connection is known by its name; [established] and [destroyed] list the loops and
    names for which connectionEstablished and connectionDestroyed were given to the loop,
    and [removals] what removeConnection has posted to the server's own loop. *)
Record TcpServer := mkServer {
  srv_name_ : bytes;
  ipPort_ : bytes;
  nextConnId_ : Z;
  threadPool_ : EventLoopThreadPool;
  connections_ : list (bytes * Z);          (* std::map: by name, the loop *)
  started_ : Z;
  accptor_ : Acceptor;
  established : list (Z * bytes);
  destroyed : list (Z * bytes);
  removals : list (Z * bytes)
}.

Definition TcpServer_ctor (loop : Z) (name ipPort : bytes) (a : Acceptor) : TcpServer :=
  mkServer name ipPort 1 (Pool_ctor loop) [] 0 a [] [] [].

Section server.
Context `{Build}.
Implicit Types s : TcpServer.

Definition set_pool p s := mkServer (srv_name_ s) (ipPort_ s) (nextConnId_ s) p (connections_ s)
  (started_ s) (accptor_ s) (established s) (destroyed s) (removals s).
Definition set_removals l s := mkServer (srv_name_ s) (ipPort_ s) (nextConnId_ s) (threadPool_ s)
  (connections_ s) (started_ s) (accptor_ s) (established s) (destroyed s) l.
Definition srv_setThreadNum (n : Z) s : TcpServer := set_pool (setThreadNum n (threadPool_ s)) s.

Definition srv_start (has_callback : bool) (new_loops : nat -> Z) (listen_ret : Z) s
    : outcome TcpServer :=
  let '(old, v) := Atomic.getAndAdd 1 (started_ s) in
  let s := mkServer (srv_name_ s) (ipPort_ s) (nextConnId_ s) (threadPool_ s) (connections_ s)
             v (accptor_ s) (established s) (destroyed s) (removals s) in
  if old =? 0 then
    '(p, _) ← pool_start true has_callback new_loops (threadPool_ s);
    assert_ (negb (isListening_ (accptor_ s))) ;;
    a ← startListening listen_ret (accptor_ s);
    Ok (mkServer (srv_name_ s) (ipPort_ s) (nextConnId_ s) p (connections_ s) (started_ s) a
          (established s) (destroyed s) (removals s))
  else Ok s.

(** snprintf(buf, 64, "-%s#%d", ...) *)
Definition conn_name (name ipPort : bytes) (id : Z) : bytes :=
  name ++ take 63 (cs "-" ++ ipPort ++ cs "#" ++ fmt_d id).

(** connections_[connName] = newConn *)
Definition map_put (k : bytes) (v : Z) (m : list (bytes * Z)) : list (bytes * Z) :=
  (k, v) :: filter (fun e => e.1 <> k) m.

Definition newConncetion s : outcome TcpServer :=
  '(loop, p) ← getNextLoop true (threadPool_ s);
  let connName := conn_name (srv_name_ s) (ipPort_ s) (nextConnId_ s) in
  Ok (mkServer (srv_name_ s) (ipPort_ s) (i32 (nextConnId_ s + 1)) p
        (map_put connName loop (connections_ s)) (started_ s) (accptor_ s)
        (established s ++ [(loop, connName)]) (destroyed s) (removals s)).

(** [loop]: conn->getLoop() *)
Definition removeConnectionInLoop (connName : bytes) (loop : Z) s : outcome TcpServer :=
  let found := bool_decide (connName ∈ (connections_ s).*1) in
  assert_ found ;;
  Ok (mkServer (srv_name_ s) (ipPort_ s) (nextConnId_ s) (threadPool_ s)
        (filter (fun e => e.1 <> connName) (connections_ s)) (started_ s) (accptor_ s)
        (established s) (destroyed s ++ [(loop, connName)]) (removals s)).

(** The close callback, run in the connection's loop: loop_->runInLoop. *)
Definition removeConnection (connName : bytes) (loop : Z) s : outcome TcpServer :=
  if loop =? baseLoop_ (threadPool_ s) then removeConnectionInLoop connName loop s
  else Ok (set_removals (removals s ++ [(loop, connName)]) s).
(** The server's loop runs the oldest functor removeConnection has posted. *)
Definition run_removal s : outcome TcpServer :=
  match removals s with
  | [] => Ok s
  | (loop, connName) :: l => removeConnectionInLoop connName loop (set_removals l s)
  end.

(** The connections left are given to their loops.  A removal still posted holds a raw
    pointer to the server and is not followed any further. *)
Definition TcpServer_dtor s : TcpServer :=
  mkServer (srv_name_ s) (ipPort_ s) (nextConnId_ s) (threadPool_ s) [] (started_ s) (accptor_ s)
    (established s) (destroyed s ++ ((fun e => (e.2, e.1)) <$> connections_ s)) (removals s).
End server.

(** ** Specification: connections are numbered in the order they come

    A connection is accepted, a connection's loop closes it, or the server's loop gets to
    the next removal posted to it. *)

Inductive srv_op := SNew | SClose (i : nat) | SRemoval.

Definition srv_step `{Build} (op : srv_op) (s : TcpServer) : outcome TcpServer :=
  match op with
  | SNew => newConncetion s
  | SClose i =>
      match established s !! i with
      | Some (loop, connName) => removeConnection connName loop s
      | None => Err OutOfBounds
      end
  | SRemoval => run_removal s
  end.
Fixpoint srv_run `{Build} (ops : list srv_op) (s : TcpServer) : outcome TcpServer :=
  match ops with
  | [] => Ok s
  | op :: ops' => s ← srv_step op s; srv_run ops' s
  end.

(** The number of connections made, those whose removal is posted, and those removed. *)
Record srv_spec := mkSpec { made : nat; awaiting : list nat; removed : list nat }.
Definition spec_step (direct : nat -> bool) (op : srv_op) (a : srv_spec) : srv_spec :=
  match op with
  | SNew => mkSpec (S (made a)) (awaiting a) (removed a)
  | SClose i => if direct i then mkSpec (made a) (awaiting a) (removed a ++ [i])
                else mkSpec (made a) (awaiting a ++ [i]) (removed a)
  | SRemoval => match awaiting a with
                | [] => a
                | i :: l => mkSpec (made a) l (removed a ++ [i])
                end
  end.
Definition srv_spec_run (direct : nat -> bool) (ops : list srv_op) (a : srv_spec) : srv_spec :=
  foldl (fun a op => spec_step direct op a) a ops.

(** Only a connection that is open is closed, and the counter of names does not wrap. *)
Definition op_allowed (op : srv_op) (a : srv_spec) : Prop :=
  match op with
  | SNew => Z.of_nat (S (made a)) < 2 ^ 31 - 1
  | SClose i => (i < made a)%nat /\ i ∉ awaiting a /\ i ∉ removed a
  | SRemoval => True
  end.
Fixpoint srv_allowed (direct : nat -> bool) (ops : list srv_op) (a : srv_spec) : Prop :=
  match ops with
  | [] => True
  | op :: ops' => op_allowed op a /\ srv_allowed direct ops' (spec_step direct op a)
  end.

Lemma fmt_d_inj a b : fmt_d a = fmt_d b -> a = b.
Proof.
  unfold fmt_d, cs. intros E. apply (f_equal String.string_of_list_ascii) in E.
  rewrite !String.string_of_list_ascii_of_string in E. by apply (inj pretty).
Qed.

Lemma conn_name_inj name ipPort a b :
  (length ipPort <= 51)%nat -> 0 <= a < 2 ^ 31 -> 0 <= b < 2 ^ 31 ->
  conn_name name ipPort a = conn_name name ipPort b -> a = b.
Proof.
  intros Hl Ha Hb. unfold conn_name. intros E. apply (inj (app name)) in E.
  assert (forall v, 0 <= v < 2 ^ 31 -> (length (fmt_d v) <= 10)%nat) as Hd
    by (intros v Hv; apply fmt_d_length; lia).
  pose proof (Hd a Ha). pose proof (Hd b Hb).
  rewrite !take_ge in E by (rewrite !length_app; cbn; lia).
  apply (inj (app _)), (inj (app _)), (inj (app _)) in E. by apply fmt_d_inj.
Qed.

Lemma filter_keep {A} (Q : A -> Prop) `{forall x, Decision (Q x)} (l : list A) :
  (forall x, x ∈ l -> Q x) -> filter Q l = l.
Proof.
  induction l as [|x l IH]; intros Hl; [done|].
  rewrite filter_cons_True by set_solver. f_equal. apply IH. set_solver.
Qed.

Lemma filter_fmap_sub {A B} (g : A -> B) (Q : B -> Prop) (R R' : A -> Prop)
    `{forall x, Decision (Q x), forall x, Decision (R x), forall x, Decision (R' x)} (l : list A) :
  (forall x, x ∈ l -> R' x <-> Q (g x) /\ R x) -> filter Q (g <$> filter R l) = g <$> filter R' l.
Proof.
  induction l as [|x l IH]; intros Hl; [done|].
  assert (R' x <-> Q (g x) /\ R x) as Hx by set_solver.
  specialize (IH ltac:(set_solver)). destruct (decide (R x)).
  - rewrite filter_cons_True by done. cbn [fmap list_fmap]. destruct (decide (Q (g x))).
    + rewrite !filter_cons_True by naive_solver. cbn [fmap list_fmap]. by f_equal.
    + by rewrite !filter_cons_False by naive_solver.
  - by rewrite !filter_cons_False by naive_solver.
Qed.

Lemma succ_mod (k n : nat) : n <> O ->
  (S k mod n = if decide (S (k mod n) = n) then 0 else S (k mod n))%nat.
Proof.
  intros Hn. pose proof (Nat.div_mod_eq k n) as E. pose proof (Nat.mod_upper_bound k n Hn).
  case_decide as Hd; symmetry.
  - apply (Nat.mod_unique _ _ (S (k / n))); [lia|]. nia.
  - apply (Nat.mod_unique _ _ (k / n)); lia.
Qed.

Section server_proofs.
Context `{Build} (name ipPort : bytes) (base : Z) (loops : list Z).
Context (Hip : (length ipPort <= 51)%nat).
Implicit Types s : TcpServer.

(** The loop and the name of the i-th connection. *)
Definition loop_of (i : nat) : Z :=
  match loops with [] => base | _ => nth (i mod length loops) loops base end.
Definition name_of (i : nat) : bytes := conn_name name ipPort (1 + Z.of_nat i).
Definition conn_of (i : nat) : Z * bytes := (loop_of i, name_of i).
Definition entry_of (i : nat) : bytes * Z := (name_of i, loop_of i).
(** Closed in the server's own loop, where nothing is posted. *)
Definition direct (i : nat) : bool := loop_of i =? base.
(** The connections in the map: made and not removed. *)
Definition live (a : srv_spec) : list nat := filter (fun i => i ∉ removed a) (seq 0 (made a)).

Definition spec_inv (a : srv_spec) : Prop :=
  Z.of_nat (made a) < 2 ^ 31 - 1 /\ NoDup (removed a ++ awaiting a)
  /\ Forall (fun i => i < made a)%nat (removed a ++ awaiting a).

Definition srv_inv (a : srv_spec) s : Prop :=
  srv_name_ s = name /\ ipPort_ s = ipPort /\ nextConnId_ s = 1 + Z.of_nat (made a)
  /\ baseLoop_ (threadPool_ s) = base /\ loops_ (threadPool_ s) = loops
  /\ (loops <> [] -> next_ (threadPool_ s) = Z.of_nat (made a mod length loops))
  /\ established s = conn_of <$> seq 0 (made a)
  /\ destroyed s = conn_of <$> removed a
  /\ removals s = conn_of <$> awaiting a
  /\ connections_ s ≡ₚ entry_of <$> live a.

Lemma name_of_inj i j : Z.of_nat i < 2 ^ 31 - 1 -> Z.of_nat j < 2 ^ 31 - 1 ->
  name_of i = name_of j -> i = j.
Proof. intros Hi Hj E. apply conn_name_inj in E; lia. Qed.

Lemma getNextLoop_spec k p :
  baseLoop_ p = base -> loops_ p = loops ->
  (loops <> [] -> next_ p = Z.of_nat (k mod length loops)) ->
  exists p', getNextLoop true p = Ok (loop_of k, p') /\ baseLoop_ p' = base /\ loops_ p' = loops
    /\ (loops <> [] -> next_ p' = Z.of_nat (S k mod length loops)).
Proof.
  intros Hb Hl Hn. unfold getNextLoop, loop_of. cbn [assertInLoopThread mbind outcome_bind].
  rewrite Hl. destruct loops as [|l0 ls]; [exists p; rewrite Hb, Hl; done|].
  rewrite (Hn ltac:(done)), Nat2Z.id. set (L := l0 :: ls) in *.
  assert (length L <> O) as Hnz by done.
  pose proof (Nat.mod_upper_bound k (length L) Hnz) as Hlt.
  rewrite nth_lookup. destruct (lookup_lt_is_Some_2 L (k mod length L) Hlt) as [x Hx].
  rewrite Hx. eexists. split; [done|]. cbn [baseLoop_ loops_ next_]. split_and!; [done|done|].
  intros _. rewrite (succ_mod k (length L) Hnz). unfold zlen. case_decide as Hd.
  - rewrite (proj2 (Z.leb_le _ _)) by lia. done.
  - rewrite (proj2 (Z.leb_gt _ _)) by lia. lia.
Qed.

Lemma spec_inv_step op a : spec_inv a -> op_allowed op a -> spec_inv (spec_step direct op a).
Proof.
  intros (Hk & Hnd & Hf). destruct op as [|i|]; cbn [op_allowed spec_step].
  - intros Hk'. split_and!; [done|done|]. eapply Forall_impl; [exact Hf|]. cbn. lia.
  - intros (Hi & Hp & Hr). set (b := direct i). 
    assert (NoDup (i :: removed a ++ awaiting a)
            /\ Forall (fun j => j < made a)%nat (i :: removed a ++ awaiting a)) as [Hnd' Hf'].
    { split; [constructor; [|done]; by rewrite not_elem_of_app|by constructor]. }
    destruct b; unfold spec_inv; cbn [made awaiting removed]; (split_and!; [done| |]).
    all: match goal with
         | |- NoDup ?l => assert (l ≡ₚ i :: removed a ++ awaiting a) as -> by solve_Permutation
         | |- Forall _ ?l => assert (l ≡ₚ i :: removed a ++ awaiting a) as -> by solve_Permutation
         end; done.
  - intros _. destruct (awaiting a) as [|i l] eqn:E; [by unfold spec_inv; rewrite E|].
    unfold spec_inv. cbn [made awaiting removed]. rewrite <- (assoc_L (++)). done.
Qed.

Lemma srv_new_inv a s :
  spec_inv (spec_step direct SNew a) -> spec_inv a -> srv_inv a s ->
  exists s', newConncetion s = Ok s' /\ srv_inv (spec_step direct SNew a) s'.
Proof.
  intros (Hk & _ & _) (_ & _ & Hf) (Hn & Hi & Hid & Hb & Hl & Hnx & He & Hd & Hrm & Hc).
  cbn [spec_step made] in Hk. set (k := made a) in *. unfold newConncetion.
  destruct (getNextLoop_spec k (threadPool_ s) Hb Hl Hnx) as (p' & -> & Hb' & Hl' & Hn').
  cbn [mbind outcome_bind]. eexists. split; [done|]. rewrite Hn, Hi, Hid.
  change (conn_name name ipPort (1 + Z.of_nat k)) with (name_of k).
  unfold srv_inv, spec_step. cbn [srv_name_ ipPort_ nextConnId_ threadPool_ established destroyed
    connections_ removals made awaiting removed]. fold k.
  split_and!; try done.
  - rewrite wraps_small by lia. lia.
  - rewrite seq_S, fmap_app, He. done.
  - unfold map_put, live. cbn [made removed]. rewrite seq_S, filter_app, fmap_app. cbn [plus].
    assert (k ∉ removed a) as Hkc.
    { intros Hin. rewrite Forall_app, !Forall_forall in Hf. apply Hf in Hin. lia. }
    rewrite (filter_cons_True _ k) by done. cbn [fmap list_fmap filter list_filter].
    rewrite filter_keep.
    + rewrite Hc. unfold live, entry_of. fold k. solve_Permutation.
    + intros e. rewrite Hc. intros (i & -> & Hin)%list_elem_of_fmap. cbn.
      apply list_elem_of_filter in Hin as [_ Hin%elem_of_seq].
      intros E. apply name_of_inj in E; lia.
Qed.

(** Removing a connection that is in the map. *)
Lemma remove_inv a s i :
  Z.of_nat (made a) < 2 ^ 31 - 1 -> srv_inv a s -> (i < made a)%nat -> i ∉ removed a ->
  exists s', removeConnectionInLoop (name_of i) (loop_of i) s = Ok s'
    /\ srv_inv (mkSpec (made a) (awaiting a) (removed a ++ [i])) s'.
Proof.
  intros Hk (Hn & Hi & Hid & Hb & Hl & Hnx & He & Hd & Hrm & Hc) Hik Hicl.
  unfold removeConnectionInLoop. rewrite assert_true.
  2:{ apply bool_decide_eq_true. rewrite Hc, list_elem_of_fmap. exists (entry_of i).
      split; [done|]. apply list_elem_of_fmap. exists i. split; [done|].
      apply list_elem_of_filter. split; [done|]. apply elem_of_seq. lia. }
  cbn [mbind outcome_bind]. eexists. split; [done|]. unfold srv_inv.
  cbn [srv_name_ ipPort_ nextConnId_ threadPool_ established destroyed connections_ removals
    made awaiting removed].
  split_and!; try done.
  - by rewrite fmap_app, Hd.
  - rewrite Hc. unfold live. cbn [made removed].
    rewrite (filter_fmap_sub _ _ _ (fun j => j ∉ removed a ++ [i])); [done|].
    intros j Hj%elem_of_seq. cbn. rewrite not_elem_of_app, list_elem_of_singleton.
    assert (name_of j <> name_of i <-> j <> i) as ->; [|naive_solver].
    split; [congruence|]. intros Hne E. apply Hne. apply name_of_inj in E; lia.
Qed.

Lemma set_removals_inv a s l p :
  srv_inv a s -> l = conn_of <$> p ->
  srv_inv (mkSpec (made a) p (removed a)) (set_removals l s).
Proof. intros Hi ->. unfold srv_inv in *. cbn in *. naive_solver. Qed.

Lemma srv_step_inv op a s :
  spec_inv a -> op_allowed op a -> srv_inv a s ->
  exists s', srv_step op s = Ok s' /\ srv_inv (spec_step direct op a) s'.
Proof.
  intros Ha Hop Hs. pose proof (spec_inv_step op a Ha Hop) as Ha'.
  pose proof Ha as (Hk & Hnd & Hf).
  pose proof Hs as (_ & _ & _ & Hb & _ & _ & He & _ & Hrm & _).
  destruct op as [|i|]; cbn [srv_step spec_step].
  - by apply srv_new_inv.
  - destruct Hop as (Hi & _ & Hr). rewrite He, list_lookup_fmap, lookup_seq_lt by done.
    cbn [fmap option_fmap option_map plus]. unfold conn_of, removeConnection, direct. rewrite Hb.
    destruct (loop_of i =? base).
    + by apply remove_inv.
    + eexists. split; [done|]. apply set_removals_inv; [done|]. by rewrite Hrm, fmap_app.
  - unfold run_removal. rewrite Hrm. destruct (awaiting a) as [|i l] eqn:E.
    + by exists s.
    + cbn [fmap list_fmap]. unfold conn_of at 1.
      apply (remove_inv (mkSpec (made a) l (removed a))); [done| | |].
      * by apply set_removals_inv.
      * rewrite Forall_app, !Forall_forall in Hf. apply Hf. set_solver.
      * apply NoDup_app in Hnd as (_ & Hnd & _). intros Hin. apply (Hnd i Hin). set_solver.
Qed.

Lemma srv_run_inv ops a s :
  spec_inv a -> srv_allowed direct ops a -> srv_inv a s ->
  exists s', srv_run ops s = Ok s' /\ srv_inv (srv_spec_run direct ops a) s'
    /\ spec_inv (srv_spec_run direct ops a).
Proof.
  revert a s. induction ops as [|op ops IH]; intros a s Ha Hall Hs; [by exists s|].
  destruct Hall as [Hop Hall]. cbn [srv_run].
  destruct (srv_step_inv op a s Ha Hop Hs) as (s1 & -> & Hs1). cbn [mbind outcome_bind].
  apply (IH (spec_step direct op a)); [by apply spec_inv_step|done|done].
Qed.

(** The destructor gives up the connections that are left. *)
Lemma dtor_destroys a s :
  spec_inv a -> srv_inv a s ->
  destroyed (TcpServer_dtor s) ≡ₚ conn_of <$> seq 0 (made a).
Proof.
  clear Hip.
  intros (_ & Hnd & Hf) (_ & _ & _ & _ & _ & _ & _ & Hd & _ & Hc). cbn [TcpServer_dtor destroyed].
  rewrite Hd, Hc, <- list_fmap_compose.
  change (((fun e : bytes * Z => (e.2, e.1)) ∘ entry_of) <$> live a) with (conn_of <$> live a).
  rewrite <- fmap_app. apply fmap_Permutation.
  apply NoDup_Permutation; [|apply NoDup_seq|].
  - apply NoDup_app. split; [by apply NoDup_app in Hnd as [? _]|]. split.
    + intros i Hi. unfold live. rewrite list_elem_of_filter. naive_solver.
    + apply NoDup_filter, NoDup_seq.
  - intros i. unfold live. rewrite elem_of_app, list_elem_of_filter, elem_of_seq.
    rewrite Forall_app, !Forall_forall in Hf. destruct Hf as [Hf _].
    destruct (decide (i ∈ removed a)) as [Hin|]; [|naive_solver lia].
    specialize (Hf i Hin). naive_solver lia.
Qed.
End server_proofs.

(** C10: the server and its connections.  After start() with n threads, for every sequence
    of accepted connections, closings of open ones in their loops and removals the
    server's loop gets to, no assert fails; the i-th connection is established in loop
    i mod n (the base loop when there are no threads) under a name no other connection
    has; a connection closed in the server's loop is removed at once, one closed in
    another loop when the functor posted for it runs, in the order of the posts; the map
    holds exactly the connections not removed; connectionDestroyed is given once to the
    loop of each removed one; and the destructor gives it to those that are left, so that
    every connection is destroyed exactly once. *)
Theorem server_connections `{Build} name ipPort base n new_loops cb a ops :
  let loops := new_loops <$> seq 0 (Z.to_nat n) in
  let conn := conn_of name ipPort base loops in
  let d := direct base loops in
  let spec := srv_spec_run d ops (mkSpec 0 [] []) in
  (length ipPort <= 51)%nat -> isListening_ a = false -> srv_allowed d ops (mkSpec 0 [] []) ->
  exists s0 s,
    srv_start cb new_loops 0 (srv_setThreadNum n (TcpServer_ctor base name ipPort a)) = Ok s0
    /\ isListening_ (accptor_ s0) = true
    /\ srv_run ops s0 = Ok s
    /\ established s = conn <$> seq 0 (made spec)
    /\ NoDup (established s).*2
    /\ removals s = conn <$> awaiting spec
    /\ destroyed s = conn <$> removed spec
    /\ connections_ s ≡ₚ entry_of name ipPort base loops <$> live spec
    /\ destroyed (TcpServer_dtor s) ≡ₚ established s.
Proof.
  intros loops conn d spec Hip Ha Hops.
  set (s0 := mkServer name ipPort 1 (mkPool base n true 0 loops) [] 1
               (mkAcceptor true true (backupFd_ a)) [] [] []).
  assert (srv_start cb new_loops 0 (srv_setThreadNum n (TcpServer_ctor base name ipPort a)) = Ok s0) as E0.
  { unfold srv_start, pool_start. cbn. rewrite (assert_true true) by done. cbn.
    rewrite Ha. rewrite (assert_true (negb false)) by done. done. }
  assert (spec_inv (mkSpec 0 [] [])) as Hspec.
  { unfold spec_inv. cbn. split_and!; [lia|constructor|constructor]. }
  assert (srv_inv name ipPort base loops (mkSpec 0 [] []) s0) as Hi0.
  { unfold srv_inv. cbn. split_and!; try done. intros Hne. by rewrite Nat.Div0.mod_0_l. }
  destruct (srv_run_inv name ipPort base loops Hip ops (mkSpec 0 [] []) s0 Hspec Hops Hi0)
    as (s & E & Hi & Hsp).
  pose proof (dtor_destroys name ipPort base loops spec s Hsp Hi) as Hdt.
  pose proof Hi as (_ & _ & _ & _ & _ & _ & He & Hd & Hrm & Hc). fold d spec in He, Hd, Hrm, Hc.
  exists s0, s. split_and!; try done.
  - rewrite He, <- list_fmap_compose. destruct Hsp as (Hk & _).
    apply NoDup_fmap_2_strong; [|apply NoDup_seq].
    intros i j Hii%elem_of_seq Hj%elem_of_seq. cbn. fold d spec in Hk.
    intros En. apply name_of_inj in En; lia.
  - by rewrite He.
Qed.

Definition sample_srv_ops : list srv_op :=
  [SNew; SNew; SClose 1; SNew; SClose 0; SRemoval; SNew; SRemoval; SClose 2].

Lemma server_connections_witness :
  exists s0 s,
    srv_start (H := Debug) false (fun i => 10 + Z.of_nat i) 0
      (srv_setThreadNum 2 (TcpServer_ctor 1 (cs "srv") (cs "0.0.0.0:80") (mkAcceptor false false 9))) = Ok s0
    /\ srv_run (H := Debug) sample_srv_ops s0 = Ok s
    /\ destroyed s = [(11, cs "srv-0.0.0.0:80#2"); (10, cs "srv-0.0.0.0:80#1")]
    /\ removals s = [(10, cs "srv-0.0.0.0:80#3")].
Proof.
  destruct (server_connections (H := Debug) (cs "srv") (cs "0.0.0.0:80") 1 2
    (fun i => 10 + Z.of_nat i) false (mkAcceptor false false 9) sample_srv_ops)
    as (s0 & s & E0 & _ & E & _ & _ & Hrm & Hd & _).
  - apply Nat.leb_le. by vm_compute.
  - done.
  - cbn. split_and!; try done; try lia; set_solver.
  - exists s0, s. split_and!; [done|done| |].
    + rewrite Hd. by vm_compute.
    + rewrite Hrm. by vm_compute.
Defined.
