(* ===== verification/Sockets.v ===== *)
(** * The socket calls: src/arale/net/SocketsOps.cc, Socket.{h,cc} and Acceptor.cc over them

    The operations of Server.v and Connector.v take the results of system calls as
    arguments.  Here the calls themselves are made: the kernel is an unknown function from
    what it has been asked so far and the next call to a reply, and an operation leaves a
    trace of its calls.  The theorems say which descriptors are closed, which failures are
    reported and how, and that the operations of Server.v are these. *)

From S2P Require Import Prelude Endian Format Server.

(** ** The kernel *)

Definition SOCK_STREAM : Z := 1.
Definition SOCK_NONBLOCK : Z := 2048.
Definition SOCK_CLOEXEC : Z := 524288.
Definition IPPROTO_TCP : Z := 6.
Definition SOL_SOCKET : Z := 1.
Definition SOL_TCP : Z := 6.
Definition SO_REUSEADDR : Z := 2.
Definition SO_ERROR : Z := 4.
Definition SO_KEEPALIVE : Z := 9.
Definition SO_REUSEPORT : Z := 15.
Definition TCP_NODELAY : Z := 1.
Definition TCP_INFO : Z := 11.
Definition SHUT_WR : Z := 1.
Definition SOMAXCONN : Z := 4096.
Definition O_RDONLY : Z := 0.
Definition O_CLOEXEC : Z := 524288.
Definition sizeof_sockaddr_in6 : Z := 28.

Inductive call :=
  | Socket_ (family type protocol : Z)
  | Bind (fd : Z) (addr : InetAddress) (len : Z)
  | Listen (fd backlog : Z)
  | Accept4 (fd len flags : Z)
  | Connect (fd : Z) (addr : InetAddress) (len : Z)
  | Read (fd count : Z)
  | Readv (fd : Z) (lens : list Z)
  | Write (fd : Z) (data : bytes)
  | Close (fd : Z)
  | Shutdown (fd how : Z)
  | Setsockopt (fd level optname optval : Z)
  | Getsockopt (fd level optname : Z)
  | Getsockname (fd : Z)
  | Getpeername (fd : Z)
  | Open (path : bytes) (flags : Z)
  | Epoll_create1 (flags : Z)
  | Timerfd_create (clock flags : Z)
  | Eventfd (initval flags : Z).

(** The fields of a struct tcp_info that are printed, in that order. *)
Definition tcp_info : Type := list Z.

(** What a call stores behind the pointers it is given. *)
Inductive value := VNone | VInt (z : Z) | VAddr (a : InetAddress) | VData (d : bytes) | VTcpInfo (i : tcp_info).
Record reply := mkReply { r_ret : Z; r_errno : Z; r_out : value }.

Definition history : Type := list (call * reply).
Definition Env : Type := history -> call -> reply.

(** The process: what it has asked, errno, and the messages of LOG_SYSERR. *)
Record Sys := mkSys { trace : history; errno : Z; logged : list bytes }.
Definition Sys_start : Sys := mkSys [] 0 [].

Section sockets.
Context (env : Env).

Definition sys (c : call) : ST Sys reply := fun s =>
  let r := env (trace s) c in
  Ok (r, mkSys (trace s ++ [(c, r)]) (if r_ret r <? 0 then r_errno r else errno s) (logged s)).
Definition LOG_SYSERR (msg : bytes) : ST Sys unit :=
  modify (fun s => mkSys (trace s) (errno s) (logged s ++ [msg])).
(** LOG_SYSFATAL and LOG_FATAL: abort() *)
Definition LOG_SYSFATAL : ST Sys unit := fail FatalLog.
Definition LOG_FATAL : ST Sys unit := fail FatalLog.
Definition set_errno (e : Z) : ST Sys unit := modify (fun s => mkSys (trace s) e (logged s)).

(** ** SocketsOps.cc *)

Definition createNonblockingOrDie (family : Z) : ST Sys Z :=
  r ← sys (Socket_ family (Z.lor (Z.lor SOCK_STREAM SOCK_NONBLOCK) SOCK_CLOEXEC) IPPROTO_TCP);
  when (r_ret r <? 0) LOG_SYSFATAL ;;
  mret (r_ret r).
Definition bindOrDie (sockfd : Z) (addr : InetAddress) : ST Sys unit :=
  r ← sys (Bind sockfd addr sizeof_sockaddr_in6);
  when (r_ret r <? 0) LOG_SYSFATAL.
Definition listenOrDie (sockfd : Z) : ST Sys unit :=
  r ← sys (Listen sockfd SOMAXCONN);
  when (r_ret r <? 0) LOG_SYSFATAL.

Definition out_addr (r : reply) (addr : InetAddress) : InetAddress :=
  match r_out r with VAddr a => a | _ => addr end.

(** EAGAIN, ECONNABORTED, EINTR, EPROTO, EPERM, EMFILE *)
Definition transient (e : Z) : bool := bool_decide (e ∈ [11; 103; 4; 71; 1; EMFILE]).
(** The descriptor and what addr points to. *)
Definition accept (sockfd : Z) (addr : InetAddress) : ST Sys (Z * InetAddress) :=
  r ← sys (Accept4 sockfd sizeof_sockaddr_in6 (Z.lor SOCK_NONBLOCK SOCK_CLOEXEC));
  when (r_ret r <? 0)
    (LOG_SYSFATAL ;;
     savedErrno ← gets errno;
     if transient savedErrno then set_errno savedErrno else LOG_FATAL) ;;
  mret (r_ret r, if r_ret r <? 0 then addr else out_addr r addr).
Definition connect (sockfd : Z) (addr : InetAddress) : ST Sys Z :=
  r ← sys (Connect sockfd addr sizeof_sockaddr_in6); mret (r_ret r).
(** The result and what is in buf. *)
Definition read (sockfd count : Z) : ST Sys (Z * bytes) :=
  r ← sys (Read sockfd count);
  mret (r_ret r, match r_out r with VData d => d | _ => [] end).
(** [lens]: the lengths of the blocks of iov; what was read is in them, one after another. *)
Definition readv (sockfd : Z) (lens : list Z) : ST Sys (Z * bytes) :=
  r ← sys (Readv sockfd lens);
  mret (r_ret r, match r_out r with VData d => d | _ => [] end).
Definition write (sockfd : Z) (buf : bytes) : ST Sys Z := r ← sys (Write sockfd buf); mret (r_ret r).
Definition close (sockfd : Z) : ST Sys unit :=
  r ← sys (Close sockfd); when (r_ret r <? 0) (LOG_SYSERR (cs "::close")).
Definition shutdownWrite (sockfd : Z) : ST Sys unit :=
  r ← sys (Shutdown sockfd SHUT_WR); when (r_ret r <? 0) (LOG_SYSERR (cs "shutdownWrite")).
(** [optval] is what the variable holds before the call. *)
Definition getSocketError (optval sockfd : Z) : ST Sys Z :=
  r ← sys (Getsockopt sockfd SOL_SOCKET SO_ERROR);
  if r_ret r <? 0 then gets errno
  else mret (match r_out r with VInt z => z | _ => optval end).
(** bzero *)
Definition zero_addr : InetAddress := mkAddr 0 0 (zeros 4) (zeros 16).
Definition getLocalAddr (sockfd : Z) : ST Sys InetAddress :=
  r ← sys (Getsockname sockfd);
  if r_ret r <? 0 then LOG_SYSERR (cs "sockets::getLocalAddr") ;; mret zero_addr
  else mret (out_addr r zero_addr).
Definition getPeerAddr (sockfd : Z) : ST Sys InetAddress :=
  r ← sys (Getpeername sockfd);
  if r_ret r <? 0 then LOG_SYSERR (cs "sockets::getPeerAdddr") ;; mret zero_addr
  else mret (out_addr r zero_addr).
Definition isSelfConnect (sockfd : Z) : ST Sys bool :=
  localaddr ← getLocalAddr sockfd;
  peeraddr ← getPeerAddr sockfd;
  mret (Server.isSelfConnect localaddr peeraddr).

(** ** Socket *)

(** A Socket is its sockfd_. *)
Definition Socket_dtor (sockfd_ : Z) : ST Sys unit := close sockfd_.
(** Whether it succeeds and what *tcpi holds. *)
Definition getTcpInfo (sockfd_ : Z) : ST Sys (bool * tcp_info) :=
  r ← sys (Getsockopt sockfd_ SOL_TCP TCP_INFO);
  mret (r_ret r =? 0, if r_ret r =? 0 then match r_out r with VTcpInfo i => i | _ => replicate 12 0 end
                      else replicate 12 0).
Definition tcp_info_labels : list bytes :=
  [cs "unrecovered="; cs " rto="; cs " ato="; cs " snd_mss="; cs " rcv_mss="; cs " lost="; cs " retrans=";
   cs " rtt="; cs " rttvar="; cs " sshthresh="; cs " cwnd="; cs " total_retrans="].
Definition tcp_info_text (tcpi : tcp_info) : bytes :=
  concat (zip_with (fun l v => l ++ fmt_d v) tcp_info_labels tcpi).
(** snprintf into the [len] bytes of buf: the string there afterwards. *)
Definition getTcpInfoString (sockfd_ : Z) (buf : bytes) (len : Z) : ST Sys (bool * bytes) :=
  '(ret, tcpi) ← getTcpInfo sockfd_;
  mret (ret, if (ret : bool) then take (Z.to_nat (len - 1)) (tcp_info_text tcpi) else buf).
Definition bindAddress (sockfd_ : Z) (localAddr : InetAddress) : ST Sys unit := bindOrDie sockfd_ localAddr.
Definition listen (sockfd_ : Z) : ST Sys unit := listenOrDie sockfd_.
Definition Socket_accept (sockfd_ : Z) (peerAddr : InetAddress) : ST Sys (Z * InetAddress) :=
  '(connfd, addr) ← accept sockfd_ zero_addr;
  mret (connfd, if 0 <? connfd then addr else peerAddr).
Definition shutDownWrite (sockfd_ : Z) : ST Sys unit := shutdownWrite sockfd_.
Definition of_bool (on : bool) : Z := if on then 1 else 0.
Definition setTcpNoDelay (sockfd_ : Z) (on : bool) : ST Sys unit :=
  _ ← sys (Setsockopt sockfd_ IPPROTO_TCP TCP_NODELAY (of_bool on)); mret tt.
Definition setReuseAddr (sockfd_ : Z) (on : bool) : ST Sys unit :=
  _ ← sys (Setsockopt sockfd_ SOL_SOCKET SO_REUSEADDR (of_bool on)); mret tt.
Definition setReusePort (sockfd_ : Z) (on : bool) : ST Sys unit :=
  r ← sys (Setsockopt sockfd_ SOL_SOCKET SO_REUSEPORT (of_bool on));
  when ((r_ret r <? 0) && on) (LOG_SYSERR (cs "SO_REUSEPORT failed.")).
Definition setKeepAlive (sockfd_ : Z) (on : bool) : ST Sys unit :=
  _ ← sys (Setsockopt sockfd_ SOL_SOCKET SO_KEEPALIVE (of_bool on)); mret tt.

(** TcpConnection::getTcpInfoString *)
Definition conn_getTcpInfoString (sockfd_ : Z) : ST Sys bytes :=
  '(_, buf) ← getTcpInfoString sockfd_ [] 1024; mret buf.
End sockets.

(** ** Acceptor *)

Module Acceptor.
Record Acceptor := mkAcceptor { acceptSocket_ : Z; state : Server.Acceptor }.

Section acceptor.
Context `{Build} (env : Env).

Definition dev_null : call := Open (cs "/dev/null") (Z.lor O_RDONLY O_CLOEXEC).

Definition Acceptor_ctor (listenAddr : InetAddress) (reuseport : bool) : ST Sys Acceptor :=
  acceptSocket_ ← createNonblockingOrDie env (family listenAddr);
  setReuseAddr env acceptSocket_ true ;;
  setReusePort env acceptSocket_ reuseport ;;
  bindAddress env acceptSocket_ listenAddr ;;
  r ← sys env dev_null;
  mret (mkAcceptor acceptSocket_ (Server.mkAcceptor false false (r_ret r))).

(** disableAll() and remove() on the channel, the backup, then the members. *)
Definition Acceptor_dtor (a : Acceptor) : ST Sys unit :=
  _ ← sys env (Close (backupFd_ (state a)));
  Socket_dtor env (acceptSocket_ a).

Definition startListening (a : Acceptor) : ST Sys Acceptor :=
  listen env (acceptSocket_ a) ;;
  mret (mkAcceptor (acceptSocket_ a) (Server.mkAcceptor true true (backupFd_ (state a)))).

(** What newConnectionCallback_ is called with, if it is called. *)
Definition handleNewConnection (has_callback : bool) (a : Acceptor) : ST Sys (option (Z * InetAddress) * Acceptor) :=
  let peeraddr := InetAddress_port 0 false false in
  '(newconnfd, peeraddr) ← Socket_accept env (acceptSocket_ a) peeraddr;
  if 0 <? newconnfd then
    if has_callback then mret (Some (newconnfd, peeraddr), a)
    else close env newconnfd ;; mret (None, a)
  else
    LOG_SYSERR (cs "[Acceptor::handleNewConnection]: cann't get new connection") ;;
    e ← gets errno;
    if e =? EMFILE then
      _ ← sys env (Close (backupFd_ (state a)));
      '(backup, _) ← Socket_accept env (acceptSocket_ a) peeraddr;
      _ ← sys env (Close backup);
      r ← sys env dev_null;
      mret (None, mkAcceptor (acceptSocket_ a)
                    (Server.mkAcceptor (isListening_ (state a)) (acceptReading (state a)) (r_ret r)))
    else mret (None, a).

(** A run: the constructor, startListening() and new connections in any number, and the
    destructor; the descriptors the callback was given. *)
Inductive op := Start | New (has_callback : bool).
Fixpoint run_ops (ops : list op) (a : Acceptor) : ST Sys (list Z * Acceptor) :=
  match ops with
  | [] => mret ([], a)
  | Start :: ops => a ← startListening a; run_ops ops a
  | New cb :: ops =>
      '(given, a) ← handleNewConnection cb a;
      '(l, a) ← run_ops ops a;
      mret (match given with Some (fd, _) => fd :: l | None => l end, a)
  end.
Definition life (listenAddr : InetAddress) (reuseport : bool) (ops : list op) : ST Sys (list Z) :=
  a ← Acceptor_ctor listenAddr reuseport;
  '(given, a) ← run_ops ops a;
  Acceptor_dtor a ;;
  mret given.
End acceptor.
End Acceptor.

(** ** Properties *)

(** The descriptors that calls have opened and closed. *)
Definition opened1 (cr : call * reply) : list Z :=
  match cr.1 with
  | Socket_ _ _ _ | Accept4 _ _ _ | Open _ _ | Epoll_create1 _ | Timerfd_create _ _ | Eventfd _ _ =>
      if 0 <=? r_ret cr.2 then [r_ret cr.2] else []
  | _ => []
  end.
Definition closed1 (cr : call * reply) : list Z :=
  match cr.1 with Close fd => if 0 <=? fd then [fd] else [] | _ => [] end.
Definition opened (tr : history) : list Z := mjoin (opened1 <$> tr).
Definition closed (tr : history) : list Z := mjoin (closed1 <$> tr).
Definition valid_fd (fd : Z) : list Z := if 0 <=? fd then [fd] else [].

(** socket(), bind(), listen() and accept4() succeed, with descriptors other than 0. *)
Definition willing (env : Env) : Prop := forall tr c,
  match c with
  | Socket_ _ _ _ | Accept4 _ _ _ => 0 < r_ret (env tr c)
  | Bind _ _ _ | Listen _ _ => 0 <= r_ret (env tr c)
  | _ => True
  end.

Section ledger.
Context `{Build} (env : Env).
Implicit Types s : Sys.

Lemma opened_app tr1 tr2 : opened (tr1 ++ tr2) = opened tr1 ++ opened tr2.
Proof. unfold opened. by rewrite fmap_app, join_app. Qed.
Lemma closed_app tr1 tr2 : closed (tr1 ++ tr2) = closed tr1 ++ closed tr2.
Proof. unfold closed. by rewrite fmap_app, join_app. Qed.

(** What an operation adds to the trace, whatever it returns. *)
Definition adds {A} (m : ST Sys A) s (R : A -> history -> Prop) : Prop :=
  wp m s (fun a s' => exists tr, trace s' = trace s ++ tr /\ R a tr).

Lemma adds_ret {A} (a : A) s (R : A -> history -> Prop) : R a [] -> adds (mret a) s R.
Proof. intros HR. apply wp_ret. exists []. by rewrite app_nil_r. Qed.

Lemma adds_bind {A B} (m : ST Sys A) (k : A -> ST Sys B) s R :
  adds m s (fun a tr1 => forall s1, adds (k a) s1 (fun b tr2 => R b (tr1 ++ tr2))) -> adds (m ≫= k) s R.
Proof.
  intros Hm. apply wp_bind. eapply wp_mono; [exact Hm|]. intros a s1 (tr1 & E1 & Hk).
  eapply wp_mono; [apply Hk|]. intros b s2 (tr2 & E2 & HR). exists (tr1 ++ tr2).
  split; [|done]. by rewrite E2, E1, (assoc_L (++)).
Qed.

Lemma adds_sys c s (R : reply -> history -> Prop) :
  R (env (trace s) c) [(c, env (trace s) c)] -> adds (sys env c) s R.
Proof. intros HR. eexists _, _. split; [done|]. by eexists. Qed.

Lemma adds_mono {A} (m : ST Sys A) s (R R' : A -> history -> Prop) :
  adds m s R -> (forall a tr, R a tr -> R' a tr) -> adds m s R'.
Proof. intros Hm HR. eapply wp_mono; [exact Hm|]. intros a s' (tr & E & Ha). exists tr. split; [done|by apply HR]. Qed.

Lemma adds_log msg s (R : unit -> history -> Prop) : R tt [] -> adds (LOG_SYSERR msg) s R.
Proof. intros HR. apply wp_modify. exists []. by rewrite app_nil_r. Qed.

Lemma adds_gets {A} (f : Sys -> A) s (R : A -> history -> Prop) : R (f s) [] -> adds (gets f) s R.
Proof. intros HR. apply wp_gets. exists []. by rewrite app_nil_r. Qed.

Lemma adds_when b m s (R : unit -> history -> Prop) :
  (b = true -> adds m s R) -> (b = false -> R tt []) -> adds (when b m) s R.
Proof. intros H1 H2. destruct b; [by apply H1|]. by apply adds_ret, H2. Qed.
End ledger.

Ltac adds_step :=
  lazymatch goal with
  | |- adds (mret _) _ _ => apply adds_ret
  | |- adds (mbind _ _) _ _ => apply adds_bind
  | |- adds (sys _ _) _ _ => apply adds_sys
  | |- adds (LOG_SYSERR _) _ _ => apply adds_log
  | |- adds (gets _) _ _ => apply adds_gets
  | |- adds (when _ _) _ _ => apply adds_when; intros ?
  end; cbv beta iota; intros.

Section acceptor_proofs.
Context `{Build} (env : Env).
Implicit Types (s : Sys) (a : Acceptor.Acceptor).

(** The descriptors an acceptor keeps, and what a piece of a run does with descriptors. *)
Definition held a : list Z := Acceptor.acceptSocket_ a :: valid_fd (backupFd_ (Acceptor.state a)).
Definition balanced (before after given : list Z) (tr : history) : Prop :=
  before ++ opened tr ≡ₚ closed tr ++ given ++ after.

Lemma opened_cons c r tr : opened ((c, r) :: tr) = opened1 (c, r) ++ opened tr.
Proof. done. Qed.
Lemma closed_cons c r tr : closed ((c, r) :: tr) = closed1 (c, r) ++ closed tr.
Proof. done. Qed.

(** Calls that neither open nor close. *)
Lemma adds_setsockopt s fd l o v (R : unit -> history -> Prop) :
  (forall r, R tt [(Setsockopt fd l o v, r)]) ->
  adds (_ ← sys env (Setsockopt fd l o v); mret tt) s R.
Proof. intros HR. adds_step. adds_step. adds_step. apply HR. Qed.

Lemma balanced_quiet before after given tr1 tr2 :
  opened tr1 = [] -> closed tr1 = [] -> balanced before after given tr2 -> balanced before after given (tr1 ++ tr2).
Proof. unfold balanced. rewrite opened_app, closed_app. intros -> ->. done. Qed.

Lemma balanced_app before mid after g1 g2 tr1 tr2 :
  balanced before mid g1 tr1 -> balanced mid after g2 tr2 -> balanced before after (g1 ++ g2) (tr1 ++ tr2).
Proof.
  unfold balanced. rewrite opened_app, closed_app. intros E1 E2.
  rewrite (assoc_L (++) before), E1, <- !(assoc_L (++)), E2. clear E1 E2.
  set (c1 := closed tr1). set (c2 := closed tr2).
  rewrite (Permutation_app_swap_app g1 c2). done.
Qed.

Lemma ctor_ledger addr rp s :
  willing env ->
  adds (Acceptor.Acceptor_ctor env addr rp) s (fun a tr => 0 < Acceptor.acceptSocket_ a /\ balanced [] (held a) [] tr).
Proof.
  intros W. unfold Acceptor.Acceptor_ctor, createNonblockingOrDie, setReuseAddr, setReusePort, bindAddress, bindOrDie.
  adds_step. adds_step. adds_step. set (r0 := env _ _). assert (0 < r_ret r0) as H0 by apply (W _ (Socket_ _ _ _)).
  adds_step. adds_step; [zify_bool; lia|]. adds_step. adds_step. apply adds_setsockopt. intros ? ?.
  adds_step. adds_step. adds_step. adds_step; [adds_step|].
  all: adds_step; adds_step; adds_step; set (r3 := env _ _); assert (0 <= r_ret r3) as H3 by apply (W _ (Bind _ _ _)).
  all: adds_step; [zify_bool; lia|]; adds_step; adds_step; adds_step; cbn [app].
  all: split; [done|]; unfold balanced, held, opened, closed; cbn; rewrite (proj2 (Z.leb_le 0 (r_ret r0))) by lia; cbn.
  all: by rewrite ?app_nil_r.
Qed.

Lemma start_ledger a s :
  willing env ->
  adds (Acceptor.startListening env a) s (fun a' tr => held a' = held a /\ balanced (held a) (held a) [] tr).
Proof.
  intros W. unfold Acceptor.startListening, listen, listenOrDie. do 3 adds_step. set (r := env _ _).
  assert (0 <= r_ret r) by apply (W _ (Listen _ _)). adds_step; [zify_bool; lia|]. adds_step. split; [done|].
  unfold balanced, opened, closed. cbn. by rewrite !app_nil_r.
Qed.

Definition fd_of (given : option (Z * InetAddress)) : list Z :=
  match given with Some (fd, _) => [fd] | None => [] end.

Lemma new_ledger cb a s :
  willing env ->
  adds (Acceptor.handleNewConnection env cb a) s (fun '(given, a') tr =>
    held a' = held a /\ balanced (held a) (held a) (fd_of given) tr).
Proof.
  intros W. unfold Acceptor.handleNewConnection, Socket_accept, accept.
  do 4 adds_step. set (r := env _ _). assert (0 < r_ret r) as Hr by apply (W _ (Accept4 _ _ _)).
  adds_step. adds_step; [zify_bool; lia|]. do 2 adds_step. cbv beta iota. rewrite (proj2 (Z.ltb_lt 0 (r_ret r))) by done.
  assert (forall given tr, opened tr = [] -> closed tr = (if cb : bool then [] else [r_ret r]) ->
    fd_of given = (if cb then [r_ret r] else []) ->
    balanced (held a) (held a) (fd_of given) ((Accept4 (Acceptor.acceptSocket_ a) sizeof_sockaddr_in6
      (Z.lor SOCK_NONBLOCK SOCK_CLOEXEC), r) :: tr)) as Hb.
  { intros given tr Ho Hc Hg. unfold balanced. rewrite opened_cons, closed_cons, Ho, Hc, Hg. cbn.
    rewrite (proj2 (Z.leb_le 0 (r_ret r))) by lia. change (_ :: _ ++ _) with (held a ++ [r_ret r] ++ []).
    rewrite app_nil_r, (Permutation_app_comm (held a)). by destruct cb. }
  destruct cb; cbn [app].
  - adds_step. split; [done|]. by apply (Hb (Some _)).
  - unfold close. do 3 adds_step. adds_step; [adds_step|]; adds_step; (split; [done|]);
      apply (Hb None); cbn; try done; unfold closed; cbn; by rewrite (proj2 (Z.leb_le 0 (r_ret r))) by lia.
Qed.

Lemma dtor_ledger a s :
  0 < Acceptor.acceptSocket_ a ->
  adds (Acceptor.Acceptor_dtor env a) s (fun _ tr => balanced (held a) [] [] tr).
Proof.
  intros Ha. unfold Acceptor.Acceptor_dtor, Socket_dtor, close. do 4 adds_step.
  assert (forall tr, opened tr = [] -> closed tr = [] -> forall r1 r2,
    balanced (held a) [] [] ([(Close (backupFd_ (Acceptor.state a)), r1)]
      ++ [(Close (Acceptor.acceptSocket_ a), r2)] ++ tr)) as Hb.
  { intros tr Ho Hc r1 r2. unfold balanced. rewrite !opened_app, !closed_app, Ho, Hc.
    unfold opened, closed, held. cbn.
    rewrite (proj2 (Z.leb_le 0 (Acceptor.acceptSocket_ a))) by lia. unfold valid_fd. rewrite !app_nil_r. cbn. apply Permutation_cons_append. }
  adds_step; [adds_step|]; by apply Hb.
Qed.

Lemma ops_ledger ops a s :
  willing env ->
  adds (Acceptor.run_ops env ops a) s (fun '(given, a') tr =>
    held a' = held a /\ balanced (held a) (held a) given tr).
Proof.
  intros W. revert a s. induction ops as [|[|cb] ops IH]; intros a s; cbn [Acceptor.run_ops].
  - adds_step. split; [done|]. unfold balanced. cbn. by rewrite app_nil_r.
  - adds_step. eapply adds_mono; [by apply start_ledger|]. intros a1 tr1 [Eh B1] s1.
    eapply adds_mono; [apply IH|]. intros [given a2] tr2 [Eh2 B2]. rewrite Eh in *. split; [done|].
    by eapply (balanced_app _ _ _ []).
  - adds_step. eapply adds_mono; [by apply new_ledger|]. intros [g1 a1] tr1 [Eh B1] s1.
    adds_step. eapply adds_mono; [apply IH|]. intros [given a2] tr2 [Eh2 B2] s2. rewrite Eh in *.
    adds_step. rewrite app_nil_r. split; [done|]. pose proof (balanced_app _ _ _ _ _ _ _ B1 B2) as B.
    by destruct g1 as [ [fd p]|].
Qed.
End acceptor_proofs.

(** C28: An acceptor and its descriptors.  However the kernel behaves, as long as socket(), bind(),
    listen() and accept4() succeed and no descriptor is 0: from the constructor, through any
    number of connections, to the destructor every descriptor the process was given is
    closed exactly once or handed to the connection callback, not both; the opening of
    /dev/null and the socket options may fail as they like. *)
Theorem acceptor_descriptors `{Build} (env : Env) listenAddr reuseport ops :
  willing env ->
  exists given s', Acceptor.life env listenAddr reuseport ops Sys_start = Ok (given, s')
    /\ opened (trace s') ≡ₚ closed (trace s') ++ given.
Proof.
  intros W.
  assert (adds (Acceptor.life env listenAddr reuseport ops) Sys_start (fun given tr => balanced [] [] given tr))
    as (given & s' & E & tr & Et & B).
  { unfold Acceptor.life. adds_step. eapply adds_mono; [by apply ctor_ledger|]. intros a tr0 [Ha B0] s1.
    adds_step. eapply adds_mono; [by apply ops_ledger|]. intros [given a1] tr1 [Eh B1] s2.
    adds_step. eapply adds_mono; [apply dtor_ledger|].
    { unfold held in Eh. by injection Eh as -> _. }
    intros [] tr2 B2 s3. adds_step. rewrite Eh in B2. rewrite app_nil_r.
    pose proof (balanced_app _ _ _ _ _ _ _ B1 B2) as B. rewrite app_nil_r in B.
    exact (balanced_app _ _ _ [] _ _ _ B0 B). }
  exists given, s'. split; [done|]. cbn in Et. rewrite Et. unfold balanced in B. cbn in B. by rewrite app_nil_r in B.
Qed.

(** A kernel that gives out 5, 6, 7, ... and fails at nothing but the opening of /dev/null. *)
Definition generous : Env := fun tr c =>
  match c with
  | Socket_ _ _ _ | Accept4 _ _ _ => mkReply (5 + zlen (opened tr)) 0 VNone
  | Open _ _ => mkReply (-1) EMFILE VNone
  | _ => mkReply 0 0 VNone
  end.

Lemma acceptor_descriptors_witness :
  (exists given s', Acceptor.life (H := Debug) generous (mkAddr AF_INET 80 (zeros 4) (zeros 16)) false
     [Acceptor.Start; Acceptor.New true; Acceptor.New false] Sys_start = Ok (given, s')
    /\ opened (trace s') ≡ₚ closed (trace s') ++ given)
  /\ exists s', Acceptor.life (H := Debug) generous (mkAddr AF_INET 80 (zeros 4) (zeros 16)) false
     [Acceptor.Start; Acceptor.New true; Acceptor.New false] Sys_start = Ok ([6], s').
Proof.
  split; [|by eexists; vm_compute].
  apply (acceptor_descriptors (H := Debug) generous). intros tr c. unfold generous.
  destruct c; cbn; try done; pose proof (zlen_nonneg (opened tr)); lia.
Defined.

(** ** The operations of Server.v are these *)

Definition accept_result_of (r : reply) : accept_result :=
  if r_ret r <? 0 then AcceptErr (r_errno r) else Accepted (r_ret r) (out_addr r zero_addr).
Definition accept_call (fd : Z) : call := Accept4 fd sizeof_sockaddr_in6 (Z.lor SOCK_NONBLOCK SOCK_CLOEXEC).
Definition closes (tr : history) : list Z :=
  mjoin ((fun cr => match cr.1 with Close fd => [fd] | _ => [] end) <$> tr).

Section refinement.
Context `{Build} (env : Env).

(** The calls handleNewConnection makes when accept4() gives a descriptor that is not
    positive and errno is EMFILE. *)
Definition second_accept (a : Acceptor.Acceptor) (tr : history) : history * reply :=
  let say tr c := tr ++ [(c, env tr c)] in
  let tr := say tr (accept_call (Acceptor.acceptSocket_ a)) in
  let tr := say tr (Close (backupFd_ (Acceptor.state a))) in
  (tr, env tr (accept_call (Acceptor.acceptSocket_ a))).
Definition reopened (a : Acceptor.Acceptor) (tr : history) : reply :=
  let '(tr, r2) := second_accept a tr in
  let tr := tr ++ [(accept_call (Acceptor.acceptSocket_ a), r2)] in
  let tr := tr ++ [(Close (r_ret r2), env tr (Close (r_ret r2)))] in
  env tr Acceptor.dev_null.

(** What the operation does in the words of Server.v. *)
Definition actions (given : option (Z * InetAddress)) (tr : history) : list accept_action :=
  match given with Some (fd, peer) => [PassOn fd peer] | None => [] end ++ (CloseFd <$> closes tr).

Lemma Socket_accept_run fd peer s :
  let r := env (trace s) (accept_call fd) in
  Socket_accept env fd peer s
  = if r_ret r <? 0 then Err FatalLog
    else Ok ((r_ret r, if 0 <? r_ret r then out_addr r zero_addr else peer),
             mkSys (trace s ++ [(accept_call fd, r)]) (errno s) (logged s)).
Proof.
  intros r. unfold Socket_accept, accept, sys. unfold mbind, ST_bind. fold (accept_call fd). fold r.
  by destruct (r_ret r <? 0).
Qed.

Lemma closes_app tr1 tr2 : closes (tr1 ++ tr2) = closes tr1 ++ closes tr2.
Proof. unfold closes. by rewrite fmap_app, join_app. Qed.

(** After what is done the trace is longer by [tr]. *)
Lemma actions_new given tr0 tr : actions given (drop (length tr0) (tr0 ++ tr)) = actions given tr.
Proof. by rewrite drop_app_length. Qed.

Lemma close_run fd s :
  exists l, close env fd s = Ok (tt, mkSys (trace s ++ [(Close fd, env (trace s) (Close fd))])
    (if r_ret (env (trace s) (Close fd)) <? 0 then r_errno (env (trace s) (Close fd)) else errno s) l).
Proof. unfold close, sys, mbind, ST_bind. cbn. destruct (_ <? 0); by eexists. Qed.
End refinement.

(** The acceptor of Server.v, which takes the results of the calls as arguments, is this
    one: on every kernel handleNewConnection fails when that one does, hands over and
    closes the same descriptors and leaves the same acceptor. *)
Theorem acceptor_refines `{Build} (env : Env) has_callback (a : Acceptor.Acceptor) (s : Sys) :
  let r := env (trace s) (accept_call (Acceptor.acceptSocket_ a)) in
  let r2 := (second_accept env a (trace s)).2 in
  handleNewConnection has_callback (accept_result_of r) (errno s) (accept_result_of r2)
    (r_ret (reopened env a (trace s))) (Acceptor.state a)
  = match Acceptor.handleNewConnection env has_callback a s with
    | Err f => Err f
    | Ok ((given, a'), s') => Ok (actions given (drop (length (trace s)) (trace s')), Acceptor.state a')
    end.
Proof.
  intros r r2. unfold handleNewConnection, Acceptor.handleNewConnection. cbv zeta.
  pose proof (Socket_accept_run env (Acceptor.acceptSocket_ a) (InetAddress_port 0 false false) s) as E.
  cbv zeta in E. fold r in E. unfold accept_result_of. destruct (r_ret r <? 0) eqn:E0.
  { by rewrite (run_bind_err _ _ _ _ E). }
  rewrite (run_bind _ _ _ _ _ E). cbn [sockets_accept]. rewrite bind_Ok. destruct (0 <? r_ret r) eqn:E1.
  { destruct has_callback; cbn [mret ST_ret trace].
    - by rewrite actions_new.
    - destruct (close_run env (r_ret r) (mkSys (trace s ++ [(accept_call (Acceptor.acceptSocket_ a), r)])
        (errno s) (logged s))) as [l Ec].
      rewrite (run_bind _ _ _ _ _ Ec). cbn [mret ST_ret trace]. by rewrite <- (assoc_L (++)), actions_new. }
  erewrite run_bind by reflexivity. erewrite run_bind by reflexivity. cbn [errno].
  destruct (errno s =? EMFILE).
  2: { cbn [mret ST_ret trace]. by rewrite actions_new. }
  erewrite run_bind by reflexivity. cbn [trace errno logged]. set (s2 := mkSys _ _ _).
  pose proof (Socket_accept_run env (Acceptor.acceptSocket_ a) (InetAddress_port 0 false false) s2) as E2.
  cbv zeta in E2. change (env (trace s2) _) with r2 in E2.
  destruct (r_ret r2 <? 0) eqn:E3.
  { by rewrite (run_bind_err _ _ _ _ E2). }
  rewrite (run_bind _ _ _ _ _ E2). cbn [sockets_accept]. rewrite bind_Ok.
  erewrite run_bind by reflexivity. erewrite run_bind by reflexivity. cbn [trace mret ST_ret].
  unfold s2. cbn [trace]. f_equal. f_equal. by rewrite <- !(assoc_L (++)), actions_new.
Qed.

(** ** Failures *)

Section failures.
Context (env : Env).
Implicit Types s : Sys.

(** A call that fails: what the trace, errno and the log are afterwards. *)
Definition failing s (c : call) : Prop := r_ret (env (trace s) c) < 0.
Definition failed s (c : call) (messages : list bytes) : Sys :=
  mkSys (trace s ++ [(c, env (trace s) c)]) (r_errno (env (trace s) c)) (logged s ++ messages).

Lemma sys_failing s c : failing s c -> sys env c s = Ok (env (trace s) c, failed s c []).
Proof. intros Hc. unfold sys, failed. by rewrite (proj2 (Z.ltb_lt _ 0) Hc), app_nil_r. Qed.

Lemma bind_failing {A} s c (k : reply -> ST Sys A) :
  failing s c -> (sys env c ≫= k) s = k (env (trace s) c) (failed s c []).
Proof. intros Hc. by rewrite (run_bind _ _ _ _ _ (sys_failing s c Hc)). Qed.

Lemma log_failed s c m : LOG_SYSERR m (failed s c []) = Ok (tt, failed s c [m]).
Proof. unfold LOG_SYSERR, modify, failed. cbn. by rewrite app_nil_r. Qed.
End failures.

(** How a failed system call shows.  socket(), bind(), listen() and accept4() end the process,
    accept4() whatever the errno, although six values of it are meant to be passed over.
    close(), shutdown(), getsockname() and getpeername() are logged and the program goes on,
    the last two with an address of zeros.  connect() and write() hand the result to their
    caller.  A failed getsockopt(SO_ERROR) counts as the error it failed with.  The setters
    ignore failures, but for SO_REUSEPORT when it is being switched on. *)
Theorem socket_call_failures (env : Env) (s : Sys) (fd : Z) (a : InetAddress) (data : bytes) (optval : Z) (on : bool) :
  (forall fam, failing env s (Socket_ fam (Z.lor (Z.lor SOCK_STREAM SOCK_NONBLOCK) SOCK_CLOEXEC) IPPROTO_TCP) ->
     createNonblockingOrDie env fam s = Err FatalLog)
  /\ (failing env s (Bind fd a sizeof_sockaddr_in6) -> bindOrDie env fd a s = Err FatalLog)
  /\ (failing env s (Listen fd SOMAXCONN) -> listenOrDie env fd s = Err FatalLog)
  /\ (failing env s (accept_call fd) -> accept env fd a s = Err FatalLog)
  /\ (failing env s (Close fd) -> close env fd s = Ok (tt, failed env s (Close fd) [cs "::close"]))
  /\ (failing env s (Shutdown fd SHUT_WR) ->
       shutdownWrite env fd s = Ok (tt, failed env s (Shutdown fd SHUT_WR) [cs "shutdownWrite"]))
  /\ (failing env s (Getsockname fd) ->
       getLocalAddr env fd s = Ok (zero_addr, failed env s (Getsockname fd) [cs "sockets::getLocalAddr"]))
  /\ (failing env s (Getpeername fd) ->
       getPeerAddr env fd s = Ok (zero_addr, failed env s (Getpeername fd) [cs "sockets::getPeerAdddr"]))
  /\ (let c := Connect fd a sizeof_sockaddr_in6 in
      failing env s c -> connect env fd a s = Ok (r_ret (env (trace s) c), failed env s c []))
  /\ (let c := Write fd data in
      failing env s c -> write env fd data s = Ok (r_ret (env (trace s) c), failed env s c []))
  /\ (let c := Getsockopt fd SOL_SOCKET SO_ERROR in
      failing env s c -> getSocketError env optval fd s = Ok (r_errno (env (trace s) c), failed env s c []))
  /\ (let c := Setsockopt fd SOL_SOCKET SO_REUSEPORT (of_bool on) in
      failing env s c ->
      setReusePort env fd on s
      = Ok (tt, failed env s c (if on then [cs "SO_REUSEPORT failed."] else [])))
  /\ (let c := Setsockopt fd IPPROTO_TCP TCP_NODELAY (of_bool on) in
      failing env s c -> setTcpNoDelay env fd on s = Ok (tt, failed env s c [])).
Proof.
  assert (forall c, failing env s c -> r_ret (env (trace s) c) <? 0 = true) as Hlt by (intros c; apply Z.ltb_lt).
  cbv zeta. split_and!; intros;
    unfold createNonblockingOrDie, bindOrDie, listenOrDie, accept, close, shutdownWrite, getLocalAddr, getPeerAddr,
      connect, write, getSocketError, setReusePort, setTcpNoDelay;
    rewrite bind_failing by eassumption; rewrite ?Hlt by eassumption; cbn [when andb]; try done; try apply log_failed.
  1, 2: by rewrite (run_bind _ _ _ _ _ (log_failed env s _ _)).
  destruct on; [apply log_failed|done].
Qed.

Lemma socket_call_failures_witness :
  exists (env : Env) (s : Sys), failing env s (Getsockopt 5 SOL_SOCKET SO_ERROR)
    /\ getSocketError env 0 5 s = Ok (9, failed env s (Getsockopt 5 SOL_SOCKET SO_ERROR) []).
Proof.
  exists (fun _ _ => mkReply (-1) 9 VNone), Sys_start. split; [by vm_compute|].
  destruct (socket_call_failures (fun _ _ => mkReply (-1) 9 VNone) Sys_start 5 zero_addr [] 0 true)
    as (_ & _ & _ & _ & _ & _ & _ & _ & _ & _ & E & _). apply E. by vm_compute.
Defined.

(** A descriptor 0 from accept4() is taken for a failure: nothing is closed or handed over. *)
Theorem accept_zero_leaks `{Build} (env : Env) has_callback (a : Acceptor.Acceptor) (s : Sys) :
  r_ret (env (trace s) (accept_call (Acceptor.acceptSocket_ a))) = 0 -> errno s <> EMFILE ->
  exists s', Acceptor.handleNewConnection env has_callback a s = Ok (None, a, s')
    /\ opened (trace s') = opened (trace s) ++ [0] /\ closed (trace s') = closed (trace s).
Proof.
  intros Hr He. pose proof (Socket_accept_run env (Acceptor.acceptSocket_ a) (InetAddress_port 0 false false) s) as E.
  cbv zeta in E. rewrite Hr in E. cbn in E. unfold Acceptor.handleNewConnection. cbv zeta.
  rewrite (run_bind _ _ _ _ _ E). cbn [Z.ltb Z.compare]. erewrite run_bind by reflexivity.
  erewrite run_bind by reflexivity. cbn [errno]. rewrite (proj2 (Z.eqb_neq _ _) He).
  eexists. split; [done|]. cbn [trace]. rewrite opened_app, closed_app, opened_cons, closed_cons.
  unfold opened1, closed1, accept_call in *. cbn [fst snd]. rewrite Hr. split; [done|apply app_nil_r].
Qed.

Lemma accept_zero_leaks_witness :
  r_ret (mkReply 0 0 VNone) = 0 /\
  exists s', Acceptor.handleNewConnection (H := Debug) (fun _ _ => mkReply 0 0 VNone) true
       (Acceptor.mkAcceptor 5 (Server.mkAcceptor true true 6)) Sys_start
     = Ok (None, Acceptor.mkAcceptor 5 (Server.mkAcceptor true true 6), s')
    /\ opened (trace s') = opened (trace Sys_start) ++ [0] /\ closed (trace s') = closed (trace Sys_start).
Proof.
  split; [done|].
  apply (accept_zero_leaks (H := Debug) (fun _ _ => mkReply 0 0 VNone) true
    (Acceptor.mkAcceptor 5 (Server.mkAcceptor true true 6)) Sys_start); done.
Defined.

(** The text of struct tcp_info fits the 1024 bytes TcpConnection gives it: with twelve
    unsigned 32-bit numbers getTcpInfoString() never cuts it, and it is empty when the
    call fails. *)
Theorem tcp_info_string_fits (env : Env) (s : Sys) fd i :
  length i = 12%nat -> Forall (fun v => 0 <= v < 2 ^ 32) i ->
  let r := env (trace s) (Getsockopt fd SOL_TCP TCP_INFO) in
  r_out r = VTcpInfo i ->
  exists s', conn_getTcpInfoString env fd s = Ok (if r_ret r =? 0 then tcp_info_text i else [], s').
Proof.
  intros Hl Hi r Hr. unfold conn_getTcpInfoString, getTcpInfoString, getTcpInfo, mbind, ST_bind, sys.
  fold r. rewrite Hr. cbn [mret ST_ret]. eexists. destruct (r_ret r =? 0); [|done].
  unfold mret, ST_ret. f_equal. f_equal. apply take_ge.
  assert (forall ls vs, Forall (fun v => 0 <= v < 2 ^ 32) vs ->
    (length (concat (zip_with (fun l v => l ++ fmt_d v) ls vs)) <= length (concat ls) + 10 * length vs)%nat) as Hlen.
  { induction ls as [|l ls IH]; intros [|v vs] Hv; cbn; try lia. apply Forall_cons in Hv as [Hv Hvs].
    rewrite !length_app. pose proof (fmt_d_length v 10 ltac:(lia) ltac:(lia)). specialize (IH vs Hvs). lia. }
  specialize (Hlen tcp_info_labels i Hi). rewrite Hl in Hlen. unfold tcp_info_text.
  assert (length (concat tcp_info_labels) = 100%nat) as El by (vm_compute; reflexivity). lia.
Qed.

Lemma tcp_info_string_fits_witness :
  length (replicate 12 4294967295) = 12%nat /\
  exists s', conn_getTcpInfoString (fun _ _ => mkReply 0 0 (VTcpInfo (replicate 12 4294967295))) 5 Sys_start
    = Ok (tcp_info_text (replicate 12 4294967295), s').
Proof.
  split; [done|].
  apply (tcp_info_string_fits (fun _ _ => mkReply 0 0 (VTcpInfo (replicate 12 4294967295))) Sys_start 5 (replicate 12 4294967295));
    [done| |done]. cbn. repeat constructor; lia.
Defined.
