(* ===== verification/Ledger.v ===== *)
(** * Accounts of descriptors

    What an object of the library does with descriptors on the kernel of Sockets.v, call by
    call: which ones it holds, and that it makes calls on no other.  Used for the connector
    (Dial.v), the connection (Wire.v) and a server (Serving.v). *)

From S2P Require Import Prelude Server Sockets.

(** ** What an object does with descriptors *)

(** Its calls, and the descriptors it gives to another object. *)
Inductive own := Called (c : call) (r : reply) | Gave (fd : Z).

(** The descriptor that a call works on. *)
Definition subject (c : call) : option Z :=
  match c with
  | Bind fd _ _ | Listen fd _ | Accept4 fd _ _ | Connect fd _ _ | Read fd _ | Readv fd _ | Write fd _
  | Close fd | Shutdown fd _ | Setsockopt fd _ _ _ | Getsockopt fd _ _ | Getsockname fd
  | Getpeername fd => Some fd
  | _ => None
  end.

Fixpoint remove1 (x : Z) (l : list Z) : list Z :=
  match l with [] => [] | y :: l' => if decide (x = y) then l' else y :: remove1 x l' end.

(** The descriptors held after each action, or None when it is not on one that is held. *)
Definition ledger1 (held : list Z) (o : own) : option (list Z) :=
  match o with
  | Gave fd => if decide (fd ∈ held) then Some (remove1 fd held) else None
  | Called c r =>
      match subject c with
      | Some fd =>
          if decide (fd ∈ held) then
            Some (match c with Close _ => remove1 fd held | _ => held end ++ opened1 (c, r))
          else None
      | None => Some (held ++ opened1 (c, r))
      end
  end.
Fixpoint ledger (held : list Z) (l : list own) : option (list Z) :=
  match l with [] => Some held | o :: l' => h ← ledger1 held o; ledger h l' end.

Definition owns (tr : history) (fds : list Z) : list own :=
  ((fun cr => Called cr.1 cr.2) <$> tr) ++ (Gave <$> fds).

(** Every call is on the descriptor, and none closes it. *)
Definition only_on (fd : Z) (tr : history) : Prop :=
  Forall (fun cr => subject cr.1 = Some fd /\ match cr.1 with Close _ | Accept4 _ _ _ => False | _ => True end) tr.

Definition opened_by (l : list own) : list Z :=
  mjoin ((fun o => match o with Called c r => opened1 (c, r) | Gave _ => [] end) <$> l).
Definition closed_by (l : list own) : list Z :=
  mjoin ((fun o => match o with Called (Close fd) _ => [fd] | _ => [] end) <$> l).
Definition given_by (l : list own) : list Z :=
  mjoin ((fun o => match o with Gave fd => [fd] | _ => [] end) <$> l).

(** ** Lemmas *)

Lemma led_open f t p r l :
  0 <= r_ret r -> ledger [] (Called (Socket_ f t p) r :: l) = ledger [r_ret r] l.
Proof. intros Hr. cbn. unfold opened1. cbn. by rewrite (proj2 (Z.leb_le _ _)). Qed.
Lemma led_touch c r fd l :
  subject c = Some fd -> match c with Close _ | Accept4 _ _ _ => False | _ => True end ->
  ledger [fd] (Called c r :: l) = ledger [fd] l.
Proof.
  intros Hs Hc. cbn [ledger]. unfold ledger1. rewrite Hs, decide_True by by left.
  destruct c; done.
Qed.
Lemma led_close fd r l : ledger [fd] (Called (Close fd) r :: l) = ledger [] l.
Proof.
  cbn [ledger]. unfold ledger1. cbn [subject]. rewrite decide_True by by left.
  cbn. by rewrite decide_True.
Qed.
Lemma led_gave fd : ledger [fd] [Gave fd] = Some [].
Proof. cbn [ledger]. unfold ledger1. rewrite decide_True by by left. cbn. by rewrite decide_True. Qed.

Lemma ledger_app held l1 l2 : ledger held (l1 ++ l2) = h ← ledger held l1; ledger h l2.
Proof.
  revert held. induction l1 as [|o l1 IH]; intros held; [done|]. cbn [app ledger].
  destruct (ledger1 held o); cbn; [apply IH|done].
Qed.

Ltac led :=
  unfold owns; cbn [fmap list_fmap app fst snd];
  repeat first [rewrite led_open by done | rewrite led_touch by done | rewrite led_close | rewrite led_gave];
  cbn [ledger].

Lemma owns_app tr1 tr2 : owns (tr1 ++ tr2) [] = owns tr1 [] ++ owns tr2 [].
Proof. unfold owns. by rewrite fmap_nil, fmap_app, !app_nil_r. Qed.

Lemma remove1_perm x l : x ∈ l -> l ≡ₚ x :: remove1 x l.
Proof.
  induction l as [|y l IH]; intros Hx; [by apply elem_of_nil in Hx|]. cbn.
  destruct (decide (x = y)) as [->|Hne]; [done|].
  apply elem_of_cons in Hx as [?|Hx]; [done|]. rewrite (IH Hx) at 1. apply Permutation_swap.
Qed.

(** The account of a ledger that balances. *)
Lemma ledger_account held l h :
  ledger held l = Some h -> held ++ opened_by l ≡ₚ closed_by l ++ given_by l ++ h.
Proof.
  revert held. induction l as [|o l IH]; intros held Hl.
  - injection Hl as <-. unfold opened_by. cbn. by rewrite app_nil_r.
  - cbn [ledger] in Hl. destruct (ledger1 held o) as [h1|] eqn:E; [|done].
    specialize (IH h1 Hl). unfold opened_by, closed_by, given_by in *. rewrite !fmap_cons. cbn [mjoin list_join].
    unfold ledger1 in E. destruct o as [c r|fd].
    + assert (held ++ opened1 (c, r) ≡ₚ (match c with Close fd => [fd] | _ => [] end) ++ h1) as Hh.
      { destruct (subject c) as [fd|] eqn:Es; [|injection E as <-; by destruct c].
        destruct (decide (fd ∈ held)) as [Hin|]; [|done]. injection E as <-.
        destruct c; try done. injection Es as ->. cbn. rewrite !app_nil_r. by apply remove1_perm. }
      cbn. rewrite (assoc_L (++)), Hh, <- !(assoc_L (++)), IH. by destruct c.
    + destruct (decide (fd ∈ held)) as [Hin|]; [|done]. injection E as <-. cbn.
      rewrite (remove1_perm fd held Hin) at 1. cbn. rewrite IH. solve_Permutation.
Qed.

Lemma given_by_app l1 l2 : given_by (l1 ++ l2) = given_by l1 ++ given_by l2.
Proof. unfold given_by. by rewrite fmap_app, join_app. Qed.
Lemma given_by_owns tr fds : given_by (owns tr fds) = fds.
Proof.
  unfold owns. rewrite given_by_app.
  assert (given_by ((fun cr : call * reply => Called cr.1 cr.2) <$> tr) = []) as ->
    by (induction tr as [|cr tr IH]; [done|exact IH]).
  cbn [app]. induction fds as [|fd fds IH]; [done|].
  change (given_by (Gave <$> fd :: fds)) with (fd :: given_by (Gave <$> fds)). by rewrite IH.
Qed.

(** ** Accounts of several objects

    [accounts held tr held']: the calls of the trace are on descriptors that are held, and
    turn those held before into those held after, in whatever order. *)

Definition accounts (held : list Z) (tr : history) (held' : list Z) : Prop :=
  exists l, ledger held (owns tr []) = Some l /\ l ≡ₚ held'.

Lemma remove1_app x l k : x ∈ l -> remove1 x (l ++ k) = remove1 x l ++ k.
Proof.
  induction l as [|y l IH]; intros Hx; [by apply elem_of_nil in Hx|]. cbn.
  destruct (decide (x = y)); [done|]. apply elem_of_cons in Hx as [?|Hx]; [done|]. by rewrite IH.
Qed.

Lemma ledger1_frame h g o h' :
  ledger1 h o = Some h' -> exists k, ledger1 (h ++ g) o = Some k /\ k ≡ₚ h' ++ g.
Proof.
  unfold ledger1. intros E. destruct o as [c r|fd].
  - destruct (subject c) as [fd|]; [destruct (decide (fd ∈ h)) as [Hin|]; [|done]|].
    + rewrite decide_True by set_solver. eexists. split; [done|]. injection E as <-.
      destruct c; rewrite ?remove1_app by done; solve_Permutation.
    + eexists. split; [done|]. injection E as <-. solve_Permutation.
  - destruct (decide (fd ∈ h)) as [Hin|]; [|done]. rewrite decide_True by set_solver.
    eexists. split; [done|]. injection E as <-. by rewrite remove1_app.
Qed.
Lemma ledger1_perm h k o h' :
  h ≡ₚ k -> ledger1 h o = Some h' -> exists k', ledger1 k o = Some k' /\ k' ≡ₚ h'.
Proof.
  intros Hp. assert (forall fd, fd ∈ h -> remove1 fd k ≡ₚ remove1 fd h) as Hr.
  { intros fd Hin. apply (Permutation_cons_inv (a := fd)).
    rewrite <- !remove1_perm by (done || by rewrite <- Hp). done. }
  unfold ledger1. intros E. destruct o as [c r|fd].
  - destruct (subject c) as [fd|]; [destruct (decide (fd ∈ h)) as [Hin|]; [|done]|].
    + rewrite decide_True by (by rewrite <- Hp). eexists. split; [done|]. injection E as <-.
      destruct c; rewrite ?Hr by done; by rewrite ?Hp.
    + eexists. split; [done|]. injection E as <-. by rewrite Hp.
  - destruct (decide (fd ∈ h)) as [Hin|]; [|done]. rewrite decide_True by (by rewrite <- Hp).
    eexists. split; [done|]. injection E as <-. by apply Hr.
Qed.

Lemma ledger_perm h k l h' :
  h ≡ₚ k -> ledger h l = Some h' -> exists k', ledger k l = Some k' /\ k' ≡ₚ h'.
Proof.
  revert h k. induction l as [|o l IH]; intros h k Hp E; cbn [ledger] in *.
  - exists k. split; [done|]. injection E as <-. done.
  - destruct (ledger1 h o) as [h1|] eqn:E1; [|done].
    destruct (ledger1_perm h k o h1 Hp E1) as (k1 & -> & Hk). by apply (IH h1).
Qed.
Lemma ledger_frame h g l h' :
  ledger h l = Some h' -> exists k, ledger (h ++ g) l = Some k /\ k ≡ₚ h' ++ g.
Proof.
  revert h. induction l as [|o l IH]; intros h E; cbn [ledger] in *.
  - eexists. split; [done|]. by injection E as <-.
  - destruct (ledger1 h o) as [h1|] eqn:E1; [|done].
    destruct (ledger1_frame h g o h1 E1) as (k1 & -> & Hk). destruct (IH h1 E) as (k & E2 & Hk2).
    destruct (ledger_perm (h1 ++ g) k1 l k) as (k' & E3 & Hk'); [done|done|].
    exists k'. split; [exact E3|]. by rewrite Hk'.
Qed.

Lemma only_on_ledger fd tr l : only_on fd tr -> ledger [fd] (owns tr [] ++ l) = ledger [fd] l.
Proof.
  intros Ho. induction Ho as [|[c r] tr [Hs Hc] Ho IH]; [done|].
  change (owns ((c, r) :: tr) []) with (Called c r :: owns tr []). cbn [app].
  by rewrite led_touch.
Qed.
Lemma only_on_accounts fd tr : only_on fd tr -> accounts [fd] tr [fd].
Proof.
  intros Ho. exists [fd]. split; [|done]. rewrite <- (app_nil_r (owns _ _)). by rewrite only_on_ledger.
Qed.

Lemma accounts_nil h : accounts h [] h.
Proof. by exists h. Qed.
Lemma accounts_perm h1 h2 tr h1' h2' : h1 ≡ₚ h2 -> h1' ≡ₚ h2' -> accounts h1 tr h1' -> accounts h2 tr h2'.
Proof.
  intros Hp Hp' (l & E & Hl). destruct (ledger_perm h1 h2 _ l Hp E) as (k & Ek & Hk).
  exists k. split; [done|]. by rewrite Hk, Hl.
Qed.
Lemma accounts_trans h1 h2 h3 tr1 tr2 : accounts h1 tr1 h2 -> accounts h2 tr2 h3 -> accounts h1 (tr1 ++ tr2) h3.
Proof.
  intros (l1 & E1 & Hl1) (l2 & E2 & Hl2). destruct (ledger_perm h2 l1 (owns tr2 []) l2) as (k & Ek & Hk); [done|done|].
  exists k. split; [|by rewrite Hk]. by rewrite owns_app, ledger_app, E1.
Qed.
Lemma accounts_frame h tr h' g : accounts h tr h' -> accounts (h ++ g) tr (h' ++ g).
Proof.
  intros (l & E & Hl). destruct (ledger_frame h g _ l E) as (k & Ek & Hk).
  exists k. split; [done|]. by rewrite Hk, Hl.
Qed.
#[global] Instance accounts_proper : Proper ((≡ₚ) ==> (=) ==> (≡ₚ) ==> iff) accounts.
Proof.
  intros h1 h2 Hp tr ? <- h1' h2' Hp'. split; apply accounts_perm; done.
Qed.

(** Everything that was opened is closed, or held. *)
Lemma accounts_balance tr held : accounts [] tr held -> opened_by (owns tr []) ≡ₚ closed_by (owns tr []) ++ held.
Proof.
  intros (l & E & Hl). pose proof (ledger_account [] _ l E) as Ha. rewrite given_by_owns in Ha.
  by rewrite <- Hl.
Qed.
