(* ===== verification/Lifetime.v ===== *)
(** * The life of an event loop: constructors and destructors of EventLoop, TimerQueue, pollers

    A loop is three descriptors (the poller's, the timer's and the one that wakes it up),
    two channels and the thread's pointer to it.  The constructors and destructors of
    src/arale/net/EventLoop.cc, TimerQueue.cc and EPollPoller.cc are run here in the order
    of the members, over the kernel of Sockets and any poller that keeps the contract. *)

From S2P Require Import Prelude Format Channel Poller EventLoop Server Sockets.

Definition EPOLL_CLOEXEC : Z := 524288.
Definition CLOCK_MONOTONIC : Z := 1.
Definition TFD_NONBLOCK : Z := 2048.
Definition TFD_CLOEXEC : Z := 524288.
Definition EFD_NONBLOCK : Z := 2048.
Definition EFD_CLOEXEC : Z := 524288.

(** What differs between the pollers: the descriptor they own, None for PollPoller. *)
Class PollerFile (P : Type) := {
  poller_ctor : Env -> ST Sys (option Z * P);
  poller_dtor : Env -> option Z -> ST Sys unit
}.

#[export] Instance epoll_file : PollerFile EPollPoller := {|
  poller_ctor env :=
    r ← sys env (Epoll_create1 EPOLL_CLOEXEC);
    when (r_ret r <? 0) LOG_SYSFATAL ;;
    mret (Some (r_ret r), EPollPoller_ctor);
  poller_dtor env fd :=
    match fd with Some fd => _ ← sys env (Close fd); mret tt | None => mret tt end
|}.

#[export] Instance poll_file : PollerFile PollPoller := {|
  poller_ctor env := mret (None, PollPoller_ctor);
  poller_dtor env fd := mret tt
|}.

Section lifetime.
Context {P : Type} `{Poller P, PollerFile P, Build} (env : Env).

(** The process as far as the loop changes it; [current] is currentThreadEventLoop. *)
Record World := mkWorld {
  w_poller : option P; w_channels : heap; w_sys : Sys; current : option Z
}.

(** The members of the loop: the descriptors, and the addresses of the two channels. *)
Record Loop := mkLoop {
  islooping : bool; epollfd_ : option Z; timerfd_ : Z; timerfdChannel_ : Z; wakeupFd_ : Z; wakeupChannel_ : Z
}.

Definition set_channels p h w : World := mkWorld p h (w_sys w) (current w).
Definition set_current c w : World := mkWorld (w_poller w) (w_channels w) (w_sys w) c.
Definition on_sys {A} (m : ST Sys A) : ST World A :=
  zoom w_sys (fun s w => mkWorld (w_poller w) (w_channels w) s (current w)) m.

(** A call of the poller through poller_. *)
Definition on_poller (f : P -> heap -> outcome (P * heap)) : ST World unit := fun w =>
  match w_poller w with
  | Some p => '(p, h) ← f p (w_channels w); Ok (tt, set_channels (Some p) h w)
  | None => Err NullCall
  end.
Definition at_channel (ptr : Z) (f : Channel -> Channel) : ST World unit := fun w =>
  c ← deref (w_channels w) ptr; Ok (tt, set_channels (w_poller w) (<[ptr := f c]> (w_channels w)) w).
(** enableRead() and disableAll(); remove(). *)
Definition update_events (ptr : Z) (f : Z -> Z) : ST World unit :=
  at_channel ptr (fun c => set_isInLoop (set_events c (f (events_ c))) true) ;;
  on_poller (loop_updateChannel true true ptr).
Definition remove (ptr : Z) : ST World unit :=
  at_channel ptr (fun c => set_isInLoop c false) ;;
  on_poller (loop_removeChannel true true ptr).
(** new Channel(loop, fd) at [ptr], and its end. *)
Definition new_channel (ptr fd : Z) : ST World unit :=
  modify (fun w => set_channels (w_poller w) (<[ptr := Channel_ctor fd]> (w_channels w)) w).
Definition delete_channel (ptr : Z) : ST World unit := fun w =>
  c ← deref (w_channels w) ptr;
  Channel_dtor c ;;
  Ok (tt, set_channels (w_poller w) (delete ptr (w_channels w)) w).

(** ** TimerQueue *)

Definition createTimerFd : ST Sys Z :=
  r ← sys env (Timerfd_create CLOCK_MONOTONIC (Z.lor TFD_NONBLOCK TFD_CLOEXEC));
  when (r_ret r <? 0) LOG_SYSFATAL ;;
  mret (r_ret r).
Definition TimerQueue_ctor (ptr : Z) : ST World Z :=
  fd ← on_sys createTimerFd;
  new_channel ptr fd ;;
  update_events ptr enableRead_events ;;
  mret fd.
Definition TimerQueue_dtor (timerfd ptr : Z) : ST World unit :=
  update_events ptr disableAll_events ;;
  remove ptr ;;
  _ ← on_sys (sys env (Close timerfd));
  delete_channel ptr.
(** The message is one of LOG_ERROR. *)
Definition readTimerfd (timerfd : Z) : ST Sys unit :=
  r ← sys env (Read timerfd 8);
  when (negb (r_ret r =? 8)) 
    (LOG_SYSERR (cs "TimerQueue::handleRead() reads " ++ fmt_d (r_ret r) ++ cs " bytes instead of 8")).

(** ** EventLoop *)

Definition creatWeakupFd : ST Sys Z :=
  r ← sys env (Eventfd 0 (Z.lor EFD_NONBLOCK EFD_CLOEXEC));
  when (r_ret r <? 0) (LOG_SYSERR (cs "Failed in eventfd") ;; fail FatalLog) ;;
  mret (r_ret r).
(** The members, with the two channels at [tch] and [wch]. *)
Definition EventLoop_members (tch wch : Z) : ST World Loop :=
  '(epollfd, p) ← on_sys (poller_ctor env);
  modify (fun w => set_channels (Some p) (w_channels w) w) ;;
  timerfd ← TimerQueue_ctor tch;
  wakeupFd ← on_sys creatWeakupFd;
  new_channel wch wakeupFd ;;
  mret (mkLoop false epollfd timerfd tch wakeupFd wch).
(** The loop is at [self]. *)
Definition EventLoop_ctor (self tch wch : Z) : ST World Loop :=
  l ← EventLoop_members tch wch;
  cur ← gets current;
  match cur with
  | Some _ => fail FatalLog
  | None =>
      modify (set_current (Some self)) ;;
      update_events (wakeupChannel_ l) enableRead_events ;;
      mret l
  end.
(** The body, then the members, the last one first. *)
Definition EventLoop_dtor (l : Loop) : ST World unit :=
  lift (assert_ (negb (islooping l))) ;;
  update_events (wakeupChannel_ l) disableAll_events ;;
  remove (wakeupChannel_ l) ;;
  _ ← on_sys (sys env (Close (wakeupFd_ l)));
  modify (set_current None) ;;
  delete_channel (wakeupChannel_ l) ;;
  TimerQueue_dtor (timerfd_ l) (timerfdChannel_ l) ;;
  on_sys (poller_dtor env (epollfd_ l)) ;;
  modify (fun w => set_channels None (w_channels w) w).
(** The free function; the static member of the same name is declared only. *)
Definition getCurrentEventLoop : ST World (option Z) := gets current.
End lifetime.
Arguments World P : clear implicits.

(** ** Specification *)

(** The descriptors that are open after a history. *)
Definition live1 (cr : call * reply) (X : gset Z) : gset Z :=
  (X ∪ list_to_set (opened1 cr)) ∖ list_to_set (closed1 cr).
Definition live (tr : history) : gset Z := foldl (fun X cr => live1 cr X) ∅ tr.

(** While fewer than [limit] descriptors are open the kernel gives every one that is asked
    for, and none that is open. *)
Definition provides (limit : nat) (env : Env) : Prop := forall tr c,
  (size (live tr) < limit)%nat ->
  match c with
  | Epoll_create1 _ | Timerfd_create _ _ | Eventfd _ _ =>
      0 <= r_ret (env tr c) < 2 ^ 31 /\ r_ret (env tr c) ∉ live tr
  | _ => True
  end.

(** The descriptor of a poller, as a set and as a list. *)
Definition file_set (fd : option Z) : gset Z := match fd with Some fd => {[ fd ]} | None => ∅ end.
Definition file_list (fd : option Z) : list Z := match fd with Some fd => [fd] | None => [] end.

(** What closing the poller's descriptor [fd] does. *)
Definition closes_file {P} `{PollerFile P} (env : Env) (fd : option Z) : Prop := forall s,
  exists s' tr, poller_dtor env fd s = Ok (tt, s') /\ trace s' = trace s ++ tr
    /\ closes tr = file_list fd /\ live (trace s') = live (trace s) ∖ file_set fd.

(** What a loop needs of a poller beyond PollerLaws: its invariant is about the channels it
    knows only, a new one knows none, and its destructor closes its descriptor. *)
Class PollerFileLaws (P : Type) `{Poller P, PollerFile P} := {
  inv_local p h h' :
    poller_inv p h -> (forall fd ptr, registered p !! fd = Some ptr -> h' !! ptr = h !! ptr) -> poller_inv p h';
  ctor_fresh limit env s :
    provides limit env -> (size (live (trace s)) < limit)%nat ->
    exists fd p s', poller_ctor env s = Ok ((fd, p), s') /\ registered p = ∅ /\ watching p = ∅
      /\ (forall h, poller_inv p h) /\ live (trace s') = live (trace s) ∪ file_set fd
      /\ file_set fd ## live (trace s) /\ closes_file env fd
}.

Lemma live_app tr cr : live (tr ++ [cr]) = live1 cr (live tr).
Proof. unfold live. by rewrite foldl_app. Qed.

Lemma live_close tr fd r : 0 <= fd -> live (tr ++ [(Close fd, r)]) = live tr ∖ {[ fd ]}.
Proof.
  intros Hfd. rewrite live_app. unfold live1, opened1, closed1. cbn [fst snd].
  rewrite (proj2 (Z.leb_le _ _)) by done. cbn [list_to_set]. set_solver.
Qed.

Lemma live_open tr c r :
  match c with Epoll_create1 _ | Timerfd_create _ _ | Eventfd _ _ => True | _ => False end ->
  0 <= r_ret r -> live (tr ++ [(c, r)]) = live tr ∪ {[ r_ret r ]}.
Proof.
  intros Hc Hr. rewrite live_app. unfold live1, opened1, closed1. destruct c; try done; cbn [fst snd];
    rewrite (proj2 (Z.leb_le _ _)) by done; cbn [list_to_set]; set_solver.
Qed.

#[export] Instance epoll_file_laws : PollerFileLaws EPollPoller.
Proof.
  split.
  - intros p h h' [H1 H2] Hh. split; [|done]. intros fd ptr Hp. destruct (H1 fd ptr Hp) as (c & Hc & Hr).
    exists c. split; [|done]. by rewrite (Hh fd ptr Hp).
  - intros n env s W Hsz. destruct (W (trace s) (Epoll_create1 EPOLL_CLOEXEC) Hsz) as [Hr Hn].
    eexists _, _, _. split; [cbn; unfold mbind, ST_bind, sys; rewrite (proj2 (Z.ltb_ge _ 0)) by lia; done|].
    cbn [trace]. split_and!; [done|done| | | |].
    + intros h. split; cbn; [intros fd ptr E|intros fd [? E] ]; by rewrite lookup_empty in E.
    + rewrite live_open by (done || lia). done.
    + cbn. set_solver.
    + intros s0. eexists _, [_]. split; [done|]. split; [done|]. split; [done|]. cbn [trace].
      by rewrite live_close by lia.
Qed.

#[export] Instance poll_file_laws : PollerFileLaws PollPoller.
Proof.
  split.
  - intros p h h' (H1 & H2 & H3) Hh. split_and!; [| |done].
    + intros fd ptr Hp. destruct (H1 fd ptr Hp) as (c & i & x & Hc & Hr). exists c, i, x. by rewrite (Hh fd ptr Hp).
    + intros i x Hx. destruct (H2 i x Hx) as (ptr & c & Hp & Hc & Hi). exists ptr, c. by rewrite (Hh _ _ Hp).
  - intros n env s W Hsz. exists None, PollPoller_ctor, s. cbn. split_and!; [done|done|done| |set_solver|set_solver|].
    + intros h. split_and!; [|intros i x E; by destruct i|done].
      intros fd ptr E. cbn in E. by rewrite lookup_empty in E.
    + intros s0. exists s0, []. rewrite app_nil_r. split_and!; [done..|]. cbn. set_solver.
Qed.

Section lifetime_proofs.
Context {P : Type} `{HP : Poller P, !PollerLaws P, HF : PollerFile P, !PollerFileLaws P, Build} (env : Env).
Implicit Types (w : World P) (h : heap) (p : P).

(** A channel of the loop at rest. *)
Definition channel_at h (ptr fd ev : Z) : Prop :=
  exists c, h !! ptr = Some c /\ fd_ c = fd /\ events_ c = ev /\ isHandlingEvent_ c = false.

Lemma channel_at_same h h' ptr fd ev : same_channels h h' -> channel_at h ptr fd ev -> channel_at h' ptr fd ev.
Proof.
  intros Hs (c & Hc & Hfd & Hev & Hh). specialize (Hs ptr). rewrite Hc in Hs. inversion Hs as [? d E Ed|].
  exists d. unfold same_but_index, setIndex in E. split_and!; congruence.
Qed.

Lemma same_none h h' q : same_channels h h' -> h !! q = None -> h' !! q = None.
Proof. intros Hs Hq. specialize (Hs q). rewrite Hq in Hs. by inversion Hs. Qed.

Lemma channel_at_insert h ptr c ptr' fd ev :
  ptr <> ptr' -> channel_at h ptr' fd ev -> channel_at (<[ptr := c]> h) ptr' fd ev.
Proof. intros Hne (d & Hd & Hr). exists d. by rewrite lookup_insert_ne. Qed.

Lemma enable_new w p ptr fd :
  w_poller w = Some p -> poller_inv p (w_channels w) -> w_channels w !! ptr = Some (Channel_ctor fd) ->
  0 <= fd < 2 ^ 31 -> registered p !! fd = None -> Z.of_nat (size (registered p)) < 2 ^ 31 - 1 ->
  exists p' h', update_events ptr enableRead_events w = Ok (tt, set_channels (Some p') h' w)
    /\ poller_inv p' h' /\ registered p' = <[fd := ptr]> (registered p)
    /\ watching p' = <[fd := kReadEvent]> (watching p) /\ channel_at h' ptr fd kReadEvent
    /\ (forall q fd' ev, q <> ptr -> channel_at (w_channels w) q fd' ev -> channel_at h' q fd' ev).
Proof.
  intros Hp Hi Hc Hfd Hr Hsz. set (c1 := set_isInLoop (set_events (Channel_ctor fd) kReadEvent) true).
  destruct (update_fresh p (<[ptr := c1]> (w_channels w)) ptr c1) as (p' & h' & E & Hi' & [Hs _] & Hr' & Hw');
    [by eapply inv_stable|apply lookup_insert_eq|done|done|done|done|].
  exists p', h'. split_and!; [|done|done|done| |].
  - unfold update_events, at_channel, on_poller, loop_updateChannel, assertInLoopThread, deref, mbind, ST_bind, outcome_bind.
    rewrite Hc. cbn [w_poller w_channels set_channels]. rewrite Hp. change (set_isInLoop _ true) with c1.
    rewrite assert_true by done. by rewrite E.
  - eapply channel_at_same; [done|]. exists c1. by rewrite lookup_insert_eq.
  - intros q fd' ev Hq Hat. eapply channel_at_same; [done|]. by apply channel_at_insert.
Qed.

Lemma disable_remove w p ptr fd ev :
  w_poller w = Some p -> poller_inv p (w_channels w) -> channel_at (w_channels w) ptr fd ev ->
  0 <= fd < 2 ^ 31 -> registered p !! fd = Some ptr -> is_Some (watching p !! fd) ->
  Z.of_nat (size (registered p)) < 2 ^ 31 ->
  exists p' h' c, (update_events ptr disableAll_events ;; remove ptr) w = Ok (tt, set_channels (Some p') h' w)
    /\ poller_inv p' h' /\ registered p' = delete fd (registered p) /\ watching p' = delete fd (watching p)
    /\ h' !! ptr = Some c /\ isInLoop_ c = false /\ isHandlingEvent_ c = false
    /\ (forall q fd' ev', q <> ptr -> channel_at (w_channels w) q fd' ev' -> channel_at h' q fd' ev')
    /\ (forall q, q <> ptr -> w_channels w !! q = None -> h' !! q = None).
Proof.
  intros Hp Hi (c & Hc & Hf & Hev & Hh) Hfd Hr Hw Hsz. subst fd.
  set (c1 := set_isInLoop (set_events c 0) true).
  destruct (update_watched p (<[ptr := c1]> (w_channels w)) ptr c1) as (p1 & h1 & E1 & Hi1 & [Hs1 _] & Hr1 & Hw1);
    [by eapply inv_stable|apply lookup_insert_eq|done|done|done|].
  pose proof (Hs1 ptr) as Hc1. rewrite lookup_insert_eq in Hc1. inversion Hc1 as [? d Ed Ex1 Hd|].
  assert (fd_ d = fd_ c /\ events_ d = 0 /\ isHandlingEvent_ d = false) as (Ef & Ee & Eh).
  { unfold same_but_index, setIndex, c1 in Ed. cbn in Ed. split_and!; congruence. }
  set (d1 := set_isInLoop d false).
  destruct (remove_registered p1 (<[ptr := d1]> h1) ptr d1) as (p2 & h2 & E2 & Hi2 & [Hs2 _] & Hr2 & Hw2);
    [by eapply inv_stable|apply lookup_insert_eq|cbn; by rewrite Ef, Hr1|done|by rewrite Hr1|].
  pose proof (Hs2 ptr) as Hc2. rewrite lookup_insert_eq in Hc2. inversion Hc2 as [? e Ee2 Ex2 He|].
  exists p2, h2, e. cbn in Hr2, Hw2. rewrite Ef in Hr2, Hw2. split_and!.
  - unfold remove, update_events, at_channel, on_poller, loop_updateChannel, loop_removeChannel, assertInLoopThread,
      deref, mbind, ST_bind, outcome_bind.
    rewrite Hc. cbn [w_poller w_channels set_channels]. rewrite Hp. unfold disableAll_events, kNoneEvent.
    change (set_isInLoop (set_events c 0) true) with c1. rewrite assert_true by done. rewrite E1.
    cbn [w_poller w_channels set_channels]. rewrite <- Hd. change (set_isInLoop d false) with d1.
    cbn [w_poller w_channels set_channels]. by rewrite E2.
  - done.
  - by rewrite Hr2, Hr1.
  - rewrite Hw2, Hw1. cbn. by rewrite delete_delete_eq.
  - done.
  - unfold same_but_index, setIndex, d1 in Ee2. cbn in Ee2. congruence.
  - unfold same_but_index, setIndex, d1 in Ee2. cbn in Ee2. congruence.
  - intros q fd' ev' Hq Hat. eapply channel_at_same; [exact Hs2|]. apply channel_at_insert; [done|].
    eapply channel_at_same; [exact Hs1|]. by apply channel_at_insert.
  - intros q Hq Hn. eapply same_none; [exact Hs2|]. rewrite lookup_insert_ne by done.
    eapply same_none; [exact Hs1|]. by rewrite lookup_insert_ne.
Qed.

(** A call that opens a descriptor; what is done on failure does not matter. *)
Lemma open_call n c (die : ST Sys unit) s :
  provides n env -> (size (live (trace s)) < n)%nat ->
  match c with Timerfd_create _ _ | Eventfd _ _ => True | _ => False end ->
  exists fd s', (r ← sys env c; when (r_ret r <? 0) die ;; mret (r_ret r)) s = Ok (fd, s')
    /\ 0 <= fd < 2 ^ 31 /\ fd ∉ live (trace s) /\ live (trace s') = live (trace s) ∪ {[ fd ]}.
Proof.
  intros W Hsz Hc. assert (0 <= r_ret (env (trace s) c) < 2 ^ 31 /\ r_ret (env (trace s) c) ∉ live (trace s)) as [Hr Hn].
  { pose proof (W (trace s) c Hsz) as Hw. by destruct c. }
  eexists (r_ret (env (trace s) c)), _. split.
  { unfold sys, mbind, ST_bind. rewrite (proj2 (Z.ltb_ge _ 0)) by lia. done. }
  split_and!; [lia|lia|done|]. cbn [trace]. rewrite live_open; [done|by destruct c|lia].
Qed.

(** The end of a channel the poller does not know. *)
Lemma delete_spec w p ptr c :
  w_poller w = Some p -> poller_inv p (w_channels w) -> w_channels w !! ptr = Some c ->
  isInLoop_ c = false -> isHandlingEvent_ c = false -> (forall fd, registered p !! fd <> Some ptr) ->
  delete_channel ptr w = Ok (tt, set_channels (Some p) (delete ptr (w_channels w)) w)
  /\ poller_inv p (delete ptr (w_channels w))
  /\ (forall q fd ev, q <> ptr -> channel_at (w_channels w) q fd ev -> channel_at (delete ptr (w_channels w)) q fd ev).
Proof.
  intros Hp Hi Hc Hl Hh Hr. split_and!.
  - unfold delete_channel, deref, Channel_dtor. rewrite Hc, bind_Ok, Hl, Hh, !assert_true, !bind_Ok by done. by rewrite Hp.
  - eapply inv_local; [exact Hi|]. intros fd q Hq. rewrite lookup_delete_ne; [done|]. intros ->. by apply (Hr fd).
  - intros q fd ev Hq (d & Hd & Hx). exists d. by rewrite lookup_delete_ne.
Qed.

(** A loop whose only registered channels are its own. *)
Record settled (l : Loop) w : Prop := {
  st_looping : islooping l = false;
  st_chans : timerfdChannel_ l <> wakeupChannel_ l;
  st_fds : timerfd_ l <> wakeupFd_ l;
  st_timer : 0 <= timerfd_ l < 2 ^ 31;
  st_wakeup : 0 <= wakeupFd_ l < 2 ^ 31;
  st_file : closes_file env (epollfd_ l);
  st_at_timer : channel_at (w_channels w) (timerfdChannel_ l) (timerfd_ l) kReadEvent;
  st_at_wakeup : channel_at (w_channels w) (wakeupChannel_ l) (wakeupFd_ l) kReadEvent;
  st_poller : exists p, w_poller w = Some p /\ poller_inv p (w_channels w)
    /\ registered p = {[ timerfd_ l := timerfdChannel_ l; wakeupFd_ l := wakeupChannel_ l ]}
    /\ watching p = {[ timerfd_ l := kReadEvent; wakeupFd_ l := kReadEvent ]}
}.
Definition files (l : Loop) : gset Z := file_set (epollfd_ l) ∪ {[ timerfd_ l; wakeupFd_ l ]}.

Lemma members_spec n tch wch w :
  provides n env -> (size (live (trace (w_sys w))) + 3 <= n)%nat -> w_poller w = None -> tch <> wch ->
  wp (EventLoop_members env tch wch) w (fun l w' =>
    islooping l = false /\ timerfdChannel_ l = tch /\ wakeupChannel_ l = wch /\ timerfd_ l <> wakeupFd_ l
    /\ 0 <= timerfd_ l < 2 ^ 31 /\ 0 <= wakeupFd_ l < 2 ^ 31 /\ closes_file env (epollfd_ l)
    /\ current w' = current w /\ w_channels w' !! wch = Some (Channel_ctor (wakeupFd_ l))
    /\ channel_at (w_channels w') tch (timerfd_ l) kReadEvent
    /\ (exists p, w_poller w' = Some p /\ poller_inv p (w_channels w')
         /\ registered p = {[ timerfd_ l := tch ]} /\ watching p = {[ timerfd_ l := kReadEvent ]})
    /\ live (trace (w_sys w')) = live (trace (w_sys w)) ∪ files l /\ files l ## live (trace (w_sys w))).
Proof.
  intros W Hsz Hp Hne. unfold EventLoop_members. wp_step. unfold on_sys. wp_step.
  destruct (ctor_fresh n env (w_sys w) W) as (efd & p & s1 & E1 & Hr1 & Hw1 & Hi1 & Hl1 & Hd1 & Hf1); [lia|].
  assert (size (live (trace s1)) <= size (live (trace (w_sys w))) + 1)%nat as Hsz1.
  { rewrite Hl1, size_union by (by symmetry). destruct efd; cbn [file_set]; [rewrite size_singleton|rewrite size_empty]; lia. }
  apply (wp_Ok _ _ (efd, p) s1); [done|]. wp_step. wp_step. wp_step. cbn [set_channels w_channels w_sys current].
  unfold TimerQueue_ctor. wp_step. unfold on_sys. wp_step. cbn [w_sys].
  destruct (open_call n (Timerfd_create CLOCK_MONOTONIC (Z.lor TFD_NONBLOCK TFD_CLOEXEC)) LOG_SYSFATAL s1 W ltac:(lia) I)
    as (tfd & s2 & E2 & Htfd & Hn2 & Hl2).
  assert (size (live (trace s2)) <= size (live (trace (w_sys w))) + 2)%nat as Hsz2.
  { rewrite Hl2, size_union, size_singleton by set_solver. lia. }
  apply (wp_Ok _ _ tfd s2); [done|]. wp_step. unfold new_channel. wp_step. wp_step. cbn [set_channels w_poller w_channels w_sys current].
  set (h1 := <[tch := Channel_ctor tfd]> (w_channels w)).
  destruct (enable_new (mkWorld (Some p) h1 s2 (current w)) p tch tfd) as (p2 & h2 & E3 & Hi2 & Hr2 & Hw2 & Ht2 & Ho2);
    [done|apply Hi1|apply lookup_insert_eq|done|by rewrite Hr1|rewrite Hr1, map_size_empty; lia|].
  apply (wp_Ok _ _ tt _ _ E3). wp_step. wp_step. wp_step. cbn [set_channels w_sys w_poller w_channels current].
  destruct (open_call n (Eventfd 0 (Z.lor EFD_NONBLOCK EFD_CLOEXEC)) (LOG_SYSERR (cs "Failed in eventfd") ;; fail FatalLog) s2 W ltac:(lia) I)
    as (wfd & s3 & E4 & Hwfd & Hn3 & Hl3).
  apply (wp_Ok _ _ wfd s3); [done|]. wp_step. wp_step. wp_step. cbn [set_channels w_sys w_poller w_channels current].
  assert (tfd <> wfd) as Hfds by (intros ->; apply Hn3; rewrite Hl2; set_solver).
  rewrite Hr1 in Hr2. rewrite Hw1 in Hw2. unfold files. cbn [timerfd_ wakeupFd_ epollfd_ timerfdChannel_ wakeupChannel_ islooping].
  split_and!; try done; try lia.
  - apply lookup_insert_eq.
  - by apply channel_at_insert.
  - exists p2. split_and!; [done| |done|done]. eapply inv_local; [exact Hi2|]. intros fd q.
    rewrite Hr2. intros [ [<- <-]|[_ Hq] ]%lookup_insert_Some; [by apply lookup_insert_ne|by rewrite lookup_empty in Hq].
  - rewrite Hl3, Hl2, Hl1. set_solver.
  - rewrite Hl2, Hl1 in Hn3. rewrite Hl1 in Hn2. set_solver.
Qed.

Lemma ctor_spec n self tch wch w :
  provides n env -> (size (live (trace (w_sys w))) + 3 <= n)%nat -> w_poller w = None -> current w = None -> tch <> wch ->
  wp (EventLoop_ctor env self tch wch) w (fun l w' =>
    settled l w' /\ current w' = Some self /\ timerfdChannel_ l = tch /\ wakeupChannel_ l = wch
    /\ live (trace (w_sys w')) = live (trace (w_sys w)) ∪ files l /\ files l ## live (trace (w_sys w))).
Proof.
  intros W Hsz Hp Hcur Hne. unfold EventLoop_ctor. wp_step. eapply wp_mono; [by apply (members_spec n)|].
  intros l w1 (Hlo & <- & <- & Hfds & Ht & Hk & Hf & Hc1 & Hch & Hat & (p & Hp1 & Hi1 & Hr1 & Hw1) & Hl & Hd).
  wp_step. wp_step. rewrite Hc1, Hcur. wp_step. wp_step. wp_step.
  destruct (enable_new (set_current (Some self) w1) p (wakeupChannel_ l) (wakeupFd_ l))
    as (p2 & h2 & E2 & Hi2 & Hr2 & Hw2 & Ht2 & Ho2); [exact Hp1|exact Hi1|exact Hch|exact Hk| | |].
  { rewrite Hr1. by simplify_map_eq. }
  { rewrite Hr1, map_size_singleton. lia. }
  apply (wp_Ok _ _ tt _ _ E2). wp_step. cbn [set_channels set_current w_sys w_poller w_channels current] in *. split_and!; try done.
  constructor; cbn; try done.
  - by apply Ho2.
  - exists p2. split_and!; [done|done| |].
    + rewrite Hr2, Hr1. by apply insert_insert_ne.
    + rewrite Hw2, Hw1. by apply insert_insert_ne.
Qed.

(** Two steps whose result is known, at the front of a sequence. *)
Lemma wp_two (m1 m2 k : ST (World P) unit) w w' Q :
  (m1 ;; m2) w = Ok (tt, w') -> wp k w' Q -> wp (m1 ;; m2 ;; k) w Q.
Proof.
  unfold mbind, ST_bind. intros E (a & w2 & Ek & HQ). exists a, w2. split; [|done].
  destruct (m1 w) as [ [ [] w1]|]; [|done]. by rewrite E.
Qed.

Lemma dtor_spec l w :
  settled l w ->
  wp (EventLoop_dtor env l) w (fun _ w' =>
    w_poller w' = None /\ current w' = None
    /\ w_channels w' !! timerfdChannel_ l = None /\ w_channels w' !! wakeupChannel_ l = None
    /\ exists tr, trace (w_sys w') = trace (w_sys w) ++ tr
      /\ closes tr = wakeupFd_ l :: timerfd_ l :: file_list (epollfd_ l)
      /\ live (trace (w_sys w')) = live (trace (w_sys w)) ∖ files l).
Proof.
  intros [Hlo Hne Hfds Ht Hk Hf Hat Hak (p & Hp & Hi & Hr & Hw)]. unfold EventLoop_dtor. rewrite Hlo.
  wp_step. wp_step; [done|].
  destruct (disable_remove w p (wakeupChannel_ l) (wakeupFd_ l) kReadEvent)
    as (p1 & h1 & c1 & E1 & Hi1 & Hr1 & Hw1 & Hc1 & Hl1 & Hh1 & Ho1 & Hno1); [done..| | | |].
  { rewrite Hr. by simplify_map_eq. }
  { rewrite Hw. exists kReadEvent. by simplify_map_eq. }
  { rewrite Hr, map_size_insert_None, map_size_singleton by (by simplify_map_eq). lia. }
  eapply wp_two; [exact E1|]. wp_step. unfold on_sys at 1. wp_step. eapply wp_Ok; [reflexivity|]. cbn [set_channels w_sys w_poller w_channels current].
  wp_step. wp_step. cbn [set_current w_sys w_poller w_channels current].
  assert (registered p1 = {[ timerfd_ l := timerfdChannel_ l ]}) as Hr1'.
  { rewrite Hr1, Hr. apply map_eq. intros i. destruct (decide (i = timerfd_ l)); destruct (decide (i = wakeupFd_ l)); by simplify_map_eq. }
  set (s1 := mkSys _ _ _). wp_step.
  destruct (delete_spec (mkWorld (Some p1) h1 s1 None) p1 (wakeupChannel_ l) c1) as (E2 & Hi2 & Ho2); [done..| |].
  { intros fd E. rewrite Hr1' in E. apply lookup_singleton_Some in E as [_ E]. done. }
  apply (wp_Ok _ _ _ _ _ E2). cbn [set_channels w_sys w_poller w_channels current] in *. wp_step. unfold TimerQueue_dtor.
  set (w2 := set_channels (Some p1) (delete (wakeupChannel_ l) h1) _).
  destruct (disable_remove w2 p1 (timerfdChannel_ l) (timerfd_ l) kReadEvent)
    as (p3 & h3 & c3 & E3 & Hi3 & Hr3 & Hw3 & Hc3 & Hl3 & Hh3 & Ho3 & Hno3); [done|done| |done| | | |].
  { apply Ho2; [done|]. by apply Ho1. }
  { rewrite Hr1'. by simplify_map_eq. }
  { rewrite Hw1, Hw. exists kReadEvent. by simplify_map_eq. }
  { rewrite Hr1', map_size_singleton. lia. }
  eapply wp_two; [exact E3|]. wp_step. unfold on_sys at 1. wp_step. eapply wp_Ok; [reflexivity|]. cbn [set_channels w_sys w_poller w_channels current w2].
  set (s3 := mkSys _ _ _).
  destruct (delete_spec (mkWorld (Some p3) h3 s3 None) p3 (timerfdChannel_ l) c3) as (E4 & Hi4 & Ho4); [done..| |].
  { intros fd E. rewrite Hr3, Hr1' in E. apply lookup_delete_Some in E as [Hd E].
    apply lookup_singleton_Some in E as [E _]. by apply Hd. }
  apply (wp_Ok _ _ _ _ _ E4). cbn [set_channels w_sys w_poller w_channels current].
  wp_step. unfold on_sys. wp_step. destruct (Hf s3) as (s4 & tr & E5 & Ht5 & Hc5 & Hl5).
  apply (wp_Ok _ _ tt s4); [done|]. wp_step. cbn [set_channels w_sys w_poller w_channels current].
  split_and!; [done|done|apply lookup_delete_eq| |].
  - rewrite lookup_delete_ne by done.
    apply Hno3; [done|]. cbn. apply lookup_delete_eq.
  - exists ([(Close (wakeupFd_ l), env (trace (w_sys w)) (Close (wakeupFd_ l)))]
      ++ [(Close (timerfd_ l), env (trace s1) (Close (timerfd_ l)))] ++ tr).
    split_and!.
    + rewrite Ht5. cbn. by rewrite <- !(assoc_L (++)).
    + rewrite !closes_app, Hc5. done.
    + rewrite Hl5. cbn [s3 s1 trace]. rewrite !live_close by lia. unfold files. set_solver.
Qed.
End lifetime_proofs.

(** C19: The life of an event loop.  On a kernel that gives it its descriptors the constructor
    ends with exactly the timer's and the wakeup descriptor watched for reading and the
    thread's pointer set.  Whatever the loop has done since, once the channels of others
    have been removed the destructor fails no assert, takes both channels out of the
    poller before it ends them, closes the wakeup descriptor, the timer and the poller's
    own descriptor once each in this order, so that of the descriptors open before it only
    these three are gone, and clears the thread's pointer. *)
Theorem loop_lifetime {P : Type} `{HP : Poller P, !PollerLaws P, HF : PollerFile P, !PollerFileLaws P, Build}
    (limit : nat) (env : Env) self tch wch (w : World P) :
  provides limit env -> (size (live (trace (w_sys w))) + 3 <= limit)%nat -> w_poller w = None -> current w = None -> tch <> wch ->
  exists l w1, EventLoop_ctor env self tch wch w = Ok (l, w1)
    /\ settled env l w1 /\ current w1 = Some self
    /\ live (trace (w_sys w1)) = live (trace (w_sys w)) ∪ files l /\ files l ## live (trace (w_sys w))
    /\ (forall w2, settled env l w2 ->
        exists w3 tr, EventLoop_dtor env l w2 = Ok (tt, w3)
          /\ w_poller w3 = None /\ current w3 = None
          /\ w_channels w3 !! tch = None /\ w_channels w3 !! wch = None
          /\ trace (w_sys w3) = trace (w_sys w2) ++ tr
          /\ closes tr = wakeupFd_ l :: timerfd_ l :: file_list (epollfd_ l)
          /\ live (trace (w_sys w3)) = live (trace (w_sys w2)) ∖ files l).
Proof.
  intros W Hsz Hp Hc Hne.
  destruct (ctor_spec env limit self tch wch w W Hsz Hp Hc Hne) as (l & w1 & E & Hs & Hcur & <- & <- & Hl & Hd).
  exists l, w1. split_and!; [done..|]. intros w2 Hs2.
  destruct (dtor_spec env l w2 Hs2) as ([] & w3 & E3 & H1 & H2 & H3 & H4 & tr & H5 & H6 & H7).
  by exists w3, tr.
Qed.

(** A thread has one loop at most: the constructor of a second one ends the process. *)
Theorem second_loop_fatal {P : Type} `{HP : Poller P, !PollerLaws P, HF : PollerFile P, !PollerFileLaws P, Build}
    (limit : nat) (env : Env) (self other : Z) tch wch (w : World P) :
  provides limit env -> (size (live (trace (w_sys w))) + 3 <= limit)%nat -> w_poller w = None -> tch <> wch ->
  current w = Some other -> EventLoop_ctor env self tch wch w = Err FatalLog.
Proof.
  intros W Hsz Hp Hne Hc. destruct (members_spec env limit tch wch w W Hsz Hp Hne) as (l & w1 & E & H1).
  destruct H1 as (_ & _ & _ & _ & _ & _ & _ & Hc1 & _). unfold EventLoop_ctor. rewrite (run_bind _ _ _ _ _ E).
  unfold mbind, ST_bind, gets. by rewrite Hc1, Hc.
Qed.

(** A kernel that gives the smallest free number below [n]. *)
Definition free_below (n : nat) (X : gset Z) : Z := default 0 (head (filter (fun i => i ∉ X) (seqZ 0 (Z.of_nat n)))).
Definition smallest (n : nat) : Env := fun tr _ => mkReply (free_below n (live tr)) 0 VNone.

Lemma smallest_provides n : Z.of_nat n < 2 ^ 31 -> provides n (smallest n).
Proof.
  intros Hn tr c Hsz.
  assert (0 <= free_below n (live tr) < 2 ^ 31 /\ free_below n (live tr) ∉ live tr) as Hf; [|by destruct c].
  unfold free_below. destruct (filter (fun i => i ∉ live tr) (seqZ 0 (Z.of_nat n))) as [|x l] eqn:E.
  - exfalso. assert (list_to_set (seqZ 0 (Z.of_nat n)) ⊆ live tr) as Hsub.
    { intros x Hx%elem_of_list_to_set. destruct (decide (x ∈ live tr)); [done|].
      assert (x ∈ filter (fun i => i ∉ live tr) (seqZ 0 (Z.of_nat n))) as Hin by (by apply list_elem_of_filter).
      rewrite E in Hin. by apply elem_of_nil in Hin. }
    apply subseteq_size in Hsub. rewrite size_list_to_set in Hsub by apply NoDup_seqZ.
    rewrite length_seqZ in Hsub. lia.
  - assert (x ∈ x :: l) as Hin by by left. rewrite <- E in Hin. apply list_elem_of_filter in Hin as [Hx Hin].
    apply elem_of_seqZ in Hin. cbn. split; [lia|done].
Qed.

Definition new_process {P} : World P := mkWorld None ∅ Sys_start None.

Lemma loop_lifetime_witness :
  provides 1000 (smallest 1000) /\
  exists l w1, EventLoop_ctor (P := EPollPoller) (H1 := Debug) (smallest 1000) 100 200 300 new_process = Ok (l, w1)
    /\ exists w3 tr, EventLoop_dtor (H1 := Debug) (smallest 1000) l w1 = Ok (tt, w3)
      /\ trace (w_sys w3) = trace (w_sys w1) ++ tr
      /\ closes tr = wakeupFd_ l :: timerfd_ l :: file_list (epollfd_ l).
Proof.
  assert (provides 1000 (smallest 1000)) as W by (apply smallest_provides; lia).
  split; [exact W|].
  destruct (loop_lifetime (P := EPollPoller) (H := Debug) 1000 (smallest 1000) 100 200 300 new_process W)
    as (l & w1 & E & Hs & _ & _ & _ & Hd); [change (0 + 3 <= 1000)%nat; lia|done|done|lia|].
  exists l, w1. split; [exact E|].
  destruct (Hd w1 Hs) as (w3 & tr & E3 & _ & _ & _ & _ & Ht & Hc & _).
  exists w3, tr. exact (conj E3 (conj Ht Hc)).
Defined.

Lemma second_loop_fatal_witness :
  provides 1000 (smallest 1000) /\
  EventLoop_ctor (P := PollPoller) (H1 := Debug) (smallest 1000) 100 200 300 (mkWorld None ∅ Sys_start (Some 99)) = Err FatalLog.
Proof.
  assert (provides 1000 (smallest 1000)) as W by (apply smallest_provides; lia).
  split; [exact W|].
  apply (second_loop_fatal (P := PollPoller) (H := Debug) 1000 (smallest 1000) 100 99 200 300 _ W);
    [change (0 + 3 <= 1000)%nat; lia|done|lia|done].
Defined.
