(* ===== verification/Dial.v ===== *)
(** * The connector on the kernel: src/arale/net/Connector.cc over SocketsOps.cc

    The connector of Connector.v with its system calls made: descriptors are what the
    kernel of Sockets.v returns, and may be used again after they are closed.  A turn of the
    loop is simulated by one of Connector.v, which chooses its results; what the connector
    does with descriptors is checked call by call. *)

From S2P Require Import Prelude Format Server Sockets Ledger Connector.
Import Connector.

Module Dial.

Record Dial := mkDial {
  connectChannel_ : option Z; state_ : State; connected_ : bool; retryDelayMs_ : Z;
  resets : nat;        (* resetChannel functors posted to the loop *)
  timers : list Z;     (* startInLoop timers, by their delay in ms *)
  given : list Z       (* passed to connectionCallback_ *)
}.
Definition Dial_ctor : Dial := mkDial None kDisconnected false kInitRetryDelayMs 0 [] [].

Definition setState (st : State) d :=
  mkDial (connectChannel_ d) st (connected_ d) (retryDelayMs_ d) (resets d) (timers d) (given d).
Definition set_connected (b : bool) d :=
  mkDial (connectChannel_ d) (state_ d) b (retryDelayMs_ d) (resets d) (timers d) (given d).
Definition set_channel (c : option Z) (n : nat) d :=
  mkDial c (state_ d) (connected_ d) (retryDelayMs_ d) n (timers d) (given d).
Definition set_retry (delay : Z) (l : list Z) d :=
  mkDial (connectChannel_ d) (state_ d) (connected_ d) delay (resets d) l (given d).
Definition give_fd (fd : Z) d :=
  mkDial (connectChannel_ d) (state_ d) (connected_ d) (retryDelayMs_ d) (resets d) (timers d)
    (given d ++ [fd]).

(** The connector, and the process with its kernel. *)
Record World := mkWorld { conn : Dial; w_sys : Sys }.

Section ops.
Context `{Build} (env : Env) (serverAddr_ : InetAddress).
(** What the variable of getSocketError holds before the call. *)
Context (optval : Z).

Definition on_sys {A} (m : ST Sys A) : ST World A :=
  zoom w_sys (fun t w => mkWorld (conn w) t) m.
Definition on_conn (f : Dial -> Dial) : ST World unit :=
  modify (fun w => mkWorld (f (conn w)) (w_sys w)).
Definition assert_conn (p : Dial -> bool) : ST World unit :=
  d ← gets conn; lift (assert_ (p d)).

Definition retry (sockfd : Z) : ST World unit :=
  on_sys (close env sockfd) ;;
  on_conn (setState kDisconnected) ;;
  d ← gets conn;
  when (connected_ d)
    (on_conn (set_retry (Z.min (retryDelayMs_ d * 2) kMaxRetryDelayMs)
                (timers d ++ [retryDelayMs_ d]))).

Definition connecting (sockfd : Z) : ST World unit :=
  assert_conn connected_ ;;
  assert_conn (fun d => bool_decide (connectChannel_ d = None)) ;;
  on_conn (setState kConnecting) ;;
  on_conn (fun d => set_channel (Some sockfd) (resets d) d).

(** EACCES, EPERM, EAFNOSUPPORT, EALREADY, EBADF, EFAULT, ENOTSOCK *)
Definition expected_errors : list Z := [13; 1; 97; 114; 9; 14; 88].
Definition connect : ST World unit :=
  sock ← on_sys (createNonblockingOrDie env (family serverAddr_));
  ret ← on_sys (Sockets.connect env sock serverAddr_);
  savedError ← (if ret =? 0 then mret 0 else on_sys (gets errno));
  if bool_decide (savedError ∈ [0; EINPROGRESS; EINTR; EISCONN]) then connecting sock
  else if bool_decide (savedError ∈ [EAGAIN; EADDRINUSE; EADDRNOTAVAIL; ECONNREFUSED; ENETUNREACH])
  then retry sock
  else
    on_sys (LOG_SYSERR
      ((if bool_decide (savedError ∈ expected_errors)
        then cs "connect error in Connector::startInLoop "
        else cs "Unexpected error in Connector::startInLoop ") ++ fmt_d savedError)) ;;
    on_sys (close env sock).

Definition startInLoop : ST World unit :=
  assert_conn (fun d => bool_decide (state_ d = kDisconnected)) ;;
  d ← gets conn;
  when (connected_ d) connect.
Definition start : ST World unit := on_conn (set_connected true) ;; startInLoop.

Definition removeAndResetChannel : ST World Z :=
  d ← gets conn;
  match connectChannel_ d with
  | Some fd => on_conn (set_channel (Some fd) (S (resets d))) ;; mret fd
  | None => fail NullCall
  end.

Definition handleWrite : ST World unit :=
  d ← gets conn;
  if bool_decide (state_ d = kConnecting) then
    sockfd ← removeAndResetChannel;
    err ← on_sys (getSocketError env optval sockfd);
    if negb (err =? 0) then retry sockfd
    else
      self ← on_sys (isSelfConnect env sockfd);
      if (self : bool) then retry sockfd
      else
        d ← gets conn;
        if connected_ d
        then on_conn (setState kConnected) ;; on_conn (give_fd sockfd)
        else on_sys (close env sockfd) ;; on_conn (setState kDisconnected)
  else assert_conn (fun d => bool_decide (state_ d = kDisconnected)).

Definition handleError : ST World unit :=
  d ← gets conn;
  when (bool_decide (state_ d = kConnecting))
    (sockfd ← removeAndResetChannel;
     _ ← on_sys (getSocketError env optval sockfd);
     retry sockfd).

Definition stopInLoop : ST World unit :=
  d ← gets conn;
  when (bool_decide (state_ d = kConnecting))
    (on_conn (setState kDisconnected) ;;
     sockfd ← removeAndResetChannel;
     retry sockfd).
Definition stop : ST World unit := on_conn (set_connected false) ;; stopInLoop.

Definition restart : ST World unit :=
  on_conn (set_connected true) ;;
  on_conn (setState kDisconnected) ;;
  on_conn (fun d => set_retry kInitRetryDelayMs (timers d) d) ;;
  startInLoop.

(** ** Turns of the loop: an event, then the resets it posted *)

Inductive event := Start | Timer | Writable | Error | Stop | Restart.

Definition handle (ev : event) : ST World unit :=
  match ev with
  | Start => start
  | Timer => on_conn (fun d => set_retry (retryDelayMs_ d) (tail (timers d)) d) ;; startInLoop
  | Writable => handleWrite
  | Error => handleError
  | Stop => stop
  | Restart => restart
  end.
Definition run_resets (d : Dial) : Dial :=
  match resets d with O => d | S _ => set_channel None 0 d end.
Definition turn (ev : event) : ST World unit := handle ev ;; on_conn run_resets.
End ops.

(** When an event can occur, as in Connector.v. *)
Definition allowed (ev : event) (d : Dial) : Prop :=
  match ev with
  | Start => state_ d = kDisconnected /\ timers d = []
  | Timer => timers d <> []
  | Writable | Error => state_ d = kConnecting
  | Stop => True
  | Restart => state_ d = kConnected
  end.

(** socket() succeeds: otherwise the process ends. *)
Definition sockets_succeed (env : Env) : Prop := forall tr f t p, 0 <= r_ret (env tr (Socket_ f t p)).

(** ** Runs: turns, between which the rest of the process does what it does *)

Inductive runs `{Build} (env : Env) (addr : InetAddress) (optval : Z)
    : World -> list event -> list own -> World -> Prop :=
  | runs_nil w : runs env addr optval w [] [] w
  | runs_turn w evs mine w1 ev tr fds w2 :
      runs env addr optval w evs mine w1 -> allowed ev (conn w1) ->
      turn env addr optval ev w1 = Ok (tt, w2) ->
      trace (w_sys w2) = trace (w_sys w1) ++ tr -> given (conn w2) = given (conn w1) ++ fds ->
      runs env addr optval w (evs ++ [ev]) (mine ++ owns tr fds) w2
  | runs_others w evs mine w1 s :
      runs env addr optval w evs mine w1 -> runs env addr optval w evs mine (mkWorld (conn w1) s).

(** The connector of Connector.v in the same state. *)
Definition sim (d : Dial) (s : Connector) : Prop :=
  Connector.state_ s = state_ d /\ Connector.connected_ s = connected_ d
  /\ Connector.retryDelayMs_ s = retryDelayMs_ d /\ Connector.resets s = resets d
  /\ Connector.timers s = timers d
  /\ (Connector.connectChannel_ s = None <-> connectChannel_ d = None)
  /\ length (Connector.given s) = length (given d).
Definition same_event (ev : event) (e : Connector.event) : Prop :=
  match ev, e with
  | Start, EvStart _ | Timer, EvTimer _ | Writable, EvWritable _ _ | Error, EvError
  | Stop, EvStop | Restart, EvRestart _ => True
  | _, _ => False
  end.

(** ** Lemmas *)

Section proofs.
Context `{Build} (env : Env) (addr : InetAddress) (optval : Z).
Implicit Types (w : World) (d : Dial) (s : Connector).

(** What an operation does: the connector after it, the calls made, the descriptors given. *)
Definition acts {A} (m : ST World A) w (Q : A -> Dial -> history -> list Z -> Prop) : Prop :=
  wp m w (fun a w' => exists tr fds, trace (w_sys w') = trace (w_sys w) ++ tr
                       /\ given (conn w') = given (conn w) ++ fds /\ Q a (conn w') tr fds).

Lemma acts_ret {A} (a : A) w (Q : A -> Dial -> history -> list Z -> Prop) :
  Q a (conn w) [] [] -> acts (mret a) w Q.
Proof. intros HQ. apply wp_ret. exists [], []. by rewrite !app_nil_r. Qed.

Lemma acts_bind {A B} (m : ST World A) (k : A -> ST World B) w
    (Q : B -> Dial -> history -> list Z -> Prop) :
  acts m w (fun a d tr1 fds1 => forall w1, conn w1 = d ->
    acts (k a) w1 (fun b d' tr2 fds2 => Q b d' (tr1 ++ tr2) (fds1 ++ fds2))) ->
  acts (m ≫= k) w Q.
Proof.
  intros Hm. apply wp_bind. eapply wp_mono; [exact Hm|].
  intros a w1 (tr1 & fds1 & E1 & G1 & Hk). eapply wp_mono; [by apply Hk|].
  intros b w2 (tr2 & fds2 & E2 & G2 & HQ). exists (tr1 ++ tr2), (fds1 ++ fds2).
  by rewrite E2, E1, G2, G1, !(assoc_L (++)).
Qed.

Lemma acts_mono {A} (m : ST World A) w (Q Q' : A -> Dial -> history -> list Z -> Prop) :
  acts m w Q -> (forall a d tr fds, Q a d tr fds -> Q' a d tr fds) -> acts m w Q'.
Proof.
  intros Hm HQ. eapply wp_mono; [exact Hm|]. intros a w' (tr & fds & E & G & Ha).
  exists tr, fds. split_and!; [done..|by apply HQ].
Qed.

Lemma acts_sys {A} (m : ST Sys A) w (Q : A -> Dial -> history -> list Z -> Prop) :
  adds m (w_sys w) (fun a tr => Q a (conn w) tr []) -> acts (on_sys m) w Q.
Proof.
  intros (a & s' & E & tr & Et & HQ). exists a, (mkWorld (conn w) s').
  unfold on_sys, zoom. rewrite E. split; [done|]. exists tr, []. by rewrite app_nil_r.
Qed.

Lemma acts_conn f w (Q : unit -> Dial -> history -> list Z -> Prop) fds :
  given (f (conn w)) = given (conn w) ++ fds -> Q tt (f (conn w)) [] fds -> acts (on_conn f) w Q.
Proof. intros G HQ. apply wp_modify. exists [], fds. by rewrite app_nil_r. Qed.

Lemma acts_gets w (Q : Dial -> Dial -> history -> list Z -> Prop) :
  Q (conn w) (conn w) [] [] -> acts (gets conn) w Q.
Proof. intros HQ. apply wp_gets. exists [], []. by rewrite !app_nil_r. Qed.

Lemma acts_assert p w (Q : unit -> Dial -> history -> list Z -> Prop) :
  p (conn w) = true -> Q tt (conn w) [] [] -> acts (assert_conn p) w Q.
Proof.
  intros Hp HQ. apply acts_bind, acts_gets. intros w1 E. exists tt, w1. unfold lift.
  rewrite assert_true by done. split; [done|]. exists [], []. rewrite !app_nil_r. by rewrite E.
Qed.
End proofs.

Ltac acts_step :=
  lazymatch goal with
  | |- acts (mret _) _ _ => apply acts_ret
  | |- acts (mbind _ _) _ _ => apply acts_bind
  | |- acts (on_sys _) _ _ => apply acts_sys
  | |- acts (gets conn) _ _ => apply acts_gets
  | |- acts (on_conn _) _ _ => first [apply (acts_conn _ _ _ []); [by rewrite app_nil_r|]|eapply acts_conn; [done|]]
  | |- adds _ _ _ => adds_step
  end; cbv beta iota; intros.

(** Equations between the connectors of the states that an operation goes through. *)
Ltac conn_eq :=
  repeat match goal with E : conn ?w = _ |- context [conn ?w] => rewrite E end; done.

Section turns.
Context `{Build} (env : Env) (addr : InetAddress) (optval : Z).
Implicit Types (w : World) (d : Dial) (s : Connector).

(** *** The calls *)

Lemma close_adds fd (s : Sys) : adds (close env fd) s (fun _ tr => exists r, tr = [(Close fd, r)]).
Proof. unfold close. adds_step. adds_step. adds_step; [adds_step|]; by eexists. Qed.

Lemma create_adds f (s : Sys) :
  sockets_succeed env ->
  adds (createNonblockingOrDie env f) s (fun fd tr =>
    exists t p r, tr = [(Socket_ f t p, r)] /\ r_ret r = fd /\ 0 <= fd).
Proof.
  intros Hs. unfold createNonblockingOrDie. adds_step. adds_step.
  set (r := env _ _). assert (0 <= r_ret r) as Hr by apply Hs.
  rewrite (proj2 (Z.ltb_ge _ _)) by done. adds_step. adds_step; [done|]. adds_step.
  by eexists _, _, r.
Qed.

Lemma connect_adds fd (s : Sys) :
  adds (Sockets.connect env fd addr) s (fun _ tr => exists a l r, tr = [(Connect fd a l, r)]).
Proof. unfold Sockets.connect. adds_step. adds_step. adds_step. by eexists _, _, _. Qed.

Lemma getSocketError_adds fd (s : Sys) :
  adds (getSocketError env optval fd) s (fun _ tr => exists l o r, tr = [(Getsockopt fd l o, r)]).
Proof.
  unfold getSocketError. adds_step. adds_step. case_match; adds_step; by eexists _, _, _.
Qed.

Lemma isSelfConnect_adds fd (s : Sys) :
  adds (isSelfConnect env fd) s (fun _ tr => exists r1 r2, tr = [(Getsockname fd, r1); (Getpeername fd, r2)]).
Proof.
  unfold isSelfConnect, getLocalAddr, getPeerAddr.
  repeat first [progress adds_step | case_match]; by eexists _, _.
Qed.

(** *** What the operations do to the connector *)

Definition retried d : Dial :=
  let d := setState kDisconnected d in
  if connected_ d
  then set_retry (Z.min (retryDelayMs_ d * 2) kMaxRetryDelayMs) (timers d ++ [retryDelayMs_ d]) d
  else d.

Lemma retry_acts fd w :
  acts (retry env fd) w (fun _ d tr fds => (exists r, tr = [(Close fd, r)]) /\ fds = [] /\ d = retried (conn w)).
Proof.
  unfold retry. do 2 acts_step. eapply adds_mono; [apply close_adds|]. intros _ tr (r & ->) w1 E1.
  acts_step. acts_step. rewrite <- E1. acts_step. acts_step. unfold retried.
  match goal with E : conn ?w2 = setState _ _ |- _ => rewrite E end. cbv zeta.
  destruct (connected_ _); cbn [when]; acts_step; (split_and!; [by eexists|done|conn_eq]).
Qed.

Lemma connecting_acts fd w :
  connected_ (conn w) = true -> connectChannel_ (conn w) = None ->
  acts (connecting fd) w (fun _ d tr fds => tr = [] /\ fds = []
    /\ d = set_channel (Some fd) (resets (conn w)) (setState kConnecting (conn w))).
Proof.
  intros Hc Hn. unfold connecting. acts_step. apply acts_assert; [done|]. intros w1 E1.
  acts_step. apply acts_assert; [rewrite E1; by apply bool_decide_eq_true|]. intros w2 E2.
  acts_step. acts_step. acts_step. split_and!; [done..|]. conn_eq.
Qed.

(** The result of connect() on a new socket. *)
Definition dialed (e fd : Z) d : Dial :=
  if bool_decide (e ∈ [0; EINPROGRESS; EINTR; EISCONN])
  then set_channel (Some fd) (resets d) (setState kConnecting d)
  else if bool_decide (e ∈ [EAGAIN; EADDRINUSE; EADDRNOTAVAIL; ECONNREFUSED; ENETUNREACH])
  then retried d else d.
Lemma dialed_given e fd d : given (dialed e fd d) = given d.
Proof. unfold dialed, retried. repeat case_match; done. Qed.

(** A new socket is held exactly when there is a channel for it. *)
Lemma connect_acts w :
  sockets_succeed env -> connected_ (conn w) = true -> connectChannel_ (conn w) = None ->
  acts (connect env addr) w (fun _ d tr fds => fds = [] /\ (exists e fd, d = dialed e fd (conn w))
    /\ ledger [] (owns tr []) = Some (option_list (connectChannel_ d))).
Proof.
  intros Hs Hc Hn. unfold connect. do 2 acts_step. eapply adds_mono; [by apply create_adds|].
  intros fd tr (t & p & r & -> & <- & Hr) w1 E1.
  do 2 acts_step. eapply adds_mono; [apply connect_adds|]. intros ret tr (a & l & r1 & ->) w2 E2.
  acts_step. eapply (acts_mono _ _ (fun e d tr fds => d = conn w2 /\ tr = [] /\ fds = [])).
  { case_match; [by acts_step|]. acts_step. by adds_step. }
  intros e ? ? ? (-> & -> & ->) w3 E3.
  assert (conn w3 = conn w) as E by congruence. clear E1 E2 E3.
  unfold dialed. destruct (bool_decide (e ∈ [0; _; _; _])) eqn:B1;
    [|destruct (bool_decide (e ∈ [EAGAIN; _; _; _; _])) eqn:B2].
  - eapply acts_mono; [apply connecting_acts; by rewrite E|]. intros _ d ? ? (-> & -> & ->).
    split; [done|]. split; [exists e, (r_ret r); by rewrite B1, E|]. by led.
  - eapply acts_mono; [apply retry_acts|]. intros _ d ? ? ((r2 & ->) & -> & ->).
    split; [done|]. split; [exists e, (r_ret r); by rewrite B1, B2, E|]. led.
    unfold retried. rewrite E. case_match; cbn; by rewrite Hn.
  - acts_step. acts_step. adds_step. do 1 acts_step.
    eapply adds_mono; [apply close_adds|]. intros _ tr (r2 & ->).
    split; [done|]. split; [exists e, (r_ret r); by rewrite B1, B2; conn_eq|]. led.
    match goal with E' : conn ?w0 = conn w3 |- _ => by rewrite E', E, Hn end.
Qed.

Lemma removeAndResetChannel_acts c w :
  connectChannel_ (conn w) = Some c ->
  acts removeAndResetChannel w (fun fd d tr fds =>
    fd = c /\ d = set_channel (Some c) (S (resets (conn w))) (conn w) /\ tr = [] /\ fds = []).
Proof.
  intros Hc. unfold removeAndResetChannel. acts_step. acts_step. rewrite Hc.
  acts_step. acts_step. acts_step. split_and!; [done| |done..]. conn_eq.
Qed.

(** *** The simulation *)

Ltac sim_cases d s :=
  destruct d, s; unfold sim in *; cbn in *; destruct_and!; subst.

Lemma sim_retried d s c :
  sim d s -> exists s', Connector.retry c s = Ok s' /\ sim (retried d) s'.
Proof.
  intros Hs. unfold Connector.retry, retried. sim_cases d s.
  case_match; (eexists; split; [done|]); by split_and!.
Qed.

Lemma sim_dialed e fd d s :
  sim d s -> connected_ d = true -> connectChannel_ d = None ->
  exists s', Connector.connect e s = Ok s' /\ sim (dialed e fd d) s'.
Proof.
  intros Hs Hc Hn. unfold Connector.connect, dialed.
  destruct (bool_decide (e ∈ [0; _; _; _])); [|destruct (bool_decide _)].
  - unfold Connector.connecting. rewrite assert_true, bind_Ok, assert_true, bind_Ok.
    + eexists. split; [done|]. sim_cases d s. by split_and!.
    + sim_cases d s. done.
    + apply bool_decide_eq_true. sim_cases d s. naive_solver.
  - apply sim_retried. sim_cases d s. by split_and!.
  - eexists. split; [done|]. sim_cases d s. by split_and!.
Qed.

Lemma sim_resets d s : sim d s -> sim (run_resets d) (Connector.run_resets s).
Proof.
  intros Hs. unfold run_resets, Connector.run_resets. sim_cases d s. case_match; by split_and!.
Qed.

(** What the invariant of Connector.v says of the connector on the kernel. *)
Definition steady d : Prop :=
  resets d = O /\ (state_ d = kConnecting <-> connectChannel_ d <> None)
  /\ (timers d = [] \/ state_ d = kDisconnected) /\ (state_ d = kConnecting -> connected_ d = true).
Lemma sim_steady fd d s : sim d s -> inv fd s -> steady d.
Proof.
  intros Hs (_ & Hr & Hc & Ht & Hco & _). sim_cases d s. unfold steady; cbn.
  split_and!; [done|naive_solver|naive_solver|done].
Qed.

(** What a turn does: to the descriptors, and in the connector of Connector.v. *)
Definition turns (ev : event) d s (_ : unit) (d' : Dial) (tr : history) (fds : list Z) : Prop :=
  ledger (option_list (connectChannel_ d)) (owns tr fds) = Some (option_list (connectChannel_ (run_resets d')))
  /\ exists e s', same_event ev e /\ Connector.handle e s = Ok s' /\ sim d' s'.

Lemma startInLoop_acts w s :
  sockets_succeed env -> sim (conn w) s -> resets (conn w) = O ->
  state_ (conn w) = kDisconnected -> connectChannel_ (conn w) = None ->
  acts (startInLoop env addr) w (fun _ d tr fds =>
    ledger [] (owns tr fds) = Some (option_list (connectChannel_ (run_resets d)))
    /\ exists e s', Connector.startInLoop e s = Ok s' /\ sim d s').
Proof.
  intros Hsk Hs Hr Hst Hn. unfold startInLoop, Connector.startInLoop.
  assert (Connector.state_ s = kDisconnected) as Hst' by (destruct Hs as [-> _]; done).
  assert (Connector.connected_ s = connected_ (conn w)) as Hco by apply Hs.
  assert (forall e, (assert_ (bool_decide (Connector.state_ s = kDisconnected)) ;;
             if Connector.connected_ s then Connector.connect e s else Ok s)
           = if connected_ (conn w) then Connector.connect e s else Ok s) as Hsl.
  { intros e. rewrite assert_true, bind_Ok, Hco by (by apply bool_decide_eq_true). done. }
  acts_step. apply acts_assert; [by apply bool_decide_eq_true|]. intros w1 E1.
  acts_step. acts_step. rewrite E1. cbn [app].
  match goal with |- acts _ ?w' _ => assert (conn w' = conn w) as E by conn_eq end.
  destruct (connected_ (conn w)) eqn:Hc; cbn [when]; rewrite <- E in Hc, Hs, Hr, Hn.
  - eapply acts_mono; [by apply connect_acts|].
    intros _ d tr fds (-> & (e & fd & ->) & Hl). split.
    + rewrite Hl. unfold run_resets.
      match goal with |- context [resets ?d] => enough (resets d = O) as -> by done end.
      unfold dialed, retried. by repeat case_match.
    + destruct (sim_dialed e fd _ s Hs Hc Hn) as (s' & Es & Hs').
      exists e, s'. by rewrite Hsl.
  - acts_step. split; [|exists 0, s; by rewrite Hsl]. unfold run_resets. rewrite Hr. cbn. by rewrite Hn.
Qed.

Lemma run_resets_none n d : resets d = S n -> connectChannel_ (run_resets d) = None.
Proof. intros E. unfold run_resets. by rewrite E. Qed.

Lemma sim_removed d s c :
  sim d s -> connectChannel_ d = Some c ->
  exists c' s1, Connector.removeAndResetChannel s = Ok (c', s1)
    /\ sim (set_channel (Some c) (S (resets d)) d) s1.
Proof.
  intros Hs Hc. unfold Connector.removeAndResetChannel.
  destruct (Connector.connectChannel_ s) as [c'|] eqn:E.
  - eexists _, _. split; [done|]. sim_cases d s. split_and!; naive_solver.
  - exfalso. destruct Hs as (_ & _ & _ & _ & _ & Hn & _). naive_solver.
Qed.

(** An attempt that ends with retry(): its socket is closed, after calls on it. *)
Lemma retried_turns ev d s c d1 tr r e c' s1 :
  connectChannel_ d = Some c -> ledger [c] (owns tr []) = Some [c] ->
  same_event ev e -> Connector.handle e s = Connector.retry c' s1 -> sim d1 s1 -> resets d1 <> O ->
  turns ev d s tt (retried d1) (tr ++ [(Close c, r)]) [].
Proof.
  intros Hc Ht He Eh Hs Hr. split.
  - rewrite Hc, owns_app, ledger_app. change (option_list (Some c)) with [c]. rewrite Ht. cbn [mbind option_bind].
    change (owns [(Close c, r)] []) with [Called (Close c) r]. rewrite led_close. cbn [ledger].
    destruct (resets d1) as [|n] eqn:En; [done|]. rewrite (run_resets_none n); [done|].
    unfold retried. by case_match.
  - destruct (sim_retried d1 s1 c' Hs) as (s' & E & Hs'). exists e, s'. by rewrite Eh, E.
Qed.

Lemma handleWrite_acts w s :
  sim (conn w) s -> steady (conn w) -> state_ (conn w) = kConnecting ->
  acts (handleWrite env optval) w (turns Writable (conn w) s).
Proof.
  intros Hs (Hr & Hch & _ & Hco) Hst. destruct (connectChannel_ (conn w)) as [c|] eqn:Hc; [|naive_solver].
  destruct (sim_removed _ s c Hs Hc) as (c' & s1 & Er & Hs1).
  assert (forall err self, Connector.handle (EvWritable err self) s =
    if negb (err =? 0) then Connector.retry c' s1 else if self then Connector.retry c' s1
    else if Connector.connected_ s1 then Ok (Connector.give_fd c' (Connector.setState kConnected s1))
    else Ok (Connector.setState kDisconnected (close_fd c' s1))) as Eh.
  { intros err self. cbn [Connector.handle]. unfold Connector.handleWrite.
    rewrite (proj1 Hs), bool_decide_eq_true_2, Er, bind_Ok by done. done. }
  unfold handleWrite. acts_step. acts_step. rewrite bool_decide_eq_true_2 by (by conn_eq).
  acts_step. eapply acts_mono; [apply (removeAndResetChannel_acts c); by conn_eq|].
  intros fd d tr fds (-> & -> & -> & ->) w2 E2. do 2 acts_step.
  eapply adds_mono; [apply getSocketError_adds|]. intros err tr (l & o & r & ->) w3 E3.
  assert (conn w3 = set_channel (Some c) (S (resets (conn w))) (conn w)) as E by conn_eq.
  clear E2 E3. rewrite <- E in Hs1. assert (resets (conn w3) <> O) as Hr3 by (by rewrite E).
  destruct (negb (err =? 0)) eqn:Be.
  { eapply acts_mono; [apply retry_acts|]. intros [] ? ? ? ((r2 & ->) & -> & ->).
    apply (retried_turns Writable _ s c _ [_] _ (EvWritable err false) c' s1);
      [done|by led|done|by rewrite Eh, Be|done|done]. }
  do 2 acts_step. eapply adds_mono; [apply isSelfConnect_adds|]. intros self tr (r1 & r2 & ->) w4 E4.
  destruct self.
  { eapply acts_mono; [apply retry_acts|]. intros [] ? ? ? ((r3 & ->) & -> & ->). rewrite E4.
    apply (retried_turns Writable _ s c _ [_; _; _] _ (EvWritable err true) c' s1);
      [done|by led|done|by rewrite Eh, Be|done|done]. }
  acts_step. acts_step. rewrite E4, E. cbn [connected_ set_channel]. rewrite (Hco Hst).
  assert (Connector.connected_ s1 = true) as Hc1
    by (destruct Hs1 as (_ & -> & _); rewrite E; by apply Hco).
  do 2 acts_step. eapply (acts_conn _ _ _ [c]); [done|].
  match goal with |- turns _ _ _ _ (give_fd _ (conn ?w')) _ _ =>
    assert (conn w' = setState kConnected (conn w3)) as -> by (conn_eq || by rewrite <- E4) end.
  split.
  - rewrite Hc. change (option_list (Some c)) with [c]. led. by rewrite E.
  - exists (EvWritable err false). eexists. split; [done|]. rewrite Eh, Be, Hc1. split; [done|].
    sim_cases (conn w3) s1. split_and!; try done. rewrite !length_app. cbn. lia.
Qed.

Lemma handleError_acts w s :
  sim (conn w) s -> steady (conn w) -> state_ (conn w) = kConnecting ->
  acts (handleError env optval) w (turns Error (conn w) s).
Proof.
  intros Hs (Hr & Hch & _ & Hco) Hst. destruct (connectChannel_ (conn w)) as [c|] eqn:Hc; [|naive_solver].
  destruct (sim_removed _ s c Hs Hc) as (c' & s1 & Er & Hs1).
  unfold handleError. acts_step. acts_step. rewrite bool_decide_eq_true_2 by (by conn_eq). cbn [when].
  acts_step. eapply acts_mono; [apply (removeAndResetChannel_acts c); by conn_eq|].
  intros fd d tr fds (-> & -> & -> & ->) w2 E2. do 2 acts_step.
  eapply adds_mono; [apply getSocketError_adds|]. intros err tr (l & o & r & ->) w3 E3.
  assert (conn w3 = set_channel (Some c) (S (resets (conn w))) (conn w)) as E by conn_eq.
  eapply acts_mono; [apply retry_acts|]. intros [] ? ? ? ((r2 & ->) & -> & ->). rewrite E.
  apply (retried_turns Error _ s c _ [_] _ EvError c' s1); [done|by led|done| |done|done].
  cbn [Connector.handle]. unfold Connector.handleError.
  by rewrite (proj1 Hs), bool_decide_eq_true_2, Er, bind_Ok.
Qed.

Lemma stop_acts w s :
  sim (conn w) s -> steady (conn w) -> acts (stop env) w (turns Stop (conn w) s).
Proof.
  intros Hs (Hr & Hch & _). unfold stop, stopInLoop. do 2 acts_step. do 2 acts_step.
  set (d0 := set_connected false (conn w)) in *. set (s0 := Connector.set_connected false s).
  assert (sim d0 s0) as Hs0 by (subst d0 s0; sim_cases (conn w) s; by split_and!).
  destruct (decide (state_ (conn w) = kConnecting)) as [Hst|Hst].
  - destruct (connectChannel_ (conn w)) as [c|] eqn:Hc; [|naive_solver].
    set (d1 := setState kDisconnected d0). set (s1 := Connector.setState Connector.kDisconnected s0).
    assert (sim d1 s1) as Hs1 by (subst d1 s1; sim_cases d0 s0; by split_and!).
    destruct (sim_removed d1 s1 c Hs1 Hc) as (c' & s2 & Er & Hs2).
    rewrite bool_decide_eq_true_2 by (by conn_eq). cbn [when].
    do 2 acts_step. acts_step.
    match goal with |- acts _ ?w' _ => assert (conn w' = d1) as E by conn_eq end.
    eapply acts_mono; [apply (removeAndResetChannel_acts c); by rewrite E|].
    intros fd d tr fds (-> & -> & -> & ->) w9 E9.
    eapply acts_mono; [apply retry_acts|]. intros [] ? ? ? ((r2 & ->) & -> & ->). rewrite E9, E.
    apply (retried_turns Stop _ s c _ [] _ EvStop c' s2); [done|by led|done| |done|done].
    cbn [Connector.handle]. unfold Connector.stop, Connector.stopInLoop. fold s0.
    rewrite bool_decide_eq_true_2 by (by rewrite (proj1 Hs0)). fold s1. by rewrite Er, bind_Ok.
  - rewrite bool_decide_eq_false_2 by (by conn_eq). cbn [when]. acts_step.
    match goal with |- turns _ _ _ _ (conn ?w') _ _ => assert (conn w' = d0) as -> by conn_eq end.
    split; [by unfold run_resets; subst d0; cbn [resets set_connected]; rewrite Hr|].
    exists EvStop, s0. split; [done|]. split; [|done]. cbn [Connector.handle].
    unfold Connector.stop, Connector.stopInLoop. fold s0.
    by rewrite bool_decide_eq_false_2 by (by rewrite (proj1 Hs0)).
Qed.

(** The three ways to an attempt, each from the connector that [f] makes of it. *)
Lemma begin_acts ev w s f (fs : Connector -> Connector) :
  sockets_succeed env -> steady (conn w) -> state_ (conn w) <> kConnecting ->
  (forall d, resets (f d) = resets d /\ connectChannel_ (f d) = connectChannel_ d) ->
  state_ (f (conn w)) = kDisconnected -> sim (f (conn w)) (fs s) ->
  (forall err, exists e, same_event ev e /\ Connector.handle e s = Connector.startInLoop err (fs s)) ->
  forall w1, conn w1 = f (conn w) -> acts (startInLoop env addr) w1 (turns ev (conn w) s).
Proof.
  intros Hsk (Hr & Hch & _) Hst Hf Hd Hs He w1 E1. destruct (Hf (conn w)) as [Hr' Hc'].
  assert (connectChannel_ (conn w) = None) as Hn by (destruct (connectChannel_ (conn w)); naive_solver).
  eapply acts_mono; [apply (startInLoop_acts w1 (fs s)); try done; rewrite E1; congruence|].
  intros [] d tr fds (Hl & err & s' & Es & Hs'). split; [by rewrite Hn|].
  destruct (He err) as (e & Hsame & Eh). exists e, s'. by rewrite Eh.
Qed.

Lemma handle_acts ev w s :
  sockets_succeed env -> sim (conn w) s -> steady (conn w) -> allowed ev (conn w) ->
  acts (handle env addr optval ev) w (turns ev (conn w) s).
Proof.
  intros Hsk Hs Hst Ha. pose proof Hst as (_ & _ & Ht & _).
  destruct ev; cbn [handle allowed] in *.
  - destruct Ha as [Hd _]. unfold start. acts_step. acts_step.
    eapply (begin_acts Start w s (set_connected true) (Connector.set_connected true)); try done.
    + congruence.
    + sim_cases (conn w) s. by split_and!.
    + intros err. by exists (EvStart err).
  - destruct Ht as [?|Hd]; [done|]. acts_step. acts_step.
    eapply (begin_acts Timer w s (fun d => set_retry (retryDelayMs_ d) (tail (timers d)) d)
              (fun s => Connector.set_retry (Connector.retryDelayMs_ s) (tail (Connector.timers s)) s));
      try done.
    + congruence.
    + sim_cases (conn w) s. by split_and!.
    + intros err. by exists (EvTimer err).
  - by apply handleWrite_acts.
  - by apply handleError_acts.
  - by apply stop_acts.
  - unfold restart. do 2 acts_step. do 2 acts_step. do 2 acts_step.
    eapply (begin_acts Restart w s
              (fun d => let d := setState kDisconnected (set_connected true d) in
                        set_retry kInitRetryDelayMs (timers d) d)
              (fun s => Connector.set_retry kInitRetryDelayMs (Connector.timers s)
                          (Connector.setState Connector.kDisconnected (Connector.set_connected true s))));
      try done.
    + congruence.
    + sim_cases (conn w) s. by split_and!.
    + intros err. by exists (EvRestart err).
    + conn_eq.
Qed.

(** A turn: what it does to the descriptors, and the turn of Connector.v it is. *)
Lemma turn_ok ev w s fd :
  sockets_succeed env -> sim (conn w) s -> inv fd s -> allowed ev (conn w) ->
  exists w' tr fds e s', turn env addr optval ev w = Ok (tt, w')
    /\ trace (w_sys w') = trace (w_sys w) ++ tr /\ given (conn w') = given (conn w) ++ fds
    /\ ledger (option_list (connectChannel_ (conn w))) (owns tr fds)
       = Some (option_list (connectChannel_ (conn w')))
    /\ same_event ev e /\ run_event e s = Ok s' /\ sim (conn w') s' /\ inv fd s'.
Proof.
  intros Hsk Hs Hi Ha.
  assert (acts (turn env addr optval ev) w (fun _ d tr fds =>
    ledger (option_list (connectChannel_ (conn w))) (owns tr fds) = Some (option_list (connectChannel_ d))
    /\ exists e s', same_event ev e /\ run_event e s = Ok s' /\ sim d s')) as Hact.
  { unfold turn. apply acts_bind. eapply acts_mono; [apply (handle_acts ev w s); try done; by eapply sim_steady|].
    intros [] d tr fds (Hl & e & s' & He & Eh & Hs') w1 E1.
    assert (given (run_resets (conn w1)) = given (conn w1)) as Eg by (unfold run_resets; by case_match).
    apply (acts_conn _ _ _ []); [by rewrite app_nil_r|]. rewrite !app_nil_r, E1. split; [done|].
    exists e, (Connector.run_resets s'). split; [done|]. unfold run_event. rewrite Eh.
    split; [done|]. by apply sim_resets. }
  destruct Hact as ([] & w' & E & tr & fds & Et & Eg & Hl & e & s' & He & Es & Hs').
  exists w', tr, fds, e, s'. split_and!; try done.
  destruct (run_event_inv fd e s Hi) as (s2 & Es2 & Hi2).
  - destruct ev, e; try done; cbn [allowed Connector.allowed] in *; sim_cases (conn w) s; done.
  - congruence.
Qed.
End turns.

Lemma run_events_snoc `{Build} es e s :
  run_events (es ++ [e]) s = s' ← run_events es s; run_event e s'.
Proof.
  revert s. induction es as [|e' es IH]; intros s; cbn [app run_events].
  - rewrite bind_Ok. by destruct (run_event e s).
  - destruct (run_event e' s); cbn; [apply IH|done].
Qed.

(** What holds of every run. *)
Lemma runs_ok `{Build} env addr optval sys0 evs mine w :
  sockets_succeed env -> runs env addr optval (mkWorld Dial_ctor sys0) evs mine w ->
  ledger [] mine = Some (option_list (connectChannel_ (conn w))) /\ given (conn w) = given_by mine
  /\ exists es s, Forall2 same_event evs es /\ run_events es (ctor 0) = Ok s /\ sim (conn w) s /\ inv 0 s.
Proof.
  intros Hsk Hr. remember (mkWorld Dial_ctor sys0) as w0 eqn:E0.
  induction Hr as [w|w evs mine w1 ev tr fds w2 Hr IH Ha Et Etr Eg|w evs mine w1 s Hr IH]; subst.
  - split_and!; [done|done|]. exists [], (ctor 0). split_and!; [constructor|done|by unfold sim|].
    unfold inv, opened, kInitRetryDelayMs, kMaxRetryDelayMs. cbn.
    split_and!; try done; try lia. by left.
  - destruct (IH eq_refl) as (Hl & Hg & es & s & Hes & Es & Hs & Hi).
    destruct (turn_ok env addr optval ev w1 s 0 Hsk Hs Hi Ha)
      as (w' & tr' & fds' & e & s' & Et' & Etr' & Eg' & Hl' & He & Es' & Hs' & Hi').
    rewrite Et in Et'. injection Et' as <-. rewrite Etr in Etr'. apply app_inv_head in Etr' as <-.
    rewrite Eg in Eg'. apply app_inv_head in Eg' as <-. split_and!.
    + by rewrite ledger_app, Hl.
    + by rewrite Eg, Hg, given_by_app, given_by_owns.
    + exists (es ++ [e]), s'. split_and!; try done; [by apply Forall2_app; [|constructor]|].
      by rewrite run_events_snoc, Es.
  - by apply IH.
Qed.

End Dial.

Import Dial.

(** ** Properties *)

(** C31: the connector's descriptors and delays, on any kernel on which socket() succeeds.
    In every sequence of turns in which start() is called only on an idle connector, with
    anything happening in the rest of the process between the turns: every call of the
    connector on a descriptor is on the one it has open then, and is never made after it
    is closed or handed over, also when the kernel uses numbers again; every descriptor it
    opened is closed once, or handed over, or the one being connected; the run is one of the
    connector of Connector.v; the retries wait between half a second and thirty seconds;
    and no assert fails in a turn that can follow. *)
Theorem dial_descriptors `{Build} env addr optval sys0 evs mine w :
  sockets_succeed env -> runs env addr optval (mkWorld Dial_ctor sys0) evs mine w ->
  ledger [] mine = Some (option_list (connectChannel_ (conn w)))
  /\ opened_by mine ≡ₚ closed_by mine ++ given (conn w) ++ option_list (connectChannel_ (conn w))
  /\ (exists es s, Forall2 same_event evs es /\ run_events es (ctor 0) = Ok s /\ sim (conn w) s)
  /\ Forall (fun d => kInitRetryDelayMs <= d <= kMaxRetryDelayMs) (timers (conn w))
  /\ (forall ev, allowed ev (conn w) -> exists w', turn env addr optval ev w = Ok (tt, w')).
Proof.
  intros Hsk Hr. destruct (runs_ok env addr optval sys0 evs mine w Hsk Hr)
    as (Hl & Hg & es & s & Hes & Es & Hs & Hi).
  split; [done|]. split; [rewrite Hg; by apply (ledger_account [])|]. split; [by exists es, s|].
  split; [destruct Hi as (_ & _ & _ & _ & _ & _ & Hf & _); destruct Hs as (_ & _ & _ & _ & <- & _); done|].
  intros ev Ha. destruct (turn_ok env addr optval ev w s 0 Hsk Hs Hi Ha) as (w' & ? & ? & ? & ? & E & _).
  by exists w'.
Qed.

(** A kernel that gives the lowest number again: connect() is in progress each time, the
    first attempt is refused, the second one succeeds. *)
Definition demo_addr (port : Z) : InetAddress := mkAddr AF_INET port (repeat NUL 4) (repeat NUL 16).
Definition asked (c : call) : bool := match c with Getsockopt _ _ _ => true | _ => false end.
Definition demo_env : Env := fun tr c =>
  match c with
  | Socket_ _ _ _ => mkReply 3 0 VNone
  | Connect _ _ _ => mkReply (-1) EINPROGRESS VNone
  | Getsockopt _ _ _ =>
      mkReply 0 0 (VInt (if existsb (fun cr => asked cr.1) tr then 0 else ECONNREFUSED))
  | Getsockname _ => mkReply 0 0 (VAddr (demo_addr 40000))
  | _ => mkReply 0 0 (VAddr (demo_addr 80))
  end.

Definition demo_turn (ev : event) (w : World) : World :=
  match turn (H := Debug) demo_env (demo_addr 80) 0 ev w with Ok (_, w') => w' | Err _ => w end.
Definition demo_w0 : World := mkWorld Dial_ctor Sys_start.
Definition demo_w1 : World := Eval vm_compute in demo_turn Start demo_w0.
Definition demo_w2 : World := Eval vm_compute in demo_turn Writable demo_w1.
Definition demo_w3 : World := Eval vm_compute in demo_turn Timer demo_w2.
Definition demo_w4 : World := Eval vm_compute in demo_turn Writable demo_w3.

Lemma demo_runs :
  exists mine, runs (H := Debug) demo_env (demo_addr 80) 0 demo_w0
    ([] ++ [Start] ++ [Writable] ++ [Timer] ++ [Writable]) mine demo_w4.
Proof.
  eexists. rewrite !(assoc_L (++)).
  eapply (runs_turn _ _ _ _ _ _ demo_w3 Writable (drop 6 (trace (w_sys demo_w4))) [3]).
  eapply (runs_turn _ _ _ _ _ _ demo_w2 Timer (drop 4 (trace (w_sys demo_w3))) []).
  eapply (runs_turn _ _ _ _ _ _ demo_w1 Writable (drop 2 (trace (w_sys demo_w2))) []).
  eapply (runs_turn _ _ _ _ _ _ demo_w0 Start (trace (w_sys demo_w1)) []).
  apply runs_nil.
  all: by vm_compute.
Qed.

Lemma dial_descriptors_witness :
  sockets_succeed demo_env /\ given (conn demo_w4) = [3] /\ length (trace (w_sys demo_w4)) = 9%nat
  /\ exists mine, ledger [] mine = Some [] /\ opened_by mine ≡ₚ closed_by mine ++ [3].
Proof.
  assert (sockets_succeed demo_env) as Hsk by (intros tr f t p; discriminate).
  split; [exact Hsk|]. split; [reflexivity|]. split; [reflexivity|].
  destruct demo_runs as [mine Hr].
  destruct (dial_descriptors (H := Debug) demo_env (demo_addr 80) 0 Sys_start _ mine demo_w4 Hsk Hr)
    as (Hl & Hp & _).
  exists mine. split; [exact Hl|exact Hp].
Defined.
