(* ===== verification/Wire.v ===== *)
(** * The connection on the kernel: src/arale/net/TcpConnection.cc over SocketsOps.cc

    The operations of TcpConnection.v with the system calls of their socket made on the
    kernel of Sockets.v: what write(2) and readv(2) do is no longer told beforehand but
    read off the trace of the calls.  [refines] relates an operation here to the one
    there; the rules for the monad's operators carry it through the code, through the
    callbacks of the user too.  Operations that neither make calls nor call the user are
    those of TcpConnection.v. *)

From S2P Require Import Prelude Date Buffer Channel Poller EventLoop TcpConnection Server Sockets Ledger.

Module Wire.
Section wire.
Context {P : Type} `{Poller P, Build} (env : Env).
(** What the variable of getSocketError holds before the call. *)
Context (optval : Z).

(** The connection, the descriptor of its Socket, and the process.  The oracle [writes] of
    the connection is not used; [sent] and [shut_wr] follow the socket. *)
Record World := mkWorld { conn : Conn (P := P); socket_ : Z; w_sys : Sys }.

Definition on_conn {A} (m : ST Conn A) : ST World A :=
  zoom conn (fun c w => mkWorld c (socket_ w) (w_sys w)) m.
Definition on_sys {A} (m : ST Sys A) : ST World A :=
  zoom w_sys (fun t w => mkWorld (conn w) (socket_ w) t) m.

Record UserCallbacks := mkUser {
  connectionCallback_ : option (ST World unit);
  messageCallback_ : option (Timestamp -> ST World unit);
  writeCompleteCallback_ : option (ST World unit);
  highWaterMarkCallback_ : option (Z -> ST World unit);
  closeCallback_ : option (ST World unit)
}.
Definition call_cb (cb : option (ST World unit)) : ST World unit :=
  match cb with Some f => f | None => fail NullCall end.

(** sockets::write with the errno of a failure *)
Definition sock_write (data : bytes) : ST World (Z * Z) :=
  fd ← gets socket_;
  ret ← on_sys (write env fd data);
  e ← (if ret <? 0 then on_sys (gets errno) else mret 0);
  on_conn (modify (fun c => set_socket (writes c) (sent c ++ take (Z.to_nat ret) data) (shut_wr c) c)) ;;
  mret (ret, e).
Definition shutDownWrite : ST World unit :=
  fd ← gets socket_;
  on_sys (Sockets.shutDownWrite env fd) ;;
  on_conn TcpConnection.shutDownWrite.

Section operations.
Context (K : UserCallbacks).

Definition call_connection : ST World unit :=
  on_conn (modify (fun c => add_note (NConnection (bool_decide (state_ c = kConnected))) c)) ;;
  call_cb (connectionCallback_ K).

Definition connectionEstablished (self : Z) : ST World unit :=
  s ← on_conn (gets state_);
  lift (assert_ (bool_decide (s = kConnecting))) ;;
  on_conn (modify (setState kConnected)) ;;
  on_conn (channel_tieTo self) ;;
  on_conn enableRead ;;
  call_connection.

Definition connectionDestroyed : ST World unit :=
  s ← on_conn (gets state_);
  when (bool_decide (s = kConnected))
    (on_conn (modify (setState kDisconnected)) ;; on_conn disableAll ;; call_connection) ;;
  on_conn channel_remove.

Definition handleClose : ST World unit :=
  s ← on_conn (gets state_);
  lift (assert_ (bool_decide (s = kConnected) || bool_decide (s = kDisconnecting))) ;;
  on_conn (modify (setState kDisconnected)) ;;
  on_conn disableAll ;;
  call_connection ;;
  on_conn (modify (add_note NClose)) ;;
  call_cb (closeCallback_ K).

Definition handleError : ST World unit :=
  fd ← gets socket_;
  _ ← on_sys (getSocketError env optval fd);
  mret tt.

Definition handleRead (receiveTime : Timestamp) : ST World unit :=
  b ← on_conn (gets inputBuffer_);
  fd ← gets socket_;
  '(ret, data) ← on_sys (readv env fd [writableBytes b; 65535]);
  e ← (if ret <? 0 then on_sys (gets errno) else mret 0);
  '(n, saveErrno, b) ← lift (readFd b (if ret <? 0 then ReadErr e else ReadOk data));
  on_conn (modify (set_input b)) ;;
  let res := u64 n in
  if 0 <? res then
    on_conn (modify (fun c => add_note (NMessage (contents (inputBuffer_ c))) c)) ;;
    match messageCallback_ K with Some f => f receiveTime | None => fail NullCall end
  else if res =? 0 then handleClose
  else handleError.

Definition shutdownInLoop : ST World unit :=
  c ← on_conn channel; when (negb (isWriting c)) shutDownWrite.
Definition run_in_loop (isInLoopThread : bool) (m : ST World unit) (f : functor) : ST World unit :=
  if isInLoopThread then m else on_conn (postFunctor f).
Definition shutdown (isInLoopThread : bool) : ST World unit :=
  s ← on_conn (gets state_);
  when (bool_decide (s = kConnected))
    (on_conn (modify (setState kDisconnecting)) ;;
     run_in_loop isInLoopThread shutdownInLoop FShutdownInLoop).

Definition handleWrite : ST World unit :=
  c ← on_conn channel;
  if isWriting c then
    b ← on_conn (gets outputBuffer_);
    '(res, _) ← sock_write (contents b);
    if 0 <? res then
      b ← lift (retrieve b res);
      on_conn (modify (set_output b)) ;;
      when (readableBytes b =? 0)
        (on_conn disableWrite ;;
         when (has_cb (writeCompleteCallback_ K)) (on_conn (postFunctor FWriteComplete)) ;;
         s ← on_conn (gets state_);
         when (bool_decide (s = kDisconnecting)) shutdownInLoop)
    else mret tt
  else mret tt.

Definition send_direct (data : bytes) : ST World (Z * bool) :=
  let len := zlen data in
  c ← on_conn channel;
  b ← on_conn (gets outputBuffer_);
  if negb (isWriting c) && (readableBytes b =? 0) then
    '(nwrote, errno) ← sock_write data;
    if 0 <=? nwrote then
      let left_ := u64 (len - nwrote) in
      when ((left_ =? 0) && has_cb (writeCompleteCallback_ K)) (on_conn (postFunctor FWriteComplete)) ;;
      mret (left_, false)
    else mret (len, negb (errno =? EWOULDBLOCK) && ((errno =? EPIPE) || (errno =? ECONNRESET)))
  else mret (len, false).
Definition send_queue (data : bytes) (left_ : Z) : ST World unit :=
  having ← on_conn (gets (fun c => readableBytes (outputBuffer_ c)));
  hwm ← on_conn (gets highWaterMark_);
  when ((having <? hwm) && (hwm <=? u64 (having + left_)) && has_cb (highWaterMarkCallback_ K))
    (on_conn (postFunctor (FHighWaterMark (u64 (having + left_))))) ;;
  b ← on_conn (gets outputBuffer_);
  b ← lift (append b (take (Z.to_nat left_) data));
  on_conn (modify (set_output b)) ;;
  c ← on_conn channel;
  when (negb (isWriting c)) (on_conn enableWrite).
Definition sendInLoop (data : bytes) : ST World unit :=
  '(left_, error) ← send_direct data;
  lift (assert_ (left_ <=? zlen data)) ;;
  when (negb error && (0 <? left_)) (send_queue data left_).

Definition send_ptr (isInLoopThread : bool) (data len : Z) : ST World unit :=
  s ← on_conn (gets state_);
  when (bool_decide (s = kConnected))
    (if isInLoopThread then d ← on_conn (read_block data len); sendInLoop d
     else on_conn (postFunctor (FSendInLoop data len))).
Definition send_string (isInLoopThread : bool) (msg : Z) : ST World unit := fun w =>
  match memory (conn w) !! msg with
  | Some block => send_ptr isInLoopThread msg (zlen block) w
  | None => Err StaleRead
  end.
Definition send_buffer (isInLoopThread : bool) (buf : Buffer) : ST World Buffer :=
  s ← on_conn (gets state_);
  if bool_decide (s = kConnected) then
    if isInLoopThread then sendInLoop (contents buf) ;; mret (retrieveAll buf)
    else '(msg, buf) ← lift (retrieveAllAsString buf); on_conn (postFunctor (FSend msg)) ;; mret buf
  else mret buf.

Definition forceCloseInLoop : ST World unit :=
  s ← on_conn (gets state_);
  lift (assert_ (bool_decide (s = kDisconnecting))) ;;
  handleClose.
Definition forceClose (isInLoopThread : bool) : ST World unit :=
  s ← on_conn (gets state_);
  when (bool_decide (s = kConnected) || bool_decide (s = kDisconnecting))
    (on_conn (modify (setState kDisconnecting)) ;;
     run_in_loop isInLoopThread forceCloseInLoop FForceCloseInLoop).

Definition run_functor (f : functor) : ST World unit :=
  match f with
  | FWriteComplete => call_cb (writeCompleteCallback_ K)
  | FHighWaterMark n => match highWaterMarkCallback_ K with Some g => g n | None => fail NullCall end
  | FShutdownInLoop => shutdownInLoop
  | FSendInLoop data len => d ← on_conn (read_block data len); sendInLoop d
  | FSend msg => s ← on_conn (gets state_); when (bool_decide (s = kConnected)) (sendInLoop msg)
  | FForceCloseInLoop => forceCloseInLoop
  | FForceClose => forceClose true
  | FStartReadInLoop => on_conn startReadInLoop
  | FStopReadInLoop => on_conn stopReadInLoop
  end.
Definition run_pending : ST World unit :=
  l ← on_conn (gets functors);
  on_conn (modify (fun c => set_functors [] (timers c) c)) ;;
  for_each run_functor l.

(** The constructor's call, and the destructor with that of the Socket. *)
Definition TcpConnection_ctor : ST World unit :=
  fd ← gets socket_; on_sys (setKeepAlive env fd true).
Definition TcpConnection_dtor : ST World unit :=
  s ← on_conn (gets state_);
  lift (assert_ (bool_decide (s = kDisconnected))) ;;
  fd ← gets socket_;
  on_sys (Socket_dtor env fd).

(** ** What the loop and the user do to a connection *)

Inductive event :=
  | Established (self : Z) | Readable (receiveTime : Timestamp) | Writable | Closed | Error
  | SendPtr (inLoop : bool) (data len : Z) | SendString (inLoop : bool) (msg : Z)
  | SendBuffer (inLoop : bool) (buf : Buffer) | Shutdown (inLoop : bool)
  | ForceClose (inLoop : bool) | ForceCloseWithDelay (delay : Z)
  | StartRead (inLoop : bool) | StopRead (inLoop : bool) | Pending | Destroyed.

Definition handle (ev : event) : ST World unit :=
  match ev with
  | Established self => connectionEstablished self
  | Readable t => handleRead t
  | Writable => handleWrite
  | Closed => handleClose
  | Error => handleError
  | SendPtr l d n => send_ptr l d n
  | SendString l m => send_string l m
  | SendBuffer l b => _ ← send_buffer l b; mret tt
  | Shutdown l => shutdown l
  | ForceClose l => forceClose l
  | ForceCloseWithDelay d => on_conn (forceCloseWithDelay d)
  | StartRead l => on_conn (startRead l)
  | StopRead l => on_conn (stopRead l)
  | Pending => run_pending
  | Destroyed => connectionDestroyed
  end.
End operations.
End wire.
Arguments World : clear implicits.
Arguments UserCallbacks : clear implicits.

(** ** The same event in TcpConnection.v *)

Definition handle_told {P} `{Poller P, Build} (U : TcpConnection.UserCallbacks (P := P))
    (ev : event) (r : read_result) : ST (Conn (P := P)) unit :=
  match ev with
  | Established self => TcpConnection.connectionEstablished U self
  | Readable t => TcpConnection.handleRead U r t
  | Writable => TcpConnection.handleWrite U
  | Closed => TcpConnection.handleClose U
  | Error => TcpConnection.handleError
  | SendPtr l d n => TcpConnection.send_ptr U l d n
  | SendString l m => TcpConnection.send_string U l m
  | SendBuffer l b => _ ← TcpConnection.send_buffer U l b; mret tt
  | Shutdown l => TcpConnection.shutdown l
  | ForceClose l => TcpConnection.forceClose U l
  | ForceCloseWithDelay d => forceCloseWithDelay d
  | StartRead l => startRead l
  | StopRead l => stopRead l
  | Pending => TcpConnection.run_pending U
  | Destroyed => TcpConnection.connectionDestroyed U
  end.

(** ** What a trace says of the socket *)

(** write(2) takes at most what it is given, readv(2) gives as much as it says; both fail
    with -1. *)
Definition kernel_ok (env : Env) : Prop := forall tr c,
  match c with
  | Write _ data => -1 <= r_ret (env tr c) <= zlen data
  | Readv _ _ => -1 <= r_ret (env tr c)
      /\ (0 <= r_ret (env tr c) -> exists d, r_out (env tr c) = VData d)
  | _ => True
  end.

Definition write1 (cr : call * reply) : list write_result :=
  match cr.1 with
  | Write _ _ => [if r_ret cr.2 <? 0 then WriteErr (r_errno cr.2) else Wrote (r_ret cr.2)]
  | _ => []
  end.
Definition accepted1 (cr : call * reply) : bytes :=
  match cr.1 with Write _ data => take (Z.to_nat (r_ret cr.2)) data | _ => [] end.
Definition is_shutdown (cr : call * reply) : bool :=
  match cr.1 with Sockets.Shutdown _ how => how =? SHUT_WR | _ => false end.

(** The results of the write calls, what they took, and whether the write side is shut. *)
Definition writes_of (tr : history) : list write_result := mjoin (write1 <$> tr).
Definition accepted (tr : history) : bytes := mjoin (accepted1 <$> tr).
Definition shut_by (tr : history) : bool := existsb is_shutdown tr.

(** What the first call of a readable event, readv(2), gave. *)
Definition read_of (tr : history) : read_result :=
  match tr with
  | (Readv _ _, r) :: _ =>
      if r_ret r <? 0 then ReadErr (r_errno r)
      else ReadOk (match r_out r with VData d => d | _ => [] end)
  | _ => ReadOk []
  end.

Section refinement.
Context {P : Type} `{Poller P, Build} (env : Env) (optval : Z).
Implicit Types (w : World P) (c : Conn (P := P)).

Definition told ws c : Conn := set_socket ws (sent c) (shut_wr c) c.

(** What an operation on the kernel does to the socket, by its trace. *)
Definition steps w w' (tr : history) : Prop :=
  trace (w_sys w') = trace (w_sys w) ++ tr /\ socket_ w' = socket_ w /\ only_on (socket_ w) tr
  /\ sent (conn w') = sent (conn w) ++ accepted tr /\ shut_wr (conn w') = shut_wr (conn w) || shut_by tr.

(** The operation [m] of TcpConnection.v, told what the writes result in, does to the
    connection what [k] does; when [k] fails, [m] fails in the same way. *)
Definition refines {A} (k : ST (World P) A) (m : ST (Conn (P := P)) A) : Prop := forall w,
  match k w with
  | Ok (a, w') => exists tr, steps w w' tr
      /\ forall rest, m (told (writes_of tr ++ rest) (conn w)) = Ok (a, told rest (conn w'))
  | Err f => exists ws, forall rest, m (told (ws ++ rest) (conn w)) = Err f
  end.

(** *** The trace *)

Lemma writes_of_app tr1 tr2 : writes_of (tr1 ++ tr2) = writes_of tr1 ++ writes_of tr2.
Proof. unfold writes_of. by rewrite fmap_app, join_app. Qed.
Lemma accepted_app tr1 tr2 : accepted (tr1 ++ tr2) = accepted tr1 ++ accepted tr2.
Proof. unfold accepted. by rewrite fmap_app, join_app. Qed.
Lemma shut_by_app tr1 tr2 : shut_by (tr1 ++ tr2) = shut_by tr1 || shut_by tr2.
Proof. apply existsb_app. Qed.

Lemma steps_refl w : steps w w [].
Proof.
  unfold steps, only_on. rewrite !app_nil_r, orb_false_r. by split_and!.
Qed.
Lemma steps_trans w1 w2 w3 tr1 tr2 : steps w1 w2 tr1 -> steps w2 w3 tr2 -> steps w1 w3 (tr1 ++ tr2).
Proof.
  intros (E1 & F1 & O1 & S1 & W1) (E2 & F2 & O2 & S2 & W2). unfold steps, only_on in *.
  rewrite E2, E1, F2, F1, S2, S1, W2, W1, accepted_app, shut_by_app, orb_assoc, !(assoc_L (++)).
  rewrite F1 in O2. split_and!; try done. by apply Forall_app.
Qed.

(** *** The rules *)

Lemma told_told ws1 ws2 c : told ws1 (told ws2 c) = told ws1 c.
Proof. done. Qed.

Lemma refines_ret {A} (a : A) : refines (mret a) (mret a).
Proof. intros w. exists []. split; [apply steps_refl|done]. Qed.
Lemma refines_fail {A} f : refines (fail (A := A) f) (fail f).
Proof. intros w. by exists []. Qed.
Lemma refines_lift {A} (m : outcome A) : refines (lift m) (lift m).
Proof.
  intros w. unfold lift. destruct m; [|by exists []]. exists []. split; [apply steps_refl|done].
Qed.

Lemma refines_bind {A B} (k : ST (World P) A) (m : ST Conn A) (kf : A -> ST (World P) B) mf :
  refines k m -> (forall a, refines (kf a) (mf a)) -> refines (k ≫= kf) (m ≫= mf).
Proof.
  intros Hm Hf w. specialize (Hm w). unfold mbind, ST_bind.
  destruct (k w) as [ [a w1]|f].
  - destruct Hm as (tr1 & S1 & E1). specialize (Hf a w1). destruct (kf a w1) as [ [b w2]|f].
    + destruct Hf as (tr2 & S2 & E2). exists (tr1 ++ tr2).
      split; [by eapply steps_trans|]. intros rest.
      rewrite writes_of_app, <- (assoc_L (++)), E1. apply E2.
    + destruct Hf as (ws2 & E2). exists (writes_of tr1 ++ ws2). intros rest.
      rewrite <- (assoc_L (++)), E1. apply E2.
  - destruct Hm as (ws & E). exists ws. intros rest. by rewrite E.
Qed.

Lemma refines_when b (k : ST (World P) unit) m : refines k m -> refines (when b k) (when b m).
Proof. intros Hm. destruct b; [done|apply refines_ret]. Qed.

(** An operation that does not look at the socket. *)
Definition blind {A} (m : ST (Conn (P := P)) A) : Prop := forall c ws,
  match m c with
  | Ok (a, c') => m (told ws c) = Ok (a, told ws c') /\ sent c' = sent c /\ shut_wr c' = shut_wr c
  | Err f => m (told ws c) = Err f
  end.

Lemma refines_on_conn {A} (m : ST Conn A) : blind m -> refines (on_conn m) m.
Proof.
  intros Hm w. unfold on_conn, zoom. pose proof (Hm (conn w)) as Hc.
  destruct (m (conn w)) as [ [a c']|f].
  - exists []. split; [|intros rest; apply (Hc rest)].
    destruct (Hc []) as (_ & Hs & Hw). unfold steps, only_on. cbn [conn socket_ w_sys].
    rewrite Hs, Hw, !app_nil_r, orb_false_r. split_and!; done.
  - exists []. intros rest. apply Hc.
Qed.

Lemma blind_gets {A} (f : Conn -> A) : (forall ws c, f (told ws c) = f c) -> blind (gets f).
Proof. intros Hf c ws. unfold gets. by rewrite Hf. Qed.
Lemma blind_modify (f : Conn -> Conn) :
  (forall ws c, f (told ws c) = told ws (f c) /\ sent (f c) = sent c /\ shut_wr (f c) = shut_wr c) -> blind (modify f).
Proof. intros Hf c ws. unfold modify. destruct (Hf ws c) as (-> & ? & ?). done. Qed.
Lemma blind_bind {A B} (m : ST Conn A) (f : A -> ST Conn B) :
  blind m -> (forall a, blind (f a)) -> blind (m ≫= f).
Proof.
  intros Hm Hf c ws. unfold mbind, ST_bind. specialize (Hm c ws). destruct (m c) as [ [a c1]|e]; [|by rewrite Hm].
  destruct Hm as (-> & Hs & Hw). specialize (Hf a c1 ws). destruct (f a c1) as [ [b c2]|e]; [|done].
  destruct Hf as (-> & Hs2 & Hw2). split_and!; [done|congruence..].
Qed.
Lemma blind_when b (m : ST Conn unit) : blind m -> blind (when b m).
Proof. intros Hm. destruct b; [done|]. intros c ws. done. Qed.
Lemma blind_lift {A} (m : outcome A) : blind (lift m).
Proof. intros c ws. unfold lift. by destruct m. Qed.

Lemma blind_channel : blind channel.
Proof. intros c ws. unfold channel. cbn. by destruct (deref _ _). Qed.
Lemma blind_update f : blind (update_events f).
Proof.
  intros c ws. unfold update_events. cbn. destruct (deref _ _); cbn; [|done].
  by destruct (loop_updateChannel _ _ _ _ _) as [ []|].
Qed.
Lemma blind_remove : blind channel_remove.
Proof.
  intros c ws. unfold channel_remove. cbn. destruct (deref _ _); cbn; [|done].
  by destruct (loop_removeChannel _ _ _ _ _) as [ []|].
Qed.
Lemma blind_tie obj : blind (channel_tieTo obj).
Proof. intros c ws. unfold channel_tieTo. cbn. by destruct (deref _ _). Qed.
Lemma blind_read data len : blind (read_block data len).
Proof.
  intros c ws. unfold read_block. cbn. destruct (memory c !! data); [|done].
  by destruct (mem_read _ _ _).
Qed.

(** *** Calls *)

Lemma refines_write data : kernel_ok env -> refines (sock_write env data) (TcpConnection.sock_write data).
Proof.
  intros Hk w. specialize (Hk (trace (w_sys w)) (Write (socket_ w) data)). cbn in Hk.
  unfold sock_write, gets, on_sys, zoom, write, sys, mbind, ST_bind, mret, ST_ret. cbn.
  set (r := env _ _) in *.
  assert (forall w', trace (w_sys w') = trace (w_sys w) ++ [(Write (socket_ w) data, r)] ->
    socket_ w' = socket_ w -> sent (conn w') = sent (conn w) ++ take (Z.to_nat (r_ret r)) data ->
    shut_wr (conn w') = shut_wr (conn w) -> steps w w' [(Write (socket_ w) data, r)]) as Hst.
  { intros w' E1 E2 E3 E4. unfold steps, only_on, accepted, shut_by, accepted1. cbn.
    rewrite E1, E2, E3, E4, app_nil_r, orb_false_r. split_and!; try done. by repeat constructor. }
  destruct (r_ret r <? 0) eqn:Er; cbn; zify_bool.
  - eexists. split; [by apply Hst|]. intros rest. cbn.
    rewrite (proj2 (Z.ltb_lt _ _)) by done. cbn.
    replace (Z.to_nat (r_ret r)) with 0%nat by lia. cbn. rewrite app_nil_r.
    replace (r_ret r) with (-1) by lia. done.
  - eexists. split; [by apply Hst|]. intros rest. cbn.
    rewrite (proj2 (Z.ltb_ge _ _)) by done. cbn.
    rewrite Z.min_l, Z.max_r by lia. done.
Qed.

Lemma refines_shut : refines (shutDownWrite env) TcpConnection.shutDownWrite.
Proof.
  intros w. unfold shutDownWrite, gets, on_sys, on_conn, zoom, Sockets.shutDownWrite, shutdownWrite, sys,
    LOG_SYSERR, modify, TcpConnection.shutDownWrite, mbind, ST_bind, mret, ST_ret.
  cbn. set (r := env _ _). set (tr := [(Sockets.Shutdown (socket_ w) SHUT_WR, r)]).
  assert (forall t, trace t = trace (w_sys w) ++ tr ->
    steps w (mkWorld (set_socket (writes (conn w)) (sent (conn w)) true (conn w)) (socket_ w) t) tr) as Hst.
  { intros t E. unfold steps, only_on, accepted, shut_by. cbn. rewrite E, app_nil_r, orb_true_r.
    split_and!; try done. by repeat constructor. }
  destruct (r_ret r <? 0); cbn; exists tr; (split; [by apply Hst|]); intros rest; done.
Qed.

Lemma refines_error : refines (handleError env optval) TcpConnection.handleError.
Proof.
  intros w. unfold handleError, gets, on_sys, zoom, getSocketError, sys, mbind, ST_bind, mret, ST_ret, TcpConnection.handleError.
  cbn. set (r := env _ _). set (tr := [(Getsockopt (socket_ w) SOL_SOCKET SO_ERROR, r)]).
  assert (forall w', conn w' = conn w -> socket_ w' = socket_ w -> trace (w_sys w') = trace (w_sys w) ++ tr -> steps w w' tr) as Hst.
  { intros w' E1 E2 E. unfold steps, only_on, accepted, shut_by. cbn. rewrite E, E1, E2, app_nil_r, orb_false_r.
    split_and!; try done. by repeat constructor. }
  destruct (r_ret r <? 0); cbn; exists tr; (split; [by apply Hst|]); intros rest; done.
Qed.
End refinement.

#[local] Create HintDb wire.
#[local] Hint Resolve refines_ret refines_fail refines_lift blind_channel blind_update blind_remove
  blind_tie blind_read blind_lift : wire.

(** One rule of [refines] or [blind], by the shape of the operation. *)
Ltac blind_step :=
  lazymatch goal with
  | |- blind (mbind _ _) => apply blind_bind; [|intros]
  | |- blind (when _ _) => apply blind_when
  | |- blind (gets _) => apply blind_gets; by intros
  | |- blind (modify _) => apply blind_modify; by intros
  | |- blind (postFunctor _) => apply blind_modify; by intros
  | |- blind (if ?b then _ else _) => destruct b
  | |- blind _ => solve [auto with wire]
  end.
Ltac refine_step :=
  lazymatch goal with
  | |- refines (mbind _ _) (mbind _ _) => apply refines_bind; [|intros]
  | |- refines (when _ _) (when _ _) => apply refines_when
  | |- refines (on_conn _) _ => apply refines_on_conn; repeat blind_step
  | |- refines (if ?b then _ else _) (if ?b then _ else _) => destruct b
  | |- refines (let '(_, _) := ?x in _) _ => destruct x
  | |- refines _ _ => solve [auto with wire]
  end.

(** The user's callbacks do the same on both sides. *)
Record user_refines {P} (K : UserCallbacks P) (U : TcpConnection.UserCallbacks (P := P)) : Prop := {
  ur_connection : option_Forall2 refines (connectionCallback_ K) (TcpConnection.connectionCallback_ U);
  ur_message : option_Forall2 (fun k m => forall t, refines (k t) (m t)) (messageCallback_ K) (TcpConnection.messageCallback_ U);
  ur_complete : option_Forall2 refines (writeCompleteCallback_ K) (TcpConnection.writeCompleteCallback_ U);
  ur_mark : option_Forall2 (fun k m => forall n, refines (k n) (m n)) (highWaterMarkCallback_ K) (TcpConnection.highWaterMarkCallback_ U);
  ur_close : option_Forall2 refines (closeCallback_ K) (TcpConnection.closeCallback_ U)
}.

Section operations_refine.
Context {P : Type} `{Poller P, Build} (env : Env) (optval : Z).
Context (K : UserCallbacks P) (U : TcpConnection.UserCallbacks (P := P)).
Context (HK : kernel_ok env) (HU : user_refines K U).

Lemma refines_cb k m : option_Forall2 refines k m -> refines (call_cb (P := P) k) (TcpConnection.call_cb m).
Proof. intros Hkm. destruct Hkm; [done|apply refines_fail]. Qed.
Lemma has_cb_eq {A B} (R : A -> B -> Prop) k m : option_Forall2 R k m -> has_cb k = has_cb m.
Proof. by destruct 1. Qed.

Lemma refines_call_connection : refines (call_connection K) (TcpConnection.call_connection U).
Proof. unfold call_connection, TcpConnection.call_connection. repeat refine_step. apply refines_cb, HU. Qed.
Hint Resolve refines_call_connection refines_shut refines_error : wire.

Lemma refines_established self : refines (connectionEstablished K self) (TcpConnection.connectionEstablished U self).
Proof. unfold connectionEstablished, TcpConnection.connectionEstablished, TcpConnection.enableRead. repeat refine_step. Qed.
Lemma refines_destroyed : refines (connectionDestroyed K) (TcpConnection.connectionDestroyed U).
Proof. unfold connectionDestroyed, TcpConnection.connectionDestroyed, disableAll. repeat refine_step. Qed.
Lemma refines_handleClose : refines (handleClose K) (TcpConnection.handleClose U).
Proof.
  unfold handleClose, TcpConnection.handleClose, disableAll. repeat refine_step. apply refines_cb, HU.
Qed.
Hint Resolve refines_handleClose : wire.
Lemma refines_shutdownInLoop : refines (P := P) (shutdownInLoop env) TcpConnection.shutdownInLoop.
Proof. unfold shutdownInLoop, TcpConnection.shutdownInLoop. repeat refine_step. Qed.
Hint Resolve refines_shutdownInLoop : wire.
Lemma refines_run_in_loop l (k : ST (World P) unit) m f :
  refines k m -> refines (run_in_loop l k f) (TcpConnection.run_in_loop l m f).
Proof. intros Hkm. unfold run_in_loop, TcpConnection.run_in_loop. destruct l; [done|]. repeat refine_step. Qed.
Lemma refines_shutdown l : refines (P := P) (shutdown env l) (TcpConnection.shutdown l).
Proof.
  unfold shutdown, TcpConnection.shutdown. repeat refine_step. apply refines_run_in_loop. auto with wire.
Qed.
Lemma refines_sock_write data : refines (P := P) (sock_write env data) (TcpConnection.sock_write data).
Proof. by apply refines_write. Qed.
Hint Resolve refines_sock_write : wire.

Lemma refines_handleWrite : refines (handleWrite env K) (TcpConnection.handleWrite U).
Proof.
  unfold handleWrite, TcpConnection.handleWrite, disableWrite. rewrite (has_cb_eq _ _ _ (ur_complete _ _ HU)).
  repeat refine_step.
Qed.
Lemma refines_send_direct data : refines (send_direct env K data) (TcpConnection.send_direct U data).
Proof.
  unfold send_direct, TcpConnection.send_direct. rewrite (has_cb_eq _ _ _ (ur_complete _ _ HU)).
  repeat refine_step.
Qed.
Lemma refines_send_queue data n : refines (send_queue K data n) (TcpConnection.send_queue U data n).
Proof.
  unfold send_queue, TcpConnection.send_queue, enableWrite. rewrite (has_cb_eq _ _ _ (ur_mark _ _ HU)).
  repeat refine_step.
Qed.
Hint Resolve refines_send_direct refines_send_queue : wire.
Lemma refines_sendInLoop data : refines (sendInLoop env K data) (TcpConnection.sendInLoop U data).
Proof. unfold sendInLoop, TcpConnection.sendInLoop. repeat refine_step. Qed.
Hint Resolve refines_sendInLoop : wire.
Lemma refines_send_ptr l data n : refines (send_ptr env K l data n) (TcpConnection.send_ptr U l data n).
Proof. unfold send_ptr, TcpConnection.send_ptr. repeat refine_step. Qed.
Lemma refines_send_string l msg : refines (send_string env K l msg) (TcpConnection.send_string U l msg).
Proof.
  intros w. unfold send_string, TcpConnection.send_string. cbn [memory told set_socket].
  destruct (memory (conn w) !! msg) as [block|] eqn:E.
  - pose proof (refines_send_ptr l msg (zlen block) w) as Hw.
    destruct (send_ptr _ _ _ _ _ w) as [ [? w']|].
    + destruct Hw as (tr & Hs & Hm). by exists tr.
    + destruct Hw as (ws & Hm). by exists ws.
  - by exists [].
Qed.
Lemma refines_send_buffer l buf : refines (send_buffer env K l buf) (TcpConnection.send_buffer U l buf).
Proof. unfold send_buffer, TcpConnection.send_buffer. repeat refine_step. Qed.
Lemma refines_forceCloseInLoop : refines (forceCloseInLoop K) (TcpConnection.forceCloseInLoop U).
Proof. unfold forceCloseInLoop, TcpConnection.forceCloseInLoop. repeat refine_step. Qed.
Lemma refines_forceClose l : refines (forceClose K l) (TcpConnection.forceClose U l).
Proof.
  unfold forceClose, TcpConnection.forceClose. repeat refine_step.
  apply refines_run_in_loop, refines_forceCloseInLoop.
Qed.
Hint Resolve refines_send_ptr refines_send_string refines_send_buffer refines_forceCloseInLoop
  refines_forceClose refines_handleWrite refines_established refines_destroyed refines_shutdown : wire.

Lemma blind_startReadInLoop : blind (P := P) startReadInLoop.
Proof. unfold startReadInLoop, TcpConnection.enableRead. repeat blind_step. Qed.
Lemma blind_stopReadInLoop : blind (P := P) stopReadInLoop.
Proof. unfold stopReadInLoop, disableRead. repeat blind_step. Qed.
Hint Resolve blind_startReadInLoop blind_stopReadInLoop : wire.

Lemma blind_startRead l : blind (P := P) (startRead l).
Proof. unfold startRead, TcpConnection.run_in_loop. repeat blind_step. Qed.
Lemma blind_stopRead l : blind (P := P) (stopRead l).
Proof. unfold stopRead, TcpConnection.run_in_loop. repeat blind_step. Qed.
Lemma blind_delay d : blind (P := P) (forceCloseWithDelay d).
Proof. unfold forceCloseWithDelay. repeat blind_step. Qed.
Hint Resolve blind_startRead blind_stopRead blind_delay : wire.

Lemma refines_functor f : refines (run_functor env K f) (TcpConnection.run_functor U f).
Proof.
  destruct f; cbn [run_functor TcpConnection.run_functor]; repeat refine_step.
  - apply refines_cb, HU.
  - destruct (ur_mark _ _ HU); [done|apply refines_fail].
Qed.
Lemma refines_for_each {A} (k : A -> ST (World P) unit) m l :
  (forall a, refines (k a) (m a)) -> refines (for_each k l) (for_each m l).
Proof.
  intros Hkm. induction l as [|a l IH]; cbn [for_each]; [apply refines_ret|].
  apply refines_bind; [done|intros; exact IH].
Qed.
Lemma refines_pending : refines (run_pending env K) (TcpConnection.run_pending U).
Proof.
  unfold run_pending, TcpConnection.run_pending. do 2 refine_step; [refine_step|].
  apply refines_for_each, refines_functor.
Qed.

(** Calls that change nothing that the connection knows. *)
Lemma steps_quiet (w w' : World P) fd c r :
  conn w' = conn w -> socket_ w' = socket_ w -> trace (w_sys w') = trace (w_sys w) ++ [(c, r)] ->
  subject c = Some fd -> fd = socket_ w ->
  match c with Close _ | Accept4 _ _ _ | Write _ _ | Sockets.Shutdown _ _ => False | _ => True end ->
  steps w w' [(c, r)].
Proof.
  intros E1 E2 E3 Hs -> Hc. unfold steps, only_on, accepted, shut_by. rewrite E1, E2, E3.
  split_and!; try done; [by repeat constructor; destruct c|..]; destruct c; try done; cbn;
    by rewrite ?app_nil_r, ?orb_false_r.
Qed.

(** A readable event, told what readv(2) gave. *)
Lemma handleRead_told t (w : World P) :
  match handleRead env optval K t w with
  | Ok (_, w') => exists tr, steps w w' tr /\ forall rest,
      TcpConnection.handleRead U (read_of tr) t (told (writes_of tr ++ rest) (conn w)) = Ok (tt, told rest (conn w'))
  | Err f => exists r ws, forall rest,
      TcpConnection.handleRead U r t (told (ws ++ rest) (conn w)) = Err f
  end.
Proof.
  pose (k b rr := '(n, saveErrno, b) ← lift (readFd b rr);
    on_conn (modify (set_input b)) ;;
    (if 0 <? u64 n then
       on_conn (modify (fun c => add_note (NMessage (contents (inputBuffer_ c))) c)) ;;
       match messageCallback_ K with Some f => f t | None => fail NullCall end
     else if u64 n =? 0 then handleClose K else handleError env optval)).
  pose (m b rr := '(n, saveErrno, b) ← lift (readFd b rr);
    modify (set_input b) ;;
    (if 0 <? u64 n then
       modify (fun c => add_note (NMessage (contents (inputBuffer_ c))) c) ;;
       match TcpConnection.messageCallback_ U with Some f => f t | None => fail NullCall end
     else if u64 n =? 0 then TcpConnection.handleClose U else TcpConnection.handleError)).
  assert (forall b rr, refines (k b rr) (m b rr)) as Hr.
  { intros b rr. unfold k, m. refine_step; [refine_step|]. destruct a as [ [n e] b'].
    refine_step; [refine_step|]. refine_step; [|refine_step]; [|refine_step..].
    refine_step; [refine_step|]. destruct (ur_message _ _ HU); [done|apply refines_fail]. }
  set (b := inputBuffer_ (conn w)). set (call := Readv (socket_ w) [writableBytes b; 65535]).
  set (r := env (trace (w_sys w)) call).
  set (w1 := mkWorld (conn w) (socket_ w)
    (mkSys (trace (w_sys w) ++ [(call, r)]) (if r_ret r <? 0 then r_errno r else errno (w_sys w)) (logged (w_sys w)))).
  assert (handleRead env optval K t w = k b (read_of [(call, r)]) w1) as ->.
  { unfold handleRead, k, on_conn, on_sys, zoom, gets, readv, sys, mbind, ST_bind, mret, ST_ret. cbn.
    fold b. fold call. fold r. by destruct (r_ret r <? 0). }
  assert (forall rr ws, TcpConnection.handleRead U rr t (told ws (conn w)) = m b rr (told ws (conn w))) as Em by done.
  assert (steps w w1 [(call, r)]) as S1 by (by eapply steps_quiet).
  specialize (Hr b (read_of [(call, r)]) w1). destruct (k _ _ w1) as [ [ [] w2]|f].
  - destruct Hr as (tr & S2 & E2). exists ([(call, r)] ++ tr). split; [by eapply steps_trans|].
    intros rest. rewrite Em, writes_of_app. apply E2.
  - destruct Hr as (ws & E2). exists (read_of [(call, r)]), ws. intros rest. rewrite Em. apply E2.
Qed.

Lemma handle_refines ev :
  match ev with Readable _ => True | _ => forall r, refines (handle env optval K ev) (handle_told U ev r) end.
Proof.
  destruct ev; try done; intros r; cbn [handle handle_told]; try (by auto with wire);
    try (by repeat refine_step); try apply refines_pending; by apply refines_on_conn; auto with wire.
Qed.

(** One event. *)
Lemma handle_ok ev (w : World P) :
  match handle env optval K ev w with
  | Ok (_, w') => exists tr, steps w w' tr /\ forall rest,
      handle_told U ev (read_of tr) (told (writes_of tr ++ rest) (conn w)) = Ok (tt, told rest (conn w'))
  | Err f => exists r ws, forall rest, handle_told U ev r (told (ws ++ rest) (conn w)) = Err f
  end.
Proof.
  pose proof (handle_refines ev) as He. destruct ev; try apply handleRead_told.
  all: specialize (He (ReadOk []) w); cbn [handle_told] in *.
  all: destruct (handle _ _ _ _ w) as [ [ [] w']|f];
    [by destruct He as (tr & S & E); exists tr|by destruct He as (ws & E); exists (ReadOk []), ws].
Qed.

Definition handle_all (evs : list event) : ST (World P) unit := for_each (handle env optval K) evs.
Definition told_all (evs : list (event * read_result)) : ST (Conn (P := P)) unit :=
  for_each (fun er => handle_told U er.1 er.2) evs.

Lemma handle_all_ok evs (w : World P) :
  match handle_all evs w with
  | Ok (_, w') => exists tr rs, steps w w' tr /\ length rs = length evs /\ forall rest,
      told_all (zip evs rs) (told (writes_of tr ++ rest) (conn w)) = Ok (tt, told rest (conn w'))
  | Err f => exists rs ws, length rs = length evs /\ forall rest,
      told_all (zip evs rs) (told (ws ++ rest) (conn w)) = Err f
  end.
Proof.
  revert w. induction evs as [|ev evs IH]; intros w.
  - exists [], []. split; [apply steps_refl|done].
  - unfold handle_all, told_all. cbn [for_each]. unfold mbind at 1, ST_bind at 1.
    pose proof (handle_ok ev w) as He. destruct (handle _ _ _ ev w) as [ [ [] w1]|f].
    + destruct He as (tr1 & S1 & E1). specialize (IH w1). unfold handle_all in IH.
      destruct (for_each _ evs w1) as [ [ [] w2]|f].
      * destruct IH as (tr2 & rs & S2 & Hl & E2). exists (tr1 ++ tr2), (read_of tr1 :: rs).
        split; [by eapply steps_trans|]. split; [cbn; lia|]. intros rest.
        rewrite writes_of_app, <- (assoc_L (++)). cbn [zip zip_with for_each fst snd].
        unfold mbind, ST_bind. rewrite E1. apply E2.
      * destruct IH as (rs & ws & Hl & E2). exists (read_of tr1 :: rs), (writes_of tr1 ++ ws).
        split; [cbn; lia|]. intros rest. rewrite <- (assoc_L (++)). cbn [zip zip_with for_each fst snd].
        unfold mbind, ST_bind. rewrite E1. apply E2.
    + destruct He as (r & ws & E). exists (r :: replicate (length evs) r), ws.
      split; [cbn; by rewrite length_replicate|]. intros rest. cbn [zip zip_with for_each fst snd].
      unfold mbind, ST_bind. by rewrite E.
Qed.

Lemma ctor_ok (w : World P) :
  exists w1 r, TcpConnection_ctor env w = Ok (tt, w1) /\ conn w1 = conn w /\ socket_ w1 = socket_ w
    /\ trace (w_sys w1) = trace (w_sys w) ++ [(Setsockopt (socket_ w) SOL_SOCKET SO_KEEPALIVE 1, r)].
Proof. eexists _, _. split; [done|]. by split_and!. Qed.

Lemma dtor_ok (w : World P) :
  state_ (conn w) = kDisconnected ->
  exists w' r, TcpConnection_dtor env w = Ok (tt, w')
    /\ trace (w_sys w') = trace (w_sys w) ++ [(Close (socket_ w), r)].
Proof.
  intros Hs. unfold TcpConnection_dtor, Socket_dtor, close, on_conn, on_sys, zoom, gets, mbind, ST_bind, lift.
  rewrite assert_true by (by rewrite Hs). cbn. set (r := env _ _).
  destruct (r_ret r <? 0); cbn; by eexists _, r.
Qed.
End operations_refine.
End Wire.

Import Wire.

(** ** Properties *)

(** C21: a connection on any kernel is the connection of TcpConnection.v.  From the
    constructor, for every sequence of events, sends, closes and posted functors, and
    callbacks of the user that do the same on both sides: when TcpConnection.v is told
    what the calls in the trace resulted in, it does the same to the connection, failures
    included, so its theorems hold of the connection on the kernel.  The bytes it calls
    sent are those the write calls of the trace took, and the write side is shut when the
    trace has the call.  Every call is on the connection's own descriptor, which is open
    until the destructor closes it, once, whatever else has happened. *)
Theorem connection_on_kernel {P : Type} `{Poller P, Build} (env : Env) optval
    (K : UserCallbacks P) (U : TcpConnection.UserCallbacks (P := P)) addr (p : P) h fd mem s0 evs :
  kernel_ok env -> user_refines K U ->
  let c0 ws := TcpConnection.TcpConnection_ctor addr p h fd mem ws in
  match (TcpConnection_ctor env ;; handle_all env optval K evs) (mkWorld (c0 []) fd s0) with
  | Ok (_, w) => exists tr rs,
      trace (w_sys w) = trace s0 ++ tr /\ ledger [fd] (owns tr []) = Some [fd]
      /\ sent (conn w) = accepted tr /\ shut_wr (conn w) = shut_by tr
      /\ length rs = length evs
      /\ (forall rest, told_all U (zip evs rs) (c0 (writes_of tr ++ rest)) = Ok (tt, told rest (conn w)))
      /\ (state_ (conn w) = kDisconnected -> exists w' r, TcpConnection_dtor env w = Ok (tt, w')
            /\ trace (w_sys w') = trace s0 ++ tr ++ [(Close fd, r)]
            /\ ledger [fd] (owns (tr ++ [(Close fd, r)]) []) = Some [])
  | Err f => exists rs ws, length rs = length evs
      /\ forall rest, told_all U (zip evs rs) (c0 (ws ++ rest)) = Err f
  end.
Proof.
  intros HK HU c0. set (w0 := mkWorld (c0 []) fd s0).
  destruct (ctor_ok env w0) as (w1 & r1 & E1 & Ec & Es & Et).
  unfold mbind, ST_bind. rewrite E1. clear E1.
  pose proof (handle_all_ok env optval K U HK HU evs w1) as Hall. rewrite Ec in Hall.
  destruct (handle_all _ _ _ evs w1) as [ [ [] w]|f]; [|exact Hall].
  destruct Hall as (tr & rs & (E2 & Es2 & Ho & Hse & Hsh) & Hl & Hall).
  set (c1 := Setsockopt fd SOL_SOCKET SO_KEEPALIVE 1) in *.
  rewrite Es in Es2, Ho. change (socket_ w0) with fd in Es2, Ho, Et.
  rewrite Ec in Hse, Hsh. rewrite Et, <- (assoc_L (++)) in E2.
  assert (only_on fd ([(c1, r1)] ++ tr)) as Ho1 by (by constructor).
  exists ([(c1, r1)] ++ tr), rs. split_and!; try done.
  - rewrite <- (app_nil_r (owns _ _)). by rewrite only_on_ledger.
  - intros Hs. destruct (dtor_ok env w Hs) as (w' & r & E & Etr). rewrite Es2 in Etr.
    exists w', r. split; [done|]. rewrite Etr, E2. split; [by rewrite <- (assoc_L (++))|].
    rewrite owns_app, only_on_ledger by done.
    change (owns [(Close fd, r)] []) with [Called (Close fd) r]. by rewrite led_close.
Qed.

(** An echo server's connection: "hi" is read, and written back by the message callback. *)
Definition demo_env : Env := fun tr c =>
  match c with
  | Readv _ _ => mkReply 2 0 (VData (cs "hi"))
  | Write _ data => mkReply (zlen data) 0 VNone
  | _ => mkReply 0 0 VNone
  end.
Lemma demo_env_ok : kernel_ok demo_env.
Proof.
  intros tr c. destruct c; cbn; try done.
  - split; [lia|]. intros _. by eexists.
  - pose proof (zlen_nonneg data). lia.
Qed.

Definition still : UserCallbacks EPollPoller := Wire.mkUser (Some (mret tt)) None None None (Some (mret tt)).
Definition still_told : TcpConnection.UserCallbacks (P := EPollPoller) :=
  TcpConnection.mkUser (Some (mret tt)) None None None (Some (mret tt)).
Definition echo : UserCallbacks EPollPoller :=
  Wire.mkUser (Some (mret tt))
    (Some (fun _ => b ← on_conn (gets inputBuffer_);
                    b ← send_buffer (H0 := Debug) demo_env still true b;
                    on_conn (modify (set_input b))))
    None None (Some (mret tt)).
Definition echo_told : TcpConnection.UserCallbacks (P := EPollPoller) :=
  TcpConnection.mkUser (Some (mret tt))
    (Some (fun _ => b ← gets inputBuffer_;
                    b ← TcpConnection.send_buffer (H0 := Debug) still_told true b;
                    modify (set_input b)))
    None None (Some (mret tt)).

Lemma still_refines : user_refines still still_told.
Proof. by repeat constructor; apply refines_ret. Qed.
Lemma echo_refines : user_refines echo echo_told.
Proof.
  split; cbn; repeat constructor; try apply refines_ret. intros t.
  refine_step; [refine_step|]. refine_step; [|refine_step].
  apply refines_send_buffer; [apply demo_env_ok|apply still_refines].
Qed.

Definition demo_events : list event :=
  [Established 7; Readable (mkTimestamp 0); Closed; Destroyed].
Definition demo_start : World EPollPoller :=
  mkWorld (TcpConnection.TcpConnection_ctor 100 EPollPoller_ctor ∅ 5 ∅ []) 5 Sys_start.
Definition demo_run : outcome (unit * World EPollPoller) :=
  (TcpConnection_ctor demo_env ;; handle_all (H0 := Debug) demo_env 0 echo demo_events) demo_start.

Lemma connection_on_kernel_witness :
  kernel_ok demo_env /\ user_refines echo echo_told
  /\ exists w tr rs, demo_run = Ok (tt, w) /\ accepted tr = cs "hi"
    /\ told_all (H0 := Debug) echo_told (zip demo_events rs)
         (TcpConnection.TcpConnection_ctor 100 EPollPoller_ctor ∅ 5 ∅ (writes_of tr ++ [])) = Ok (tt, told [] (conn w))
    /\ exists w' r, TcpConnection_dtor (H0 := Debug) demo_env w = Ok (tt, w')
         /\ trace (w_sys w') = tr ++ [(Close 5, r)].
Proof.
  split; [exact demo_env_ok|]. split; [exact echo_refines|].
  pose proof (connection_on_kernel (H0 := Debug) demo_env 0 echo echo_told 100 EPollPoller_ctor ∅ 5 ∅
    Sys_start demo_events demo_env_ok echo_refines) as Hc.
  assert (match demo_run with Ok (_, w) => sent (conn w) = cs "hi" /\ state_ (conn w) = kDisconnected
                            | Err _ => False end) as Hd by (vm_compute; split; reflexivity).
  cbv beta zeta in Hc. fold demo_start in Hc. fold demo_run in Hc.
  destruct demo_run as [ [ [] w]|f]; [|destruct Hd]. destruct Hd as [Hs Hst].
  destruct Hc as (tr & rs & Et & _ & Ha & _ & _ & Htold & Hclose).
  destruct (Hclose Hst) as (w' & r & E & Etr & _).
  exists w, tr, rs. split; [reflexivity|]. split; [rewrite <- Ha; exact Hs|].
  split; [exact (Htold [])|]. exists w', r. split; [exact E|exact Etr].
Defined.
