(* ===== verification/Serving.v ===== *)
(** * A server on the kernel: src/arale/net/TcpServer.cc over Acceptor.cc and TcpConnection.cc

    The descriptors of a whole server: its acceptor (Sockets.v) and the connections it has
    made (Wire.v), which take their steps in any order, with the rest of the process doing
    anything in between, on one kernel.  Names and the map of connections are in Server.v;
    here a connection is known by its number, and is there until its destructor has run.
    Whether the connections share the loops, and with which other channels, is left open:
    each step finds the poller of its loop in any state. *)

From S2P Require Import Prelude Date Buffer Channel Poller EventLoop TcpConnection Server Sockets Ledger Wire.
Import Wire.

Module Serving.
Section serving.
Context {P : Type} `{Poller P, Build} (env : Env) (optval : Z).
Context (K : UserCallbacks P).

Record Host := mkHost {
  acceptor_ : option Acceptor.Acceptor;      (* accptor_, until it is destroyed *)
  conns : list (Z * (Conn (P := P) * Z));    (* by number: the connection, its descriptor *)
  nextConnId_ : Z;
  h_sys : Sys
}.

(** The acceptor's callback, TcpServer::newConncetion: the local address is asked for and
    the connection made, its channel at the address [ch] of its loop's heap. *)
Definition newConncetion (newconnfd : Z) (p : P) (h : heap) (ch : Z) (mem : gmap Z bytes)
    : ST Sys (Conn (P := P) * Z) := fun s =>
  '(_, s) ← getLocalAddr env newconnfd s;
  '(_, w) ← TcpConnection_ctor env
     (mkWorld (TcpConnection.TcpConnection_ctor ch p h newconnfd mem []) newconnfd s);
  Ok ((conn w, socket_ w), w_sys w).

(** The acceptor's readable event, with that callback. *)
Definition accept_event (a : Acceptor.Acceptor) (p : P) (h : heap) (ch : Z) (mem : gmap Z bytes)
    : ST Sys (option (Conn (P := P) * Z) * Acceptor.Acceptor) :=
  '(got, a) ← Acceptor.handleNewConnection env true a;
  match got with
  | Some (newconnfd, _) => c ← newConncetion newconnfd p h ch mem; mret (Some c, a)
  | None => mret (None, a)
  end.

(** ** The steps of a server *)

Inductive action :=
  | Listening                                                       (* listen *)
  | Accepting (p : P) (h : heap) (ch : Z) (mem : gmap Z bytes)      (* the acceptor is readable *)
  | Handling (k : nat) (p : P) (h : heap) (ev : event)              (* an event of a connection *)
  | Destroying (k : nat)                                            (* its last owner is gone *)
  | Stopping.                                                       (* so is the server *)

(** A connection is named by its place in the list.  What there is not does nothing. *)
Definition act (h : Host) (x : action) : outcome Host :=
  match x with
  | Listening =>
      match acceptor_ h with
      | Some a => '(a, s) ← Acceptor.startListening env a (h_sys h);
                  Ok (mkHost (Some a) (conns h) (nextConnId_ h) s)
      | None => Ok h
      end
  | Accepting p hp ch mem =>
      match acceptor_ h with
      | Some a =>
          '((c, a), s) ← accept_event a p hp ch mem (h_sys h);
          Ok match c with
             | Some c => mkHost (Some a) ((nextConnId_ h, c) :: conns h) (i32 (nextConnId_ h + 1)) s
             | None => mkHost (Some a) (conns h) (nextConnId_ h) s
             end
      | None => Ok h
      end
  | Handling k p hp ev =>
      match conns h !! k with
      | Some (i, (c, fd)) =>
          '(_, w) ← handle env optval K ev (mkWorld (set_poller p hp c) fd (h_sys h));
          Ok (mkHost (acceptor_ h) (<[k := (i, (conn w, socket_ w))]> (conns h)) (nextConnId_ h) (w_sys w))
      | None => Ok h
      end
  | Destroying k =>
      match conns h !! k with
      | Some (i, (c, fd)) =>
          '(_, w) ← TcpConnection_dtor env (mkWorld c fd (h_sys h));
          Ok (mkHost (acceptor_ h) (delete k (conns h)) (nextConnId_ h) (w_sys w))
      | None => Ok h
      end
  | Stopping =>
      match acceptor_ h with
      | Some a => '(_, s) ← Acceptor.Acceptor_dtor env a (h_sys h);
                  Ok (mkHost None (conns h) (nextConnId_ h) s)
      | None => Ok h
      end
  end.

(** With the calls that it makes. *)
Definition step (h : Host) (tr : history) (h' : Host) : Prop :=
  exists x, act h x = Ok h' /\ trace (h_sys h') = trace (h_sys h) ++ tr.

(** A run: the calls of the server, in order; in between the rest of the process changes
    what it likes. *)
Inductive serves : Host -> history -> Host -> Prop :=
  | serves_nil h : serves h [] h
  | serves_step h1 mine h2 tr h3 : serves h1 mine h2 -> step h2 tr h3 -> serves h1 (mine ++ tr) h3
  | serves_others h1 mine h2 s :
      serves h1 mine h2 -> serves h1 mine (mkHost (acceptor_ h2) (conns h2) (nextConnId_ h2) s).

(** A server begins with its acceptor. *)
Definition begins (addr : InetAddress) (reuseport : bool) (s : Sys) (tr : history) (h : Host) : Prop :=
  exists a s', Acceptor.Acceptor_ctor env addr reuseport s = Ok (a, s')
    /\ trace s' = trace s ++ tr /\ h = mkHost (Some a) [] 1 s'.

(** The descriptors it has. *)
Definition fds_of (h : Host) : list Z :=
  match acceptor_ h with
  | Some a => [Acceptor.acceptSocket_ a; backupFd_ (Acceptor.state a)] | None => [] end
  ++ ((fun e : Z * (Conn * Z) => e.2.2) <$> conns h).
End serving.
Arguments Host : clear implicits.

(** accept4 does not return 0 (standard input is open), and /dev/null can be opened. *)
Definition roomy (env : Env) : Prop := forall tr c,
  match c with
  | Accept4 _ _ _ => r_ret (env tr c) <> 0
  | Open _ _ => 0 <= r_ret (env tr c)
  | _ => True
  end.

(** ** Lemmas *)

Section calls.
Implicit Types (s : Sys).

(** What an operation adds to the trace, if it returns. *)
Definition does {A} (m : ST Sys A) s (R : A -> history -> Prop) : Prop :=
  forall a s', m s = Ok (a, s') -> exists tr, trace s' = trace s ++ tr /\ R a tr.

Lemma does_adds {A} (m : ST Sys A) s R : adds m s R -> does m s R.
Proof. intros (a & s1 & E & tr & Et & HR) a' s' E'. rewrite E in E'. injection E' as <- <-. by exists tr. Qed.
Lemma does_fail {A} f s (R : A -> history -> Prop) : does (fail f) s R.
Proof. by intros a s' E. Qed.
Lemma does_bind {A B} (m : ST Sys A) (k : A -> ST Sys B) s R :
  does m s (fun a tr1 => forall s1, does (k a) s1 (fun b tr2 => R b (tr1 ++ tr2))) -> does (m ≫= k) s R.
Proof.
  intros Hm b s' E. unfold mbind, ST_bind in E. destruct (m s) as [ [a s1]|] eqn:E1; [|done].
  destruct (Hm a s1 E1) as (tr1 & Et1 & Hk). destruct (Hk s1 b s' E) as (tr2 & Et2 & HR).
  exists (tr1 ++ tr2). split; [|done]. by rewrite Et2, Et1, (assoc_L (++)).
Qed.
Lemma does_mono {A} (m : ST Sys A) s (R R' : A -> history -> Prop) :
  does m s R -> (forall a tr, R a tr -> R' a tr) -> does m s R'.
Proof. intros Hm HR a s' E. destruct (Hm a s' E) as (tr & Et & Ha). exists tr. split; [done|by apply HR]. Qed.
Lemma does_when b m s (R : unit -> history -> Prop) :
  (b = true -> does m s R) -> (b = false -> R tt []) -> does (when b m) s R.
Proof. intros H1 H2. destruct b; [by apply H1|]. by apply does_adds, adds_ret, H2. Qed.

(** *** One call *)

Lemma acc_touch held fd c r :
  subject c = Some fd -> fd ∈ held -> match c with Close _ | Accept4 _ _ _ => False | _ => True end ->
  accounts held [(c, r)] held.
Proof.
  intros Hs Hin Hc. exists held. split; [|done]. unfold owns. cbn. unfold ledger1. rewrite Hs, decide_True by done.
  destruct c; try done; cbn; by rewrite app_nil_r.
Qed.
Lemma acc_open held c r :
  match c with Socket_ _ _ _ | Open _ _ => True | _ => False end -> 0 <= r_ret r ->
  accounts held [(c, r)] (held ++ [r_ret r]).
Proof.
  intros Hc Hr. exists (held ++ [r_ret r]). split; [|done]. unfold owns. cbn. unfold ledger1, opened1.
  destruct c; try done; cbn; by rewrite (proj2 (Z.leb_le _ _)).
Qed.
Lemma acc_accept held fd l f r :
  fd ∈ held -> 0 <= r_ret r -> accounts held [(Accept4 fd l f, r)] (held ++ [r_ret r]).
Proof.
  intros Hin Hr. exists (held ++ [r_ret r]). split; [|done]. unfold owns. cbn. unfold ledger1, opened1. cbn.
  by rewrite decide_True, (proj2 (Z.leb_le _ _)).
Qed.
Lemma acc_close held fd r : accounts (fd :: held) [(Close fd, r)] held.
Proof.
  exists held. split; [|done]. unfold owns. cbn. unfold ledger1. cbn [subject].
  rewrite decide_True by by left. cbn. by rewrite decide_True, app_nil_r.
Qed.
End calls.

Ltac does_step :=
  lazymatch goal with
  | |- does (mret _) _ _ => apply does_adds, adds_ret
  | |- does (mbind _ _) _ _ => apply does_bind
  | |- does (sys _ _) _ _ => apply does_adds, adds_sys
  | |- does (LOG_SYSERR _) _ _ => apply does_adds, adds_log
  | |- does LOG_SYSFATAL _ _ => apply does_fail
  | |- does (gets _) _ _ => apply does_adds, adds_gets
  | |- does (when _ _) _ _ => apply does_when; intros ?
  end; cbv beta iota; intros.

(** The account of a trace, call by call. *)
Ltac acc_call :=
  first [ apply acc_open; [exact I|zify_bool; lia]
        | apply acc_accept; [set_solver|zify_bool; lia]
        | apply acc_close
        | eapply acc_touch; [reflexivity|set_solver|exact I] ].
Ltac acc := cbn [app]; repeat (eapply (accounts_trans _ _ _ [_]); [acc_call|]); try apply accounts_nil.

Section acceptor_calls.
Context `{Build} (env : Env) (HR : roomy env).
Implicit Types (s : Sys) (a : Acceptor.Acceptor).

Definition held a : list Z := [Acceptor.acceptSocket_ a; backupFd_ (Acceptor.state a)].

Lemma ctor_does addr rp s :
  does (Acceptor.Acceptor_ctor env addr rp) s (fun a tr => accounts [] tr (held a)).
Proof.
  unfold Acceptor.Acceptor_ctor, createNonblockingOrDie, setReuseAddr, setReusePort, bindAddress, bindOrDie.
  repeat does_step.
  all: match goal with |- accounts _ ?tr _ =>
    match tr with context [(Acceptor.dev_null, ?r)] => assert (0 <= r_ret r) by apply (HR _ Acceptor.dev_null) end end.
  all: acc.
Qed.
Lemma listen_does a s :
  does (Acceptor.startListening env a) s (fun a' tr => accounts (held a) tr (held a')).
Proof.
  unfold Acceptor.startListening, listen, listenOrDie. repeat does_step. acc.
Qed.

(** accept4 fails, and the process ends, or gives a descriptor to the callback. *)
Lemma accept_does a s :
  does (Acceptor.handleNewConnection env true a) s (fun ga tr => exists fd peer,
    ga = (Some (fd, peer), a) /\ accounts (held a) tr (fd :: held a)).
Proof.
  unfold Acceptor.handleNewConnection, Socket_accept, accept. do 4 does_step.
  set (r := env _ _). assert (r_ret r <> 0) as Hr by apply (HR _ (Accept4 _ _ _)).
  do 2 does_step; [do 2 does_step|]. zify_bool. do 2 does_step.
  rewrite (proj2 (Z.ltb_lt 0 (r_ret r))) by lia. does_step. eexists _, _. split; [done|].
  eapply accounts_perm; [done| |]; [|cbn [app]; apply acc_accept; [by left|lia]].
  symmetry. apply Permutation_cons_append.
Qed.
Lemma dtor_does a s : does (Acceptor.Acceptor_dtor env a) s (fun _ tr => accounts (held a) tr []).
Proof.
  unfold Acceptor.Acceptor_dtor, Socket_dtor, close. repeat does_step.
  all: unfold held; rewrite (Permutation_swap (backupFd_ _)); acc.
Qed.
End acceptor_calls.

Section serving_proofs.
Context {P : Type} `{Poller P, Build} (env : Env) (optval : Z).
Context (K : UserCallbacks P) (U : TcpConnection.UserCallbacks (P := P)).
Context (HR : roomy env) (HK : kernel_ok env) (HU : user_refines K U).
Implicit Types (h : Host P).

Lemma newConncetion_does fd (p : P) hp ch mem s :
  does (newConncetion env fd p hp ch mem) s (fun c tr => c.2 = fd /\ only_on fd tr).
Proof.
  intros c s' E. unfold newConncetion in E.
  assert (adds (getLocalAddr env fd) s (fun _ tr => only_on fd tr)) as (a & s1 & E1 & tr1 & Et1 & O1).
  { unfold getLocalAddr. apply adds_bind, adds_sys. intros s2. case_match.
    - apply adds_bind, adds_log. intros s3. apply adds_ret. by repeat constructor.
    - apply adds_ret. by repeat constructor. }
  rewrite E1, bind_Ok in E.
  destruct (ctor_ok env (mkWorld (TcpConnection.TcpConnection_ctor ch p hp fd mem []) fd s1))
    as (w & r & Ew & Ec & Es & Et).
  rewrite Ew, bind_Ok in E. injection E as <- <-. cbn [w_sys socket_] in *.
  exists (tr1 ++ [(Setsockopt fd SOL_SOCKET SO_KEEPALIVE 1, r)]).
  split; [by rewrite Et, Et1, (assoc_L (++))|]. split; [by rewrite <- Es|].
  apply Forall_app. split; [done|]. by repeat constructor.
Qed.

Lemma accept_event_does a (p : P) hp ch mem s :
  does (accept_event env a p hp ch mem) s (fun ca tr =>
    accounts (held a) tr ((match ca.1 with Some c => [c.2] | None => [] end) ++ held ca.2)).
Proof.
  unfold accept_event. apply does_bind. eapply does_mono; [by apply accept_does|].
  intros ga tr (fd & peer & -> & Ha) s1. apply does_bind. eapply does_mono; [apply newConncetion_does|].
  intros c tr1 [Hc Ho] s2. apply does_adds, adds_ret. cbn [fst snd]. rewrite app_nil_r, Hc.
  eapply accounts_trans; [exact Ha|]. change (fd :: held a) with ([fd] ++ held a).
  by apply accounts_frame, only_on_accounts.
Qed.

(** The descriptors with one connection set apart. *)
Lemma fds_delete (a : option Acceptor.Acceptor) (l : list (Z * (Conn (P := P) * Z))) k i c fd n s s' :
  l !! k = Some (i, (c, fd)) -> fds_of (mkHost a l n s) ≡ₚ fd :: fds_of (mkHost a (delete k l) n s').
Proof.
  intros Hk. unfold fds_of. cbn [acceptor_ conns]. rewrite (delete_Permutation l k _ Hk) at 1.
  rewrite fmap_cons. symmetry. apply Permutation_middle.
Qed.
Lemma fds_insert (a : option Acceptor.Acceptor) (l : list (Z * (Conn (P := P) * Z))) k i i' c c' fd n s s' :
  l !! k = Some (i, (c, fd)) ->
  fds_of (mkHost a (<[k := (i', (c', fd))]> l) n s) = fds_of (mkHost a l n s').
Proof.
  intros Hk. unfold fds_of. cbn [acceptor_ conns]. rewrite list_fmap_insert, list_insert_id; [done|].
  by rewrite list_lookup_fmap, Hk.
Qed.

Lemma does_trace {A} (m : ST Sys A) s R a s' tr :
  does m s R -> m s = Ok (a, s') -> trace s' = trace s ++ tr -> R a tr.
Proof.
  intros Hm E Et. destruct (Hm a s' E) as (tr' & Et' & HR'). rewrite Et in Et'.
  by apply app_inv_head in Et' as ->.
Qed.

(** *** Every step is accounted for *)

Lemma idle_accounts h h' tr :
  Ok h = Ok h' -> trace (h_sys h') = trace (h_sys h) ++ tr -> accounts (fds_of h) tr (fds_of h').
Proof.
  intros E Et. injection E as <-. rewrite <- (app_nil_r (trace _)) in Et at 1.
  apply app_inv_head in Et as <-. apply accounts_nil.
Qed.

Lemma accepting_accounts a l n p hp ch mem s h' tr :
  act env optval K (mkHost (Some a) l n s) (Accepting p hp ch mem) = Ok h' ->
  trace (h_sys h') = trace s ++ tr -> accounts (fds_of (mkHost (Some a) l n s)) tr (fds_of h').
Proof.
  unfold act. cbn [acceptor_ conns h_sys nextConnId_]. intros E Et.
  destruct (accept_event env a p hp ch mem s) as [ [ [c a'] s']|] eqn:Ea; [|done].
  rewrite bind_Ok in E. injection E as <-.
  assert (trace s' = trace s ++ tr) as Et' by (by destruct c). clear Et.
  pose proof (does_trace _ _ _ _ _ _ (accept_event_does a p hp ch mem s) Ea Et') as Ha. cbn [fst snd] in Ha.
  eapply accounts_perm; [done| |apply (accounts_frame (held a) tr _ _ Ha)].
  destruct c as [ [c fd]|]; [|done]. unfold fds_of. cbn [acceptor_ conns]. rewrite fmap_cons.
  change ([fd] ++ held a' ++ ((fun e : Z * (Conn (P := P) * Z) => e.2.2) <$> l)
    ≡ₚ held a' ++ [fd] ++ ((fun e : Z * (Conn (P := P) * Z) => e.2.2) <$> l)).
  apply Permutation_app_swap_app.
Qed.

Lemma handling_accounts a l n k p hp ev s h' tr :
  act env optval K (mkHost a l n s) (Handling k p hp ev) = Ok h' ->
  trace (h_sys h') = trace s ++ tr -> accounts (fds_of (mkHost a l n s)) tr (fds_of h').
Proof.
  unfold act. cbn [acceptor_ conns h_sys nextConnId_]. destruct (l !! k) as [ [i [c fd] ]|] eqn:Hk; intros E Et.
  - pose proof (handle_ok env optval K U HK HU ev (mkWorld (set_poller p hp c) fd s)) as Hh.
    destruct (handle _ _ _ _ _) as [ [ [] w]|]; [|done]. rewrite bind_Ok in E. injection E as <-.
    destruct Hh as (tr' & (Et' & Es & Ho & _) & _). cbn [w_sys socket_ h_sys] in *.
    rewrite Et in Et'. apply app_inv_head in Et' as ->. rewrite Es, (fds_insert _ _ _ _ _ _ _ _ _ _ s Hk).
    rewrite (fds_delete _ _ _ _ _ _ _ _ s Hk). change (fd :: ?g) with ([fd] ++ g).
    by apply accounts_frame, only_on_accounts.
  - by eapply idle_accounts.
Qed.

Lemma dtor_closes (w w' : World P) :
  TcpConnection_dtor env w = Ok (tt, w') ->
  exists r, trace (w_sys w') = trace (w_sys w) ++ [(Close (socket_ w), r)].
Proof.
  unfold TcpConnection_dtor, on_conn, on_sys, zoom, gets, lift, mbind, ST_bind. intros E.
  destruct (assert_ _); [|done]. destruct w as [c fd s]. cbn [conn w_sys socket_] in *.
  destruct (Socket_dtor env fd s) as [ [ [] s']|] eqn:Ec; [|done]. injection E as <-.
  assert (adds (Socket_dtor env fd) s (fun _ tr => exists r, tr = [(Close fd, r)])) as Hc.
  { unfold Socket_dtor, close. apply adds_bind, adds_sys. intros s2.
    apply adds_when; intros _; [apply adds_log|]; by eexists. }
  destruct (does_adds _ _ _ Hc _ _ Ec) as (tr & Et & r & ->). by exists r.
Qed.
Lemma destroying_accounts a l n k s h' tr :
  act env optval K (mkHost a l n s) (Destroying k) = Ok h' ->
  trace (h_sys h') = trace s ++ tr -> accounts (fds_of (mkHost a l n s)) tr (fds_of h').
Proof.
  unfold act. cbn [acceptor_ conns h_sys nextConnId_]. destruct (l !! k) as [ [i [c fd] ]|] eqn:Hk; intros E Et.
  - destruct (TcpConnection_dtor env _) as [ [ [] w]|] eqn:Ed; [|done]. cbn in E. injection E as <-.
    destruct (dtor_closes _ _ Ed) as [r Er]. cbn [w_sys socket_ h_sys] in *. rewrite Et in Er.
    apply app_inv_head in Er as ->. rewrite (fds_delete _ _ _ _ _ _ _ _ (w_sys w) Hk). apply acc_close.
  - by eapply idle_accounts.
Qed.

Lemma step_accounts h tr h' : step env optval K h tr h' -> accounts (fds_of h) tr (fds_of h').
Proof.
  intros (x & E & Et). destruct h as [a l n s]. cbn [h_sys] in Et.
  destruct x as [ |p hp ch mem|k p hp ev|k|]; [..|by eapply destroying_accounts|].
  - destruct a as [a|]; [|by eapply idle_accounts]. cbn in E.
    destruct (Acceptor.startListening env a s) as [ [a' s']|] eqn:Ea; [|done].
    rewrite bind_Ok in E. injection E as <-.
    pose proof (does_trace _ _ _ _ _ _ (listen_does env HR a s) Ea Et) as Ha.
    by apply (accounts_frame (held a) tr (held a')).
  - destruct a as [a|]; [|by eapply idle_accounts]. by eapply accepting_accounts.
  - by eapply handling_accounts.
  - destruct a as [a|]; [|by eapply idle_accounts]. cbn in E.
    destruct (Acceptor.Acceptor_dtor env a s) as [ [ [] s']|] eqn:Ea; [|done].
    rewrite bind_Ok in E. injection E as <-.
    pose proof (does_trace _ _ _ _ _ _ (dtor_does env a s) Ea Et) as Ha.
    by apply (accounts_frame (held a) tr []).
Qed.

Lemma serves_accounts h mine h' : serves env optval K h mine h' -> accounts (fds_of h) mine (fds_of h').
Proof.
  induction 1 as [h|h1 mine h2 tr h3 Hs IH Hstep|h1 mine h2 s Hs IH].
  - apply accounts_nil.
  - eapply accounts_trans; [exact IH|]. by apply step_accounts.
  - exact IH.
Qed.

Lemma serves_trans h1 m1 h2 m2 h3 :
  serves env optval K h1 m1 h2 -> serves env optval K h2 m2 h3 -> serves env optval K h1 (m1 ++ m2) h3.
Proof.
  intros H1 H2. induction H2 as [h|ha mine hb tr hc Hs IH Hstep|ha mine hb s Hs IH].
  - by rewrite app_nil_r.
  - rewrite (assoc_L (++)). eapply serves_step; [by apply IH|done].
  - apply serves_others. by apply IH.
Qed.

(** Connections that have ended can be destroyed, and the acceptor at any time. *)
Lemma closes_down h :
  Forall (fun e : Z * (Conn (P := P) * Z) => state_ e.2.1 = kDisconnected) (conns h) ->
  exists mine h', serves env optval K h mine h' /\ acceptor_ h' = None /\ conns h' = [].
Proof.
  assert (forall n l s, Forall (fun e : Z * (Conn (P := P) * Z) => state_ e.2.1 = kDisconnected) l ->
    exists mine h', serves env optval K (mkHost None l n s) mine h' /\ acceptor_ h' = None /\ conns h' = []) as Hl.
  { intros n l. induction l as [|[i [c fd] ] l IH]; intros s Hd.
    - by exists [], (mkHost None [] n s); split; [constructor|].
    - apply Forall_cons in Hd as [Hc Hd]. cbn in Hc.
      destruct (dtor_ok env (mkWorld c fd s) Hc) as (w & r & E & Et).
      destruct (IH (w_sys w) Hd) as (mine & h' & Hs & Ha).
      exists ([(Close fd, r)] ++ mine), h'. split; [|done].
      eapply serves_trans; [|exact Hs]. eapply (serves_step _ _ _ _ []); [constructor|].
      exists (Destroying 0). cbn. by rewrite E. }
  destruct h as [ [a|] l n s]; cbn [conns]; intros Hd; [|by apply Hl].
  assert (exists s' tr, Acceptor.Acceptor_dtor env a s = Ok (tt, s') /\ trace s' = trace s ++ tr) as (s' & tr & E & Et).
  { unfold Acceptor.Acceptor_dtor, Socket_dtor, close, when, sys, mbind, ST_bind. cbn.
    case_match; cbn; eexists _, _; (split; [done|]); cbn; by rewrite <- (assoc_L (++)). }
  destruct (Hl n l s' Hd) as (mine & h' & Hs & Ha). exists (tr ++ mine), h'. split; [|done].
  eapply serves_trans; [|exact Hs]. eapply (serves_step _ _ _ _ []); [constructor|].
  exists Stopping. cbn. by rewrite E.
Qed.

(** ** From the start *)

Lemma begins_accounts addr rp s0 tr0 h : begins env addr rp s0 tr0 h -> accounts [] tr0 (fds_of h).
Proof.
  intros (a & s' & E & Et & ->). pose proof (does_trace _ _ _ _ _ _ (ctor_does env HR addr rp s0) E Et) as Ha.
  unfold fds_of. cbn [acceptor_ conns fmap list_fmap]. by rewrite app_nil_r.
Qed.

(** Every action that can be taken continues a run. *)
Lemma does_extends {A} (m : ST Sys A) s R a s' : does m s R -> m s = Ok (a, s') -> exists tr, trace s' = trace s ++ tr.
Proof. intros Hm E. destruct (Hm a s' E) as (tr & Et & _). by exists tr. Qed.
Lemma act_extends h x h' : act env optval K h x = Ok h' -> exists tr, trace (h_sys h') = trace (h_sys h) ++ tr.
Proof.
  assert (exists tr, trace (h_sys h) = trace (h_sys h) ++ tr) as Hsame by (exists []; by rewrite app_nil_r).
  destruct h as [a l n s]. destruct x as [ |p hp ch mem|k p hp ev|k|]; cbn;
    try (destruct a as [a|]; [|by intros [= <-] ]);
    try (destruct (l !! k) as [ [i [c fd] ]|]; [|by intros [= <-] ]).
  - destruct (Acceptor.startListening env a s) as [ [a' s']|] eqn:E; [|done]. intros [= <-].
    eapply does_extends; [by apply (listen_does env HR)|done].
  - destruct (accept_event env a p hp ch mem s) as [ [ [c a'] s']|] eqn:E; [|done]. intros [= <-].
    destruct (does_extends _ _ _ _ _ (accept_event_does a p hp ch mem s) E) as [tr Et]. exists tr. by destruct c.
  - pose proof (handle_ok env optval K U HK HU ev (mkWorld (set_poller p hp c) fd s)) as Hh.
    destruct (handle _ _ _ _ _) as [ [ [] w]|]; [|done]. intros [= <-].
    destruct Hh as (tr & (Et & _) & _). by exists tr.
  - destruct (TcpConnection_dtor env _) as [ [ [] w]|] eqn:E; [|done]. intros [= <-].
    destruct (dtor_closes _ _ E) as [r Er]. by eexists.
  - destruct (Acceptor.Acceptor_dtor env a s) as [ [ [] s']|] eqn:E; [|done]. intros [= <-].
    eapply does_extends; [by apply dtor_does|done].
Qed.
Lemma act_serves h0 mine h x h' :
  serves env optval K h0 mine h -> act env optval K h x = Ok h' ->
  exists mine', serves env optval K h0 mine' h'.
Proof.
  intros Hs Ex. destruct (act_extends _ _ _ Ex) as [tr Et]. exists (mine ++ tr).
  eapply serves_step; [exact Hs|]. by exists x.
Qed.
End serving_proofs.
End Serving.

Import Serving.

(** ** Properties *)


(** A server gets one client, who hangs up: the connection has ended, and is not yet destroyed. *)
Definition serve_env : Env := fun tr c =>
  match c with
  | Socket_ _ _ _ => mkReply 3 0 VNone
  | Open _ _ => mkReply 4 0 VNone
  | Accept4 _ _ _ => mkReply 5 0 VNone
  | _ => demo_env tr c
  end.
Lemma serve_env_ok : roomy serve_env /\ kernel_ok serve_env.
Proof. split; [intros tr c; by destruct c|intros tr c; pose proof (demo_env_ok tr c) as Hd; by destruct c]. Qed.

(** The events of the one connection, alone in its loop. *)
Fixpoint drive (evs : list event) (h : Host EPollPoller) : outcome (Host EPollPoller) :=
  match evs, conns h with
  | ev :: evs, [(_, (c, _))] =>
      h ← act (H0 := Debug) serve_env 0 still h (Handling 0 (poller_ c) (channels c) ev); drive evs h
  | _, _ => Ok h
  end.
Lemma drive_serves evs h0 mine h h' :
  serves (H0 := Debug) serve_env 0 still h0 mine h -> drive evs h = Ok h' ->
  exists mine', serves (H0 := Debug) serve_env 0 still h0 mine' h'.
Proof.
  revert mine h. induction evs as [|ev evs IH]; intros mine h Hs E; [injection E as <-; by exists mine|].
  cbn [drive] in E. destruct (conns h) as [|[i [c fd] ] [|? ?] ]; [injection E as <-; by exists mine| |injection E as <-; by exists mine].
  destruct (act _ _ _ h _) as [h1|] eqn:Ea; [|done].
  destruct serve_env_ok as [HR HK].
  destruct (act_serves serve_env 0 still still_told HR HK still_refines _ _ _ _ _ Hs Ea) as [m1 H1].
  by eapply IH.
Qed.

Definition serve_addr : InetAddress := InetAddress_port (H := Debug) 2007 false false.
Definition serve_start : outcome (Acceptor.Acceptor * Sys) :=
  Acceptor.Acceptor_ctor serve_env serve_addr false Sys_start.
Definition serve_run : outcome (Host EPollPoller) :=
  '(a, s) ← serve_start;
  h ← act (H0 := Debug) serve_env 0 still (mkHost (Some a) [] 1 s) Listening;
  h ← act (H0 := Debug) serve_env 0 still h (Accepting EPollPoller_ctor ∅ 100 ∅);
  drive [Established 7; Closed] h.

