(* ===== verification/Codec.v ===== *)
(** * The chat protocol: src/arale/examples/asio/chat/Codec.h, ChatServer.cc

    LengthHeaderCodec frames messages with a four-byte length in network order.
    [onMessage] takes as many messages as the input buffer holds; what it gives its
    callback is returned as a list, with whether it asked for a shutdown.  The chat server
    sends each message it receives to all its connections. *)

From stdpp Require Import sorting.
From S2P Require Import Prelude Endian Buffer.

Section codec.
Context `{Build}.

Definition kHeaderLength : Z := 4.

(** One turn of the while loop: a message, a shutdown, or nothing yet. *)
Inductive codec_turn :=
  | TMessage (msg : bytes) (buf : Buffer)
  | TShutdown
  | TWait.

Definition onMessage_turn (buf : Buffer) : outcome codec_turn :=
  if kHeaderLength <=? readableBytes buf then
    data ← mem_read (buffer_ buf) (peek buf) 4;
    let be32 := i32 (host_val data) in
    let len := i32 (networkToHost32 (u32 be32)) in
    if (65535 <? len) || (len <? 0) then Ok TShutdown
    else if u64 (u64 len + kHeaderLength) <=? readableBytes buf then
      buf ← retrieve buf kHeaderLength;
      '(msg, buf) ← retrieveAsString buf (u64 len);
      Ok (TMessage msg buf)
    else Ok TWait
  else Ok TWait.

(** The loop; each turn that goes on takes at least the header out of the buffer. *)
Fixpoint onMessage_loop (fuel : nat) (buf : Buffer) : outcome (list bytes * bool * Buffer) :=
  match fuel with
  | O => Err OutOfFuel
  | S fuel' =>
      t ← onMessage_turn buf;
      match t with
      | TMessage msg buf =>
          '(msgs, down, buf) ← onMessage_loop fuel' buf; Ok (msg :: msgs, down, buf)
      | TShutdown => Ok ([], true, buf)
      | TWait => Ok ([], false, buf)
      end
  end.
Definition onMessage (buf : Buffer) : outcome (list bytes * bool * Buffer) :=
  onMessage_loop (S (Z.to_nat (readableBytes buf))) buf.

(** What sendMessage passes to conn->send(). *)
Definition sendMessage (message : bytes) : outcome Buffer :=
  buf ← append Buffer_empty message;
  let len := i32 (zlen message) in
  let be32 := i32 (hostToNetwork32 (u32 len)) in
  prepend buf (host_bytes 4 be32).

(** The peer's input: chunks as they arrive, each followed by a call of onMessage. *)
Fixpoint feed (chunks : list bytes) (buf : Buffer) : outcome (list bytes * bool * Buffer) :=
  match chunks with
  | [] => Ok ([], false, buf)
  | chunk :: chunks' =>
      buf ← append buf chunk;
      '(msgs, down, buf) ← onMessage buf;
      if (down : bool) then Ok (msgs, true, buf)
      else '(msgs', down, buf) ← feed chunks' buf; Ok (msgs ++ msgs', down, buf)
  end.
End codec.

(** ** ChatServer: the connections, a std::set of pointers, and what is sent to which *)

Module ChatServer.
Record ChatServer := mkChat { connections_ : gset Z; sent : list (Z * bytes) }.
Definition onConnection (conn : Z) (connected : bool) (s : ChatServer) : ChatServer :=
  mkChat (if connected then {[ conn ]} ∪ connections_ s else connections_ s ∖ {[ conn ]}) (sent s).
Definition onStringMessage (message : bytes) (s : ChatServer) : ChatServer :=
  mkChat (connections_ s) (sent s ++ ((fun c => (c, message)) <$> merge_sort Z.le (elements (connections_ s)))).
End ChatServer.

(** ** Specification *)

(** A frame on the wire. *)
Definition frame (m : bytes) : bytes := be_bytes 4 (zlen m) ++ m.
Definition frames (ms : list bytes) : bytes := mjoin (frame <$> ms).

(** Bytes that do not make a whole frame yet. *)
Definition incomplete (p : bytes) : Prop :=
  exists m q, zlen m <= 65535 /\ q <> [] /\ frame m = p ++ q.

(** Every append along the way fits the buffer. *)
Fixpoint feed_ok `{Build} (chunks : list bytes) (buf : Buffer) : Prop :=
  match chunks with
  | [] => True
  | chunk :: chunks' =>
      fits buf (zlen chunk) /\
      forall buf1 msgs buf2, append buf chunk = Ok buf1 -> onMessage buf1 = Ok (msgs, false, buf2) ->
        feed_ok chunks' buf2
  end.

(** ** Lemmas *)

Section codec_proofs.
Context `{Build}.
Implicit Types (b : Buffer) (m p : bytes).

Lemma frames_cons m ms : frames (m :: ms) = frame m ++ frames ms.
Proof. done. Qed.

Lemma zlen_frame m : zlen (frame m) = 4 + zlen m.
Proof. unfold frame. by rewrite zlen_app, zlen_be_bytes. Qed.

(** The header of a frame, read back. *)
Lemma header_read b m rest :
  wf b -> zlen m <= 65535 -> contents b = be_bytes 4 (zlen m) ++ rest ->
  exists data, mem_read (buffer_ b) (peek b) 4 = Ok data
    /\ i32 (networkToHost32 (u32 (i32 (host_val data)))) = zlen m
    /\ kHeaderLength <=? readableBytes b = true.
Proof.
  intros Hb Hm Hc. destruct (peek_be 4 b (zlen m) rest Hb Hc) as [E1 E2].
  exists (be_bytes 4 (zlen m)). split_and!; [exact E2| |exact E1].
  pose proof (zlen_nonneg m).
  unfold networkToHost32. rewrite (host_val_be 4) by (lia || apply length_be_bytes).
  rewrite (wraps_be_val 4) by lia. apply wraps_small; [lia|lia].
Qed.

Lemma turn_message b m rest :
  wf b -> kCheapPrependSize <= readIndex_ b -> zlen m <= 65535 -> contents b = frame m ++ rest ->
  exists b', onMessage_turn b = Ok (TMessage m b') /\ wf b' /\ contents b' = rest
    /\ kCheapPrependSize <= readIndex_ b'.
Proof.
  intros Hb Hr Hm Hc. unfold frame in Hc. rewrite <- (assoc_L (++)) in Hc.
  destruct (header_read b m (m ++ rest) Hb Hm Hc) as (data & E & Hlen & Hle).
  pose proof (zlen_nonneg m). pose proof (zlen_nonneg rest).
  assert (zlen (contents b) = 4 + zlen m + zlen rest) as Hz
    by (rewrite Hc, !zlen_app, zlen_be_bytes; lia).
  unfold onMessage_turn. rewrite Hle, E, bind_Ok, Hlen.
  rewrite (proj2 (Z.ltb_ge _ _)), (proj2 (Z.ltb_ge (zlen m) 0)) by lia. cbn [orb].
  rewrite (u64_small (zlen m)) by lia. rewrite u64_small by (unfold kHeaderLength; lia).
  rewrite readableBytes_wf by done. unfold kHeaderLength in *.
  rewrite (proj2 (Z.leb_le _ _)) by lia.
  destruct (retrieve_wf b 4) as (b1 & E1 & Hb1 & Hc1 & _); [done|lia|].
  pose proof (retrieve_readIndex b 4 b1 Hb ltac:(lia) E1 Hr) as Hr1. rewrite E1, bind_Ok.
  rewrite Hc, drop_app_length' in Hc1 by (by rewrite length_be_bytes).
  destruct (retrieveAsString_wf b1 (zlen m)) as (b2 & E2 & Hb2 & Hc2 & _);
    [done|rewrite Hc1, zlen_app; lia|].
  rewrite E2, bind_Ok. exists b2. rewrite Hc1 in *. unfold zlen in *. rewrite Nat2Z.id in *.
  rewrite take_app_length. rewrite drop_app_length in Hc2. split_and!; try done.
  unfold retrieveAsString in E2. apply bind_Ok_inv in E2 as (u & _ & E2).
  apply bind_Ok_inv in E2 as (res & _ & E2). apply bind_Ok_inv in E2 as (b3 & E3 & [= _ <-]).
  by eapply retrieve_readIndex; [..|exact E3|]; [done|lia|].
Qed.

Lemma turn_wait b :
  wf b -> incomplete (contents b) -> onMessage_turn b = Ok TWait.
Proof.
  intros Hb (m & q & Hm & Hq & Hf). unfold onMessage_turn.
  assert (0 < zlen q) as Hzq by (destruct q; [done|rewrite zlen_cons; pose proof (zlen_nonneg q); lia]).
  pose proof (f_equal zlen Hf) as Hz. rewrite zlen_frame, zlen_app in Hz.
  rewrite readableBytes_wf by done. unfold kHeaderLength.
  destruct (Z.leb_spec 4 (zlen (contents b))) as [Hle|Hlt]; [|done].
  assert (exists p', contents b = be_bytes 4 (zlen m) ++ p') as [p' Hp'].
  { exists (drop 4 (contents b)). rewrite <- (take_drop 4 (contents b)) at 1. f_equal.
    apply (f_equal (take 4)) in Hf. unfold frame in Hf.
    rewrite take_app_length' in Hf by (by rewrite length_be_bytes).
    rewrite take_app_le in Hf by (unfold zlen in *; lia). done. }
  destruct (header_read b m p' Hb Hm Hp') as (data & E & Hlen & _).
  pose proof (zlen_nonneg m). rewrite E, bind_Ok, Hlen.
  rewrite (proj2 (Z.ltb_ge _ _)), (proj2 (Z.ltb_ge (zlen m) 0)) by lia. cbn [orb].
  rewrite (u64_small (zlen m)) by lia. rewrite u64_small by lia.
  rewrite (proj2 (Z.leb_gt _ _)) by lia. done.
Qed.

Lemma loop_frames fuel ms p b :
  wf b -> kCheapPrependSize <= readIndex_ b -> Forall (fun m => zlen m <= 65535) ms ->
  contents b = frames ms ++ p -> incomplete p -> (length ms < fuel)%nat ->
  exists b', onMessage_loop fuel b = Ok (ms, false, b') /\ wf b' /\ contents b' = p
    /\ kCheapPrependSize <= readIndex_ b'.
Proof.
  revert fuel b. induction ms as [|m ms IH]; intros fuel b Hb Hr Hms Hc Hp Hf;
    (destruct fuel as [|fuel]; [cbn in Hf; lia|]); cbn [onMessage_loop].
  - rewrite turn_wait by (done || by rewrite Hc). cbn. exists b. done.
  - apply Forall_cons in Hms as [Hm Hms]. rewrite frames_cons, <- (assoc_L (++)) in Hc.
    destruct (turn_message b m _ Hb Hr Hm Hc) as (b1 & E1 & Hb1 & Hc1 & Hr1).
    rewrite E1, bind_Ok.
    destruct (IH fuel b1) as (b' & E & Hb' & Hc' & Hr'); [done..|cbn in Hf; lia|].
    rewrite E. cbn. exists b'. done.
Qed.

(** A prefix of a sequence of frames is some frames and an incomplete one. *)
Lemma frames_prefix ms c rest :
  Forall (fun m => zlen m <= 65535) ms -> c ++ rest = frames ms ->
  exists ms1 ms2 p, ms = ms1 ++ ms2 /\ c = frames ms1 ++ p /\ p ++ rest = frames ms2 /\ incomplete p.
Proof.
  intros Hms E. destruct (stream_prefix frame _ ms c rest Hms E) as (ms1 & ms2 & p & Hp).
  exists ms1, ms2, p. destruct Hp as (-> & -> & Hr & Hi). split_and!; try done.
  destruct Hi as [->|Hi]; [by exists [], (frame [])|done].
Qed.

Lemma feed_frames chunks b p ms :
  wf b -> kCheapPrependSize <= readIndex_ b -> contents b = p -> incomplete p ->
  Forall (fun m => zlen m <= 65535) ms -> p ++ mjoin chunks = frames ms -> feed_ok chunks b ->
  exists b', feed chunks b = Ok (ms, false, b') /\ contents b' = [].
Proof.
  revert b p ms. induction chunks as [|c chunks IH]; intros b p ms Hb Hr Hc Hp Hms E Hf; cbn [feed].
  - cbn in E. rewrite app_nil_r in E. destruct ms as [|m ms].
    + cbn in E. exists b. by rewrite Hc.
    + exfalso. rewrite frames_cons in E. destruct Hp as (m' & q & Hm' & Hq & Hp).
      apply Forall_cons in Hms as [Hm _]. rewrite E in Hp. unfold frame in Hp.
      rewrite <- !(assoc_L (++)) in Hp.
      pose proof (f_equal (take 4) Hp) as Ht.
      rewrite !take_app_length' in Ht by (by rewrite length_be_bytes).
      apply (f_equal be_val) in Ht. rewrite !be_val_bytes in Ht.
      pose proof (zlen_nonneg m). pose proof (zlen_nonneg m').
      rewrite !wrapu_small in Ht by lia.
      apply (f_equal zlen) in Hp. rewrite !zlen_app, !zlen_be_bytes in Hp.
      destruct q; [done|]. rewrite zlen_cons in Hp. pose proof (zlen_nonneg q).
      pose proof (zlen_nonneg (frames ms)). unfold frames in *. lia.
  - destruct Hf as [Hfit Hf]. cbn in E.
    destruct (append_fits b c) as (b1 & E1 & Hb1 & Hc1 & _); [done|by left|done|].
    pose proof (append_readIndex _ _ _ E1 Hr) as Hr1. rewrite E1, bind_Ok.
    rewrite (assoc_L (++)) in E.
    destruct (frames_prefix ms (p ++ c) (mjoin chunks) Hms E) as (ms1 & ms2 & p' & -> & Hpc & E' & Hi').
    apply Forall_app in Hms as [Hms1 Hms2].
    destruct (loop_frames (S (Z.to_nat (readableBytes b1))) ms1 p' b1)
      as (b2 & E2 & Hb2 & Hc2 & Hr2); [done|done|done|by rewrite Hc1, Hc|done| |].
    { rewrite readableBytes_wf, Hc1, Hc, Hpc by done. unfold zlen. rewrite Nat2Z.id, length_app.
      assert (length ms1 <= length (frames ms1))%nat; [|lia].
      clear. induction ms1 as [|m ms1 IH]; [done|]. rewrite frames_cons, length_app. unfold frame.
      rewrite length_app, length_be_bytes. cbn. lia. }
    fold (onMessage b1) in E2. rewrite E2, bind_Ok.
    destruct (IH b2 p' ms2) as (b' & E3 & Hc3); [done..|by eapply Hf|].
    rewrite E3, bind_Ok. by exists b'.
Qed.

(** The messages a fresh buffer takes: not the sizes of [append_window_overflow]. *)
Definition sendable m : Prop := zlen m <= 65535 /\ (zlen m <= 1024 \/ 1032 < zlen m).

Lemma fresh_buffer :
  size Buffer_empty = 1032 /\ writeIndex_ Buffer_empty = 8 /\ readIndex_ Buffer_empty = 8.
Proof. by vm_compute. Qed.

Lemma sendMessage_ok m :
  sendable m -> exists b, sendMessage m = Ok b /\ wf b /\ contents b = frame m.
Proof.
  intros [Hm Hf]. pose proof (zlen_nonneg m). destruct Buffer_empty_wf as [Hb0 Hc0].
  destruct fresh_buffer as (Hs & Hw & Hr).
  destruct (append_fits Buffer_empty m) as (b1 & E1 & Hb1 & Hc1 & _); [done| | |].
  { left. by rewrite Hr. }
  { unfold fits. rewrite Hs, Hw, Hr. unfold kCheapPrependSize, max_size. lia. }
  unfold sendMessage. rewrite E1, bind_Ok.
  assert (prepend b1 (host_bytes 4 (i32 (hostToNetwork32 (u32 (i32 (zlen m))))))
          = prependInt32 b1 (zlen m)) as ->.
  { unfold prependInt32. rewrite (wraps_small 32 (zlen m)) by lia. done. }
  pose proof (append_readIndex _ _ _ E1 ltac:(by rewrite Hr)) as Hr1.
  unfold kCheapPrependSize in Hr1. rewrite prependInt32_be.
  destruct (prepend_wf b1 (be_bytes 4 (zlen m))) as (b2 & E2 & Hb2 & Hc2 & _);
    [done|rewrite zlen_be_bytes; lia|].
  exists b2. split_and!; [done|done|]. by rewrite Hc2, Hc1, Hc0.
Qed.

Lemma sendMessage_frame m b :
  zlen m <= 65535 -> sendMessage m = Ok b -> contents b = frame m.
Proof.
  intros Hm E. destruct (decide (zlen m <= 1024 \/ 1032 < zlen m)) as [Hf|Hf].
  - destruct (sendMessage_ok m) as (b' & E' & _ & Hc); [done|]. congruence.
  - exfalso. destruct Buffer_empty_wf as [Hb0 _]. destruct fresh_buffer as (Hs & Hw & Hr).
    unfold sendMessage in E. apply bind_Ok_inv in E as (b1 & E1 & _).
    rewrite append_overflows in E1; [done|done|by rewrite Hr|].
    unfold overflows. rewrite Hs, Hw, Hr. unfold kCheapPrependSize. lia.
Qed.
End codec_proofs.

(** C9: the codec carries every message through any fragmentation.  The buffers that
    sendMessage makes of messages of at most 65535 bytes, put on the wire one after the
    other and cut into chunks at any places, come out of onMessage, called after each
    chunk, as exactly those messages in order, with no shutdown and nothing left over;
    the loop of onMessage ends by itself. *)
Theorem codec_stream `{Build} (ms : list bytes) (bufs : list Buffer) (chunks : list bytes) :
  Forall2 (fun m b => sendMessage m = Ok b) ms bufs ->
  Forall (fun m => zlen m <= 65535) ms ->
  mjoin chunks = mjoin (contents <$> bufs) -> feed_ok chunks Buffer_empty ->
  exists b', feed chunks Buffer_empty = Ok (ms, false, b') /\ contents b' = [].
Proof.
  intros Hsend Hms E Hf. destruct Buffer_empty_wf as [Hb0 Hc0].
  apply (feed_frames chunks Buffer_empty [] ms); try done.
  - by exists [], (frame []).
  - cbn [app]. rewrite E. clear -Hsend Hms. unfold frames. f_equal.
    induction Hsend as [|m b ms bs Hm _ IH]; [done|]. apply Forall_cons in Hms as [Hl Hms].
    cbn. rewrite (sendMessage_frame m b Hl Hm), IH by done. done.
Qed.

Definition sample_wire : list bytes :=
  [be_bytes 4 2 ++ cs "h"; cs "i" ++ be_bytes 4 0 ++ be_bytes 2 0; be_bytes 2 3 ++ cs "abc"].

Lemma codec_stream_witness :
  exists b', feed (H := Debug) sample_wire Buffer_empty = Ok ([cs "hi"; []; cs "abc"], false, b')
    /\ contents b' = [].
Proof.
  eapply (codec_stream (H := Debug) [cs "hi"; []; cs "abc"] _ sample_wire).
  - repeat (constructor; [vm_compute; reflexivity|]). constructor.
  - repeat (constructor; [by vm_compute|]). constructor.
  - by vm_compute.
  - unfold sample_wire. cbn [feed_ok].
    repeat match goal with
    | |- _ /\ _ => split
    | |- fits _ _ => left; by vm_compute
    | |- forall buf1 msgs buf2, append _ _ = Ok buf1 -> _ =>
        let E := fresh "E" in let E2 := fresh "E" in
        intros ? ? ? E; vm_compute in E; injection E as <-; intros E2; vm_compute in E2;
        injection E2 as <- <-
    | |- True => done
    end.
Defined.
