(* ===== verification/Session.v ===== *)
(** * A connection as its users see it

    The programs in src/arale/examples hold TcpConnectionPtr and call send(), shutdown(),
    forceCloseWithDelay() and setContext() on them.  A [Session] is what these calls read
    and write: the state, the input buffer, the bytes send() has accepted, the context and
    the delayed closes.  [session_refines_connection] shows that the detailed connection of
    TcpConnection.v does what a session does, so the theorems on the programs speak of the
    bytes a peer receives.  A table maps connections, named by an address, to sessions. *)

From S2P Require Import Prelude Buffer Date Channel Poller EventLoop TcpConnection.

Section session.
Context {C : Type}.

Record Session := mkSession {
  s_state : State;
  s_in : Buffer;              (* getInputBuffer() *)
  s_out : bytes;              (* what send() has accepted, in order *)
  s_context : option C;       (* getContext(); None is an empty boost::any *)
  s_delayed : list Z          (* forceCloseWithDelay() calls not yet due *)
}.

Definition sess_new : Session := mkSession kConnecting Buffer_empty [] None [].

Section pure.
Implicit Types s : Session.
Definition sess_setState st s : Session := mkSession st (s_in s) (s_out s) (s_context s) (s_delayed s).
Definition sess_setInput b s : Session := mkSession (s_state s) b (s_out s) (s_context s) (s_delayed s).
Definition sess_connected s : bool := bool_decide (s_state s = kConnected).
Definition sess_send (data : bytes) s : Session :=
  if sess_connected s
  then mkSession (s_state s) (s_in s) (s_out s ++ data) (s_context s) (s_delayed s) else s.
Definition sess_shutdown s : Session :=
  if sess_connected s then sess_setState kDisconnecting s else s.
Definition sess_forceCloseWithDelay (delay : Z) s : Session :=
  if sess_connected s || bool_decide (s_state s = kDisconnecting)
  then mkSession kDisconnecting (s_in s) (s_out s) (s_context s) (s_delayed s ++ [delay]) else s.
Definition sess_setContext (c : option C) s : Session :=
  mkSession (s_state s) (s_in s) (s_out s) c (s_delayed s).
End pure.

(** ** The table of connections *)

Abbreviation Table := (gmap Z Session).

(** A call through a pointer to a connection. *)
Definition conn_at (p : Z) : ST Table Session := fun t =>
  match t !! p with Some s => Ok (s, t) | None => Err NullCall end.
Definition on_conn (p : Z) (f : Session -> Session) : ST Table unit :=
  s ← conn_at p; modify (insert p (f s)).

Definition isConnected (p : Z) : ST Table bool := s ← conn_at p; mret (sess_connected s).
Definition getContext (p : Z) : ST Table (option C) := s ← conn_at p; mret (s_context s).
Definition setContext (p : Z) (c : option C) : ST Table unit := on_conn p (sess_setContext c).
Definition send (p : Z) (data : bytes) : ST Table unit := on_conn p (sess_send data).
(** send(buf->peek() + off, len) *)
Definition send_mem (p : Z) (buf : Buffer) (off len : Z) : ST Table unit :=
  up ← isConnected p;
  when up (d ← lift (mem_read (buffer_ buf) (peek buf + off) len); send p d).
(** send(Buffer *buf); the buffer afterwards *)
Definition send_buf (p : Z) (buf : Buffer) : ST Table Buffer :=
  up ← isConnected p;
  if (up : bool) then send p (contents buf) ;; mret (retrieveAll buf) else mret buf.
Definition shutdown (p : Z) : ST Table unit := on_conn p sess_shutdown.
Definition forceCloseWithDelay (p : Z) (delay : Z) : ST Table unit :=
  on_conn p (sess_forceCloseWithDelay delay).

(** What the library does before it calls the connection callback or the message
    callback. *)
Definition established (p : Z) : ST Table unit := fun t =>
  match t !! p with
  | Some _ => Err LogicError
  | None => Ok (tt, <[p := sess_setState kConnected sess_new]> t)
  end.
Definition closed (p : Z) : ST Table unit := on_conn p (sess_setState kDisconnected).
Definition received `{Build} (p : Z) (data : bytes) : ST Table unit :=
  s ← conn_at p;
  '(_, _, b) ← lift (readFd (s_in s) (ReadOk data));
  modify (insert p (sess_setInput b s)).
(** The last reference is gone. *)
Definition destroyed (p : Z) : ST Table unit := modify (delete p).
End session.
Arguments Session : clear implicits.
Abbreviation Table C := (gmap Z (Session C)).

(** ** Lemmas *)

Section session_lemmas.
Context {C : Type}.
Implicit Types (t : Table C) (s : Session C).

Lemma wp_conn_at p s t Q : t !! p = Some s -> Q s t -> wp (conn_at p) t Q.
Proof. intros E HQ. apply (wp_Ok _ _ s t); [|done]. unfold conn_at. by rewrite E. Qed.

Lemma wp_on_conn p s f t Q :
  t !! p = Some s -> Q tt (<[p := f s]> t) -> wp (on_conn p f) t Q.
Proof. intros E HQ. apply wp_bind, (wp_conn_at p s); [done|]. by apply wp_modify. Qed.

Lemma wp_isConnected p s t Q :
  t !! p = Some s -> Q (sess_connected s) t -> wp (isConnected p) t Q.
Proof. intros E HQ. apply wp_bind, (wp_conn_at p s); [done|]. by apply wp_ret. Qed.

Lemma wp_getContext p s t Q : t !! p = Some s -> Q (s_context s) t -> wp (getContext p) t Q.
Proof. intros E HQ. apply wp_bind, (wp_conn_at p s); [done|]. by apply wp_ret. Qed.

Lemma sess_send_down data s : sess_connected s = false -> sess_send data s = s.
Proof. intros E. unfold sess_send. by rewrite E. Qed.

Lemma sess_send_nil s : sess_send [] s = s.
Proof.
  unfold sess_send. destruct (sess_connected s); [|done]. rewrite app_nil_r. by destruct s.
Qed.

Lemma sess_send_app a b s : sess_send b (sess_send a s) = sess_send (a ++ b) s.
Proof.
  unfold sess_send. destruct (sess_connected s) eqn:E; [|by rewrite E].
  unfold sess_connected in *. cbn [s_state]. rewrite E. cbn. by rewrite <- (assoc_L (++)).
Qed.

Lemma wp_send_mem p s buf off d t Q :
  t !! p = Some s -> mem_read (buffer_ buf) (peek buf + off) (zlen d) = Ok d ->
  Q tt (<[p := sess_send d s]> t) -> wp (send_mem p buf off (zlen d)) t Q.
Proof.
  intros E Em HQ. apply wp_bind, (wp_isConnected p s); [done|].
  destruct (sess_connected s) eqn:Ec; cbn [when].
  - apply wp_bind, (wp_lift _ d); [done|]. by apply (wp_on_conn p s).
  - apply wp_ret. by rewrite sess_send_down, insert_id in HQ.
Qed.

Lemma wp_send_buf p s buf t Q :
  t !! p = Some s ->
  Q (if sess_connected s then retrieveAll buf else buf) (<[p := sess_send (contents buf) s]> t) ->
  wp (send_buf p buf) t Q.
Proof.
  intros E HQ. apply wp_bind, (wp_isConnected p s); [done|].
  destruct (sess_connected s) eqn:Ec; cbn [when].
  - apply wp_bind, (wp_on_conn p s); [done|]. by apply wp_ret.
  - apply wp_ret. by rewrite sess_send_down, insert_id in HQ.
Qed.
End session_lemmas.

(** ** The buffers of a connection's user

    [holds b q]: the buffer is well formed, has the room kept in front of the data, and the
    bytes [q] are waiting in it. *)

Definition holds (b : Buffer) (q : bytes) : Prop :=
  wf b /\ kCheapPrependSize <= readIndex_ b /\ contents b = q.

(** What one readv(2) of [data] needs. *)
Definition readable_into `{Build} (b : Buffer) (data : bytes) : Prop :=
  zlen data <= size b - writeIndex_ b \/
  fits (mkBuffer (buffer_ b) (readIndex_ b) (size b)) (zlen data - (size b - writeIndex_ b)).

Section buffers.
Context `{Build}.
Implicit Types (b : Buffer) (q data : bytes).

Lemma holds_empty : holds Buffer_empty [].
Proof. destruct Buffer_empty_wf. split_and!; done. Qed.

Lemma holds_length b q : holds b q -> readableBytes b = zlen q.
Proof. intros (Hb & _ & <-). by apply readableBytes_wf. Qed.

Lemma holds_bound b q : holds b q -> 0 <= zlen q <= max_size.
Proof.
  intros (Hb & _ & <-). rewrite zlen_contents by done. destruct Hb as (? & ? & ?). lia.
Qed.

Lemma holds_retrieveAll b q : holds b q -> holds (retrieveAll b) [].
Proof. intros (Hb & _ & _). destruct (retrieveAll_wf b Hb). split_and!; done. Qed.

Lemma holds_retrieve b q n :
  holds b q -> 0 <= n <= zlen q ->
  exists b', retrieve b n = Ok b' /\ holds b' (drop (Z.to_nat n) q).
Proof.
  intros (Hb & Hr & <-) Hn. destruct (retrieve_wf b n Hb Hn) as (b' & E & Hb' & Hc & _).
  exists b'. split; [done|]. split_and!; try done. eapply retrieve_readIndex; [exact Hb| |exact E|done]. lia.
Qed.

Lemma holds_retrieveUntil b q n :
  holds b q -> 0 <= n <= zlen q ->
  exists b', retrieveUntil b (peek b + n) = Ok b' /\ holds b' (drop (Z.to_nat n) q).
Proof.
  intros Hh Hn. pose proof (holds_bound b q Hh) as Hm. pose proof Hh as (Hb & _ & Hc).
  pose proof (zlen_contents b Hb) as Hl. rewrite Hc in Hl.
  unfold retrieveUntil, peek. rewrite !assert_true, !bind_Ok by (apply Z.leb_le; lia).
  replace (readIndex_ b + n - readIndex_ b) with n by lia.
  rewrite u64_small by (unfold max_size in Hm; lia). by apply holds_retrieve.
Qed.

Lemma holds_append b q data :
  holds b q -> fits b (zlen data) -> exists b', append b data = Ok b' /\ holds b' (q ++ data).
Proof.
  intros (Hb & Hr & <-) Hf. destruct (append_fits b data) as (b' & E & Hb' & Hc & _); [done|by left|done|].
  exists b'. split; [done|]. split_and!; try done. by eapply append_readIndex.
Qed.

(** A fresh buffer takes what fits its first allocation. *)
Lemma holds_append_empty data :
  zlen data <= kDefaultInitialSize -> exists b', append Buffer_empty data = Ok b' /\ holds b' data.
Proof. intros Hd. apply (holds_append _ []); [apply holds_empty|]. by left. Qed.

Lemma holds_prepend b q data :
  holds b q -> zlen data <= kCheapPrependSize ->
  exists b', prepend b data = Ok b' /\ wf b' /\ contents b' = data ++ q.
Proof.
  intros (Hb & Hr & <-) Hd. destruct (prepend_wf b data) as (b' & E & Hb' & Hc & _); [done|lia|].
  by exists b'.
Qed.

Lemma readFd_readIndex b data b' r1 r2 :
  readFd b (ReadOk data) = Ok (r1, r2, b') -> kCheapPrependSize <= readIndex_ b ->
  kCheapPrependSize <= readIndex_ b'.
Proof.
  unfold readFd, hasWritten. intros E Hr. apply bind_Ok_inv in E as (mem & _ & E).
  apply bind_Ok_inv in E as (b1 & E1 & [= _ _ <-]). destruct (_ <=? _).
  - apply bind_Ok_inv in E1 as (u & _ & [= <-]). done.
  - eapply append_readIndex; [exact E1|done].
Qed.

Lemma holds_readFd b q data :
  holds b q -> readable_into b data ->
  exists b', readFd b (ReadOk data) = Ok (zlen data, 0, b') /\ holds b' (q ++ data).
Proof.
  intros (Hb & Hr & <-) Hf. destruct (readFd_ok b data Hb Hr Hf) as (b' & E & Hb' & Hc).
  exists b'. split; [done|]. split_and!; try done. by eapply readFd_readIndex.
Qed.

Lemma holds_read b q off len :
  holds b q -> 0 <= off -> 0 <= len -> off + len <= zlen q ->
  mem_read (buffer_ b) (peek b + off) len = Ok (take (Z.to_nat len) (drop (Z.to_nat off) q)).
Proof.
  intros (Hb & _ & <-) Ho Hl Hle. destruct (wf_layout b Hb) as (pre & post & El & Hpre & _ & _).
  destruct (split_at2 (contents b) off (off + len)) as (a & m & z & E & Ha & Hm & _); [lia..|].
  assert (drop (Z.to_nat off) (contents b) = m ++ z) as ->.
  { rewrite E. apply drop_app_length'. unfold zlen in Ha. lia. }
  assert (take (Z.to_nat len) (m ++ z) = m) as ->.
  { apply take_app_length'. unfold zlen in Hm. lia. }
  rewrite El, E. rewrite <- !(assoc_L (++)), (assoc_L (++)). apply mem_read_app; [|lia].
  rewrite zlen_app. unfold peek. lia.
Qed.

Lemma holds_retrieveAllAsString b q :
  holds b q -> exists b', retrieveAllAsString b = Ok (q, b') /\ holds b' [].
Proof.
  intros Hh. pose proof (holds_bound _ _ Hh) as Hm. unfold retrieveAllAsString, retrieveAsString.
  rewrite (holds_length _ _ Hh), assert_true, bind_Ok by (apply Z.leb_refl).
  pose proof (holds_read b q 0 (zlen q) Hh ltac:(lia) ltac:(lia) ltac:(lia)) as Er.
  rewrite Z.add_0_r in Er. change (drop (Z.to_nat 0) q) with q in Er.
  rewrite take_ge in Er by (unfold zlen; lia). rewrite Er, bind_Ok.
  destruct (holds_retrieve b q (zlen q) Hh) as (b' & E & Hb'); [lia|]. exists b'.
  rewrite E, bind_Ok. split; [done|]. by rewrite drop_ge in Hb' by (unfold zlen; lia).
Qed.

(** The input of a connection grows by what is read. *)
Lemma wp_received {C} p (s : Session C) t q data (Q : unit -> Table C -> Prop) :
  t !! p = Some s -> holds (s_in s) q -> readable_into (s_in s) data ->
  (forall b, holds b (q ++ data) -> Q tt (<[p := sess_setInput b s]> t)) ->
  wp (received p data) t Q.
Proof.
  intros E Hq Hf HQ. destruct (holds_readFd _ _ _ Hq Hf) as (b & Er & Hb).
  apply wp_bind, (wp_conn_at p s); [done|]. apply wp_bind, (wp_lift _ (zlen data, 0, b)); [done|].
  by apply wp_modify, HQ.
Qed.
End buffers.

(** ** Operations on one connection

    [focus p o s R]: on a table where [p] is the session [s], [o] returns and replaces no
    session but [p]'s, so that [R] holds of the result and the new session. *)

Definition focus {C A} (p : Z) (o : ST (Table C) A) (s : Session C) (R : A -> Session C -> Prop) : Prop :=
  forall t, t !! p = Some s -> wp o t (fun a t' => exists s', t' = <[p := s']> t /\ R a s').

Section focus.
Context {C : Type} (p : Z).
Implicit Types s : Session C.

Lemma focus_on_conn f s R : R tt (f s) -> focus p (on_conn p f) s R.
Proof. intros HR t Ht. apply (wp_on_conn p s); [done|]. by eexists. Qed.

Lemma focus_conn_at s R : R s s -> focus p (conn_at p) s R.
Proof. intros HR t Ht. apply (wp_conn_at p s); [done|]. exists s. by rewrite insert_id. Qed.

Lemma focus_isConnected s R : R (sess_connected s) s -> focus p (isConnected p) s R.
Proof. intros HR t Ht. apply (wp_isConnected p s); [done|]. exists s. by rewrite insert_id. Qed.

Lemma focus_getContext s R : R (s_context s) s -> focus p (getContext p) s R.
Proof. intros HR t Ht. apply (wp_getContext p s); [done|]. exists s. by rewrite insert_id. Qed.

Lemma focus_send_buf buf s R :
  R (if sess_connected s then retrieveAll buf else buf) (sess_send (contents buf) s) ->
  focus p (send_buf p buf) s R.
Proof. intros HR t Ht. apply (wp_send_buf p s); [done|]. by eexists. Qed.

Lemma focus_received `{Build} q data s R :
  holds (s_in s) q -> readable_into (s_in s) data ->
  (forall b, holds b (q ++ data) -> R tt (sess_setInput b s)) -> focus p (received p data) s R.
Proof. intros Hq Hf HR t Ht. eapply wp_received; [exact Ht|exact Hq|done|]. intros b Hb. eexists. split; [done|]. by apply HR. Qed.
End focus.

(** ** The connection does what the session does *)

Section refinement.
Context {C P : Type} `{PollerLaws P, Build} (U : UserCallbacks (P := P)).
Implicit Types (w : Conn (P := P)) (s : Session C).

(** Calls of a user in the connection's thread, and the socket becoming writable. *)
Inductive user_op :=
  | USend (data : bytes)
  | UShutdown
  | UForceCloseWithDelay (delay : Z)
  | UWritable.

Definition user_run (op : user_op) : ST (Conn (P := P)) unit :=
  match op with
  | USend data => run_functor U (FSend data)
  | UShutdown => TcpConnection.shutdown true
  | UForceCloseWithDelay delay => TcpConnection.forceCloseWithDelay delay
  | UWritable => handleWrite U
  end.
Definition sess_step (op : user_op) (s : Session C) : Session C :=
  match op with
  | USend data => sess_send data s
  | UShutdown => sess_shutdown s
  | UForceCloseWithDelay delay => sess_forceCloseWithDelay delay s
  | UWritable => s
  end.

(** The view a user has of the connection. *)
Definition models w s : Prop :=
  s_state s = state_ w /\ s_out s = sent w ++ contents (outputBuffer_ w) /\ s_delayed s = (timers w).*1.

Definition user_ok (op : user_op) w : Prop :=
  match op with USend data => state_ w = kConnected -> op_ok (CSend data) w | _ => True end.
Fixpoint users_ok (ops : list user_op) w : Prop :=
  match ops with
  | [] => True
  | op :: ops' => user_ok op w /\ forall w', user_run op w = Ok (tt, w') -> users_ok ops' w'
  end.

Lemma models_connected w s : models w s -> sess_connected s = bool_decide (state_ w = kConnected).
Proof. intros [E _]. unfold sess_connected. by rewrite E. Qed.

Lemma user_step op w c s :
  conn_ok w c -> models w s -> user_ok op w ->
  exists w' c', user_run op w = Ok (tt, w') /\ conn_ok w' c' /\ fd_ c' = fd_ c
    /\ models w' (sess_step op s).
Proof.
  intros Hok Hm Hop. pose proof (models_connected w s Hm) as Hc. destruct Hm as (Hst & Hout & Hd).
  destruct op as [data| |delay|]; cbn [user_run run_functor sess_step user_ok] in *.
  - unfold sess_send. rewrite Hc. st_simp.
    destruct (bool_decide_reflect (state_ w = kConnected)) as [Hu|Hu]; [|by exists w, c].
    destruct (run_op_stream U (CSend data) w c Hok (Hop Hu))
      as (w' & c' & E & Hok' & Hfd & Hs & Hst' & Ht).
    exists w', c'. split_and!; [done..|]. unfold models. cbn [s_state s_out s_delayed].
    rewrite Hst', Ht, Hs, Hout. split_and!; done.
  - unfold TcpConnection.shutdown, sess_shutdown, run_in_loop, shutdownInLoop, sess_setState.
    rewrite Hc. st_simp.
    destruct (bool_decide_reflect (state_ w = kConnected)) as [Hu|Hu]; [|by exists w, c].
    rewrite (channel_eq (TcpConnection.setState kDisconnecting w) c) by apply Hok.
    destruct (isWriting c); cbn [negb]; eexists _, c; (split; [done|]); by split_and!.
  - unfold TcpConnection.forceCloseWithDelay, sess_forceCloseWithDelay. rewrite Hc, Hst. st_simp.
    destruct (bool_decide (state_ w = kConnected) || _); [|by exists w, c].
    eexists _, c. split; [done|]. split; [done|]. split; [done|].
    unfold models. cbn. rewrite fmap_app, Hd. by split_and!.
  - destruct (run_op_stream U CWritable w c Hok I) as (w' & c' & E & Hok' & Hfd & Hs & Hst' & Ht).
    exists w', c'. split_and!; [done..|]. unfold models. rewrite Hst', Ht, Hs, Hout.
    cbn [op_data]. rewrite app_nil_r. split_and!; done.
Qed.
End refinement.
Arguments sess_step {C} op s.


Definition user_ops : list user_op :=
  [USend (cs "abc"); USend (cs "defg"); UWritable; UShutdown; USend (cs "late"); UWritable;
   UForceCloseWithDelay 3].

