(* ===== verification/Multiplexer.v ===== *)
(** * The multiplexers: src/arale/examples/multiplexer/Multiplexer.cc, MultiplexerSimple.cc

    Up to ten clients share one connection to a backend.  A packet is a length byte, a
    client's id in two bytes, low first, and the payload; packets of id 0 are commands.
    [Shared] holds what both programs have, with what differs as an argument;
    [Multiplexer] is the threaded one, cut where its mutex is released, and [Simple] the
    other.  Pointers to connections are addresses in the table of Session.v. *)

From stdpp Require Import sorting.
From S2P Require Import Prelude Format Buffer TcpConnection Session.

Definition kMaxConns : Z := 10.
Definition kMaxPacketLen : Z := 253.
Definition kHeaderLen : Z := 3.

(** The three bytes, each a static_cast<uint8_t>. *)
Definition header (len id : Z) : bytes :=
  [to_char len; to_char (Z.land id 255); to_char (Z.shiftr (Z.land id 65280) 8)].

Record MultiplexServer := mkMux {
  backendConn_ : option Z;
  clientConns_ : gmap Z Z;          (* id -> connection *)
  availIds_ : list Z;
  conns : Table Z;                  (* a client's context is its id *)
  late : list (Z * Z * Z)           (* sends posted to other loops: connection, pointer
                                       into the backend's input buffer, length *)
}.

Section setters.
Implicit Types m : MultiplexServer.
Definition set_backend b m := mkMux b (clientConns_ m) (availIds_ m) (conns m) (late m).
Definition set_clients c m := mkMux (backendConn_ m) c (availIds_ m) (conns m) (late m).
Definition set_avail a m := mkMux (backendConn_ m) (clientConns_ m) a (conns m) (late m).
Definition set_conns t m := mkMux (backendConn_ m) (clientConns_ m) (availIds_ m) t (late m).
Definition set_late l m := mkMux (backendConn_ m) (clientConns_ m) (availIds_ m) (conns m) l.
End setters.

(** The constructor: no backend yet. *)
Definition MultiplexServer_ctor : MultiplexServer := mkMux None ∅ [] ∅ [].

Definition on_table {A} (m : ST (Table Z) A) : ST MultiplexServer A := zoom conns set_conns m.

(** snprintf of [%d] and [%s] into the 256 bytes of buf; [addr] is the text of
    remoteAddr().toIpPort(). *)
Definition conn_text (id : Z) (addr state : bytes) : bytes :=
  take 255 (cs "CONN " ++ fmt_d id ++ cs " FROM " ++ take (find_char NUL addr) addr
            ++ cs " IS " ++ state ++ [CR; LF]).

(** ** What both programs have *)

Module Shared.
Section shared.
Context `{Build}.
(** The address of the peer of each connection, and the program's own function. *)
Context (addr : Z -> bytes) (sendBackendPacket : Z -> Buffer -> ST MultiplexServer Buffer).

Definition sendBackendString (id : Z) (msg : bytes) : ST MultiplexServer unit :=
  lift (assert_ (zlen msg <? kMaxPacketLen)) ;;
  buf ← lift (append Buffer_empty msg);
  _ ← sendBackendPacket id buf;
  mret tt.

(** The while loop takes kMaxPacketLen bytes a turn. *)
Fixpoint sendBackendBuffer_loop (fuel : nat) (id : Z) (buf : Buffer) : ST MultiplexServer Buffer :=
  match fuel with
  | O => fail OutOfFuel
  | S fuel' =>
      if kMaxPacketLen <? readableBytes buf then
        data ← lift (mem_read (buffer_ buf) (peek buf) kMaxPacketLen);
        buf2 ← lift (append Buffer_empty data);
        buf ← lift (retrieve buf kMaxPacketLen);
        _ ← sendBackendPacket id buf2;
        sendBackendBuffer_loop fuel' id buf
      else if 0 <? readableBytes buf then sendBackendPacket id buf else mret buf
  end.
Definition sendBackendBuffer (id : Z) (buf : Buffer) : ST MultiplexServer Buffer :=
  sendBackendBuffer_loop (S (Z.to_nat (readableBytes buf))) id buf.

(** onClientConnection, up: the id taken from the queue, or -1. *)
Definition take_id (p : Z) : ST MultiplexServer Z :=
  ids ← gets availIds_;
  match ids with
  | id :: rest =>
      modify (set_avail rest) ;;
      modify (fun m => set_clients (<[id := p]> (clientConns_ m)) m) ;;
      mret id
  | [] => mret (-1)
  end.
Definition announce (p id : Z) : ST MultiplexServer unit :=
  if id <? 0 then on_table (shutdown p)
  else on_table (setContext p (Some id)) ;;
       sendBackendString 0 (conn_text id (addr p) (cs "UP")).

(** Down: tell the backend, then give the id back. *)
Definition say_down (p : Z) : ST MultiplexServer (option Z) :=
  ctx ← on_table (getContext p);
  match ctx with
  | None => mret None
  | Some id =>
      lift (assert_ ((0 <? id) && (id <? kMaxConns))) ;;
      sendBackendString 0 (conn_text id (addr p) (cs "DOWN")) ;;
      mret (Some id)
  end.
Definition give_back (id : Z) : ST MultiplexServer unit :=
  b ← gets backendConn_;
  match b with
  | Some _ =>
      modify (fun m => set_avail (availIds_ m ++ [id]) m) ;;
      modify (fun m => set_clients (delete id (clientConns_ m)) m)
  | None =>
      ids ← gets availIds_;
      lift (assert_ (bool_decide (ids = []))) ;;
      cl ← gets clientConns_;
      lift (assert_ (bool_decide (cl = ∅)))
  end.

Definition onClientConnection (p : Z) : ST MultiplexServer unit :=
  up ← on_table (isConnected p);
  if (up : bool) then id ← take_id p; announce p id
  else id ← say_down p;
       match id with Some id => give_back id | None => mret tt end.

Definition onBackendConnection (p : Z) : ST MultiplexServer unit :=
  up ← on_table (isConnected p);
  if (up : bool) then
    ids ← gets availIds_;
    lift (assert_ (bool_decide (ids = []))) ;;
    modify (set_backend (Some p)) ;;
    for_each (fun i => modify (fun m => set_avail (availIds_ m ++ [i]) m)) (seqZ 1 kMaxConns)
  else
    modify (set_backend None) ;;
    cl ← gets clientConns_;
    for_each (fun id => match cl !! id with
                        | Some c => on_table (shutdown c) | None => mret tt end)
      (merge_sort Z.le (elements (dom cl))) ;;
    modify (set_clients ∅) ;;
    modify (set_avail []).

Definition doCommand (cmd : bytes) : ST MultiplexServer unit :=
  let kDisconnectCmd := cs "DISCONNECT " in
  if (zlen kDisconnectCmd <? zlen cmd) && starts_with kDisconnectCmd cmd then
    let connId := atoi (drop (length kDisconnectCmd) cmd) in
    cl ← gets clientConns_;
    match cl !! connId with Some c => on_table (shutdown c) | None => mret tt end
  else mret tt.

(** clientConn->send(buf->peek() + kHeaderLen, len): on a connection of another loop the
    pointer goes into a posted functor. *)
Context (same_loop : Z -> bool).
Definition send_client (c : Z) (buf : Buffer) (len : Z) : ST MultiplexServer unit :=
  if same_loop c then on_table (send_mem c buf kHeaderLen len)
  else up ← on_table (isConnected c);
       when up (modify (fun m => set_late (late m ++ [(c, peek buf + kHeaderLen, len)]) m)).

(** The [i]-th readable byte, a signed char. *)
Definition char_at (buf : Buffer) (i : Z) : ST MultiplexServer Z :=
  d ← lift (mem_read (buffer_ buf) (peek buf + i) 1);
  mret (match d with c :: _ => schar c | [] => 0 end).

(** One turn of the loop; None if it breaks. *)
Definition onBackendMessage_turn (buf : Buffer) : ST MultiplexServer (option Buffer) :=
  if kHeaderLen <? readableBytes buf then
    c0 ← char_at buf 0;
    let len := u64 c0 in
    if readableBytes buf <? u64 (len + kHeaderLen) then mret None
    else
      c1 ← char_at buf 1;
      c2 ← char_at buf 2;
      let id := Z.lor c1 (Z.shiftl c2 8) in
      (if negb (id =? 0) then
         cl ← gets clientConns_;
         match cl !! id with Some c => send_client c buf len | None => mret tt end
       else
         cmd ← lift (mem_read (buffer_ buf) (peek buf + kHeaderLen) len);
         doCommand cmd) ;;
      buf ← lift (retrieve buf (u64 (len + kHeaderLen)));
      mret (Some buf)
  else mret None.
Fixpoint onBackendMessage_loop (fuel : nat) (buf : Buffer) : ST MultiplexServer Buffer :=
  match fuel with
  | O => fail OutOfFuel
  | S fuel' =>
      r ← onBackendMessage_turn buf;
      match r with Some buf => onBackendMessage_loop fuel' buf | None => mret buf end
  end.
Definition onBackendMessage (buf : Buffer) : ST MultiplexServer Buffer :=
  onBackendMessage_loop (S (Z.to_nat (readableBytes buf))) buf.
End shared.
End Shared.

(** ** Multiplexer.cc *)

Module Multiplexer.
Import Shared.
Section threaded.
Context `{Build}.
Definition sendBackendPacket (id : Z) (buf : Buffer) : ST MultiplexServer Buffer :=
  let len := readableBytes buf in
  buf ← lift (prepend buf (header len id));
  b ← gets backendConn_;
  match b with Some b => on_table (send_buf b buf) | None => mret buf end.

Definition onClientMessage (p : Z) (buf : Buffer) : ST MultiplexServer Buffer :=
  ctx ← on_table (getContext p);
  match ctx with
  | Some id => sendBackendBuffer sendBackendPacket id buf
  | None => mret (retrieveAll buf)
  end.

(** A posted send runs in the client's loop, [mem] being the backend's input buffer then;
    sendInLoop does not ask for the state again. *)
Definition run_late (mem : Buffer) : ST MultiplexServer unit :=
  l ← gets late;
  match l with
  | [] => mret tt
  | (c, data, len) :: rest =>
      modify (set_late rest) ;;
      d ← lift (mem_read (buffer_ mem) data len);
      on_table (on_conn c (fun s => mkSession (s_state s) (s_in s) (s_out s ++ d) (s_context s) (s_delayed s)))
  end.
End threaded.
End Multiplexer.

(** ** MultiplexerSimple.cc: one thread *)

Module Simple.
Import Shared.
Section simple.
Context `{Build}.
Definition sendBackendPacket (id : Z) (buf : Buffer) : ST MultiplexServer Buffer :=
  b ← gets backendConn_;
  match b with
  | Some b =>
      let len := readableBytes buf in
      buf ← lift (prepend buf (header len id));
      on_table (send_buf b buf)
  | None => mret buf
  end.

(** any_cast of an empty context throws. *)
Definition onClientMessage (p : Z) (buf : Buffer) : ST MultiplexServer Buffer :=
  b ← gets backendConn_;
  match b with
  | Some _ =>
      ctx ← on_table (getContext p);
      lift (assert_ (bool_decide (ctx <> None))) ;;
      match ctx with
      | Some id => sendBackendBuffer sendBackendPacket id buf
      | None => fail LogicError
      end
  | None => mret (retrieveAll buf)
  end.
End simple.
End Simple.

(** ** Events

    A [Run] is the program with the connection callbacks that have been interrupted where
    they release the mutex, by connection. *)

Inductive pc := UpWith (id : Z) | DownWith (id : Z).
Record Run := mkRun { mux : MultiplexServer; inside : gmap Z pc }.
Definition set_mux m r : Run := mkRun m (inside r).
Definition set_inside i r : Run := mkRun (mux r) i.

Inductive mux_event :=
  | ClientUp (p : Z)                  (* established, up to the end of the locked part *)
  | ClientUpRest (p : Z)
  | ClientDown (p : Z)                (* closed, up to the locked part *)
  | ClientDownRest (p : Z)            (* and the connection is destroyed *)
  | ClientData (p : Z) (data : bytes)
  | BackendUp (p : Z)
  | BackendDown (p : Z)
  | BackendData (data : bytes).

Section events.
Context `{Build} (addr : Z -> bytes) (same_loop : Z -> bool).
Import Shared Multiplexer.

Definition on_mux {A} (m : ST MultiplexServer A) : ST Run A := zoom mux set_mux m.
Definition at_pc (p : Z) : ST Run (option pc) := gets (fun r => inside r !! p).
Definition goto (p : Z) (c : option pc) : ST Run unit :=
  modify (fun r => set_inside (partial_alter (fun _ => c) p (inside r)) r).

(** A message callback works on the connection's own input buffer. *)
Definition message (p : Z) (data : bytes) (cb : Buffer -> ST MultiplexServer Buffer) :
    ST MultiplexServer unit :=
  on_table (received p data) ;;
  s ← on_table (conn_at p);
  buf ← cb (s_in s);
  on_table (on_conn p (sess_setInput buf)).
Definition backend_data (data : bytes) : ST MultiplexServer unit :=
  b ← gets backendConn_;
  match b with
  | Some b => message b data (onBackendMessage same_loop)
  | None => mret tt
  end.

Definition mux_run (ev : mux_event) : ST Run unit :=
  match ev with
  | ClientUp p => on_mux (on_table (established p)) ;; id ← on_mux (take_id p); goto p (Some (UpWith id))
  | ClientUpRest p =>
      c ← at_pc p;
      match c with
      | Some (UpWith id) => on_mux (announce addr sendBackendPacket p id) ;; goto p None
      | _ => mret tt
      end
  | ClientDown p =>
      on_mux (on_table (closed p)) ;;
      id ← on_mux (say_down addr sendBackendPacket p);
      match id with
      | Some id => goto p (Some (DownWith id))
      | None => on_mux (on_table (destroyed p))
      end
  | ClientDownRest p =>
      c ← at_pc p;
      match c with
      | Some (DownWith id) => on_mux (give_back id) ;; on_mux (on_table (destroyed p)) ;; goto p None
      | _ => mret tt
      end
  | ClientData p data => on_mux (message p data (onClientMessage p))
  | BackendUp p => on_mux (on_table (established p)) ;; on_mux (onBackendConnection p)
  | BackendDown p =>
      on_mux (on_table (closed p)) ;; on_mux (onBackendConnection p) ;; on_mux (on_table (destroyed p))
  | BackendData data => on_mux (backend_data data)
  end.
End events.

(** ** Specification *)

(** A packet: an id and a payload. *)
Definition packet : Type := Z * bytes.
Definition enc_packet (k : packet) : bytes := header (zlen k.2) k.1 ++ k.2.
(** Packets that onBackendMessage reads as they were written: its chars are signed. *)
Definition small_packet (k : packet) : Prop := 0 <= k.1 < 128 /\ 1 <= zlen k.2 < 128.

Fixpoint chunks_of (fuel n : nat) (q : bytes) : list bytes :=
  match fuel with
  | O => []
  | S fuel' => match q with [] => [] | _ => take n q :: chunks_of fuel' n (drop n q) end
  end.
(** How sendBackendBuffer cuts its data. *)
Definition packets (id : Z) (q : bytes) : list packet :=
  (fun d => (id, d)) <$> chunks_of (length q) (Z.to_nat kMaxPacketLen) q.

(** What a packet from the backend does, all connections being in its loop. *)
Definition deliver (m : MultiplexServer) (k : packet) : MultiplexServer :=
  if k.1 =? 0 then
    if (zlen (cs "DISCONNECT ") <? zlen k.2) && starts_with (cs "DISCONNECT ") k.2 then
      match clientConns_ m !! atoi (drop (length (cs "DISCONNECT ")) k.2) with
      | Some c => set_conns (alter sess_shutdown c (conns m)) m
      | None => m
      end
    else m
  else match clientConns_ m !! k.1 with
       | Some c => set_conns (alter (sess_send k.2) c (conns m)) m
       | None => m
       end.

(** The client [p] has the id [id]: in its context, or on the way there. *)
Definition owns_at (s : option (Session Z)) (c : option pc) (id : Z) : Prop :=
  0 < id /\ (s ≫= s_context = Some id \/ c = Some (UpWith id)).
Definition owns (r : Run) (p id : Z) : Prop := owns_at (conns (mux r) !! p) (inside r !! p) id.

Definition sess_ok (s : Session Z) : Prop := exists q, holds (s_in s) q.

Definition mux_inv (r : Run) : Prop :=
  let m := mux r in
  (forall p s, conns m !! p = Some s ->
     sess_ok s /\ forall id, s_context s = Some id -> 1 <= id <= kMaxConns)
  /\ (forall p c, inside r !! p = Some c -> exists s, conns m !! p = Some s
        /\ match c with
           | UpWith id => s_context s = None /\ (id = -1 \/ 1 <= id <= kMaxConns)
           | DownWith id => s_context s = Some id
           end)
  /\ match backendConn_ m with
     | None => availIds_ m = [] /\ clientConns_ m = ∅
     | Some b =>
         (exists s, conns m !! b = Some s /\ s_state s = kConnected /\ s_context s = None
                    /\ inside r !! b = None)
         /\ NoDup (availIds_ m)
         /\ (forall id, id ∈ availIds_ m <-> 1 <= id <= kMaxConns /\ clientConns_ m !! id = None)
         /\ (forall id p, clientConns_ m !! id = Some p <-> owns r p id)
     end.

(** What the environment does: the order of the callbacks of a connection, room in the
    buffers, and what the theorems on faults show to be needed - data of a client only
    while there is a backend, a new backend only when no client of the old one is left,
    packets of at most 127 bytes, and the tenth id's assert compiled out. *)
Definition mux_allowed `{Build} (ev : mux_event) (r : Run) : Prop :=
  match ev with
  | ClientUp p => conns (mux r) !! p = None
  | ClientUpRest p => True
  | ClientDown p =>
      exists s, conns (mux r) !! p = Some s /\ inside r !! p = None
        /\ backendConn_ (mux r) <> Some p
        /\ (NDEBUG = true \/ s_context s <> Some kMaxConns)
  | ClientDownRest p => True
  | ClientData p data =>
      exists s, conns (mux r) !! p = Some s /\ inside r !! p = None
        /\ backendConn_ (mux r) <> Some p /\ readable_into (s_in s) data
        /\ (backendConn_ (mux r) = None -> s_context s = None)
  | BackendUp p =>
      conns (mux r) !! p = None /\ backendConn_ (mux r) = None /\ forall q id, ~ owns r q id
  | BackendDown p => backendConn_ (mux r) = Some p
  | BackendData data =>
      forall b s, backendConn_ (mux r) = Some b -> conns (mux r) !! b = Some s ->
        readable_into (s_in s) data /\ exists ms p, Forall small_packet ms
          /\ partial enc_packet small_packet p
          /\ contents (s_in s) ++ data = encode_all enc_packet ms ++ p
  end.

(** ** Lemmas on packets *)

Lemma zlen_header len id : zlen (header len id) = 3.
Proof. done. Qed.

Lemma zlen_enc_packet k : zlen (enc_packet k) = 3 + zlen k.2.
Proof. unfold enc_packet. by rewrite zlen_app. Qed.

Lemma schar_small z : 0 <= z < 128 -> schar (to_char z) = z.
Proof. intros Hz. unfold schar. rewrite uchar_to_char, Z.mod_small by lia. apply wraps_small; lia. Qed.

(** The id of a small packet, read from its two bytes. *)
Lemma small_id id : 0 <= id < 128 ->
  Z.land id 255 = id /\ Z.shiftr (Z.land id 65280) 8 = 0 /\ Z.lor id (Z.shiftl 0 8) = id.
Proof.
  intros Hid. assert (Z.land id 255 = id) as E1.
  { change 255 with (Z.ones 8). rewrite Z.land_ones by lia. apply Z.mod_small. lia. }
  split_and!; [done| |].
  - rewrite <- E1, <- Z.land_assoc. change (Z.land 255 65280) with 0. by rewrite Z.land_0_r.
  - change (Z.shiftl 0 8) with 0. apply Z.lor_0_r.
Qed.

Lemma header_small k rest :
  small_packet k -> exists c0 c1 c2, enc_packet k ++ rest = c0 :: c1 :: c2 :: k.2 ++ rest
    /\ schar c0 = zlen k.2 /\ Z.lor (schar c1) (Z.shiftl (schar c2) 8) = k.1.
Proof.
  intros [Hid Hl]. destruct (small_id k.1 Hid) as (E1 & E2 & E3).
  exists (to_char (zlen k.2)), (to_char (Z.land k.1 255)),
    (to_char (Z.shiftr (Z.land k.1 65280) 8)).
  split; [done|]. rewrite E1, E2, !schar_small by lia. done.
Qed.

Lemma chunks_of_join fuel n q : (length q <= fuel)%nat -> (0 < n)%nat -> mjoin (chunks_of fuel n q) = q.
Proof.
  revert q. induction fuel as [|fuel IH]; intros q Hq Hn; [destruct q; [done|cbn in Hq; lia]|].
  destruct q as [|c q]; [done|]. cbn [chunks_of].
  transitivity (take n (c :: q) ++ mjoin (chunks_of fuel n (drop n (c :: q)))); [done|]. rewrite IH.
  - apply take_drop.
  - rewrite length_drop. cbn [length] in *. lia.
  - done.
Qed.

Lemma chunks_of_length fuel n q : (0 < n)%nat ->
  Forall (fun d => 1 <= zlen d <= Z.of_nat n) (chunks_of fuel n q).
Proof.
  intros Hn. revert q. induction fuel as [|fuel IH]; intros q; cbn [chunks_of]; [done|].
  destruct q as [|c q]; [done|]. constructor; [|apply IH].
  unfold zlen. rewrite length_take. cbn [length]. lia.
Qed.

(** Enough fuel gives the same chunks. *)
Lemma chunks_of_fuel f1 f2 n q :
  (0 < n)%nat -> (length q <= f1)%nat -> (length q <= f2)%nat -> chunks_of f1 n q = chunks_of f2 n q.
Proof.
  intros Hn. revert f2 q. induction f1 as [|f1 IH]; intros f2 q H1 H2;
    destruct q as [|c q]; [by destruct f2|cbn in H1; lia|by destruct f2|].
  destruct f2 as [|f2]; [cbn in H2; lia|]. cbn [chunks_of]. f_equal.
  apply IH; rewrite length_drop; cbn [length] in *; lia.
Qed.

(** ** Sending to the backend *)

(** The backend is there and takes data. *)
Definition backend_is m b s : Prop :=
  backendConn_ m = Some b /\ conns m !! b = Some s /\ s_state s = kConnected.
Definition to_backend b s (data : bytes) m : MultiplexServer :=
  set_conns (<[b := sess_send data s]> (conns m)) m.

Lemma backend_is_sent m b s data :
  backend_is m b s -> backend_is (to_backend b s data m) b (sess_send data s).
Proof.
  intros (Hb & Hs & Hc). split_and!; [done|apply lookup_insert_eq|].
  unfold sess_send. by destruct (sess_connected s).
Qed.

Lemma to_backend_app m b s d1 d2 :
  to_backend b (sess_send d1 s) d2 (to_backend b s d1 m) = to_backend b s (d1 ++ d2) m.
Proof. unfold to_backend, set_conns. cbn. by rewrite insert_insert_eq, sess_send_app. Qed.

Section sending.
Context `{Build}.
Context (sbp : Z -> Buffer -> ST MultiplexServer Buffer).

(** What the shared functions need of sendBackendPacket. *)
Class PacketSender := {
  sbp_up id buf q m b s : holds buf q -> backend_is m b s ->
    wp (sbp id buf) m (fun buf' m' => m' = to_backend b s (header (zlen q) id ++ q) m /\ holds buf' []);
  sbp_down id buf q m : holds buf q -> backendConn_ m = None ->
    wp (sbp id buf) m (fun _ m' => m' = m)
}.
Context `{PacketSender}.
Implicit Types m : MultiplexServer.

Lemma sendBackendString_up id msg m b s :
  zlen msg < kMaxPacketLen -> backend_is m b s ->
  wp (Shared.sendBackendString sbp id msg) m
    (fun _ m' => m' = to_backend b s (enc_packet (id, msg)) m).
Proof.
  intros Hl Hb. destruct (holds_append_empty msg) as (buf & E & Hh);
    [unfold kMaxPacketLen, kDefaultInitialSize in *; lia|].
  unfold Shared.sendBackendString. wp_step. apply wp_assert; [by apply Z.ltb_lt|].
  wp_step. apply (wp_lift _ buf); [done|]. wp_step.
  eapply wp_mono; [by apply sbp_up|]. intros ? m' [-> _]. by apply wp_ret.
Qed.

Lemma sendBackendString_down id msg m :
  zlen msg < kMaxPacketLen -> backendConn_ m = None ->
  wp (Shared.sendBackendString sbp id msg) m (fun _ m' => m' = m).
Proof.
  intros Hl Hb. destruct (holds_append_empty msg) as (buf & E & Hh);
    [unfold kMaxPacketLen, kDefaultInitialSize in *; lia|].
  unfold Shared.sendBackendString. wp_step. apply wp_assert; [by apply Z.ltb_lt|].
  wp_step. apply (wp_lift _ buf); [done|]. wp_step.
  eapply wp_mono; [by eapply sbp_down|]. intros ? m' ->. by apply wp_ret.
Qed.

Lemma sendBackendBuffer_loop_spec fuel id buf q m b s :
  holds buf q -> backend_is m b s -> (length q < fuel)%nat ->
  wp (Shared.sendBackendBuffer_loop sbp fuel id buf) m
    (fun buf' m' => m' = to_backend b s (encode_all enc_packet (packets id q)) m /\ holds buf' []).
Proof.
  revert buf q m s. induction fuel as [|fuel IH]; intros buf q m s Hh Hb Hf; [lia|].
  cbn [Shared.sendBackendBuffer_loop]. rewrite (holds_length buf q Hh).
  destruct (Z.ltb_spec kMaxPacketLen (zlen q)) as [Hgt|Hle]; [|destruct (Z.ltb_spec 0 (zlen q)) as [Hp|Hz] ].
  - assert (0 <= kMaxPacketLen) by done.
    pose proof (holds_read buf q 0 kMaxPacketLen Hh ltac:(lia) ltac:(lia) ltac:(lia)) as Er.
    rewrite Z.add_0_r in Er. change (drop (Z.to_nat 0) q) with q in Er.
    set (d := take (Z.to_nat kMaxPacketLen) q) in *.
    assert (zlen d = kMaxPacketLen) as Hd by (apply zlen_take; lia).
    destruct (holds_append_empty d) as (buf2 & E2 & Hh2); [rewrite Hd; done|].
    destruct (holds_retrieve buf q kMaxPacketLen Hh) as (buf1 & E1 & Hh1); [lia|].
    wp_step. apply (wp_lift _ d); [done|]. wp_step. apply (wp_lift _ buf2); [done|].
    wp_step. apply (wp_lift _ buf1); [done|]. wp_step.
    eapply wp_mono; [by apply (sbp_up id buf2 d)|]. intros ? m' [-> _].
    eapply wp_mono; [eapply IH; [exact Hh1|by apply backend_is_sent|]|].
    { rewrite length_drop. unfold zlen, kMaxPacketLen in *. lia. }
    intros buf' m'' [-> Hh']. split; [|done]. rewrite to_backend_app. f_equal.
    destruct q as [|c q]; [done|]. unfold packets at 2. cbn [length chunks_of fmap list_fmap].
    rewrite encode_all_cons. fold d. change (enc_packet (id, d)) with (header (zlen d) id ++ d).
    f_equal. unfold packets. do 2 f_equal.
    apply chunks_of_fuel; [unfold kMaxPacketLen; lia|done|].
    rewrite length_drop. unfold zlen, kMaxPacketLen in *. cbn [length] in *. lia.
  - eapply wp_mono; [by apply (sbp_up id buf q)|]. intros buf' m' [-> Hh']. split; [|done].
    do 2 f_equal. destruct q as [|c q]; [done|]. unfold packets. cbn [length chunks_of fmap list_fmap].
    rewrite (take_ge (c :: q)), (drop_ge (c :: q)) by (unfold zlen, kMaxPacketLen in *; lia).
    rewrite encode_all_cons. change (enc_packet (id, c :: q)) with (header (zlen (c :: q)) id ++ c :: q).
    replace (chunks_of (length q) _ []) with (@nil bytes) by (by destruct (length q)).
    cbn. by rewrite app_nil_r.
  - assert (q = []) as -> by (destruct q; [done|rewrite zlen_cons in Hz; pose proof (zlen_nonneg q); lia]).
    apply wp_ret. split; [|done]. cbn. unfold to_backend. rewrite sess_send_nil, insert_id by apply Hb.
    by destruct m.
Qed.

Lemma sendBackendBuffer_spec id buf q m b s :
  holds buf q -> backend_is m b s ->
  wp (Shared.sendBackendBuffer sbp id buf) m
    (fun buf' m' => m' = to_backend b s (encode_all enc_packet (packets id q)) m /\ holds buf' []).
Proof.
  intros Hh Hb. unfold Shared.sendBackendBuffer. apply sendBackendBuffer_loop_spec; [done..|].
  rewrite (holds_length buf q Hh). unfold zlen. lia.
Qed.
End sending.

(** Both programs send packets alike while they have a backend. *)
Lemma send_packet_spec `{Build} id buf q m b s :
  holds buf q -> backend_is m b s ->
  wp (buf ← lift (prepend buf (header (readableBytes buf) id)); on_table (send_buf b buf)) m
    (fun buf' m' => m' = to_backend b s (header (zlen q) id ++ q) m /\ holds buf' []).
Proof.
  intros Hh (Hb & Hs & Hc). rewrite (holds_length buf q Hh).
  destruct (holds_prepend buf q (header (zlen q) id)) as (buf1 & E & Hw & Hcont); [done|done|].
  wp_step. apply (wp_lift _ buf1); [done|]. unfold on_table. wp_step.
  apply (wp_send_buf b s); [done|]. unfold sess_connected. rewrite bool_decide_eq_true_2 by done.
  rewrite Hcont. split; [done|]. destruct (retrieveAll_wf buf1 Hw). split_and!; done.
Qed.

#[export] Instance multiplexer_sender `{Build} : PacketSender Multiplexer.sendBackendPacket.
Proof.
  split.
  - intros id buf q m b s Hh Hb. unfold Multiplexer.sendBackendPacket.
    eapply wp_mono; [|intros ? ? HQ; exact HQ].
    pose proof (send_packet_spec id buf q m b s Hh Hb) as (buf' & m' & E & HQ).
    exists buf', m'. split; [|done]. revert E. unfold mbind, ST_bind, gets.
    destruct (lift _ m) as [ [? m1]|] eqn:El; [|done]. cbn [fst snd].
    assert (m1 = m) as ->. { unfold lift in El. destruct (prepend _ _); [by injection El|done]. }
    destruct Hb as (-> & _). done.
  - intros id buf q m Hh Hb. unfold Multiplexer.sendBackendPacket. rewrite (holds_length buf q Hh).
    destruct (holds_prepend buf q (header (zlen q) id)) as (buf1 & E & _); [done|done|].
    wp_step. apply (wp_lift _ buf1); [done|]. wp_step. wp_step. rewrite Hb. by apply wp_ret.
Qed.

#[export] Instance simple_sender `{Build} : PacketSender Simple.sendBackendPacket.
Proof.
  split.
  - intros id buf q m b s Hh Hb. unfold Simple.sendBackendPacket. wp_step. wp_step.
    pose proof Hb as (-> & _). by apply send_packet_spec.
  - intros id buf q m Hh Hb. unfold Simple.sendBackendPacket. wp_step. wp_step. rewrite Hb.
    by apply wp_ret.
Qed.

(** ** What changes no id

    [quiet]: the maps are as they were, and so are the contexts; buffers stay in order and
    the backend connected. *)

Definition same_sess (b : option Z) (p : Z) (s s' : Session Z) : Prop :=
  s_context s' = s_context s /\ (sess_ok s -> sess_ok s')
  /\ (b = Some p -> s_state s = kConnected -> s_state s' = kConnected).
Definition quiet (m m' : MultiplexServer) : Prop :=
  backendConn_ m' = backendConn_ m /\ clientConns_ m' = clientConns_ m
  /\ availIds_ m' = availIds_ m
  /\ forall p, option_Forall2 (same_sess (backendConn_ m) p) (conns m !! p) (conns m' !! p).
(** The connections in the map are there, and are not the backend's. *)
Definition clients_live (m : MultiplexServer) : Prop :=
  forall id c, clientConns_ m !! id = Some c -> is_Some (conns m !! c) /\ backendConn_ m <> Some c.

Lemma same_sess_refl b p s : same_sess b p s s.
Proof. done. Qed.

Lemma same_sess_trans b p s1 s2 s3 : same_sess b p s1 s2 -> same_sess b p s2 s3 -> same_sess b p s1 s3.
Proof. intros (E1 & H1 & S1) (E2 & H2 & S2). split_and!; [congruence|auto|auto]. Qed.

Lemma quiet_refl m : quiet m m.
Proof. split_and!; try done. intros p. destruct (conns m !! p); constructor. apply same_sess_refl. Qed.

Lemma quiet_trans m1 m2 m3 : quiet m1 m2 -> quiet m2 m3 -> quiet m1 m3.
Proof.
  intros (B1 & C1 & A1 & T1) (B2 & C2 & A2 & T2). split_and!; try congruence.
  intros p. specialize (T1 p). specialize (T2 p). rewrite B1 in T2.
  destruct T1 as [s1 s2 H1|]; inversion T2 as [x s3 H2|]; subst; constructor.
  by eapply same_sess_trans.
Qed.

Lemma quiet_insert m p s s' :
  conns m !! p = Some s -> same_sess (backendConn_ m) p s s' ->
  quiet m (set_conns (<[p := s']> (conns m)) m).
Proof.
  intros Hs H. split_and!; try done. intros q. cbn [conns set_conns].
  destruct (decide (q = p)) as [->|Hne].
  - rewrite Hs, lookup_insert_eq. by constructor.
  - rewrite lookup_insert_ne by done. destruct (conns m !! q); constructor. apply same_sess_refl.
Qed.

Lemma quiet_live m m' : quiet m m' -> clients_live m -> clients_live m'.
Proof.
  intros (B & C & _ & T) Hl id c. rewrite B, C. intros Hc. destruct (Hl id c Hc) as [ [s Hs] Hb].
  split; [|done]. specialize (T c). rewrite Hs in T. by inversion T.
Qed.

Lemma same_send b p s data : same_sess b p s (sess_send data s).
Proof. unfold sess_send. by destruct (sess_connected s). Qed.

Lemma same_shutdown b p s : b <> Some p -> same_sess b p s (sess_shutdown s).
Proof. intros Hne. unfold sess_shutdown. by destruct (sess_connected s). Qed.

Lemma same_input b p s buf q : holds buf q -> same_sess b p s (sess_setInput buf s).
Proof. intros Hh. split_and!; try done. intros _. by exists q. Qed.

#[export] Hint Resolve same_send same_shutdown same_sess_refl quiet_refl : arale.

(** ** Messages of the backend *)

Section backend.
Context `{Build} (same_loop : Z -> bool).
Implicit Types m : MultiplexServer.

Lemma wp_on_client m c s f Q :
  conns m !! c = Some s -> Q tt (set_conns (<[c := f s]> (conns m)) m) ->
  wp (on_table (on_conn c f)) m Q.
Proof. intros Hs HQ. unfold on_table. wp_step. by apply (wp_on_conn c s). Qed.

Lemma insert_alter (f : Session Z -> Session Z) c s (t : Table Z) :
  t !! c = Some s -> <[c := f s]> t = alter f c t.
Proof.
  intros Hs. apply map_eq. intros q. destruct (decide (q = c)) as [->|Hne].
  - by rewrite lookup_insert_eq, lookup_alter_eq, Hs.
  - by rewrite lookup_insert_ne, lookup_alter_ne.
Qed.

Lemma send_client_spec m c s buf q d rest :
  holds buf q -> drop 3 q = d ++ rest -> 3 <= zlen q -> zlen d < 128 -> conns m !! c = Some s ->
  wp (Shared.send_client same_loop c buf (zlen d)) m (fun _ m' => quiet m m'
    /\ (same_loop c = true -> m' = set_conns (alter (sess_send d) c (conns m)) m)
    /\ (same_loop c = false -> sess_connected s = true ->
        m' = set_late (late m ++ [(c, peek buf + kHeaderLen, zlen d)]) m)).
Proof.
  intros Hh Hd Hq3 Hl Hs. unfold Shared.send_client. destruct (same_loop c).
  - unfold on_table. wp_step. apply (wp_send_mem c s).
    + done.
    + assert (zlen d + 3 <= zlen q).
      { pose proof (f_equal zlen Hd) as Hz. pose proof (zlen_nonneg rest). rewrite zlen_app in Hz.
        unfold zlen in *. rewrite length_drop in Hz. lia. }
      pose proof (zlen_nonneg d). rewrite (holds_read buf q) by (done || unfold kHeaderLen; lia).
      change (Z.to_nat kHeaderLen) with 3%nat. rewrite Hd. f_equal. unfold zlen.
      by rewrite Nat2Z.id, take_app_length.
    + split; [by apply (quiet_insert m c s); auto with arale|].
      split; [|done]. intros _. by rewrite (insert_alter (sess_send d)).
  - wp_step. unfold on_table. wp_step. apply (wp_isConnected c s); [done|].
    assert (set_conns (conns m) m = m) as -> by (by destruct m).
    wp_step; [|split_and!; [apply quiet_refl|done|congruence] ]. wp_step. split; [|done].
    split_and!; try done. apply (quiet_refl m).
Qed.

Lemma doCommand_spec m cmd :
  clients_live m ->
  wp (Shared.doCommand cmd) m (fun _ m' => quiet m m' /\ m' = deliver m (0, cmd)).
Proof.
  intros Hl. unfold Shared.doCommand, deliver. cbn [fst snd Z.eqb]. cbv zeta.
  destruct (_ && _); [|by apply wp_ret; auto with arale]. wp_step. wp_step.
  destruct (clientConns_ m !! _) as [c|] eqn:Ec; [|by apply wp_ret; auto with arale].
  destruct (Hl _ _ Ec) as [ [s Hs] Hne]. unfold shutdown. apply (wp_on_client m c s); [done|].
  rewrite (insert_alter sess_shutdown) by done. split; [|done].
  rewrite <- (insert_alter sess_shutdown c s) by done. apply (quiet_insert m c s); auto with arale.
Qed.

Lemma char_at_spec m buf q c rest i :
  holds buf q -> drop (Z.to_nat i) q = c :: rest -> 0 <= i -> 
  wp (Shared.char_at buf i) m (fun z m' => z = schar c /\ m' = m).
Proof.
  intros Hh Hd Hi. unfold Shared.char_at. wp_step. apply (wp_lift _ [c]); [|by apply wp_ret].
  assert (i + 1 <= zlen q).
  { pose proof (f_equal zlen Hd) as Hz. rewrite zlen_cons in Hz. pose proof (zlen_nonneg rest).
    unfold zlen in *. rewrite length_drop in Hz. lia. }
  rewrite (holds_read buf q) by (done || lia). by rewrite Hd.
Qed.

Lemma turn_packet m buf k rest :
  holds buf (enc_packet k ++ rest) -> small_packet k -> clients_live m ->
  wp (Shared.onBackendMessage_turn same_loop buf) m (fun r m' =>
    exists buf', r = Some buf' /\ holds buf' rest /\ quiet m m'
      /\ ((forall c, same_loop c = true) -> m' = deliver m k)
      /\ retrieve buf (zlen k.2 + kHeaderLen) = Ok buf'
      /\ (forall c s, k.1 <> 0 -> clientConns_ m !! k.1 = Some c -> conns m !! c = Some s ->
          same_loop c = false -> sess_connected s = true ->
          m' = set_late (late m ++ [(c, peek buf + kHeaderLen, zlen k.2)]) m)).
Proof.
  intros Hh Hk Hl. pose proof Hk as [Hid Hlen].
  destruct (header_small k rest Hk) as (c0 & c1 & c2 & Eq & E0 & E12). 
  pose proof (holds_bound _ _ Hh) as Hmax. pose proof (zlen_nonneg rest).
  assert (zlen (enc_packet k ++ rest) = 3 + zlen k.2 + zlen rest) as Hz
    by (rewrite zlen_app, zlen_enc_packet; lia).
  unfold Shared.onBackendMessage_turn. rewrite (holds_length _ _ Hh), Hz.
  rewrite (proj2 (Z.ltb_lt _ _)) by (unfold kHeaderLen; lia). wp_step.
  eapply wp_mono; [eapply (char_at_spec m buf _ c0); [exact Hh|by rewrite Eq|done]|].
  intros ? ? [-> ->]. rewrite E0, (u64_small (zlen k.2)) by lia. unfold max_size in *.
  rewrite u64_small by (unfold kHeaderLen; lia).
  rewrite (proj2 (Z.ltb_ge _ _)) by (unfold kHeaderLen; lia). wp_step.
  eapply wp_mono; [eapply (char_at_spec m buf _ c1); [exact Hh|by rewrite Eq|done]|].
  intros ? ? [-> ->]. wp_step.
  eapply wp_mono; [eapply (char_at_spec m buf _ c2); [exact Hh|by rewrite Eq|done]|].
  intros ? ? [-> ->]. rewrite E12. wp_step.
  apply (wp_mono _ _ (fun _ m' => quiet m m' /\ ((forall c, same_loop c = true) -> m' = deliver m k)
    /\ (forall c s, k.1 <> 0 -> clientConns_ m !! k.1 = Some c -> conns m !! c = Some s ->
          same_loop c = false -> sess_connected s = true ->
          m' = set_late (late m ++ [(c, peek buf + kHeaderLen, zlen k.2)]) m))).
  2:{ intros ? m' (Hq & Hd & Hlt). destruct (holds_retrieve _ _ (zlen k.2 + kHeaderLen) Hh) as (buf' & Er & Hh');
        [rewrite Hz; unfold kHeaderLen; lia|].
      wp_step. apply (wp_lift _ buf'); [done|]. apply wp_ret. exists buf'. split_and!; try done.
      replace rest with (drop (Z.to_nat (zlen k.2 + kHeaderLen)) (enc_packet k ++ rest)); [done|].
      apply drop_app_length'. pose proof (zlen_enc_packet k). unfold zlen, kHeaderLen in *. lia. }
  unfold deliver. destruct (Z.eqb_spec k.1 0) as [Ez|Ez]; cbn [negb].
  - wp_step. apply (wp_lift _ k.2).
    + rewrite (holds_read _ _ kHeaderLen (zlen k.2) Hh) by (rewrite ?Hz; unfold kHeaderLen; lia).
      rewrite Eq. change (drop (Z.to_nat kHeaderLen) (c0 :: c1 :: c2 :: k.2 ++ rest)) with (k.2 ++ rest).
      f_equal. unfold zlen. by rewrite Nat2Z.id, take_app_length.
    + eapply wp_mono; [by apply doCommand_spec|]. intros ? m' [Hq ->]. split_and!; done.
  - wp_step. wp_step. destruct (clientConns_ m !! k.1) as [c|] eqn:Ec;
      [|apply wp_ret; split_and!; [apply quiet_refl|done|congruence] ].
    destruct (Hl _ _ Ec) as [ [s Hs] Hne].
    eapply wp_mono; [eapply (send_client_spec m c s buf _ k.2 rest Hh); [by rewrite Eq|lia|lia|done]|].
    intros ? m' (Hq & Hm & Hlt). split_and!; [done|intros Hall; by apply Hm|].
    intros c' s' _ [= <-] Hs'. rewrite Hs in Hs'. injection Hs' as <-. done.
Qed.

Lemma packet_wait m buf p :
  holds buf p -> partial enc_packet small_packet p ->
  wp (Shared.onBackendMessage_turn same_loop buf) m (fun r m' => r = None /\ m' = m).
Proof.
  intros Hh Hp. unfold Shared.onBackendMessage_turn. rewrite (holds_length _ _ Hh).
  destruct (Z.ltb_spec kHeaderLen (zlen p)) as [Hlt|Hge]; [|by apply wp_ret].
  unfold kHeaderLen in Hlt. destruct Hp as [->|(k & q & Hk & Hq & Ep)]; [done|].
  destruct (header_small k [] Hk) as (c0 & c1 & c2 & Eq & E0 & _). rewrite !app_nil_r in Eq.
  destruct p as [|c0' p]; [done|]. assert (c0' = c0) as -> by (rewrite Ep in Eq; by injection Eq).
  pose proof (f_equal zlen Ep) as Hz. rewrite zlen_enc_packet, zlen_app in Hz.
  assert (0 < zlen q) by (destruct q; [done|rewrite zlen_cons; pose proof (zlen_nonneg q); lia]).
  destruct Hk as [_ Hl]. wp_step.
  eapply wp_mono; [eapply (char_at_spec m buf _ c0 p 0); [exact Hh|done|done]|].
  intros ? ? [-> ->]. rewrite E0, (u64_small (zlen k.2)) by lia.
  rewrite u64_small by (unfold kHeaderLen; lia).
  rewrite (proj2 (Z.ltb_lt _ _)) by (unfold kHeaderLen; lia). by apply wp_ret.
Qed.

Lemma onBackendMessage_loop_spec fuel m buf ms p :
  holds buf (encode_all enc_packet ms ++ p) -> Forall small_packet ms ->
  partial enc_packet small_packet p -> clients_live m -> (length ms < fuel)%nat ->
  wp (Shared.onBackendMessage_loop same_loop fuel buf) m (fun buf' m' =>
    holds buf' p /\ quiet m m'
    /\ ((forall c, same_loop c = true) -> m' = foldl deliver m ms)).
Proof.
  revert m buf ms. induction fuel as [|fuel IH]; intros m buf ms Hh Hms Hp Hl Hf; [lia|].
  cbn [Shared.onBackendMessage_loop]. wp_step. destruct ms as [|k ms].
  - eapply wp_mono; [by apply (packet_wait m buf p)|]. intros ? ? [-> ->].
    apply wp_ret. split_and!; auto with arale.
  - apply Forall_cons in Hms as [Hk Hms]. rewrite encode_all_cons, <- (assoc_L (++)) in Hh.
    eapply wp_mono; [by eapply turn_packet|]. intros ? m1 (buf1 & -> & Hh1 & Hq1 & Hd1 & _).
    eapply wp_mono; [apply (IH m1 buf1 ms)|]; [done..|by eapply quiet_live|cbn in Hf; lia|].
    intros buf' m' (Hh' & Hq' & Hd'). split_and!; [done|by eapply quiet_trans|].
    intros Hall. cbn [foldl]. rewrite <- Hd1 by done. by apply Hd'.
Qed.

Lemma onBackendMessage_spec m buf ms p :
  holds buf (encode_all enc_packet ms ++ p) -> Forall small_packet ms ->
  partial enc_packet small_packet p -> clients_live m ->
  wp (Shared.onBackendMessage same_loop buf) m (fun buf' m' =>
    holds buf' p /\ quiet m m'
    /\ ((forall c, same_loop c = true) -> m' = foldl deliver m ms)).
Proof.
  intros Hh Hms Hp Hl. apply (onBackendMessage_loop_spec _ _ _ ms); [done..|].
  rewrite (holds_length _ _ Hh). unfold zlen. rewrite Nat2Z.id, length_app.
  enough (length ms <= length (encode_all enc_packet ms))%nat by lia. clear.
  induction ms as [|k ms IH]; [done|]. rewrite encode_all_cons, length_app.
  unfold enc_packet at 1. rewrite length_app. cbn [length header] in *. lia.
Qed.

(** ** Packets of more than 127 bytes *)

Lemma turn_negative m buf c0 c1 c2 rest :
  holds buf (c0 :: c1 :: c2 :: rest) -> rest <> [] -> 128 <= uchar c0 < 253 ->
  Shared.onBackendMessage_turn same_loop buf m = Ok (None, m).
Proof.
  intros Hh Hr Hc. pose proof (holds_bound _ _ Hh) as Hmax.
  assert (0 < zlen rest) by (destruct rest; [done|rewrite zlen_cons; pose proof (zlen_nonneg rest); lia]).
  enough (wp (Shared.onBackendMessage_turn same_loop buf) m (fun r m' => r = None /\ m' = m))
    as (r & m' & E & -> & ->) by exact E.
  unfold Shared.onBackendMessage_turn. rewrite (holds_length _ _ Hh).
  rewrite (proj2 (Z.ltb_lt _ _)) by (rewrite !zlen_cons; unfold kHeaderLen; lia). wp_step.
  eapply wp_mono; [eapply (char_at_spec m buf _ c0); [exact Hh|done|done]|].
  intros ? ? [-> ->]. unfold schar, wraps, wrapu, kHeaderLen, max_size in *.
  change (2 ^ (8 - 1)) with 128. change (2 ^ 8) with 256.
  rewrite (Zmod_eq (uchar c0 + 128)) by lia.
  replace ((uchar c0 + 128) / 256) with 1 by (apply (Z.div_unique _ _ _ (uchar c0 - 128)); lia).
  rewrite Zplus_mod_idemp_l.
  replace ((uchar c0 + 128 - 1 * 256 - 128 + 3) mod 2 ^ 64) with (2 ^ 64 - (253 - uchar c0))
    by (apply (Z.mod_unique _ _ (-1)); lia).
  rewrite (proj2 (Z.ltb_lt _ _)) by lia. by apply wp_ret.
Qed.

Lemma retrieve_zero b q : holds b q -> q <> [] -> retrieve b 0 = Ok b.
Proof.
  intros Hh Hq. assert (0 < zlen q) by (destruct q; [done|rewrite zlen_cons; pose proof (zlen_nonneg q); lia]).
  pose proof (holds_bound _ _ Hh) as Hm.
  unfold retrieve. rewrite (holds_length _ _ Hh), assert_true by (apply Z.leb_le; lia). simp_out.
  rewrite (proj2 (Z.ltb_lt _ _)) by lia. destruct Hh as ((Hb1 & Hb2 & Hb3) & _ & _).
  unfold max_size in *. rewrite Z.add_0_r, u64_small by lia. by destruct b.
Qed.

(** The length 253 becomes 2^64 - 3, and with the header's length 0. *)
Lemma turn_wraps m buf c0 c1 c2 rest :
  holds buf (c0 :: c1 :: c2 :: rest) -> rest <> [] -> uchar c0 = 253 ->
  let id := Z.lor (schar c1) (Z.shiftl (schar c2) 8) in
  id <> 0 ->
  Shared.onBackendMessage_turn same_loop buf m =
    match clientConns_ m !! id with
    | Some c => match Shared.send_client same_loop c buf (2 ^ 64 - 3) m with
                | Ok (_, m') => Ok (Some buf, m') | Err f => Err f end
    | None => Ok (Some buf, m)
    end.
Proof.
  intros Hh Hr Hc id Hid. pose proof (holds_bound _ _ Hh) as Hmax.
  assert (0 < zlen rest) by (destruct rest; [done|rewrite zlen_cons; pose proof (zlen_nonneg rest); lia]).
  unfold Shared.onBackendMessage_turn. rewrite (holds_length _ _ Hh).
  rewrite (proj2 (Z.ltb_lt _ _)) by (rewrite !zlen_cons; unfold kHeaderLen; lia).
  assert (forall i c k, 0 <= i -> drop (Z.to_nat i) (c0 :: c1 :: c2 :: rest) = c :: k ->
            Shared.char_at buf i m = Ok (schar c, m)) as Hch.
  { intros i c k Hi Hd. destruct (char_at_spec m buf _ c k i Hh Hd Hi) as (z & m' & E & -> & ->).
    exact E. }
  unfold mbind at 1, ST_bind at 1. rewrite (Hch 0 c0 (c1 :: c2 :: rest)) by done.
  assert (u64 (schar c0) = 2 ^ 64 - 3) as ->
    by (unfold schar; rewrite Hc; by vm_compute).
  change (u64 (2 ^ 64 - 3 + kHeaderLen)) with 0. rewrite (proj2 (Z.ltb_ge _ _)) by lia.
  unfold mbind at 1, ST_bind at 1. rewrite (Hch 1 c1 (c2 :: rest)) by done.
  unfold mbind at 1, ST_bind at 1. rewrite (Hch 2 c2 rest) by done. fold id.
  rewrite (proj2 (Z.eqb_neq _ _)) by done. cbn [negb]. st_simp.
  rewrite (retrieve_zero buf _ Hh) by done.
  destruct (clientConns_ m !! id) as [c|]; [|done].
  destruct (Shared.send_client _ _ _ _ _) as [ [? m']|]; done.
Qed.
End backend.

(** What the multiplexers do with packets whose length byte is over 127, which their
    own sender makes of every payload over 127 bytes.  The byte is read as a signed char
    and cast to size_t: from 128 to 252 the length is so large that the packet, and all
    behind it, waits for ever; at 253, the longest packet sent, length and header wrap to
    zero, and the loop never ends if no client has the id, or the data sent to the client
    runs past the end of the buffer. *)
Theorem mux_long_packets `{Build} same_loop m buf c0 c1 c2 rest :
  holds buf (c0 :: c1 :: c2 :: rest) -> rest <> [] ->
  (128 <= uchar c0 < 253 -> Shared.onBackendMessage same_loop buf m = Ok (buf, m))
  /\ (uchar c0 = 253 -> let id := Z.lor (schar c1) (Z.shiftl (schar c2) 8) in id <> 0 ->
      (clientConns_ m !! id = None ->
         forall fuel, Shared.onBackendMessage_loop same_loop fuel buf m = Err OutOfFuel)
      /\ (forall c s, clientConns_ m !! id = Some c -> same_loop c = true ->
          conns m !! c = Some s -> s_state s = kConnected ->
          Shared.onBackendMessage same_loop buf m = Err OutOfBounds)).
Proof.
  intros Hh Hr. split.
  - intros Hc. unfold Shared.onBackendMessage. cbn [Shared.onBackendMessage_loop].
    unfold mbind, ST_bind. by rewrite (turn_negative _ m buf c0 c1 c2 rest).
  - intros Hc id Hid. pose proof (turn_wraps same_loop m buf c0 c1 c2 rest Hh Hr Hc Hid) as Et.
    fold id in Et. split.
    + intros Hn fuel. rewrite Hn in Et. induction fuel as [|fuel IH]; [done|].
      cbn [Shared.onBackendMessage_loop]. unfold mbind, ST_bind. by rewrite Et, IH.
    + intros c s Hcl Hsl Hs Hst. rewrite Hcl in Et.
      assert (Shared.send_client same_loop c buf (2 ^ 64 - 3) m = Err OutOfBounds) as Es.
      { unfold Shared.send_client, on_table, zoom, send_mem, isConnected. rewrite Hsl. st_simp.
        unfold conn_at. rewrite Hs. unfold sess_connected. rewrite bool_decide_eq_true_2 by done.
        unfold mem_read. destruct Hh as ((? & ? & ?) & _). unfold size, max_size, peek, kHeaderLen in *.
        rewrite (proj2 (Z.leb_gt (_ + (2 ^ 64 - 3)) _)) by lia. by rewrite !andb_false_r. }
      rewrite Es in Et. unfold Shared.onBackendMessage. cbn [Shared.onBackendMessage_loop].
      unfold mbind, ST_bind. by rewrite Et.
Qed.

(** ** The ids *)

Section ids.
Context `{Build} (addr : Z -> bytes) (same_loop : Z -> bool).
Context (Haddr : forall p, zlen (addr p) <= 64).
Implicit Types (r : Run) (m : MultiplexServer).

Lemma zlen_conn_text id p state :
  0 <= id <= kMaxConns -> zlen state <= 4 -> zlen (conn_text id (addr p) state) < kMaxPacketLen.
Proof.
  intros Hid Hs. unfold conn_text. specialize (Haddr p). unfold kMaxPacketLen, kMaxConns in *.
  pose proof (fmt_d_length id 2 ltac:(lia) ltac:(lia)).
  unfold zlen in *. rewrite length_take, !length_app, length_take. cbn [length]. 
  change (length (cs "CONN ")) with 5%nat. change (length (cs " FROM ")) with 6%nat.
  change (length (cs " IS ")) with 4%nat. lia.
Qed.

Lemma inv_quiet r m' : mux_inv r -> quiet (mux r) m' -> mux_inv (set_mux m' r).
Proof.
  intros (H1 & H2 & H3) (B & C & A & T). unfold mux_inv. cbn [mux set_mux inside].
  assert (forall p s', conns m' !! p = Some s' -> exists s, conns (mux r) !! p = Some s
            /\ same_sess (backendConn_ (mux r)) p s s') as Hb.
  { intros p s' Hp. specialize (T p). rewrite Hp in T. inversion T as [s x Hx|]; subst. by exists s. }
  assert (forall p s, conns (mux r) !! p = Some s -> exists s', conns m' !! p = Some s'
            /\ same_sess (backendConn_ (mux r)) p s s') as Hf.
  { intros p s Hp. specialize (T p). rewrite Hp in T. inversion T as [x s' Hx|]; subst. by exists s'. }
  split_and!.
  - intros p s' Hp. destruct (Hb p s' Hp) as (s & Hs & Hc & Ho & _).
    destruct (H1 p s Hs) as [Hok Hid]. rewrite Hc. auto.
  - intros p c Hc. destruct (H2 p c Hc) as (s & Hs & Hx).
    destruct (Hf p s Hs) as (s' & Hs' & Hctx & _). exists s'. rewrite Hctx. done.
  - rewrite B, C, A. destruct (backendConn_ (mux r)) as [b|]; [|done].
    destruct H3 as ((s & Hs & Hst & Hctx & Hin) & Hnd & Hav & Hcl). split_and!; try done.
    + destruct (Hf b s Hs) as (s' & Hs' & E & _ & Hst'). exists s'. rewrite E. auto.
    + intros id p. rewrite Hcl. unfold owns, owns_at. cbn [mux set_mux inside].
      specialize (T p). destruct T as [s1 s2 (E & _)|]; [|done]. cbn. by rewrite E.
Qed.

Lemma inv_live r : mux_inv r -> clients_live (mux r).
Proof.
  intros (H1 & H2 & H3) id c Hc. destruct (backendConn_ (mux r)) as [b|].
  - destruct H3 as ((s & Hs & _ & Hctx & Hin) & _ & _ & Hcl). apply Hcl in Hc as [_ Ho].
    split.
    + destruct Ho as [Ho|Ho]; [by destruct (conns (mux r) !! c)|].
      destruct (H2 c _ Ho) as (sc & -> & _). done.
    + intros [= <-]. rewrite Hs, Hin in Ho. cbn in Ho. rewrite Hctx in Ho. by destruct Ho.
  - destruct H3 as [_ E]. rewrite E in Hc. by rewrite lookup_empty in Hc.
Qed.

Lemma inv_backend r b : mux_inv r -> backendConn_ (mux r) = Some b ->
  exists s q, backend_is (mux r) b s /\ holds (s_in s) q /\ s_context s = None.
Proof.
  intros (H1 & _ & H3) Hb. rewrite Hb in H3. destruct H3 as ((s & Hs & Hst & Hctx & _) & _).
  destruct (H1 b s Hs) as [ [q Hq] _]. by exists s, q.
Qed.

(** A change of one connection and what it is inside of. *)
Lemma wp_goto p c r (Q : unit -> Run -> Prop) :
  Q tt (set_inside (partial_alter (fun _ => c) p (inside r)) r) -> wp (goto p c) r Q.
Proof. intros HQ. by apply wp_modify. Qed.

Lemma wp_on_mux {A} (m : ST MultiplexServer A) r (Q : A -> Run -> Prop) :
  wp m (mux r) (fun a m' => Q a (set_mux m' r)) -> wp (on_mux m) r Q.
Proof. intros Hw. by apply wp_zoom. Qed.

Lemma wp_on_table {A} (o : ST (Table Z) A) m (Q : A -> MultiplexServer -> Prop) :
  wp o (conns m) (fun a t => Q a (set_conns t m)) -> wp (on_table o) m Q.
Proof. intros Hw. by apply wp_zoom. Qed.

Lemma quiet_to_backend m b s data : backend_is m b s -> quiet m (to_backend b s data m).
Proof. intros (Hb & Hs & _). apply (quiet_insert m b s); auto with arale. Qed.

(** Announcing to the backend, or to none. *)
Lemma say_quiet sbp `{PacketSender sbp} id msg r :
  mux_inv r -> zlen msg < kMaxPacketLen ->
  wp (Shared.sendBackendString sbp id msg) (mux r) (fun _ m' => quiet (mux r) m').
Proof.
  intros Hi Hl. destruct (backendConn_ (mux r)) as [b|] eqn:Hb.
  - destruct (inv_backend r b Hi Hb) as (s & q & Hbs & _).
    eapply wp_mono; [by eapply sendBackendString_up|]. intros ? m' ->. by apply quiet_to_backend.
  - eapply wp_mono; [by eapply sendBackendString_down|]. intros ? m' ->. apply quiet_refl.
Qed.

Lemma inv_fresh r p : mux_inv r -> conns (mux r) !! p = None -> inside r !! p = None.
Proof.
  intros (_ & H2 & _) Hp. destruct (inside r !! p) as [c|] eqn:E; [|done].
  destruct (H2 p c E) as (s & Hs & _). congruence.
Qed.

Lemma wp_established p (t : Table Z) Q :
  t !! p = None -> Q tt (<[p := sess_setState kConnected sess_new]> t) -> wp (established p) t Q.
Proof. intros Hp HQ. eapply wp_Ok; [|exact HQ]. unfold established. by rewrite Hp. Qed.

Lemma sess_ok_new : sess_ok (sess_setState kConnected sess_new).
Proof. exists []. apply holds_empty. Qed.

(** A new connection without an id changes nothing. *)
Lemma inv_add r p c :
  mux_inv r -> conns (mux r) !! p = None -> (c = None \/ c = Some (UpWith (-1))) ->
  mux_inv (mkRun (set_conns (<[p := sess_setState kConnected sess_new]> (conns (mux r))) (mux r))
             (partial_alter (fun _ => c) p (inside r))).
Proof.
  intros Hi Hp Hc. pose proof (inv_fresh r p Hi Hp) as Hin. destruct Hi as (H1 & H2 & H3).
  unfold mux_inv. cbn [mux inside set_conns conns backendConn_ clientConns_ availIds_]. split_and!.
  - intros q s. destruct (decide (q = p)) as [->|Hne]; [|rewrite lookup_insert_ne by done; apply H1].
    rewrite lookup_insert_eq. intros [= <-]. split; [apply sess_ok_new|done].
  - intros q d. destruct (decide (q = p)) as [->|Hne].
    + rewrite lookup_partial_alter_eq, lookup_insert_eq. intros ->. eexists. split; [done|].
      destruct Hc as [|[= ->] ]; [done|]. by split; [|left].
    + rewrite lookup_partial_alter_ne, lookup_insert_ne by done. apply H2.
  - destruct (backendConn_ (mux r)) as [b|]; [|done].
    destruct H3 as ((s & Hs & Hst & Hctx & Hb) & Hnd & Hav & Hcl).
    assert (b <> p) by congruence. split_and!; try done.
    + exists s. rewrite lookup_insert_ne, lookup_partial_alter_ne by done. done.
    + intros id q. rewrite Hcl. unfold owns. cbn [mux inside set_conns conns].
      destruct (decide (q = p)) as [->|Hne].
      * rewrite lookup_insert_eq, lookup_partial_alter_eq, Hp, Hin. unfold owns_at. cbn.
        destruct Hc as [->| ->]; split; intros (? & [?|[=]]); lia || done.
      * by rewrite lookup_insert_ne, lookup_partial_alter_ne.
Qed.

Lemma ev_ClientUp r p :
  mux_inv r -> conns (mux r) !! p = None -> wp (mux_run addr same_loop (ClientUp p)) r (fun _ => mux_inv).
Proof.
  intros Hi Hp. cbn [mux_run]. wp_step. apply wp_on_mux, wp_on_table, wp_established; [done|].
  wp_step. apply wp_on_mux. unfold Shared.take_id. wp_step. wp_step.
  cbn [mux set_mux set_conns availIds_]. destruct (availIds_ (mux r)) as [|id rest] eqn:Ha.
  - wp_step. apply wp_goto. exact (inv_add r p _ Hi Hp (or_intror eq_refl)).
  - do 5 wp_step. apply wp_goto. unfold set_inside. cbn [mux inside set_mux].
    pose proof (inv_fresh r p Hi Hp) as Hin. destruct Hi as (H1 & H2 & H3).
    unfold mux_inv, set_clients, set_avail, set_conns. cbn [mux inside conns backendConn_ clientConns_ availIds_].
    destruct (backendConn_ (mux r)) as [b|] eqn:Hbe; [|destruct H3; congruence].
    destruct H3 as ((s & Hs & Hst & Hctx & Hb) & Hnd & Hav & Hcl).
    assert (b <> p) by congruence. rewrite Ha in Hnd, Hav. apply NoDup_cons in Hnd as [Hnr Hnd].
    destruct (proj1 (Hav id)) as [Hid Hfree]; [by left|].
    split_and!; try done.
    + intros q s'. destruct (decide (q = p)) as [->|Hne]; [|rewrite lookup_insert_ne by done; apply H1].
      rewrite lookup_insert_eq. intros [= <-]. split; [apply sess_ok_new|done].
    + intros q d. destruct (decide (q = p)) as [->|Hne].
      * rewrite lookup_partial_alter_eq, lookup_insert_eq. intros [= <-]. eexists. split; [done|].
        split; [done|by right].
      * rewrite lookup_partial_alter_ne, lookup_insert_ne by done. apply H2.
    + exists s. rewrite lookup_insert_ne, lookup_partial_alter_ne by done. done.
    + intros i. destruct (decide (i = id)) as [->|Hne].
      * rewrite lookup_insert_eq. split; [done|]. by intros [_ ?].
      * rewrite lookup_insert_ne by done. rewrite <- Hav, elem_of_cons. naive_solver.
    + intros i q. destruct (decide (q = p)) as [->|Hqp].
      * unfold owns. cbn [mux inside conns]. rewrite lookup_insert_eq, lookup_partial_alter_eq.
        unfold owns_at. cbn. destruct (decide (i = id)) as [->|Hne].
        -- rewrite lookup_insert_eq. split; [|done]. intros _. split; [lia|by right].
        -- rewrite lookup_insert_ne by done. rewrite Hcl. unfold owns. rewrite Hp, Hin.
           unfold owns_at. cbn. split; [intros (_ & [|])|intros (_ & [|])]; congruence.
      * unfold owns. cbn [mux inside conns]. rewrite (lookup_insert_ne (conns (mux r))),
          lookup_partial_alter_ne by done. fold (owns r q i).
        rewrite <- Hcl. destruct (decide (i = id)) as [->|Hne]; [|by rewrite lookup_insert_ne].
        rewrite lookup_insert_eq, Hfree. split; congruence.
Qed.

(** Only the backend is not inside a handler and has no context. *)
Lemma inv_not_backend r p c : mux_inv r -> inside r !! p = Some c -> backendConn_ (mux r) <> Some p.
Proof.
  intros (_ & _ & H3) Hc Hb. rewrite Hb in H3. destruct H3 as ((s & _ & _ & _ & Hin) & _). congruence.
Qed.

(** The handler of a new connection without an id returns. *)
Lemma inv_leave r p :
  mux_inv r -> inside r !! p = Some (UpWith (-1)) -> mux_inv (set_inside (delete p (inside r)) r).
Proof.
  intros Hi Hp. pose proof (inv_not_backend r p _ Hi Hp) as Hnb. destruct Hi as (H1 & H2 & H3).
  unfold mux_inv. cbn [mux inside set_inside]. split_and!; [done| |].
  - intros q c. intros [Hne Hc]%lookup_delete_Some. by apply H2.
  - destruct (backendConn_ (mux r)) as [b|]; [|done].
    destruct H3 as ((s & Hs & Hst & Hctx & Hb) & Hnd & Hav & Hcl). split_and!; try done.
    + exists s. rewrite lookup_delete_ne by congruence. done.
    + intros id q. rewrite Hcl. unfold owns. cbn [mux inside set_inside].
      destruct (decide (q = p)) as [->|Hne]; [|by rewrite lookup_delete_ne].
      rewrite lookup_delete_eq, Hp. unfold owns_at. split; intros (? & [?|[=]]); auto; lia.
Qed.

(** The id goes from the handler into the context. *)
Lemma inv_settle r p id s :
  mux_inv r -> inside r !! p = Some (UpWith id) -> conns (mux r) !! p = Some s -> 1 <= id <= kMaxConns ->
  mux_inv (mkRun (set_conns (<[p := sess_setContext (Some id) s]> (conns (mux r))) (mux r))
             (delete p (inside r))).
Proof.
  intros Hi Hp Hs Hid. pose proof (inv_not_backend r p _ Hi Hp) as Hnb. destruct Hi as (H1 & H2 & H3).
  unfold mux_inv. cbn [mux inside set_conns conns backendConn_ clientConns_ availIds_]. split_and!.
  - intros q s'. destruct (decide (q = p)) as [->|Hne]; [|rewrite lookup_insert_ne by done; apply H1].
    rewrite lookup_insert_eq. intros [= <-]. split; [by apply (H1 p s)|]. by intros i [= <-].
  - intros q c [Hne Hc]%lookup_delete_Some. rewrite lookup_insert_ne by done. by apply H2.
  - destruct (backendConn_ (mux r)) as [b|]; [|done].
    destruct H3 as ((sb & Hsb & Hst & Hctx & Hb) & Hnd & Hav & Hcl). assert (b <> p) by congruence.
    split_and!; try done.
    + exists sb. rewrite lookup_insert_ne, lookup_delete_ne by done. done.
    + intros i q. rewrite Hcl. unfold owns. cbn [mux inside conns set_conns].
      destruct (decide (q = p)) as [->|Hne]; [|by rewrite lookup_insert_ne, lookup_delete_ne].
      rewrite lookup_insert_eq, lookup_delete_eq, Hp, Hs.
      destruct (H2 p _ Hp) as (s' & Hs' & Hc & _). assert (s' = s) as -> by congruence.
      unfold owns_at. cbn. rewrite Hc. naive_solver.
Qed.

Lemma ev_ClientUpRest r p : mux_inv r -> wp (mux_run addr same_loop (ClientUpRest p)) r (fun _ => mux_inv).
Proof.
  intros Hi'. cbn [mux_run]. wp_step. unfold at_pc. wp_step.
  destruct (inside r !! p) as [ [id|id]|] eqn:Hp; [|by apply wp_ret..].
  pose proof Hi' as (H1 & H2 & H3). destruct (H2 p _ Hp) as (s & Hs & Hc & Hid). pose proof (inv_not_backend r p _ Hi' Hp) as Hnb.
  wp_step. apply wp_on_mux. unfold Shared.announce. destruct Hid as [->|Hid].
  - change (-1 <? 0) with true. cbv iota. unfold shutdown. apply (wp_on_client (mux r) p s); [done|].
    apply wp_goto. apply (inv_leave (set_mux _ r)); [|done].
    apply inv_quiet; [done|]. apply (quiet_insert _ p s); auto with arale.
  - rewrite (proj2 (Z.ltb_ge _ _)) by lia. wp_step. unfold setContext.
    apply (wp_on_client (mux r) p s); [done|].
    pose proof (inv_settle r p id s Hi' Hp Hs Hid) as Hi2.
    eapply wp_mono; [eapply (say_quiet _ _ _ _ Hi2), zlen_conn_text; [lia|done]|].
    intros ? m' Hq. apply wp_goto. exact (inv_quiet _ m' Hi2 Hq).
Qed.

(** A connection that has no id, or is left over, goes away. *)
Lemma inv_forget r p :
  mux_inv r -> backendConn_ (mux r) <> Some p ->
  (backendConn_ (mux r) = None \/ forall id, ~ owns r p id) ->
  mux_inv (mkRun (set_conns (delete p (conns (mux r))) (mux r)) (delete p (inside r))).
Proof.
  intros (H1 & H2 & H3) Hnb Ho. unfold mux_inv.
  cbn [mux inside set_conns conns backendConn_ clientConns_ availIds_]. split_and!.
  - intros q s [_ Hs]%lookup_delete_Some. by apply (H1 q).
  - intros q c [Hne Hc]%lookup_delete_Some. rewrite lookup_delete_ne by done. by apply H2.
  - destruct (backendConn_ (mux r)) as [b|]; [|done]. destruct Ho as [|Ho]; [done|].
    destruct H3 as ((sb & Hsb & Hst & Hctx & Hb) & Hnd & Hav & Hcl). assert (b <> p) by congruence.
    split_and!; try done.
    + exists sb. rewrite !lookup_delete_ne by done. done.
    + intros i q. rewrite Hcl. destruct (decide (q = p)) as [->|Hne].
      * split; [intros Hx; by destruct (Ho i)|]. unfold owns. cbn [mux inside conns set_conns].
        rewrite !lookup_delete_eq. intros (_ & [|]); done.
      * unfold owns. cbn [mux inside conns set_conns]. by rewrite !lookup_delete_ne.
Qed.

(** The id of a connection that goes away is free again. *)
Lemma inv_free r p id b :
  mux_inv r -> backendConn_ (mux r) = Some b -> conns (mux r) !! p ≫= s_context = Some id ->
  mux_inv (mkRun (mkMux (Some b) (delete id (clientConns_ (mux r))) (availIds_ (mux r) ++ [id])
                    (delete p (conns (mux r))) (late (mux r)))
             (delete p (inside r))).
Proof.
  intros Hi Hbe Hp. destruct (conns (mux r) !! p) as [s|] eqn:Hs; [|done]. cbn in Hp.
  destruct Hi as (H1 & H2 & H3). rewrite Hbe in H3.
  destruct H3 as ((sb & Hsb & Hst & Hctx & Hb) & Hnd & Hav & Hcl).
  assert (b <> p) by congruence. destruct (H1 p s Hs) as [_ Hid]. specialize (Hid id Hp).
  assert (clientConns_ (mux r) !! id = Some p) as Hcp.
  { apply Hcl. unfold owns, owns_at. rewrite Hs. cbn. split; [lia|by left]. }
  assert (forall i, owns r p i -> i = id) as Huniq.
  { intros i [Hi Ho]. rewrite Hs in Ho. cbn in Ho. destruct Ho as [Ho|Ho]; [congruence|].
    destruct (H2 p _ Ho) as (s' & Hs' & Hn & _). congruence. }
  unfold mux_inv. cbn [mux inside conns backendConn_ clientConns_ availIds_]. split_and!.
  - intros q s' [_ Hs']%lookup_delete_Some. by apply (H1 q).
  - intros q c [Hne Hc]%lookup_delete_Some. rewrite lookup_delete_ne by done. by apply H2.
  - exists sb. rewrite !lookup_delete_ne by done. done.
  - apply NoDup_app. split_and!; [done| |apply NoDup_singleton].
    intros i Hin ->%list_elem_of_singleton. apply Hav in Hin as [_ Hin]. congruence.
  - intros i. rewrite elem_of_app, Hav, list_elem_of_singleton.
    destruct (decide (i = id)) as [->|Hne].
    + rewrite lookup_delete_eq. split; [done|]. by right.
    + rewrite lookup_delete_ne by done. naive_solver.
  - intros i q. destruct (decide (q = p)) as [->|Hqp].
    + split.
      * intros [Hne Hc]%lookup_delete_Some. apply Hcl, Huniq in Hc. congruence.
      * unfold owns. cbn [mux inside conns]. rewrite !lookup_delete_eq. intros (_ & [|]); done.
    + unfold owns. cbn [mux inside conns]. rewrite (lookup_delete_ne (conns _)),
        (lookup_delete_ne (inside r)) by done. fold (owns r q i). rewrite <- Hcl.
      destruct (decide (i = id)) as [->|Hne]; [|by rewrite lookup_delete_ne].
      rewrite lookup_delete_eq, Hcp. split; congruence.
Qed.

Lemma ev_ClientDown r p :
  mux_inv r -> mux_allowed (ClientDown p) r -> wp (mux_run addr same_loop (ClientDown p)) r (fun _ => mux_inv).
Proof.
  intros Hi (s & Hs & Hin & Hnb & Hten). cbn [mux_run]. wp_step. unfold closed.
  apply wp_on_mux, (wp_on_client _ p s); [done|].
  set (s1 := sess_setState kDisconnected s). set (m1 := set_conns _ _).
  assert (quiet (mux r) m1) as Hq1 by (apply quiet_insert with (s := s); [done|]; by split_and!).
  pose proof (inv_quiet r m1 Hi Hq1) as Hi1. change (m1) with (mux (set_mux m1 r)) at 1.
  assert (conns m1 !! p = Some s1) as Hs1 by apply lookup_insert_eq.
  wp_step. apply wp_on_mux. unfold Shared.say_down. wp_step. apply wp_on_table.
  apply (wp_getContext p s1); [done|]. cbn [set_mux mux]. change (s_context s1) with (s_context s).
  assert (set_conns (conns m1) m1 = m1) as -> by (by destruct m1).
  destruct (s_context s) as [id|] eqn:Hc.
  - pose proof Hi as (H1 & _). destruct (H1 p s Hs) as [_ Hid]. specialize (Hid id Hc).
    wp_step. eapply (wp_lift _ tt).
    { unfold assert_. destruct Hten as [->|Hten]; [done|]. destruct NDEBUG; [done|].
      rewrite (proj2 (Z.ltb_lt 0 id)), (proj2 (Z.ltb_lt id _)); [done| |lia].
      unfold kMaxConns in *. destruct (decide (id = 10)); [congruence|lia]. }
    wp_step. eapply wp_mono; [eapply (say_quiet _ _ _ (set_mux m1 r)); [done|apply zlen_conn_text; [lia|done] ]|].
    intros ? m2 Hq2. wp_step. apply wp_goto. pose proof (inv_quiet _ m2 Hi1 Hq2) as Hi2.
    destruct Hi2 as (K1 & K2 & K3). unfold mux_inv, set_inside.
    assert (exists s2, conns m2 !! p = Some s2 /\ s_context s2 = Some id) as (s2 & Hs2 & Hc2).
    { destruct Hq2 as (_ & _ & _ & T). specialize (T p). cbn [mux set_mux] in T. rewrite Hs1 in T.
      inversion T as [x s2 Hx|]; subst. exists s2. destruct Hx as [-> _]. done. }
    cbn [mux inside set_mux] in *. split_and!; [done| |].
    + intros q c. destruct (decide (q = p)) as [->|Hne]; [|rewrite lookup_partial_alter_ne by done; apply K2].
      rewrite lookup_partial_alter_eq. intros [= <-]. by exists s2.
    + destruct (backendConn_ m2) as [b|] eqn:Hb; [|done].
      destruct K3 as ((sb & Hsb & Hst & Hctx & Hbi) & Hnd & Hav & Hcl).
      assert (b <> p) by congruence. split_and!; try done.
      * exists sb. by rewrite lookup_partial_alter_ne.
      * intros i q. rewrite Hcl. unfold owns. cbn [mux inside set_mux].
        destruct (decide (q = p)) as [->|Hne]; [|by rewrite lookup_partial_alter_ne].
        rewrite lookup_partial_alter_eq. rewrite Hin. unfold owns_at. naive_solver.
  - wp_step. apply wp_on_mux, wp_on_table, wp_modify. cbn [mux set_mux].
    assert (delete p (inside r) = inside r) as Hdel by (by apply delete_id).
    pose proof (inv_forget (set_mux m1 r) p Hi1) as Hf. cbn [mux inside set_mux] in Hf.
    rewrite Hdel in Hf. apply Hf; [done|]. right. intros id [_ Ho]. cbn [mux inside set_mux] in Ho.
    rewrite Hs1, Hin in Ho. cbn in Ho. rewrite Hc in Ho. by destruct Ho.
Qed.

Lemma ev_ClientDownRest r p : mux_inv r -> wp (mux_run addr same_loop (ClientDownRest p)) r (fun _ => mux_inv).
Proof.
  intros Hi. cbn [mux_run]. wp_step. unfold at_pc. wp_step.
  destruct (inside r !! p) as [ [id|id]|] eqn:Hp; [by apply wp_ret| |by apply wp_ret].
  pose proof (inv_not_backend r p _ Hi Hp) as Hnb.
  pose proof Hi as (_ & H2 & H3). destruct (H2 p _ Hp) as (s & Hs & Hc).
  wp_step. apply wp_on_mux. unfold Shared.give_back. wp_step. wp_step.
  destruct (backendConn_ (mux r)) as [b|] eqn:Hb.
  - do 3 wp_step. wp_step. apply wp_on_mux, wp_on_table, wp_modify. apply wp_goto.
    pose proof (inv_free r p id b Hi Hb) as Hf. rewrite Hs in Hf. specialize (Hf Hc).
    rewrite <- Hb in Hf. exact Hf.
  - destruct H3 as [Ha Hcl]. do 3 wp_step. wp_step; [by rewrite Ha|]. do 2 wp_step. wp_step; [by rewrite Hcl|].
    wp_step. apply wp_on_mux, wp_on_table, wp_modify. apply wp_goto.
    apply (inv_forget r p Hi); [congruence|by left].
Qed.

(** A message callback on connection [p]. *)
Lemma message_spec m p s q data cb (Q : MultiplexServer -> Prop) :
  conns m !! p = Some s -> holds (s_in s) q -> readable_into (s_in s) data ->
  (forall buf, holds buf (q ++ data) ->
     let m1 := set_conns (<[p := sess_setInput buf s]> (conns m)) m in
     wp (cb buf) m1 (fun buf' m2 => exists s2, conns m2 !! p = Some s2
       /\ Q (set_conns (<[p := sess_setInput buf' s2]> (conns m2)) m2))) ->
  wp (message p data cb) m (fun _ => Q).
Proof.
  intros Hs Hq Hf Hcb. unfold message. wp_step. apply wp_on_table.
  apply (wp_received p s _ q); [done..|]. intros buf Hb. specialize (Hcb buf Hb). cbv zeta in Hcb.
  wp_step. apply wp_on_table, (wp_conn_at p (sess_setInput buf s)); [apply lookup_insert_eq|].
  wp_step. cbn [s_in sess_setInput conns set_conns]. cbn [set_conns conns] in Hcb.
  eapply wp_mono; [exact Hcb|]. intros buf' m2 (s2 & Hs2 & HQ).
  by apply (wp_on_client m2 p s2).
Qed.

Lemma ev_ClientData r p data :
  mux_inv r -> mux_allowed (ClientData p data) r ->
  wp (mux_run addr same_loop (ClientData p data)) r (fun _ => mux_inv).
Proof.
  intros Hi (s & Hs & Hin & Hnb & Hf & Hctx). cbn [mux_run]. apply wp_on_mux.
  pose proof Hi as (H1 & _). destruct (H1 p s Hs) as [ [q Hq] _].
  eapply wp_mono; [|intros ? m' HQ; exact HQ].
  apply (message_spec (mux r) p s q data _ (fun m' => mux_inv (set_mux m' r))); [done..|].
  intros buf Hb m1. assert (quiet (mux r) m1) as Hq1
    by (apply (quiet_insert _ p s); [done|by eapply same_input]).
  assert (conns m1 !! p = Some (sess_setInput buf s)) as Hs1 by apply lookup_insert_eq.
  unfold Multiplexer.onClientMessage. wp_step. apply wp_on_table, (wp_getContext p (sess_setInput buf s)); [done|].
  assert (set_conns (conns m1) m1 = m1) as -> by (by destruct m1). cbn [s_context sess_setInput].
  destruct (s_context s) as [id|] eqn:Hc.
  - destruct (backendConn_ (mux r)) as [b|] eqn:Hb'; [|by specialize (Hctx eq_refl)].
    destruct (inv_backend (set_mux m1 r) b) as (sb & qb & Hbs & Hqb & _);
      [by apply inv_quiet|exact (eq_trans (proj1 Hq1) Hb')|]. cbn [mux set_mux] in Hbs.
    eapply wp_mono; [eapply (sendBackendBuffer_spec Multiplexer.sendBackendPacket); [exact Hb|exact Hbs]|]. intros buf' m2 [-> Hb2].
    exists (sess_setInput buf s). split.
    { unfold to_backend. cbn [conns set_conns]. rewrite lookup_insert_ne by congruence. done. }
    apply inv_quiet; [done|]. eapply quiet_trans; [exact Hq1|].
    eapply quiet_trans; [by apply quiet_to_backend|]. apply (quiet_insert _ p (sess_setInput buf s)).
    + unfold to_backend. cbn [conns set_conns]. rewrite lookup_insert_ne by congruence. done.
    + by eapply same_input.
  - wp_step. exists (sess_setInput buf s). split; [done|].
    apply inv_quiet; [done|]. eapply quiet_trans; [exact Hq1|].
    apply (quiet_insert _ p (sess_setInput buf s)); [done|].
    eapply same_input. by eapply holds_retrieveAll.
Qed.

Lemma ev_BackendData r data :
  mux_inv r -> mux_allowed (BackendData data) r ->
  wp (mux_run addr same_loop (BackendData data)) r (fun _ => mux_inv).
Proof.
  intros Hi Ha. cbn [mux_run]. apply wp_on_mux. unfold backend_data. wp_step. wp_step.
  destruct (backendConn_ (mux r)) as [b|] eqn:Hb; [|wp_step; by destruct r].
  destruct (inv_backend r b Hi Hb) as (s & q & Hbs & Hq & _). pose proof Hbs as (_ & Hs & _).
  destruct (Ha b s Hb Hs) as (Hf & ms & p & Hms & Hp & E).
  assert (contents (s_in s) = q) as Eq by apply Hq. rewrite Eq in E.
  apply (message_spec (mux r) b s q data _ (fun m' => mux_inv (set_mux m' r))); [done..|].
  intros buf Hbuf m1. rewrite E in Hbuf. assert (quiet (mux r) m1) as Hq1
    by (apply (quiet_insert _ b s); [done|by eapply same_input]).
  eapply wp_mono; [eapply onBackendMessage_spec; [exact Hbuf|done|done|]|].
  { eapply quiet_live; [exact Hq1|by apply inv_live]. }
  intros buf' m2 (Hb' & Hq2 & _).
  assert (exists s2, conns m2 !! b = Some s2) as [s2 Hs2].
  { destruct Hq2 as (_ & _ & _ & T). specialize (T b). unfold m1 in T. cbn [conns set_conns] in T.
    rewrite lookup_insert_eq in T. inversion T. by eexists. }
  exists s2. split; [done|]. apply inv_quiet; [done|]. eapply quiet_trans; [exact Hq1|].
  eapply quiet_trans; [exact Hq2|]. apply (quiet_insert _ b s2); [done|by eapply same_input].
Qed.

Lemma push_ids l m :
  wp (for_each (fun i => modify (fun m => set_avail (availIds_ m ++ [i]) m)) l) m
    (fun _ m' => m' = set_avail (availIds_ m ++ l) m).
Proof.
  revert m. induction l as [|i l IH]; intros m; cbn [for_each].
  - apply wp_ret. rewrite app_nil_r. by destruct m.
  - do 2 wp_step. eapply wp_mono; [apply IH|]. intros ? ? ->. cbn. by rewrite <- (assoc_L (++)).
Qed.

Lemma ev_BackendUp r p :
  mux_inv r -> mux_allowed (BackendUp p) r -> wp (mux_run addr same_loop (BackendUp p)) r (fun _ => mux_inv).
Proof.
  intros Hi (Hp & Hb & Ho). cbn [mux_run]. pose proof (inv_fresh r p Hi Hp) as Hin.
  wp_step. apply wp_on_mux, wp_on_table, wp_established; [done|].
  pose proof (inv_add r p None Hi Hp (or_introl eq_refl)) as (K1 & K2 & K3).
  cbn [mux inside] in *. set (m1 := set_conns _ (mux r)) in *.
  rewrite (Hb : backendConn_ m1 = None) in K3. destruct K3 as [Ka Kc].
  apply wp_on_mux. unfold Shared.onBackendConnection. wp_step. apply wp_on_table.
  eapply wp_isConnected; [apply lookup_insert_eq|].
  change (sess_connected (sess_setState kConnected sess_new)) with true. cbv iota.
  cbn [mux set_mux]. fold m1.
  do 2 wp_step. wp_step. wp_step; [apply bool_decide_eq_true; exact Ka|]. do 2 wp_step.
  eapply wp_mono; [apply push_ids|]. intros ? m' ->. cbn [set_avail set_backend availIds_ set_conns conns].
  rewrite Ka, app_nil_l.
  assert (forall q c, inside r !! q = Some c -> partial_alter (fun _ => None) p (inside r) !! q = Some c) as Hpa.
  { intros q c Hc. rewrite lookup_partial_alter_ne; [done|]. congruence. }
  unfold mux_inv. cbn [mux inside set_mux conns backendConn_ clientConns_ availIds_]. split_and!.
  - exact K1.
  - intros q c Hc. exact (K2 q c (Hpa q c Hc)).
  - cbn [backendConn_ availIds_ set_avail set_backend]. split_and!.
    + exists (sess_setState kConnected (sess_new (C := Z))). split_and!; [apply lookup_insert_eq|done|done|exact Hin].
    + apply NoDup_seqZ.
    + intros id. rewrite elem_of_seqZ. change (clientConns_ _) with (clientConns_ m1). rewrite Kc, lookup_empty.
      unfold kMaxConns. intuition lia.
    + intros id q. change (clientConns_ _) with (clientConns_ m1). rewrite Kc, lookup_empty. split; [done|].
      unfold owns, m1. cbn [mux inside set_mux conns set_conns set_avail set_backend].
      destruct (decide (q = p)) as [->|Hne].
      * rewrite lookup_insert_eq, Hin. intros (_ & [|]); done.
      * rewrite lookup_insert_ne by done. intros Hx. by destruct (Ho q id).
Qed.

Lemma ev_BackendDown r p :
  mux_inv r -> mux_allowed (BackendDown p) r -> wp (mux_run addr same_loop (BackendDown p)) r (fun _ => mux_inv).
Proof.
  intros Hi Hb. cbn [mux_allowed] in Hb. cbn [mux_run].
  destruct (inv_backend r p Hi Hb) as (s & q & (_ & Hs & _) & Hq & Hctx).
  pose proof (inv_live r Hi) as Hl. pose proof Hi as (H1 & H2 & _).
  wp_step. unfold closed. apply wp_on_mux, (wp_on_client _ p s); [done|].
  set (s1 := sess_setState kDisconnected s). wp_step. apply wp_on_mux.
  unfold Shared.onBackendConnection. wp_step. apply wp_on_table.
  eapply (wp_isConnected p s1); [apply lookup_insert_eq|]. cbn [mux set_mux set_conns conns].
  change (sess_connected s1) with false. cbv iota. do 2 wp_step. wp_step. wp_step. wp_step.
  cbn [clientConns_ set_backend set_conns].
  set (m0 := mkMux None ∅ [] (<[p := s1]> (conns (mux r))) (late (mux r))).
  assert (mux_inv (set_mux m0 r)) as Hi0.
  { unfold mux_inv, m0. cbn [mux inside set_mux conns backendConn_ clientConns_ availIds_]. split_and!; try done.
    - intros x sx. destruct (decide (x = p)) as [->|Hne]; [|rewrite lookup_insert_ne by done; apply H1].
      rewrite lookup_insert_eq. intros [= <-]. by apply (H1 p s).
    - intros x c Hc. destruct (H2 x c Hc) as (sx & Hsx & Hx). exists sx. split; [|done].
      rewrite lookup_insert_ne; [done|]. intros <-. by apply (inv_not_backend r p c Hi Hc). }
  set (cl := clientConns_ (mux r)) in *. set (ks := merge_sort _ _).
  apply (wp_mono _ _ (fun _ m' => quiet m0 (set_avail [] (set_clients ∅ m')))).
  - apply (wp_for_each _ (fun _ m' => quiet m0 (set_avail [] (set_clients ∅ m')))).
    + exact (quiet_refl m0).
    + intros dn id rest m' _ Hm'. destruct (cl !! id) as [c|] eqn:Hc; [|by apply wp_ret].
      destruct (Hl id c Hc) as [ [sc Hsc] Hne].
      destruct Hm' as (B & _ & _ & T).
      assert (exists s', conns m' !! c = Some s') as [s' Hs'].
      { specialize (T c). unfold m0 in T. cbn in T. destruct (decide (c = p)) as [->|Hcp]; [congruence|].
        rewrite lookup_insert_ne, Hsc in T by done. inversion T. by eexists. }
      unfold shutdown. apply (wp_on_client m' c s'); [done|].
      eapply quiet_trans; [split_and!; [exact B|done|done|exact T]|].
      apply (quiet_insert (set_avail [] (set_clients ∅ m')) c s'); [done|].
      apply same_shutdown. cbn. cbn in B. by rewrite B.
  - intros ? m' Hm'. do 3 wp_step. apply wp_on_mux, wp_on_table, wp_modify.
    cbn [mux set_mux]. set (m2 := set_avail [] (set_clients ∅ m')) in *.
    pose proof (inv_quiet _ m2 Hi0 Hm') as Hi2. cbn [mux set_mux] in Hi2.
    assert (inside r !! p = None) as Hin.
    { destruct (inside r !! p) as [c|] eqn:E; [|done]. by destruct (inv_not_backend r p c Hi E). }
    pose proof (inv_forget _ p Hi2) as Hf. cbn [mux inside set_mux] in Hf.
    rewrite (delete_id (inside r)) in Hf by done.
    destruct Hm' as (B & _). change (backendConn_ m0) with (@None Z) in B.
    apply Hf; [congruence|by left].
Qed.
End ids.

Fixpoint mux_allowed_all `{Build} addr same_loop (evs : list mux_event) (r : Run) : Prop :=
  match evs with
  | [] => True
  | ev :: evs' => mux_allowed ev r
      /\ forall r', mux_run addr same_loop ev r = Ok (tt, r') -> mux_allowed_all addr same_loop evs' r'
  end.

Lemma mux_inv_ctor : mux_inv (mkRun MultiplexServer_ctor ∅).
Proof. unfold mux_inv. cbn. split_and!; try done. Qed.

Lemma mux_run_inv `{Build} addr same_loop evs r :
  (forall p, zlen (addr p) <= 64) -> mux_inv r -> mux_allowed_all addr same_loop evs r ->
  wp (for_each (mux_run addr same_loop) evs) r (fun _ => mux_inv).
Proof.
  intros Haddr. revert r. induction evs as [|ev evs IH]; intros r Hi Ha; cbn [for_each]; [by apply wp_ret|].
  destruct Ha as [Ha Hn]. wp_step.
  assert (wp (mux_run addr same_loop ev) r (fun _ => mux_inv)) as ( [] & r1 & E & Hi1).
  { destruct ev; [apply ev_ClientUp|apply ev_ClientUpRest|apply ev_ClientDown|apply ev_ClientDownRest
      |apply ev_ClientData|apply ev_BackendUp|apply ev_BackendDown|apply ev_BackendData]; done. }
  exists tt, r1. split; [done|]. apply IH; [done|]. by apply Hn.
Qed.


(** The conditions of a concrete run; [ms] are the backend's packets. *)
Ltac solve_mux_allowed ms :=
  cbn [mux_allowed_all];
  repeat match goal with
  | |- mux_allowed _ _ /\ _ => split
  | |- mux_allowed (ClientUpRest _) _ => exact I
  | |- mux_allowed (ClientDownRest _) _ => exact I
  | |- mux_allowed (ClientUp _) _ => by vm_compute
  | |- mux_allowed (BackendDown _) _ => by vm_compute
  | |- mux_allowed (BackendUp _) _ => split_and!; [done|done|];
        intros q id [_ Ho]; cbn in Ho; rewrite !lookup_empty in Ho; by destruct Ho
  | |- mux_allowed (ClientDown _) _ => eexists; split; [vm_compute; reflexivity|];
        split_and!; [by vm_compute|by vm_compute|right; by vm_compute]
  | |- mux_allowed (ClientData _ _) _ => eexists; split; [vm_compute; reflexivity|];
        split_and!; [by vm_compute|by vm_compute|left; by vm_compute|intros Hn; by vm_compute in Hn]
  | |- mux_allowed (BackendData _) _ => intros b s Hb Hs; vm_compute in Hb; injection Hb as <-;
        vm_compute in Hs; injection Hs as <-; split; [left; by vm_compute|];
        exists ms, []; split_and!;
        [repeat constructor; by vm_compute|by left|by vm_compute]
  | |- forall r', mux_run _ _ _ _ = Ok (tt, r') -> _ =>
        let r' := fresh "r" in let E := fresh "E" in
        intros r' E; vm_compute in E; injection E as <-
  | |- True => done
  end.

Definition mux_sample : list mux_event :=
  [BackendUp 100; ClientUp 2; ClientUp 3; ClientUpRest 3; ClientData 3 (cs "hi"); ClientUpRest 2;
   BackendData (enc_packet (2, cs "yo")); ClientDown 3; ClientUp 4; ClientDownRest 3;
   ClientUpRest 4; ClientDown 2; BackendDown 100; ClientDownRest 2].
Definition sample_addr (p : Z) : bytes := cs "1.2.3.4:5".


(** ** The backend's stream *)

(** Room for each chunk. *)
Fixpoint rooms `{Build} same_loop (b : Z) (chunks : list bytes) m : Prop :=
  match chunks with
  | [] => True
  | c :: chunks' =>
      (forall s, conns m !! b = Some s -> readable_into (s_in s) c)
      /\ forall m', backend_data same_loop c m = Ok (tt, m') -> rooms same_loop b chunks' m'
  end.
(** The state but for the backend's input buffer. *)
Definition with_input (buf : Buffer) (b : Z) m : MultiplexServer :=
  set_conns (alter (sess_setInput buf) b (conns m)) m.

Section stream.
Context `{Build} (same_loop : Z -> bool) (Hall : forall c, same_loop c = true).
Implicit Types m : MultiplexServer.

Lemma with_input_with_input b b1 b2 m : with_input b1 b (with_input b2 b m) = with_input b1 b m.
Proof.
  unfold with_input, set_conns. cbn. f_equal. apply map_eq. intros p.
  destruct (decide (p = b)) as [->|Hne].
  - rewrite !lookup_alter_eq. by destruct (conns m !! b).
  - by rewrite !lookup_alter_ne.
Qed.

Lemma deliver_with_input buf b m k :
  backendConn_ m = Some b -> clients_live m -> deliver (with_input buf b m) k = with_input buf b (deliver m k).
Proof.
  intros Hb Hl. unfold deliver. change (clientConns_ (with_input buf b m)) with (clientConns_ m).
  assert (forall f id c, clientConns_ m !! id = Some c ->
    set_conns (alter f c (conns (with_input buf b m))) (with_input buf b m)
    = with_input buf b (set_conns (alter f c (conns m)) m)) as Hcomm.
  { intros f id c Hc. destruct (Hl id c Hc) as [_ Hne]. unfold with_input, set_conns. cbn. f_equal.
    apply alter_alter_ne. congruence. }
  destruct (k.1 =? 0).
  - destruct (_ && _); [|done]. destruct (clientConns_ m !! _) as [c|] eqn:Ec; [|done].
    by apply Hcomm with (1 := Ec).
  - destruct (clientConns_ m !! _) as [c|] eqn:Ec; [|done]. by apply Hcomm with (1 := Ec).
Qed.

Lemma deliver_quiet m k : clients_live m -> quiet m (deliver m k).
Proof.
  intros Hl. unfold deliver.
  assert (forall f id c, clientConns_ m !! id = Some c ->
    (forall s, same_sess (backendConn_ m) c s (f s)) ->
    quiet m (set_conns (alter f c (conns m)) m)) as Hq.
  { intros f id c Hc Hf. destruct (Hl id c Hc) as [ [s Hs] _].
    rewrite <- (insert_alter f c s) by done. by apply (quiet_insert m c s). }
  destruct (k.1 =? 0).
  - destruct (_ && _); [|apply quiet_refl].
    destruct (clientConns_ m !! _) as [c|] eqn:Ec; [|apply quiet_refl]. apply (Hq _ _ _ Ec).
    intros s. apply same_shutdown. by destruct (Hl _ _ Ec).
  - destruct (clientConns_ m !! _) as [c|] eqn:Ec; [|apply quiet_refl]. apply (Hq _ _ _ Ec).
    intros s. apply same_send.
Qed.

Lemma delivers_with_input buf b m ks :
  backendConn_ m = Some b -> clients_live m ->
  foldl deliver (with_input buf b m) ks = with_input buf b (foldl deliver m ks).
Proof.
  revert m. induction ks as [|k ks IH]; intros m Hb Hl; [done|]. cbn [foldl].
  rewrite deliver_with_input by done. pose proof (deliver_quiet m k Hl) as Hq.
  apply IH; [by rewrite (proj1 Hq)|by eapply quiet_live].
Qed.

Lemma stream_step m b s q data ms p :
  backendConn_ m = Some b -> conns m !! b = Some s -> holds (s_in s) q -> clients_live m ->
  readable_into (s_in s) data -> q ++ data = encode_all enc_packet ms ++ p ->
  Forall small_packet ms -> partial enc_packet small_packet p ->
  exists buf s', backend_data same_loop data m = Ok (tt, with_input buf b (foldl deliver m ms))
    /\ holds buf p /\ conns (with_input buf b (foldl deliver m ms)) !! b = Some s' /\ s_in s' = buf.
Proof.
  intros Hb Hs Hq Hl Hf E Hms Hp.
  assert (wp (backend_data same_loop data) m (fun _ m' => exists buf s', 
    m' = with_input buf b (foldl deliver m ms) /\ holds buf p /\ conns m' !! b = Some s' /\ s_in s' = buf))
    as ( [] & m' & Er & buf & s' & -> & Hrest); [|by exists buf, s'].
  unfold backend_data. wp_step. wp_step. rewrite Hb.
  apply (message_spec m b s q data _ (fun m' => exists buf s', 
    m' = with_input buf b (foldl deliver m ms) /\ holds buf p /\ conns m' !! b = Some s' /\ s_in s' = buf));
    [done..|].
  intros buf Hbuf m1. rewrite E in Hbuf.
  assert (m1 = with_input buf b m) as Em1.
  { unfold m1, with_input. by rewrite <- (insert_alter (sess_setInput buf) b s). }
  assert (clients_live m1) as Hl1
    by (eapply quiet_live; [by eapply (quiet_insert m b s), same_input|done]).
  eapply wp_mono; [eapply onBackendMessage_spec; [exact Hbuf|done..]|].
  intros buf' m2 (Hb' & Hq2 & Hd). specialize (Hd Hall).
  rewrite Em1, delivers_with_input in Hd by done.
  assert (exists s2, conns m2 !! b = Some s2) as [s2 Hs2].
  { destruct Hq2 as (_ & _ & _ & T). specialize (T b). unfold m1 in T. cbn [conns set_conns] in T.
    rewrite lookup_insert_eq in T. inversion T. by eexists. }
  exists s2. split; [done|]. exists buf', (sess_setInput buf' s2). split_and!; [|done| |done].
  - rewrite (insert_alter (sess_setInput buf')) by done. fold (with_input buf' b m2).
    by rewrite Hd, with_input_with_input.
  - apply lookup_insert_eq.
Qed.

Lemma stream_run chunks m b s q ms :
  backendConn_ m = Some b -> conns m !! b = Some s -> holds (s_in s) q -> clients_live m ->
  partial enc_packet small_packet q -> Forall small_packet ms ->
  q ++ mjoin chunks = encode_all enc_packet ms -> rooms same_loop b chunks m ->
  exists buf, for_each (backend_data same_loop) chunks m
    = Ok (tt, with_input buf b (foldl deliver m ms)) /\ holds buf [].
Proof.
  revert m s q ms. induction chunks as [|c chunks IH]; intros m s q ms Hb Hs Hq Hl Hp Hms E Hr; cbn [for_each].
  - cbn in E. rewrite app_nil_r in E.
    assert (ms = []) as ->.
    { destruct ms as [|k ms]; [done|]. exfalso. rewrite encode_all_cons in E. apply Forall_cons in Hms as [Hk _].
      destruct Hp as [->|(k' & r & Hk' & Hr' & Ep)]; [done|]. rewrite E in Ep.
      destruct (header_small k (encode_all enc_packet ms ++ r) Hk) as (c0 & c1 & c2 & Eq & E0 & _).
      destruct (header_small k' [] Hk') as (d0 & d1 & d2 & Eq' & E0' & _).
      rewrite !app_nil_r in Eq'. rewrite <- (assoc_L (++)), Eq, Eq' in Ep. injection Ep as -> -> -> Ep.
      apply (f_equal zlen) in Ep. rewrite !zlen_app in Ep.
      assert (0 < zlen r) by (destruct r; [done|rewrite zlen_cons; pose proof (zlen_nonneg r); lia]).
      pose proof (zlen_nonneg (encode_all enc_packet ms)). lia. }
    exists (s_in s). cbn. split; [|by rewrite E in Hq]. cbn in E. 
    unfold with_input. rewrite <- (insert_alter (sess_setInput (s_in s)) b s) by done.
    assert (sess_setInput (s_in s) s = s) as -> by (by destruct s). rewrite insert_id by done. by destruct m.
  - destruct Hr as [Hf Hr]. cbn in E. rewrite (assoc_L (++)) in E.
    destruct (stream_prefix enc_packet small_packet ms (q ++ c) (mjoin chunks) Hms E)
      as (ms1 & ms2 & p & -> & Ec & E' & Hp').
    apply Forall_app in Hms as [Hms1 Hms2].
    destruct (stream_step m b s q c ms1 p) as (buf & s' & Er & Hbuf & Hs' & Ein); try done; [by apply Hf|].
    assert (forall ks m0, clients_live m0 -> quiet m0 (foldl deliver m0 ks)) as Hqs.
    { intros ks. induction ks as [|k ks IHk]; intros m0 Hl0; [apply quiet_refl|]. cbn [foldl].
      pose proof (deliver_quiet m0 k Hl0). eapply quiet_trans; [done|]. apply IHk. by eapply quiet_live. }
    pose proof (Hqs ms1 m Hl) as Hq1.
    assert (clients_live (foldl deliver m ms1)) as Hl1 by (by eapply quiet_live).
    set (m1 := with_input buf b (foldl deliver m ms1)) in *.
    assert (clients_live m1) as Hlm.
    { intros id cl Hcl. destruct (Hl1 id cl Hcl) as [Hsome Hne]. split; [|done].
      unfold m1, with_input. cbn [conns set_conns].
      destruct (decide (cl = b)) as [->|?]; [by rewrite lookup_alter_eq; apply fmap_is_Some|].
      by rewrite lookup_alter_ne. }
    destruct (IH m1 s' p ms2) as (buf' & Er' & Hbuf'); try done; [|by rewrite Ein|by apply Hr|].
    { unfold m1, with_input. cbn [backendConn_ set_conns]. by rewrite (proj1 Hq1). }
    exists buf'. split; [|done]. unfold mbind, ST_bind. rewrite Er, Er'. unfold m1.
    rewrite delivers_with_input, with_input_with_input, foldl_app; [done|by rewrite (proj1 Hq1)|done].
Qed.
End stream.


Definition mux_up : list mux_event := [BackendUp 100; ClientUp 1; ClientUpRest 1].
Definition mux_upped : Run :=
  match for_each (mux_run (H := Debug) sample_addr (fun _ => true)) mux_up (mkRun MultiplexServer_ctor ∅) with
  | Ok (_, r) => r | Err _ => mkRun MultiplexServer_ctor ∅ end.

Lemma mux_upped_inv : mux_inv mux_upped.
Proof.
  destruct (mux_run_inv (H := Debug) sample_addr (fun _ => true) mux_up (mkRun MultiplexServer_ctor ∅))
    as ( [] & r & E & Hi).
  - intros p. by vm_compute.
  - apply mux_inv_ctor.
  - unfold mux_up. solve_mux_allowed (@nil packet).
  - unfold mux_upped. by rewrite E.
Qed.


(** ** Pointers sent to another loop *)

Section late_sends.
Context `{Build} (same_loop : Z -> bool).
Implicit Types m : MultiplexServer.

(** A fresh input buffer, over any memory of its first size. *)
Definition fresh_over (mem : bytes) : Buffer := mkBuffer mem kCheapPrependSize kCheapPrependSize.
Definition overwritten (mem data : bytes) : bytes :=
  take 8 mem ++ data ++ drop (Z.to_nat (8 + zlen data)) mem.

Lemma fresh_over_holds mem : zlen mem = 1032 -> holds (fresh_over mem) [].
Proof.
  intros Hm. unfold holds, wf, fresh_over, size, kCheapPrependSize, max_size. cbn [buffer_ readIndex_ writeIndex_].
  rewrite Hm. split_and!; lia || done.
Qed.

Lemma zlen_overwritten mem data :
  zlen mem = 1032 -> zlen data <= 1024 -> zlen (overwritten mem data) = 1032.
Proof.
  intros Hm Hd. pose proof (zlen_nonneg data). unfold overwritten.
  rewrite !zlen_app, zlen_drop by lia. change 8%nat with (Z.to_nat 8). rewrite zlen_take by lia. lia.
Qed.

Lemma readFd_fresh mem data :
  zlen mem = 1032 -> zlen data <= 1024 ->
  readFd (fresh_over mem) (ReadOk data)
    = Ok (zlen data, 0, mkBuffer (overwritten mem data) 8 (8 + zlen data)).
Proof.
  intros Hm Hd. pose proof (zlen_nonneg data). unfold readFd.
  rewrite (writableBytes_wf (fresh_over mem)) by apply (fresh_over_holds mem Hm).
  unfold size, beginWrite, fresh_over, kCheapPrependSize. cbn [buffer_ writeIndex_ readIndex_]. rewrite Hm.
  rewrite take_ge by (unfold zlen in *; lia). rewrite mem_write_ok by lia. simp_out.
  change (take (Z.to_nat 8) mem ++ data ++ drop (Z.to_nat (8 + zlen data)) mem) with (overwritten mem data).
  rewrite (proj2 (Z.leb_le _ _)) by lia. unfold hasWritten, writableBytes, size. cbn [buffer_ writeIndex_].
  rewrite zlen_overwritten by done. rewrite assert_true by (by rewrite u64_small by lia; apply Z.leb_le; lia).
  simp_out. cbn [writeIndex_ readIndex_ buffer_]. rewrite u64_small by lia. done.
Qed.

(** The packet leaves a pointer to its payload behind and an empty buffer over it. *)
Lemma late_one m b sb c s k mem :
  backendConn_ m = Some b -> conns m !! b = Some sb -> s_in sb = fresh_over mem -> zlen mem = 1032 ->
  small_packet k -> k.1 <> 0 -> clientConns_ m !! k.1 = Some c -> conns m !! c = Some s -> c <> b ->
  clients_live m -> same_loop c = false -> sess_connected s = true ->
  backend_data same_loop (enc_packet k) m =
    Ok (tt, set_late (late m ++ [(c, 11, zlen k.2)])
              (set_conns (<[b := sess_setInput (fresh_over (overwritten mem (enc_packet k))) sb]> (conns m)) m)).
Proof.
  intros Hb Hsb Hin Hm Hk Hk0 Hcl Hs Hcb Hl Hsl Hst.
  pose proof Hk as [_ Hlen]. pose proof (zlen_enc_packet k) as Hz.
  pose proof (readFd_fresh mem (enc_packet k) Hm ltac:(lia)) as Er.
  set (buf := mkBuffer _ 8 _) in Er.
  assert (holds buf (enc_packet k)) as Hbuf.
  { destruct (holds_readFd (fresh_over mem) [] (enc_packet k)) as (buf' & E' & Hb');
      [by apply fresh_over_holds|left; unfold size; cbn [buffer_ fresh_over writeIndex_]; rewrite Hm;
       unfold kCheapPrependSize; lia|]. rewrite Er in E'. by injection E' as <-. }
  set (m1 := set_conns (<[b := sess_setInput buf sb]> (conns m)) m).
  assert (clients_live m1) as Hl1
    by (eapply quiet_live; [by eapply (quiet_insert m b sb), same_input|done]).
  assert (wp (Shared.onBackendMessage same_loop buf) m1 (fun buf' m' =>
    buf' = retrieveAll buf /\ m' = set_late (late m1 ++ [(c, 11, zlen k.2)]) m1)) as Hw.
  { unfold Shared.onBackendMessage. rewrite (holds_length _ _ Hbuf), Hz.
    replace (S (Z.to_nat (3 + zlen k.2))) with (S (S (Z.to_nat (2 + zlen k.2)))) by lia.
    cbn [Shared.onBackendMessage_loop]. wp_step.
    eapply wp_mono; [apply (turn_packet same_loop m1 buf k []); [by rewrite app_nil_r|done|done]|].
    intros ? m2 (buf' & -> & Hb' & _ & _ & Ert & Hlt).
    specialize (Hlt c s Hk0 Hcl). rewrite Hlt; [|unfold m1; cbn; by rewrite lookup_insert_ne|done|done].
    wp_step. eapply wp_mono; [apply (packet_wait same_loop _ buf' []); [done|by left]|].
    intros ? ? [-> ->]. wp_step. split; [|done].
    revert Ert. unfold retrieve. rewrite (holds_length _ _ Hbuf), Hz. unfold kHeaderLen.
    rewrite assert_true by (apply Z.leb_le; lia). simp_out.
    rewrite (proj2 (Z.ltb_ge _ _)) by lia. by intros [= <-]. }
  set (m3 := set_late (late m ++ _) _).
  enough (wp (backend_data same_loop (enc_packet k)) m (fun _ m' => m' = m3))
    as ( [] & m' & E & ->) by exact E.
  unfold backend_data. wp_step. wp_step. rewrite Hb. unfold message. wp_step. apply wp_on_table.
  unfold received. wp_step. apply (wp_conn_at b sb); [done|]. wp_step. rewrite Hin.
  apply (wp_lift _ (zlen (enc_packet k), 0, buf)); [exact Er|]. wp_step. wp_step.
  apply wp_on_table, (wp_conn_at b (sess_setInput buf sb)); [apply lookup_insert_eq|].
  cbn [conns set_conns s_in sess_setInput]. wp_step. eapply wp_mono; [exact Hw|].
  intros buf' m2 [-> ->]. eapply (wp_on_client _ b (sess_setInput buf sb)); [apply lookup_insert_eq|].
  unfold m3, m1, set_late, set_conns. cbn. by rewrite insert_insert_eq.
Qed.
End late_sends.

(** The threaded multiplexer gives a client in another loop a pointer into the
    backend's input buffer, not the bytes.  If the backend's next packet, of the same size,
    is read before that loop runs the posted send, the client gets the second packet twice
    and the first never. *)
Theorem multiplexer_late_send `{Build} same_loop r b sb c s id d1 d2 :
  mux_inv r -> late (mux r) = [] -> backendConn_ (mux r) = Some b ->
  conns (mux r) !! b = Some sb -> s_in sb = Buffer_empty ->
  clientConns_ (mux r) !! id = Some c -> conns (mux r) !! c = Some s -> s_state s = kConnected ->
  same_loop c = false -> small_packet (id, d1) -> small_packet (id, d2) -> zlen d1 = zlen d2 ->
  exists m buf m', (backend_data same_loop (enc_packet (id, d1)) ;;
                    backend_data same_loop (enc_packet (id, d2))) (mux r) = Ok (tt, m)
    /\ s_in <$> conns m !! b = Some buf
    /\ (Multiplexer.run_late buf ;; Multiplexer.run_late buf) m = Ok (tt, m')
    /\ s_out <$> conns m' !! c = Some (s_out s ++ d2 ++ d2) /\ late m' = [].
Proof.
  intros Hi Hlate Hb Hsb Hin Hcl Hs Hst Hsl Hk1 Hk2 Hlen.
  pose proof (inv_live r Hi) as Hl. destruct (Hl id c Hcl) as [_ Hne].
  assert (c <> b) as Hcb by congruence. clear Hne.
  assert (sess_connected s = true) as Hup by (unfold sess_connected; by rewrite bool_decide_eq_true_2).
  assert (id <> 0) as Hid.
  { intros ->. destruct Hi as (_ & _ & H3). rewrite Hb in H3. destruct H3 as (_ & _ & _ & Hcs).
    apply Hcs in Hcl as [? _]. lia. }
  set (mem0 := buffer_ Buffer_empty). assert (zlen mem0 = 1032) as Hm0 by done.
  pose proof (late_one same_loop (mux r) b sb c s (id, d1) mem0 Hb Hsb Hin Hm0 Hk1 Hid Hcl Hs Hcb Hl Hsl Hup) as E1.
  set (mem1 := overwritten mem0 _) in E1. set (sb1 := sess_setInput _ sb) in E1. set (m1 := set_late _ _) in E1.
  assert (zlen mem1 = 1032) as Hm1
    by (apply zlen_overwritten; [done|rewrite zlen_enc_packet; destruct Hk1; cbn in *; lia]).
  assert (clients_live m1) as Hl1.
  { intros i x Hx. destruct (Hl i x Hx) as [Hsome Hn]. split; [|done]. cbn.
    rewrite lookup_insert_ne by (cbn in Hn; congruence). done. }
  assert (conns m1 !! c = Some s) as Hs1 by (cbn; by rewrite lookup_insert_ne).
  assert (conns m1 !! b = Some sb1) as Hsb1 by (cbn; by rewrite lookup_insert_eq).
  pose proof (late_one same_loop m1 b sb1 c s (id, d2) mem1 Hb Hsb1 eq_refl Hm1 Hk2 Hid Hcl Hs1 Hcb Hl1 Hsl Hup) as E2.
  set (mem2 := overwritten mem1 _) in E2. set (sb2 := sess_setInput _ sb1) in E2. set (m2 := set_late _ _) in E2.
  assert (late m2 = [(c, 11, zlen d2); (c, 11, zlen d2)]) as Hlate2
    by (cbn; rewrite Hlate, Hlen; done).
  assert (mem_read mem2 11 (zlen d2) = Ok d2) as Er.
  { unfold mem2, overwritten. unfold enc_packet at 1. cbn [fst snd].
    rewrite <- !(assoc_L (++)), (assoc_L (++) (take 8 mem1)). apply mem_read_app; [|done].
    rewrite zlen_app. change 8%nat with (Z.to_nat 8). rewrite zlen_take by lia. done. }
  set (snd2 := fun x : Session Z => mkSession (s_state x) (s_in x) (s_out x ++ d2) (s_context x) (s_delayed x)).
  assert (conns m2 !! c = Some s) as Hs2 by (cbn; by rewrite !lookup_insert_ne).
  exists m2, (fresh_over mem2), (set_late [] (set_conns (<[c := snd2 (snd2 s)]> (conns m2)) m2)). split_and!.
  - unfold mbind, ST_bind. by rewrite E1, E2.
  - cbn. by rewrite lookup_insert_eq.
  - assert (forall m x l, conns m !! c = Some x -> late m = (c, 11, zlen d2) :: l ->
      Multiplexer.run_late (fresh_over mem2) m = Ok (tt, set_late l (set_conns (<[c := snd2 x]> (conns m)) m)))
      as Hrun.
    { intros m x l Hx Hlx. unfold Multiplexer.run_late, on_table, zoom, on_conn, conn_at. st_simp.
      rewrite Hlx. cbn [buffer_ fresh_over conns set_late]. rewrite Er. cbn [conns set_late].
      by rewrite Hx. }
    unfold mbind, ST_bind. erewrite (Hrun m2); [|exact Hs2|exact Hlate2].
    erewrite Hrun; [|cbn [conns set_late set_conns]; apply lookup_insert_eq|done].
    unfold set_late, set_conns. cbn. by rewrite insert_insert_eq.
  - cbn [conns set_late set_conns]. rewrite lookup_insert_eq. cbn. by rewrite <- (assoc_L (++)).
  - done.
Qed.

Lemma multiplexer_late_send_witness :
  exists m buf m', (backend_data (H := Debug) (fun _ => false) (enc_packet (1, cs "one")) ;;
                    backend_data (H := Debug) (fun _ => false) (enc_packet (1, cs "two"))) (mux mux_upped) = Ok (tt, m)
    /\ s_in <$> conns m !! 100 = Some buf
    /\ (Multiplexer.run_late buf ;; Multiplexer.run_late buf) m = Ok (tt, m')
    /\ s_out <$> conns m' !! 1 = Some (cs "twotwo").
Proof.
  destruct (multiplexer_late_send (H := Debug) (fun _ => false) mux_upped 100
    (default sess_new (conns (mux mux_upped) !! 100)) 1 (default sess_new (conns (mux mux_upped) !! 1)) 1
    (cs "one") (cs "two")) as (m & buf & m' & E1 & E2 & E3 & E4 & _);
    [apply mux_upped_inv|by vm_compute..|].
  - exists m, buf, m'. split_and!; [exact E1|exact E2|exact E3|exact E4].
Defined.

Definition long_buffer (c0 : Z) : Buffer :=
  queue_of ([to_char c0; to_char 1; to_char 0] ++ cs "payload").

Lemma mux_long_packets_witness :
  Shared.onBackendMessage (H := Release) (fun _ => true) (long_buffer 200) (mux mux_upped)
    = Ok (long_buffer 200, mux mux_upped)
  /\ Shared.onBackendMessage (H := Release) (fun _ => true) (long_buffer 253) (mux mux_upped)
    = Err OutOfBounds.
Proof.
  assert (forall c0, holds (long_buffer c0) ([to_char c0; to_char 1; to_char 0] ++ cs "payload")) as Hh.
  { intros c0. destruct (queue_of_ok ([to_char c0; to_char 1; to_char 0] ++ cs "payload")) as (? & ? & ?);
      [by vm_compute|]. by split_and!. }
  split.
  - apply (mux_long_packets (H := Release) (fun _ => true) (mux mux_upped) _ _ _ _ _ (Hh 200)); [done|].
    by vm_compute.
  - eapply (mux_long_packets (H := Release) (fun _ => true) (mux mux_upped) _ _ _ _ _ (Hh 253));
      [done|by vm_compute|by vm_compute|by vm_compute|done|vm_compute; reflexivity|done].
Defined.

(** ** Faults of the connection handlers *)

(** Nine more clients after the first. *)
Definition nine_more : list mux_event :=
  mjoin ((fun i => [ClientUp i; ClientUpRest i]) <$> seqZ 2 9).
(** The backend goes and comes back before the first client is gone. *)
Definition stale_client : list mux_event :=
  mux_up ++ [BackendDown 100; BackendUp 101; ClientUp 2; ClientUpRest 2; ClientDown 1; ClientDownRest 1].
(** A client that goes on sending after the backend has gone. *)
Definition orphan_client : list mux_event :=
  mux_up ++ [BackendDown 100; ClientData 1 (cs "a"); ClientData 1 (cs "b"); ClientData 1 (cs "c")].

(** What goes wrong with the clients.  The tenth client's id fails the assert on its
    way down; a client left from before the backend's return gives an id back that is in
    the queue or held by another, which is then lost, so two clients share an id; a client
    that got no id and sends data stops MultiplexerSimple; a client of the threaded one
    that sends three messages after the backend has gone makes prepend fail, its headers
    having eaten the room kept in front of the input buffer. *)
Theorem mux_client_faults `{Build} addr :
  (forall m p s, conns m !! p = Some s -> s_context s = Some kMaxConns -> NDEBUG = false ->
     Shared.say_down addr Multiplexer.sendBackendPacket p m = Err AssertFailed)
  /\ (forall m b id q, backendConn_ m = Some b -> clientConns_ m !! id = Some q ->
        exists m', Shared.give_back id m = Ok (tt, m') /\ clientConns_ m' !! id = None
          /\ availIds_ m' = availIds_ m ++ [id] /\ conns m' = conns m)
  /\ (forall m p s b buf, backendConn_ m = Some b -> conns m !! p = Some s -> s_context s = None ->
        Simple.onClientMessage p buf m = Err (if NDEBUG then LogicError else AssertFailed))
  /\ (forall m p s id buf, backendConn_ m = None -> conns m !! p = Some s -> s_context s = Some id ->
        wf buf -> 0 < zlen (contents buf) <= kMaxPacketLen -> 0 <= readIndex_ buf < 3 ->
        Multiplexer.onClientMessage p buf m = Err (if NDEBUG then OutOfBounds else AssertFailed)).
Proof.
  split_and!.
  - intros m p s Hs Hc Hn. unfold Shared.say_down, on_table, zoom, getContext, conn_at. st_simp.
    rewrite Hs, Hc. unfold assert_. rewrite Hn. done.
  - intros m b id q Hb Hq. unfold Shared.give_back. st_simp. rewrite Hb. eexists. split; [done|].
    cbn. by rewrite lookup_delete_eq.
  - intros m p s b buf Hb Hs Hc. unfold Simple.onClientMessage, on_table, zoom, getContext, conn_at.
    st_simp. rewrite Hb. cbn. rewrite Hs, Hc. unfold assert_. by destruct NDEBUG.
  - intros m p s id buf Hb Hs Hc Hw Hz Hr.
    unfold Multiplexer.onClientMessage, on_table, zoom, getContext, conn_at. st_simp. rewrite Hs, Hc.
    unfold Shared.sendBackendBuffer. cbn [Shared.sendBackendBuffer_loop].
    rewrite readableBytes_wf by done. rewrite (proj2 (Z.ltb_ge _ _)), (proj2 (Z.ltb_lt _ _)) by lia.
    unfold Multiplexer.sendBackendPacket. st_simp.
    assert (prepend buf (header (readableBytes buf) id) = Err (if NDEBUG then OutOfBounds else AssertFailed)) as ->;
      [|done].
    unfold prepend, prependableSize. rewrite zlen_header. rewrite assert_false by (apply Z.leb_gt; lia).
    destruct NDEBUG; [|done]. simp_out. rewrite mem_write_oob; [done|].
    rewrite zlen_header. destruct Hw as (? & ? & ?). unfold size, max_size in *.
    unfold wrapu. rewrite <- (Z.mod_unique _ (2 ^ 64) (-1) (readIndex_ buf - 3 + 2 ^ 64)); lia.
Qed.

(** All four happen in runs of the programs. *)
Lemma mux_client_faults_witness :
  for_each (mux_run (H := Debug) sample_addr (fun _ => true))
    (mux_up ++ nine_more ++ [ClientDown 10]) (mkRun MultiplexServer_ctor ∅) = Err AssertFailed
  /\ (exists r, for_each (mux_run (H := Release) sample_addr (fun _ => true)) stale_client
        (mkRun MultiplexServer_ctor ∅) = Ok (tt, r)
      /\ availIds_ (mux r) = [2; 3; 4; 5; 6; 7; 8; 9; 10; 1] /\ clientConns_ (mux r) !! 1 = None
      /\ s_context <$> conns (mux r) !! 2 = Some (Some 1))
  /\ for_each (mux_run (H := Debug) sample_addr (fun _ => true)) orphan_client
        (mkRun MultiplexServer_ctor ∅) = Err AssertFailed
  /\ for_each (mux_run (H := Release) sample_addr (fun _ => true)) orphan_client
        (mkRun MultiplexServer_ctor ∅) = Err OutOfBounds
  /\ Shared.say_down (H := Debug) sample_addr (Multiplexer.sendBackendPacket (H := Debug)) 7
       (set_conns {[ 7 := mkSession kDisconnected Buffer_empty [] (Some 10) [] ]} MultiplexServer_ctor)
     = Err AssertFailed.
Proof.
  split_and!; [by vm_compute| |by vm_compute|by vm_compute|].
  - eexists. split; [vm_compute; reflexivity|]. split_and!; by vm_compute.
  - destruct (mux_client_faults (H := Debug) sample_addr) as (Hten & _).
    eapply Hten; [apply lookup_singleton_eq|done|done].
Defined.
