(* ===== verification/Demux.v ===== *)
(** * The demultiplexer: src/arale/examples/multiplexer/Demux.cc

    The backend of the multiplexer: for each client that is announced it opens a connection
    of its own, here to a socks server, and forwards what comes for the client's id; bytes
    that come before that connection is made wait in the entry's buffer.  A TcpClient is
    named by its id; what is done to it is logged. *)

From S2P Require Import Prelude Format Buffer TcpConnection Session Multiplexer.

Record Entry := mkEntry {
  id_ : Z;
  connection_ : option Z;
  client_ : option Z;                (* the TcpClient, by the id it was made for *)
  buf_ : Buffer
}.
(** The members of [Entry entry;] that have a constructor. *)
Definition Entry_default : Entry := mkEntry 0 None None Buffer_empty.

Inductive client_action := ClientConnect (id : Z) (name : bytes) | ClientDestroy (id : Z).

Record DemuxServer := mkDemux {
  serverConnection_ : option Z;
  socksConnections_ : gmap Z Entry;
  d_conns : Table unit;
  actions : list client_action
}.
Definition DemuxServer_ctor : DemuxServer := mkDemux None ∅ ∅ [].

Section setters.
Implicit Types m : DemuxServer.
Definition set_server c m := mkDemux c (socksConnections_ m) (d_conns m) (actions m).
Definition set_socks e m := mkDemux (serverConnection_ m) e (d_conns m) (actions m).
Definition set_dconns t m := mkDemux (serverConnection_ m) (socksConnections_ m) t (actions m).
Definition add_action a m := mkDemux (serverConnection_ m) (socksConnections_ m) (d_conns m) (actions m ++ a).
End setters.

Section demux.
Context `{Build}.

Definition on_dtable {A} (o : ST (Table unit) A) : ST DemuxServer A := zoom d_conns set_dconns o.

(** socksConnections_.find(id) != end() *)
Definition has_entry (id : Z) : ST DemuxServer bool :=
  gets (fun m => bool_decide (is_Some (socksConnections_ m !! id))).
(** socksConnections_[id], which makes an entry that is not there. *)
Definition entry_ref (id : Z) : ST DemuxServer Entry :=
  r ← gets (fun m => socksConnections_ m !! id);
  match r with
  | Some e => mret e
  | None => modify (fun m => set_socks (<[id := Entry_default]> (socksConnections_ m)) m) ;;
            mret Entry_default
  end.
Definition put_entry (id : Z) (e : Entry) : ST DemuxServer unit :=
  modify (fun m => set_socks (<[id := e]> (socksConnections_ m)) m).
(** The entry's TcpClient goes with it. *)
Definition drop_client (e : Entry) : ST DemuxServer unit :=
  match client_ e with Some c => modify (add_action [ClientDestroy c]) | None => mret tt end.
Definition erase_entry (id : Z) : ST DemuxServer unit :=
  r ← gets (fun m => socksConnections_ m !! id);
  modify (fun m => set_socks (delete id (socksConnections_ m)) m) ;;
  match r with Some e => drop_client e | None => mret tt end.

Definition onServerConnection (p : Z) : ST DemuxServer unit :=
  up ← on_dtable (isConnected p);
  cur ← gets serverConnection_;
  if (up : bool) then
    match cur with
    | Some c => on_dtable (shutdown c)
    | None => modify (set_server (Some p))
    end
  else
    when (bool_decide (cur = Some p))
      (modify (set_server None) ;;
       es ← gets socksConnections_;
       modify (set_socks ∅) ;;
       for_each drop_client ((map_to_list es).*2)).

(** The number at &cmd[kConn.size()] and what to do; indexing past the end of a shorter
    string is undefined. *)
Definition doCommand (cmd : bytes) : ST DemuxServer unit :=
  let kConn := cs "CONN " in
  when (zlen cmd <? zlen kConn) (fail OutOfBounds) ;;
  let id := atoi (drop (length kConn) cmd) in
  let isUp := bool_decide (search (cs " IS UP") cmd <> None) in
  if isUp then
    known ← has_entry id;
    lift (assert_ (negb known)) ;;
    old ← gets (fun m => socksConnections_ m !! id);
    put_entry id (mkEntry id None (Some id) Buffer_empty) ;;
    match old with Some e => drop_client e | None => mret tt end ;;
    modify (add_action [ClientConnect id (take 63 (cs "SocksClient " ++ fmt_d id))])
  else
    known ← has_entry id;
    lift (assert_ known) ;;
    e ← entry_ref id;
    match connection_ e with Some p => on_dtable (shutdown p) | None => mret tt end ;;
    erase_entry id.

(** What is done with a packet; [payload] is the read of its bytes. *)
Definition dispatch (id : Z) (payload : outcome bytes) : ST DemuxServer unit :=
  if negb (id =? 0) then
    known ← has_entry id;
    lift (assert_ known) ;;
    e ← entry_ref id;
    match connection_ e with
    | Some p =>
        lift (assert_ (readableBytes (buf_ e) =? 0)) ;;
        up ← on_dtable (isConnected p);
        when up (d ← lift payload; on_dtable (send p d))
    | None =>
        d ← lift payload;
        b ← lift (append (buf_ e) d);
        put_entry id (mkEntry (id_ e) (connection_ e) (client_ e) b)
    end
  else cmd ← lift payload; doCommand cmd.

(** The [i]-th readable byte. *)
Definition byte_at (buf : Buffer) (i : Z) : outcome char :=
  d ← mem_read (buffer_ buf) (peek buf + i) 1;
  match d with c :: _ => Ok c | [] => Err OutOfBounds end.

Definition onServerMessage_turn (buf : Buffer) : ST DemuxServer (option Buffer) :=
  if kHeaderLen <? readableBytes buf then
    c0 ← lift (byte_at buf 0);
    let len := u64 (schar c0) in
    if readableBytes buf <? len then mret None
    else
      c1 ← lift (byte_at buf 1);
      c2 ← lift (byte_at buf 2);
      let id := Z.lor (uchar c1) (Z.shiftl (uchar c2) 8) in
      dispatch id (mem_read (buffer_ buf) (peek buf + kHeaderLen) len) ;;
      buf ← lift (retrieve buf (u64 (kHeaderLen + len)));
      mret (Some buf)
  else mret None.
Fixpoint onServerMessage_loop (fuel : nat) (buf : Buffer) : ST DemuxServer Buffer :=
  match fuel with
  | O => fail OutOfFuel
  | S fuel' =>
      r ← onServerMessage_turn buf;
      match r with Some buf => onServerMessage_loop fuel' buf | None => mret buf end
  end.
Definition onServerMessage (buf : Buffer) : ST DemuxServer Buffer :=
  onServerMessage_loop (S (Z.to_nat (readableBytes buf))) buf.

Definition onSocksConnection (connId p : Z) : ST DemuxServer unit :=
  known ← has_entry connId;
  lift (assert_ known) ;;
  up ← on_dtable (isConnected p);
  if (up : bool) then
    e ← entry_ref connId;
    let e := mkEntry (id_ e) (Some p) (client_ e) (buf_ e) in
    put_entry connId e ;;
    when (0 <? readableBytes (buf_ e))
      (b ← on_dtable (send_buf p (buf_ e));
       put_entry connId (mkEntry (id_ e) (Some p) (client_ e) b))
  else
    sc ← gets serverConnection_;
    match sc with
    | Some c =>
        buffer ← lift (append Buffer_empty (take 63 (cs "DISCONNECT " ++ fmt_d connId)));
        _ ← on_dtable (send_buf c buffer);
        mret tt
    | None => erase_entry connId
    end.

Definition sendServerPacket (connId : Z) (buf : Buffer) : ST DemuxServer Buffer :=
  let len := readableBytes buf in
  lift (assert_ (len <=? kMaxPacketLen)) ;;
  buf ← lift (append buf (header len connId));
  sc ← gets serverConnection_;
  match sc with Some c => on_dtable (send_buf c buf) | None => mret buf end.

Fixpoint onSocksMessage_loop (fuel : nat) (connId : Z) (buf : Buffer) : ST DemuxServer Buffer :=
  match fuel with
  | O => fail OutOfFuel
  | S fuel' =>
      if kMaxPacketLen <? readableBytes buf then
        data ← lift (mem_read (buffer_ buf) (peek buf) kMaxPacketLen);
        buf2 ← lift (append Buffer_empty data);
        buf ← lift (retrieve buf kMaxPacketLen);
        _ ← sendServerPacket connId buf2;
        onSocksMessage_loop fuel' connId buf
      else if 0 <? readableBytes buf then sendServerPacket connId buf else mret buf
  end.
Definition onSocksMessage (connId : Z) (buf : Buffer) : ST DemuxServer Buffer :=
  known ← has_entry connId;
  lift (assert_ known) ;;
  onSocksMessage_loop (S (Z.to_nat (readableBytes buf))) connId buf.
End demux.

(** ** Events *)

Inductive demux_event :=
  | ServerRead (ms : list packet)      (* whole packets, in one read *)
  | SocksUp (id p : Z)
  | SocksDown (id p : Z).

Section events.
Context `{Build}.
(** The message callback of the server connection [c]. *)
Definition server_data (c : Z) (data : bytes) : ST DemuxServer unit :=
  on_dtable (received c data) ;;
  s ← on_dtable (conn_at c);
  buf ← onServerMessage (s_in s);
  on_dtable (on_conn c (sess_setInput buf)).
Definition demux_run (ev : demux_event) : ST DemuxServer unit :=
  match ev with
  | ServerRead ms =>
      sc ← gets serverConnection_;
      match sc with Some c => server_data c (encode_all enc_packet ms) | None => mret tt end
  | SocksUp id p => on_dtable (established p) ;; onSocksConnection id p
  | SocksDown id p => on_dtable (closed p) ;; onSocksConnection id p
  end.
End events.

(** ** The abstract demultiplexer

    For each id that is announced, the bytes that came for it; [false] once its connection
    is down, when nothing more is taken. *)

Abbreviation streams := (gmap Z (bool * bytes)).

Definition cmd_id (cmd : bytes) : Z := atoi (drop 5 cmd).
Definition cmd_up (cmd : bytes) : bool := bool_decide (search (cs " IS UP") cmd <> None).
Definition abs_packet (k : packet) (a : streams) : streams :=
  if k.1 =? 0 then
    if cmd_up k.2 then <[cmd_id k.2 := (true, [])]> a else delete (cmd_id k.2) a
  else alter (fun x : bool * bytes => (x.1, if x.1 then x.2 ++ k.2 else x.2)) k.1 a.
Definition abs_event (ev : demux_event) (a : streams) : streams :=
  match ev with
  | ServerRead ms => foldl (fun a k => abs_packet k a) a ms
  | SocksUp _ _ => a
  | SocksDown id _ => alter (fun x : bool * bytes => (false, x.2)) id a
  end.

(** Between callbacks the server connection's input is empty. *)
Definition server_idle (m : DemuxServer) : Prop :=
  forall c s, serverConnection_ m = Some c -> d_conns m !! c = Some s -> holds (s_in s) [].
(** The entry [e] stands for the stream [x]. *)
Definition entry_is (t : Table unit) (e : Entry) (x : bool * bytes) : Prop :=
  match connection_ e with
  | Some p => holds (buf_ e) [] /\ exists s, t !! p = Some s /\ x = (sess_connected s, s_out s)
  | None => x.1 = true /\ holds (buf_ e) x.2
  end.
Definition demux_rel (m : DemuxServer) (a : streams) : Prop :=
  (forall id, option_Forall2 (entry_is (d_conns m)) (socksConnections_ m !! id) (a !! id))
  /\ (forall i1 i2 e1 e2 p, socksConnections_ m !! i1 = Some e1 -> socksConnections_ m !! i2 = Some e2 ->
        connection_ e1 = Some p -> connection_ e2 = Some p -> i1 = i2)
  /\ (forall c, serverConnection_ m = Some c ->
        is_Some (d_conns m !! c)
        /\ forall id e, socksConnections_ m !! id = Some e -> connection_ e <> Some c).

Definition packet_ok (k : packet) (m : DemuxServer) : Prop :=
  if k.1 =? 0 then
    5 <= zlen k.2 /\ (if cmd_up k.2 then socksConnections_ m !! cmd_id k.2 = None
                      else is_Some (socksConnections_ m !! cmd_id k.2))
  else exists e, socksConnections_ m !! k.1 = Some e
         /\ (connection_ e = None -> fits (buf_ e) (zlen k.2)).
Fixpoint packets_ok `{Build} (ms : list packet) (m : DemuxServer) : Prop :=
  match ms with
  | [] => True
  | k :: ms' => packet_ok k m /\ forall m', dispatch k.1 (Ok k.2) m = Ok (tt, m') -> packets_ok ms' m'
  end.
Definition demux_allowed `{Build} (ev : demux_event) (m : DemuxServer) : Prop :=
  match ev with
  | ServerRead ms => Forall small_packet ms
      /\ (forall c s, serverConnection_ m = Some c -> d_conns m !! c = Some s ->
            readable_into (s_in s) (encode_all enc_packet ms)
            /\ forall b, packets_ok ms (set_dconns (<[c := sess_setInput b s]> (d_conns m)) m))
      /\ is_Some (serverConnection_ m)
  | SocksUp id p => d_conns m !! p = None
      /\ exists e, socksConnections_ m !! id = Some e /\ connection_ e = None
  | SocksDown id p => is_Some (serverConnection_ m)
      /\ exists e, socksConnections_ m !! id = Some e /\ connection_ e = Some p
  end.

(** ** Lemmas *)

Section demux_proofs.
Context `{Build}.
Implicit Types (m : DemuxServer) (a : streams).

Lemma wp_on_dtable {A} (o : ST (Table unit) A) m (Q : A -> DemuxServer -> Prop) :
  wp o (d_conns m) (fun x t => Q x (set_dconns t m)) -> wp (on_dtable o) m Q.
Proof. intros Hw. by apply wp_zoom. Qed.

Lemma set_dconns_id m : set_dconns (d_conns m) m = m.
Proof. by destruct m. Qed.

Lemma wp_entry_ref id e m (Q : Entry -> DemuxServer -> Prop) :
  socksConnections_ m !! id = Some e -> Q e m -> wp (entry_ref id) m Q.
Proof. intros He HQ. unfold entry_ref. wp_step. wp_step. rewrite He. by wp_step. Qed.

Lemma wp_has_entry id m (Q : bool -> DemuxServer -> Prop) :
  Q (bool_decide (is_Some (socksConnections_ m !! id))) m -> wp (has_entry id) m Q.
Proof. intros HQ. by apply wp_gets. Qed.

(** The relation sees the state of a connection and what it has sent only. *)
Lemma rel_conns m a t' :
  demux_rel m a ->
  (forall p, option_Forall2 (fun s s' => (sess_connected s', s_out s') = (sess_connected s, s_out s)
     \/ serverConnection_ m = Some p) (d_conns m !! p) (t' !! p)) ->
  demux_rel (set_dconns t' m) a.
Proof.
  intros (H1 & H2 & H3) Ht. unfold demux_rel. cbn [socksConnections_ serverConnection_ d_conns set_dconns].
  split_and!; [|done|].
  - intros id. specialize (H1 id). destruct (socksConnections_ m !! id) as [e|] eqn:He;
      inversion H1 as [e' x Hx|]; subst; constructor.
    unfold entry_is in *. destruct (connection_ e) as [p|] eqn:Hp; [|done].
    destruct Hx as (Hb & s & Hsp & ->). split; [done|]. specialize (Ht p). rewrite Hsp in Ht.
    inversion Ht as [s0 s' [E|E]|]; subst; [by exists s'|]. by destruct (proj2 (H3 p E) id e).
  - intros c Hc. destruct (H3 c Hc) as [ [s Hs] Hne]. split; [|done].
    specialize (Ht c). rewrite Hs in Ht. by inversion Ht.
Qed.

(** An entry changes, with its stream. *)
Lemma rel_insert m a id e x :
  demux_rel m a -> entry_is (d_conns m) e x ->
  (forall p, connection_ e = Some p -> serverConnection_ m <> Some p
     /\ forall i e', socksConnections_ m !! i = Some e' -> connection_ e' = Some p -> i = id) ->
  demux_rel (set_socks (<[id := e]> (socksConnections_ m)) m) (<[id := x]> a).
Proof.
  intros (H1 & H2 & H3) He Hp. unfold demux_rel. cbn [socksConnections_ serverConnection_ d_conns set_socks].
  split_and!.
  - intros i. destruct (decide (i = id)) as [->|Hne]; [rewrite !lookup_insert_eq; by constructor|].
    rewrite !lookup_insert_ne by done. apply H1.
  - intros i1 i2 e1 e2 p [ [<- <-]|[N1 L1] ]%lookup_insert_Some [ [<- <-]|[N2 L2] ]%lookup_insert_Some C1 C2;
      [done| | |by eapply H2].
    + symmetry. by apply (Hp p C1) with e2.
    + by apply (Hp p C2) with e1.
  - intros c Hc. split; [by apply H3|]. intros i e' [ [<- <-]|[N L] ]%lookup_insert_Some C.
    + by destruct (Hp c C).
    + by apply (H3 c Hc) in L.
Qed.

Lemma rel_delete m a id :
  demux_rel m a -> demux_rel (set_socks (delete id (socksConnections_ m)) m) (delete id a).
Proof.
  intros (H1 & H2 & H3). unfold demux_rel. cbn [socksConnections_ serverConnection_ d_conns set_socks].
  split_and!.
  - intros i. destruct (decide (i = id)) as [->|Hne]; [rewrite !lookup_delete_eq; by constructor|].
    rewrite !lookup_delete_ne by done. apply H1.
  - intros i1 i2 e1 e2 p [_ L1]%lookup_delete_Some [_ L2]%lookup_delete_Some. by apply H2.
  - intros c Hc. split; [by apply H3|]. intros i e' [_ L]%lookup_delete_Some. by apply (H3 c Hc) in L.
Qed.

Lemma rel_action m a l : demux_rel m a -> demux_rel (add_action l m) a.
Proof. done. Qed.

Lemma wp_drop_client e m (Q : unit -> DemuxServer -> Prop) :
  (forall l, Q tt (add_action l m)) -> wp (drop_client e) m Q.
Proof.
  intros HQ. unfold drop_client. destruct (client_ e); [by wp_step|]. wp_step.
  specialize (HQ []). unfold add_action in HQ. rewrite app_nil_r in HQ. by destruct m.
Qed.

Lemma doCommand_rel cmd m a :
  demux_rel m a -> packet_ok (0, cmd) m ->
  wp (doCommand cmd) m (fun _ m' => demux_rel m' (abs_packet (0, cmd) a)
    /\ serverConnection_ m' = serverConnection_ m).
Proof.
  intros Hr [Hlen Hk]. unfold doCommand, abs_packet. cbn [fst snd Z.eqb] in *. cbv zeta.
  change (zlen (cs "CONN ")) with 5. change (length (cs "CONN ")) with 5%nat.
  rewrite (proj2 (Z.ltb_ge _ _)) by lia. wp_step. cbn [when]. wp_step.
  fold (cmd_id cmd). fold (cmd_up cmd). destruct (cmd_up cmd).
  - wp_step. apply wp_has_entry. rewrite Hk. wp_step. wp_step; [done|].
    wp_step. wp_step. rewrite Hk. wp_step. unfold put_entry. wp_step. wp_step. wp_step. wp_step.
    split; [|done]. apply rel_action, rel_insert; [done|split; [done|apply holds_empty]|done].
  - destruct Hk as [e He]. wp_step. apply wp_has_entry. wp_step. wp_step; [by rewrite He|].
    wp_step. eapply wp_entry_ref; [exact He|]. wp_step.
    apply (wp_mono _ _ (fun _ m' => demux_rel (set_socks (delete (cmd_id cmd) (socksConnections_ m')) m')
        (delete (cmd_id cmd) a) /\ serverConnection_ m' = serverConnection_ m)).
    + destruct (connection_ e) as [p|] eqn:Hp; [|wp_step; split; [by apply rel_delete|done] ].
      pose proof Hr as (H1 & H2 & H3). specialize (H1 (cmd_id cmd)) as Hx. rewrite He in Hx.
      inversion Hx as [e' x Hex Hx1 Hx2|]; subst. unfold entry_is in Hex. rewrite Hp in Hex.
      destruct Hex as (_ & s & Hs & _). unfold shutdown. apply wp_on_dtable, (wp_on_conn p s); [done|].
      split; [|done]. cbn [socksConnections_ set_dconns].
      pose proof (rel_delete m a (cmd_id cmd) Hr) as Hd.
      destruct Hd as (D1 & D2 & D3). unfold demux_rel.
      cbn [socksConnections_ serverConnection_ d_conns set_socks set_dconns] in *. split_and!; [|done|].
      * intros i. specialize (D1 i). destruct (decide (i = cmd_id cmd)) as [->|Hne];
          [rewrite !lookup_delete_eq; constructor|].
        rewrite !lookup_delete_ne in * by done. inversion D1 as [e1 x1 Hx1 Q1 Q2|]; constructor.
        unfold entry_is in *. destruct (connection_ e1) as [p1|] eqn:Hp1; [|done].
        rewrite lookup_insert_ne; [done|]. intros ->. apply Hne. by eapply H2.
      * intros c Hc. destruct (D3 c Hc) as [Hsc Hn]. split; [|done].
        rewrite lookup_insert_ne; [done|]. intros ->. by apply (proj2 (H3 c Hc) _ _ He).
    + intros ? m' [Hd Hsc]. unfold erase_entry. wp_step. wp_step. wp_step. wp_step.
      destruct (socksConnections_ m' !! cmd_id cmd); [|by wp_step].
      apply wp_drop_client. intros l. split; [by apply rel_action|done].
Qed.

Lemma dispatch_rel k m a :
  demux_rel m a -> packet_ok k m ->
  wp (dispatch k.1 (Ok k.2)) m (fun _ m' => demux_rel m' (abs_packet k a)
    /\ serverConnection_ m' = serverConnection_ m).
Proof.
  intros Hr Hk. destruct k as [id d]. cbn [fst snd]. unfold dispatch.
  destruct (Z.eqb_spec id 0) as [->|Hne]; cbn [negb].
  { wp_step. apply (wp_lift _ d); [done|]. by apply doCommand_rel. }
  unfold packet_ok in Hk. cbn [fst snd] in Hk. rewrite (proj2 (Z.eqb_neq id 0)) in Hk by done.
  destruct Hk as (e & He & Hfit). pose proof Hr as (H1 & H2 & H3).
  specialize (H1 id) as Hx. rewrite He in Hx. inversion Hx as [e' x Hex Hx1 Hx2|]; subst.
  assert (abs_packet (id, d) a = <[id := (x.1, if x.1 then x.2 ++ d else x.2)]> a) as ->.
  { unfold abs_packet. cbn [fst snd]. rewrite (proj2 (Z.eqb_neq id 0)) by done.
    apply map_eq. intros i. destruct (decide (i = id)) as [->|?].
    - by rewrite lookup_alter_eq, lookup_insert_eq, <- Hx2.
    - by rewrite lookup_alter_ne, lookup_insert_ne. }
  wp_step. apply wp_has_entry. wp_step. wp_step; [by rewrite He|]. wp_step.
  eapply wp_entry_ref; [exact He|]. unfold entry_is in Hex. destruct (connection_ e) as [p|] eqn:Hp.
  - destruct Hex as (Hb & s & Hs & ->). cbn [fst snd] in *.
    wp_step. wp_step; [by rewrite (holds_length _ _ Hb)|]. wp_step.
    apply wp_on_dtable, (wp_isConnected p s); [done|]. rewrite set_dconns_id.
    assert (forall s' x', x' = (sess_connected s', s_out s') ->
      demux_rel (set_dconns (<[p := s']> (d_conns m)) m) (<[id := x']> a)) as Hput.
    { intros s' x' ->. unfold demux_rel. cbn [socksConnections_ serverConnection_ d_conns set_dconns].
      split_and!; [|done|].
      - intros i. destruct (decide (i = id)) as [->|Hni].
        + rewrite He, lookup_insert_eq. constructor. unfold entry_is. rewrite Hp. split; [done|].
          exists s'. by rewrite lookup_insert_eq.
        + rewrite lookup_insert_ne by done. pose proof (proj1 Hr i) as Hi.
          destruct (socksConnections_ m !! i) as [e1|] eqn:He1; inversion Hi as [? x1 Hx1' Q1 Q2|]; constructor.
          unfold entry_is in *. destruct (connection_ e1) as [p1|] eqn:Hp1; [|done].
          rewrite lookup_insert_ne; [done|]. intros ->. apply Hni. by eapply H2.
      - intros c Hc. destruct (H3 c Hc) as [Hsc Hn]. split; [|done].
        rewrite lookup_insert_ne; [done|]. intros ->. by apply (Hn _ _ He). }
    wp_step.
    + match goal with Hup : sess_connected s = true |- _ => rename Hup into Hup' end.
      wp_step. apply (wp_lift _ d); [done|]. unfold send. apply wp_on_dtable, (wp_on_conn p s); [done|].
      split; [|done]. apply Hput. unfold sess_send. rewrite Hup'. f_equal.
      unfold sess_connected in *. cbn [s_state]. by rewrite Hup'.
    + match goal with Hup : sess_connected s = false |- _ => rename Hup into Hup' end.
      split; [|done]. rewrite Hup'. specialize (Hput s (sess_connected s, s_out s) eq_refl).
      rewrite insert_id in Hput by done. rewrite set_dconns_id, Hup' in Hput. done.
  - destruct Hex as [Hx1' Hb]. destruct x as [up q]. cbn [fst snd] in *. subst up.
    wp_step. apply (wp_lift _ d); [done|]. destruct (holds_append (buf_ e) q d Hb) as (b & Ea & Hb');
      [by apply Hfit|].
    wp_step. apply (wp_lift _ b); [done|]. unfold put_entry. wp_step. split; [|done].
    apply rel_insert; [done| |].
    + split; done.
    + done.
Qed.
End demux_proofs.

Section demux_loop.
Context `{Build}.
Implicit Types (m : DemuxServer) (a : streams).

Lemma byte_at_spec buf q i c rest :
  holds buf q -> drop (Z.to_nat i) q = c :: rest -> 0 <= i -> byte_at buf i = Ok c.
Proof.
  intros Hh Hd Hi. unfold byte_at.
  assert (i + 1 <= zlen q).
  { pose proof (f_equal zlen Hd) as Hz. rewrite zlen_cons in Hz. pose proof (zlen_nonneg rest).
    unfold zlen in *. rewrite length_drop in Hz. lia. }
  rewrite (holds_read buf q) by (done || lia). by rewrite Hd.
Qed.

(** The bytes of a small packet, as the demultiplexer reads them. *)
Lemma header_unsigned k rest :
  small_packet k -> exists c0 c1 c2, enc_packet k ++ rest = c0 :: c1 :: c2 :: k.2 ++ rest
    /\ u64 (schar c0) = zlen k.2 /\ Z.lor (uchar c1) (Z.shiftl (uchar c2) 8) = k.1.
Proof.
  intros [Hid Hl]. destruct (small_id k.1 Hid) as (E1 & E2 & E3).
  exists (to_char (zlen k.2)), (to_char (Z.land k.1 255)), (to_char (Z.shiftr (Z.land k.1 65280) 8)).
  split; [done|]. rewrite E1, E2, schar_small, u64_small, !uchar_to_char by lia.
  rewrite !Z.mod_small by lia. done.
Qed.

Lemma server_turn k rest buf m (Q : option Buffer -> DemuxServer -> Prop) :
  holds buf (enc_packet k ++ rest) -> small_packet k ->
  wp (dispatch k.1 (Ok k.2)) m (fun _ m' => forall buf', holds buf' rest -> Q (Some buf') m') ->
  wp (onServerMessage_turn buf) m Q.
Proof.
  intros Hh Hk Hw. pose proof Hk as [_ Hlen].
  destruct (header_unsigned k rest Hk) as (c0 & c1 & c2 & Eq & E0 & E12).
  pose proof (zlen_nonneg rest). pose proof (holds_bound _ _ Hh) as Hmax.
  assert (zlen (enc_packet k ++ rest) = 3 + zlen k.2 + zlen rest) as Hz
    by (rewrite zlen_app, zlen_enc_packet; lia).
  unfold onServerMessage_turn. rewrite (holds_length _ _ Hh), Hz. unfold kHeaderLen in *.
  rewrite (proj2 (Z.ltb_lt _ _)) by lia.
  wp_step. apply (wp_lift _ c0); [by eapply byte_at_spec; [exact Hh|rewrite Eq|]|].
  rewrite E0, (proj2 (Z.ltb_ge _ _)) by lia.
  wp_step. apply (wp_lift _ c1); [by eapply byte_at_spec; [exact Hh|rewrite Eq|]|].
  wp_step. apply (wp_lift _ c2); [by eapply byte_at_spec; [exact Hh|rewrite Eq|]|]. rewrite E12.
  assert (mem_read (buffer_ buf) (peek buf + 3) (zlen k.2) = Ok k.2) as ->.
  { rewrite (holds_read _ _ 3 (zlen k.2) Hh) by lia. rewrite Eq.
    change (drop (Z.to_nat 3) (c0 :: c1 :: c2 :: k.2 ++ rest)) with (k.2 ++ rest).
    f_equal. unfold zlen. by rewrite Nat2Z.id, take_app_length. }
  wp_step. eapply wp_mono; [exact Hw|]. intros ? m' HQ. unfold max_size in *.
  rewrite u64_small by lia.
  destruct (holds_retrieve _ _ (3 + zlen k.2) Hh) as (buf' & Er & Hh'); [lia|].
  wp_step. apply (wp_lift _ buf'); [done|]. apply wp_ret, HQ.
  replace rest with (drop (Z.to_nat (3 + zlen k.2)) (enc_packet k ++ rest)); [done|].
  apply drop_app_length'. pose proof (zlen_enc_packet k). unfold zlen in *. lia.
Qed.

Lemma server_loop_rel fuel ms buf m a :
  holds buf (encode_all enc_packet ms) -> Forall small_packet ms -> demux_rel m a ->
  packets_ok ms m -> (length ms < fuel)%nat ->
  wp (onServerMessage_loop fuel buf) m (fun buf' m' => holds buf' []
    /\ demux_rel m' (foldl (fun a k => abs_packet k a) a ms)
    /\ serverConnection_ m' = serverConnection_ m).
Proof.
  revert fuel buf m a. induction ms as [|k ms IH]; intros fuel buf m a Hh Hms Hr Hok Hf;
    (destruct fuel as [|fuel]; [cbn in Hf; lia|]); cbn [onServerMessage_loop]; wp_step.
  - unfold onServerMessage_turn. rewrite (holds_length _ _ Hh).
    change (kHeaderLen <? zlen (encode_all enc_packet [])) with false. cbv iota. wp_step. by wp_step.
  - apply Forall_cons in Hms as [Hk Hms]. destruct Hok as [Hpk Hok]. rewrite encode_all_cons in Hh.
    eapply server_turn; [exact Hh|done|].
    destruct (dispatch_rel k m a Hr Hpk) as ( [] & m1 & E & Hr1 & Hs1).
    exists tt, m1. split; [done|]. intros buf1 Hh1.
    eapply wp_mono; [apply (IH fuel buf1 m1 (abs_packet k a))|]; [done..|by apply Hok|cbn in Hf; lia|].
    intros buf' m' (Hh' & Hr' & Hs'). split_and!; [done..|congruence].
Qed.

Lemma enc_all_length ms : (length ms <= length (encode_all enc_packet ms))%nat.
Proof.
  induction ms as [|k ms IH]; [done|]. rewrite encode_all_cons, length_app.
  unfold enc_packet at 1. rewrite length_app. cbn [length header] in *. lia.
Qed.

Lemma rel_server_input m a c s s' :
  demux_rel m a -> serverConnection_ m = Some c -> d_conns m !! c = Some s ->
  demux_rel (set_dconns (<[c := s']> (d_conns m)) m) a.
Proof.
  intros Hr Hc Hs. apply rel_conns; [done|]. intros p.
  destruct (decide (p = c)) as [->|Hne]; [rewrite Hs, lookup_insert_eq; constructor; by right|].
  rewrite lookup_insert_ne by done. destruct (d_conns m !! p); constructor. by left.
Qed.

Lemma server_read_rel ms m a :
  demux_rel m a -> server_idle m -> demux_allowed (ServerRead ms) m ->
  wp (demux_run (ServerRead ms)) m (fun _ m' =>
    demux_rel m' (abs_event (ServerRead ms) a) /\ server_idle m').
Proof.
  intros Hr Hidle (Hms & Hok & [c Hc]). cbn [demux_run]. wp_step. wp_step. rewrite Hc.
  pose proof Hr as (_ & _ & H3). destruct (H3 c Hc) as [ [s Hs] Hne]. destruct (Hok c s Hc Hs) as [Hf Hpk].
  pose proof (Hidle c s Hc Hs) as Hin.
  unfold server_data. wp_step. apply wp_on_dtable, (wp_received c s _ []); [done..|].
  intros buf Hbuf. cbn [app] in Hbuf. wp_step. set (m1 := set_dconns _ m).
  assert (d_conns m1 !! c = Some (sess_setInput buf s)) as Hs1 by apply lookup_insert_eq.
  apply wp_on_dtable, (wp_conn_at c (sess_setInput buf s)); [done|]. rewrite set_dconns_id.
  wp_step. cbn [s_in sess_setInput]. unfold onServerMessage.
  eapply wp_mono; [apply (server_loop_rel _ ms buf m1 a)|].
  - done.
  - done.
  - by apply (rel_server_input m a c s).
  - apply Hpk.
  - rewrite (holds_length _ _ Hbuf). unfold zlen. rewrite Nat2Z.id. pose proof (enc_all_length ms). lia.
  - intros buf' m2 (Hb' & Hr2 & Hs2). rewrite (Hc : serverConnection_ m1 = Some c) in Hs2.
    pose proof Hr2 as (_ & _ & K3). destruct (K3 c Hs2) as [ [s2 Hsc] _].
    apply wp_on_dtable, (wp_on_conn c s2); [done|]. split; [by apply (rel_server_input m2 _ c s2)|].
    intros c' s' Hc' Hs'. assert (c' = c) as -> by (cbn in Hc'; congruence).
    cbn in Hs'. rewrite lookup_insert_eq in Hs'. by injection Hs' as <-.
Qed.

Lemma socks_up_rel id p m a :
  demux_rel m a -> server_idle m -> demux_allowed (SocksUp id p) m ->
  wp (demux_run (SocksUp id p)) m (fun _ m' => demux_rel m' (abs_event (SocksUp id p) a) /\ server_idle m').
Proof.
  intros Hr Hidle (Hp & e & He & Hnone). cbn [demux_run abs_event]. pose proof Hr as (H1 & H2 & H3).
  specialize (H1 id) as Hx. rewrite He in Hx. inversion Hx as [e' x Hex Hx1 Hx2|]; subst.
  unfold entry_is in Hex. rewrite Hnone in Hex. destruct x as [up q]. cbn [fst snd] in Hex.
  destruct Hex as [-> Hb].
  assert (forall i e, socksConnections_ m !! i = Some e -> connection_ e <> Some p) as Hfresh.
  { intros i e1 He1 Hp1. specialize (H1 i). rewrite He1 in H1. inversion H1 as [? x1 Hx1' Q1 Q2|]; subst.
    unfold entry_is in Hx1'. rewrite Hp1 in Hx1'. destruct Hx1' as (_ & s & Hs & _). congruence. }
  set (s0 := sess_setState kConnected (sess_new (C := unit))) in *.
  wp_step. apply wp_on_dtable. unfold established.
  eapply wp_Ok; [by rewrite Hp|]. fold s0.
  (* the state with the connection in place, the entry holding it *)
  assert (forall s' b, sess_connected s' = true -> s_out s' = q -> holds b [] ->
    let m2 := set_socks (<[id := mkEntry (id_ e) (Some p) (client_ e) b]> (socksConnections_ m))
                (set_dconns (<[p := s']> (d_conns m)) m) in
    demux_rel m2 a /\ server_idle m2) as Hput.
  { intros s' b Hup Hout Hbb m2. split.
    - assert (demux_rel (set_dconns (<[p := s']> (d_conns m)) m) a) as Hr'.
      { unfold demux_rel. cbn [socksConnections_ serverConnection_ d_conns set_dconns]. split_and!; [|done|].
        - intros i. specialize (H1 i). inversion H1 as [e1 x1 Hx1' Q1 Q2|]; constructor.
          unfold entry_is in *. destruct (connection_ e1) as [p1|] eqn:Hp1; [|done].
          rewrite lookup_insert_ne; [done|]. intros <-. by apply (Hfresh i e1).
        - intros c Hc. destruct (H3 c Hc) as [ [sc Hsc] Hn]. split; [|done].
          rewrite lookup_insert_ne by congruence. done. }
      assert (a = <[id := (true, q)]> a) as -> by (by rewrite insert_id).
      apply (rel_insert _ a id _ (true, q) Hr').
      + split; [done|]. exists s'. cbn. rewrite lookup_insert_eq. split; [done|]. by rewrite Hup, Hout.
      + intros p' [= <-]. cbn [serverConnection_ set_dconns socksConnections_]. split.
        * intros Hc. destruct (H3 p Hc) as [ [sc Hsc] _]. congruence.
        * intros i e' Hi Hp'. by destruct (Hfresh i e' Hi).
    - intros c sc Hc. cbn in Hc |- *. destruct (H3 c Hc) as [ [sc' Hsc] _].
      rewrite lookup_insert_ne by congruence. by apply Hidle. }
  unfold onSocksConnection. wp_step. apply wp_has_entry. wp_step.
  wp_step; [cbn [socksConnections_ set_dconns]; by rewrite He|].
  wp_step. apply wp_on_dtable. eapply (wp_isConnected p s0); [apply lookup_insert_eq|].
  change (sess_connected s0) with true. cbv iota. wp_step. eapply wp_entry_ref; [exact He|].
  wp_step. unfold put_entry. wp_step. cbn [buf_]. rewrite (holds_length _ _ Hb). wp_step.
  - wp_step. apply wp_on_dtable, (wp_send_buf p s0); [cbn; by rewrite lookup_insert_eq|].
    change (sess_connected s0) with true. cbv iota. wp_step.
    unfold set_socks, set_dconns. cbn. rewrite !insert_insert_eq.
    apply (Hput (sess_send (contents (buf_ e)) s0) (retrieveAll (buf_ e))); [done| |].
    + cbn. apply Hb.
    + by eapply holds_retrieveAll.
  - assert (q = []) as -> by (destruct q; [done|];
      match goal with Hz : (0 <? _) = false |- _ => rewrite zlen_cons in Hz; apply Z.ltb_ge in Hz end;
      pose proof (zlen_nonneg q); lia).
    by apply (Hput s0 (buf_ e)).
Qed.

Lemma socks_down_rel id p m a :
  demux_rel m a -> server_idle m -> demux_allowed (SocksDown id p) m ->
  wp (demux_run (SocksDown id p)) m (fun _ m' => demux_rel m' (abs_event (SocksDown id p) a) /\ server_idle m').
Proof.
  intros Hr Hidle ([c Hc] & e & He & Hp). cbn [demux_run abs_event]. pose proof Hr as (H1 & H2 & H3).
  specialize (H1 id) as Hx. rewrite He in Hx. inversion Hx as [e' x Hex Hx1 Hx2|]; subst.
  unfold entry_is in Hex. rewrite Hp in Hex. destruct Hex as (Hb & s & Hs & ->).
  destruct (H3 c Hc) as [ [sc Hsc] Hnc]. assert (p <> c) as Hpc by (intros ->; by apply (Hnc id e)).
  set (s' := sess_setState kDisconnected s).
  wp_step. unfold closed. apply wp_on_dtable, (wp_on_conn p s); [done|]. fold s'.
  set (m1 := set_dconns _ m).
  assert (demux_rel m1 (alter (fun x => (false, x.2)) id a)) as Hr1.
  { unfold demux_rel, m1. cbn [socksConnections_ serverConnection_ d_conns set_dconns]. split_and!; [|done|].
    - intros i. destruct (decide (i = id)) as [->|Hne].
      + rewrite He, lookup_alter_eq, <- Hx2. constructor. unfold entry_is. rewrite Hp. split; [done|].
        exists s'. by rewrite lookup_insert_eq.
      + rewrite lookup_alter_ne by done. specialize (H1 i).
        destruct (socksConnections_ m !! i) as [e1|] eqn:He1; inversion H1 as [? x1 Hx1' Q1 Q2|]; constructor.
        unfold entry_is in *. destruct (connection_ e1) as [p1|] eqn:Hp1; [|done].
        rewrite lookup_insert_ne; [done|]. intros ->. apply Hne. by eapply H2.
    - intros c' Hc'. split; [|by apply H3]. rewrite lookup_insert_ne by congruence.
      by destruct (H3 c' Hc'). }
  assert (d_conns m1 !! c = Some sc) as Hsc1 by (cbn; by rewrite lookup_insert_ne).
  unfold onSocksConnection. wp_step. apply wp_has_entry. wp_step.
  wp_step; [cbn [socksConnections_ set_dconns m1]; by rewrite He|].
  wp_step. apply wp_on_dtable. eapply (wp_isConnected p s'); [apply lookup_insert_eq|].
  rewrite set_dconns_id. change (sess_connected s') with false. cbv iota. wp_step. wp_step.
  rewrite (Hc : serverConnection_ m1 = Some c).
  destruct (holds_append_empty (take 63 (cs "DISCONNECT " ++ fmt_d id))) as (buffer & Ea & Hbuf).
  { unfold zlen. rewrite length_take. unfold kDefaultInitialSize. lia. }
  wp_step. apply (wp_lift _ buffer); [done|]. wp_step. apply wp_on_dtable, (wp_send_buf c sc); [done|].
  wp_step. split; [by apply (rel_server_input m1 _ c sc)|].
  intros c' sc' Hc' Hs'. assert (c' = c) as -> by (cbn in Hc'; congruence).
  cbn in Hs'. rewrite lookup_insert_eq in Hs'. injection Hs' as <-.
  pose proof (Hidle c sc Hc Hsc) as Hi. unfold sess_send. by destruct (sess_connected sc).
Qed.
End demux_loop.

Fixpoint demux_allowed_all `{Build} (evs : list demux_event) (m : DemuxServer) : Prop :=
  match evs with
  | [] => True
  | ev :: evs' => demux_allowed ev m
      /\ forall m', demux_run ev m = Ok (tt, m') -> demux_allowed_all evs' m'
  end.


Lemma demux_rel_start c :
  demux_rel (mkDemux (Some c) ∅ {[ c := sess_setState kConnected sess_new ]} []) ∅
  /\ server_idle (mkDemux (Some c) ∅ {[ c := sess_setState kConnected sess_new ]} []).
Proof.
  split.
  - split_and!.
    + intros id. cbn. rewrite !lookup_empty. constructor.
    + intros i1 i2 e1 e2 p He. cbn in He. by rewrite lookup_empty in He.
    + intros c' [= <-]. cbn. rewrite lookup_singleton_eq. split; [done|]. intros id e He.
      by rewrite lookup_empty in He.
  - intros c' s [= <-] Hs. cbn in Hs. rewrite lookup_singleton_eq in Hs. injection Hs as <-. apply holds_empty.
Qed.

Definition demux_sample : list demux_event :=
  [ServerRead [(0, conn_text 1 (sample_addr 0) (cs "UP")); (1, cs "ab")]; SocksUp 1 7;
   ServerRead [(1, cs "c")]; SocksDown 1 7; ServerRead [(1, cs "late")]].


(** ** From the multiplexer to the demultiplexer *)

Section announce.
Context `{Build}.
Implicit Types (m : DemuxServer).

(** The text of an announcement, whole. *)
Lemma conn_text_eq id addr state :
  0 <= id <= kMaxConns -> zlen addr <= 64 -> zlen state <= 4 -> NUL ∉ addr ->
  conn_text id addr state
    = cs "CONN " ++ fmt_d id ++ cs " FROM " ++ addr ++ cs " IS " ++ state ++ [CR; LF]
  /\ 5 <= zlen (conn_text id addr state) < 128.
Proof.
  intros Hid Ha Hs Hn. unfold conn_text. rewrite (find_char_miss NUL addr), (take_ge addr) by done.
  pose proof (fmt_d_length id 2 ltac:(unfold kMaxConns in *; lia) ltac:(lia)) as Hd.
  assert (zlen (cs "CONN " ++ fmt_d id ++ cs " FROM " ++ addr ++ cs " IS " ++ state ++ [CR; LF]) < 128
    /\ 5 <= zlen (cs "CONN " ++ fmt_d id ++ cs " FROM " ++ addr ++ cs " IS " ++ state ++ [CR; LF]))
    as [Hlt Hge].
  { rewrite !zlen_app. change (zlen (cs "CONN ")) with 5. change (zlen (cs " FROM ")) with 6.
    change (zlen (cs " IS ")) with 4. change (zlen [CR; LF]) with 2.
    pose proof (zlen_nonneg addr). pose proof (zlen_nonneg state). pose proof (zlen_nonneg (fmt_d id)).
    unfold zlen at 1. unfold zlen at 5. lia. }
  rewrite take_ge by (unfold zlen in *; lia). done.
Qed.

Lemma cmd_up_text id addr :
  0 <= id <= kMaxConns -> zlen addr <= 64 -> NUL ∉ addr ->
  cmd_up (conn_text id addr (cs "UP")) = true /\ cmd_id (conn_text id addr (cs "UP")) = id.
Proof.
  intros Hid Ha Hn. destruct (conn_text_eq id addr (cs "UP") Hid Ha ltac:(done) Hn) as [E _].
  unfold cmd_up, cmd_id. rewrite E. split.
  - apply bool_decide_eq_true_2. intros Hs.
    pose proof (search_None _ _ (length (cs "CONN " ++ fmt_d id ++ cs " FROM " ++ addr)) Hs) as Hf.
    rewrite !(assoc_L (++)) in Hf. rewrite <- (assoc_L (++) _ (cs " IS ")), <- (assoc_L (++) _ (cs " IS " ++ _)) in Hf.
    rewrite drop_app_length in Hf. by vm_compute in Hf.
  - change (drop 5 (cs "CONN " ++ fmt_d id ++ cs " FROM " ++ addr ++ cs " IS " ++ cs "UP" ++ [CR; LF]))
      with (fmt_d id ++ cs " FROM " ++ addr ++ cs " IS " ++ cs "UP" ++ [CR; LF]).
    apply atoi_fmt_d; [unfold kMaxConns in *; lia|done].
Qed.

(** An entry that waits, and has room. *)
Definition waiting (e : Entry) (n : Z) : Prop :=
  connection_ e = None /\ exists q, holds (buf_ e) q /\ n <= size (buf_ e) - writeIndex_ (buf_ e).

Lemma dispatch_waiting m id e d b :
  id <> 0 -> socksConnections_ m !! id = Some e -> connection_ e = None -> append (buf_ e) d = Ok b ->
  dispatch id (Ok d) m
    = Ok (tt, set_socks (<[id := mkEntry (id_ e) None (client_ e) b]> (socksConnections_ m)) m).
Proof.
  intros Hid He Hc Ea.
  assert (wp (dispatch id (Ok d)) m (fun _ m' =>
    m' = set_socks (<[id := mkEntry (id_ e) None (client_ e) b]> (socksConnections_ m)) m))
    as ( [] & m2 & E2 & ->); [|exact E2].
  unfold dispatch. rewrite (proj2 (Z.eqb_neq id 0)) by done. cbn [negb].
  wp_step. apply wp_has_entry. wp_step. wp_step; [by rewrite He|]. wp_step.
  eapply wp_entry_ref; [exact He|]. rewrite Hc. wp_step. apply (wp_lift _ d); [done|].
  wp_step. apply (wp_lift _ b); [done|]. unfold put_entry. by wp_step.
Qed.

Lemma packets_ok_waiting ms m id e n :
  id <> 0 -> socksConnections_ m !! id = Some e -> waiting e n ->
  zlen (mjoin ms) <= n -> packets_ok ((fun d => (id, d)) <$> ms) m.
Proof.
  intros Hid. revert m e n. induction ms as [|d ms IH]; intros m e n He Hw Hn; [done|].
  cbn [fmap list_fmap packets_ok]. change (mjoin (d :: ms)) with (d ++ mjoin ms) in Hn. rewrite zlen_app in Hn.
  pose proof (zlen_nonneg d). pose proof (zlen_nonneg (mjoin ms)). destruct Hw as (Hc & q & Hq & Hr). split.
  - unfold packet_ok. cbn [fst snd]. rewrite (proj2 (Z.eqb_neq id 0)) by done. exists e. split; [done|].
    intros _. left. lia.
  - intros m' E. destruct (append_room (buf_ e) d) as (b & Ea & Hb & Hcb & Hsb & Hrb); [apply Hq|lia|].
    assert (m' = set_socks (<[id := mkEntry (id_ e) None (client_ e) b]> (socksConnections_ m)) m) as ->.
    { cbn [fst snd] in E. rewrite (dispatch_waiting m id e d b) in E by done. by injection E as <-. }
    apply (IH _ (mkEntry (id_ e) None (client_ e) b) (n - zlen d)); [|split; [done|]|lia].
    { cbn. by rewrite lookup_insert_eq. }
    cbn [buf_]. exists (q ++ d). destruct Hq as (Hwf & Hri & <-). split; [by split_and!; [|congruence|]|].
    pose proof (zlen_contents _ Hwf) as Z1. pose proof (zlen_contents _ Hb) as Z2. rewrite Hcb, zlen_app in Z2.
    rewrite Hsb. lia.
Qed.

(** An announcement and what follows it are taken. *)
Lemma packets_ok_announced ms m id addr :
  1 <= id <= kMaxConns -> zlen addr <= 64 -> NUL ∉ addr -> socksConnections_ m !! id = None ->
  zlen (mjoin ms) <= kDefaultInitialSize ->
  packets_ok ((0, conn_text id addr (cs "UP")) :: ((fun d => (id, d)) <$> ms)) m.
Proof.
  intros Hid Ha Hn Hfree Hlen. set (text := conn_text id addr (cs "UP")).
  destruct (cmd_up_text id addr ltac:(lia) Ha Hn) as [Hup Hcid].
  destruct (conn_text_eq id addr (cs "UP") ltac:(lia) Ha ltac:(done) Hn) as [_ Hz].
  assert (packet_ok (0, text) m) as Hok.
  { split; [apply Hz|]. cbn [snd]. subst text. by rewrite Hup, Hcid. }
  cbn [packets_ok]. split; [done|]. intros m' E.
  apply (packets_ok_waiting ms m' id (mkEntry id None (Some id) Buffer_empty) kDefaultInitialSize);
    [lia| | |done].
  - assert (wp (dispatch 0 (Ok text)) m (fun _ m' =>
      socksConnections_ m' !! id = Some (mkEntry id None (Some id) Buffer_empty))) as ( [] & m2 & E2 & Hm2).
    { unfold dispatch. cbn [Z.eqb negb]. wp_step. apply (wp_lift _ text); [done|].
      unfold doCommand. cbv zeta. change (zlen (cs "CONN ")) with 5. change (length (cs "CONN ")) with 5%nat.
      rewrite (proj2 (Z.ltb_ge _ _)) by apply Hz. wp_step. cbn [when]. wp_step.
      fold (cmd_id text). fold (cmd_up text). subst text. rewrite Hup, Hcid.
      wp_step. apply wp_has_entry. rewrite Hfree. wp_step. wp_step; [done|]. wp_step. wp_step. rewrite Hfree.
      wp_step. unfold put_entry. wp_step. wp_step. wp_step. wp_step. cbn. by rewrite lookup_insert_eq. }
    cbn [fst snd] in E. rewrite E in E2. injection E2 as <-. exact Hm2.
  - split; [done|]. exists []. split; [apply holds_empty|]. by vm_compute.
Qed.

Lemma abs_data ms id q a :
  id <> 0 -> a !! id = Some (true, q) ->
  foldl (fun a k => abs_packet k a) a ((fun d => (id, d)) <$> ms) = <[id := (true, q ++ mjoin ms)]> a.
Proof.
  intros Hid. revert q a. induction ms as [|d ms IH]; intros q a Ha; cbn [fmap list_fmap foldl].
  - cbn. by rewrite app_nil_r, insert_id.
  - assert (abs_packet (id, d) a = <[id := (true, q ++ d)]> a) as ->.
    { unfold abs_packet. cbn [fst snd]. rewrite (proj2 (Z.eqb_neq id 0)) by done.
      apply map_eq. intros i. destruct (decide (i = id)) as [->|?].
      - by rewrite lookup_alter_eq, lookup_insert_eq, Ha.
      - by rewrite lookup_alter_ne, lookup_insert_ne. }
    rewrite (IH (q ++ d)) by apply lookup_insert_eq. rewrite insert_insert_eq, <- (assoc_L (++)). done.
Qed.
End announce.

(** The messages of a client, one callback after the other. *)
Definition forward `{Build} (sbp : Z -> Buffer -> ST MultiplexServer Buffer) (id : Z) (bufs : list Buffer) :
    ST MultiplexServer unit :=
  for_each (fun buf => _ ← Shared.sendBackendBuffer sbp id buf; mret tt) bufs.

Lemma packets_small id q : 1 <= zlen q <= kMaxPacketLen -> packets id q = [(id, q)].
Proof.
  intros Hq. unfold packets. destruct q as [|c q]; [rewrite zlen_nil in Hq; lia|]. cbn [length chunks_of fmap list_fmap].
  rewrite (take_ge (c :: q)), (drop_ge (c :: q)) by (unfold zlen, kMaxPacketLen in *; lia).
  replace (chunks_of (length q) _ []) with (@nil bytes) by (by destruct (length q)). done.
Qed.

Lemma forward_spec `{Build} sbp `{PacketSender sbp} id bufs qs m b s :
  Forall2 holds bufs qs -> Forall (fun q => 1 <= zlen q <= kMaxPacketLen) qs -> backend_is m b s ->
  wp (forward sbp id bufs) m (fun _ m' =>
    m' = to_backend b s (encode_all enc_packet ((fun d => (id, d)) <$> qs)) m).
Proof.
  intros Hh Hq. revert m s. induction Hh as [|buf q bufs qs Hbuf Hh IH]; intros m s Hb; cbn [forward for_each].
  - apply wp_ret. cbn. unfold to_backend. rewrite sess_send_nil, insert_id by apply Hb. by destruct m.
  - apply Forall_cons in Hq as [Hq Hqs]. wp_step. wp_step.
    eapply wp_mono; [by eapply (sendBackendBuffer_spec sbp)|]. intros ? m1 [-> _]. wp_step.
    eapply wp_mono; [apply (IH Hqs); by apply backend_is_sent|]. intros ? ? ->.
    rewrite to_backend_app, packets_small by done. cbn [fmap list_fmap].
    rewrite encode_all_cons. do 2 f_equal. cbn. by rewrite app_nil_r.
Qed.


Definition fresh_mux : MultiplexServer :=
  set_conns {[ 100 := sess_setState kConnected sess_new; 1 := sess_setState kConnected sess_new ]}
    (set_backend (Some 100) MultiplexServer_ctor).


(** ** Faults *)

Definition demux_drops `{Build} m id p : Prop := onSocksConnection id p m = Err AssertFailed.

(** C39: what does not work in the demultiplexer.  Its own packets have the header behind
    the payload instead of in front; DISCONNECT goes out with no header at all; a connection
    that ends after its client was said to be down fails an assert in a debug build; a
    second server connection shuts the first one down and is itself not kept. *)
Theorem demux_faults `{Build} m c sc :
  serverConnection_ m = Some c -> d_conns m !! c = Some sc -> s_state sc = kConnected ->
  (forall id buf q, holds buf q -> zlen q <= kMaxPacketLen -> fits buf kHeaderLen ->
     exists m' buf', sendServerPacket id buf m = Ok (buf', m')
       /\ s_out <$> d_conns m' !! c = Some (s_out sc ++ q ++ header (zlen q) id))
  /\ (forall id p e s, socksConnections_ m !! id = Some e -> d_conns m !! p = Some s ->
     sess_connected s = false ->
     exists m', onSocksConnection id p m = Ok (tt, m')
       /\ s_out <$> d_conns m' !! c = Some (s_out sc ++ take 63 (cs "DISCONNECT " ++ fmt_d id)))
  /\ (forall id p, socksConnections_ m !! id = None -> NDEBUG = false -> demux_drops m id p)
  /\ (forall p s, d_conns m !! p = Some s -> s_state s = kConnected ->
        exists m', onServerConnection p m = Ok (tt, m') /\ serverConnection_ m' = Some c
          /\ d_conns m' !! c = Some (sess_shutdown sc)).
Proof.
  intros Hc Hsc Hst.
  assert (sess_connected sc = true) as Hup by (unfold sess_connected; by rewrite bool_decide_eq_true_2).
  assert (forall d, s_out (sess_send d sc) = s_out sc ++ d) as Hsend
    by (intros d; unfold sess_send; by rewrite Hup).
  split_and!.
  - intros id buf q Hh Hlen Hf. destruct (holds_append buf q (header (zlen q) id) Hh Hf) as (b & Ea & Hb).
    assert (wp (sendServerPacket id buf) m (fun _ m' => s_out <$> d_conns m' !! c
      = Some (s_out sc ++ q ++ header (zlen q) id))) as (buf' & m' & E & HQ); [|by exists m', buf'].
    unfold sendServerPacket. rewrite (holds_length _ _ Hh). wp_step. wp_step; [by apply Z.leb_le|].
    wp_step. apply (wp_lift _ b); [done|]. wp_step. wp_step. rewrite Hc.
    apply wp_on_dtable, (wp_send_buf c sc); [done|]. cbn [d_conns set_dconns]. rewrite lookup_insert_eq.
    cbn. rewrite Hsend. by destruct Hb as (_ & _ & ->).
  - intros id p e s He Hp Hd. destruct (holds_append_empty (take 63 (cs "DISCONNECT " ++ fmt_d id)))
      as (b & Ea & Hb).
    { unfold zlen. rewrite length_take. unfold kDefaultInitialSize. lia. }
    assert (wp (onSocksConnection id p) m (fun _ m' => s_out <$> d_conns m' !! c
      = Some (s_out sc ++ take 63 (cs "DISCONNECT " ++ fmt_d id)))) as ( [] & m' & E & HQ); [|by exists m'].
    unfold onSocksConnection. wp_step. apply wp_has_entry. wp_step. wp_step; [by rewrite He|].
    wp_step. apply wp_on_dtable, (wp_isConnected p s); [done|]. rewrite Hd, set_dconns_id. wp_step. wp_step.
    rewrite Hc. wp_step. apply (wp_lift _ b); [done|]. wp_step. apply wp_on_dtable, (wp_send_buf c sc); [done|].
    wp_step. cbn [d_conns set_dconns]. rewrite lookup_insert_eq. cbn. rewrite Hsend. by destruct Hb as (_ & _ & ->).
  - intros id p Hn Hd. unfold demux_drops, onSocksConnection, has_entry. st_simp. rewrite Hn.
    unfold assert_. by rewrite Hd.
  - intros p s Hp Hs.
    assert (wp (onServerConnection p) m (fun _ m' => serverConnection_ m' = Some c
      /\ d_conns m' !! c = Some (sess_shutdown sc))) as ( [] & m' & E & HQ); [|by exists m'].
    unfold onServerConnection. wp_step. apply wp_on_dtable, (wp_isConnected p s); [done|].
    rewrite set_dconns_id. unfold sess_connected. rewrite bool_decide_eq_true_2 by done. wp_step. wp_step.
    rewrite Hc. unfold shutdown. apply wp_on_dtable, (wp_on_conn c sc); [done|].
    split; [done|]. cbn. by rewrite lookup_insert_eq.
Qed.

Definition fault_demux : DemuxServer :=
  mkDemux (Some 9) {[ 1 := mkEntry 1 (Some 7) (Some 1) Buffer_empty ]}
    {[ 9 := sess_setState kConnected sess_new; 7 := sess_setState kDisconnected sess_new ]} [].

Lemma demux_faults_witness :
  (exists m' buf', sendServerPacket (H := Debug) 1 (queue_of (cs "abc")) fault_demux = Ok (buf', m')
     /\ s_out <$> d_conns m' !! 9 = Some (cs "abc" ++ header 3 1))
  /\ demux_drops (H := Debug) fault_demux 2 7.
Proof.
  destruct (demux_faults (H := Debug) fault_demux 9 (sess_setState kConnected sess_new))
    as (H1 & _ & H3 & _); [done|by vm_compute|done|]. split.
  - destruct (queue_of_ok (cs "abc")) as (? & ? & ?); [by vm_compute|].
    destruct (H1 1 (queue_of (cs "abc")) (cs "abc")) as (m' & buf' & E & Hout);
      [by split_and!|by vm_compute|left; by vm_compute|]. by exists m', buf'.
  - by apply H3.
Defined.

(** A packet that is read without its last one to three bytes.  The test leaves the
    header out of account, so the packet is taken at once: a debug build fails the assert of
    retrieve; a release build completes the payload with the bytes that lie behind the
    data in the buffer's memory, and its true last bytes stay in the stream as the start of
    the next packet. *)
Theorem demux_cut_packet `{Build} m id e buf d q :
  small_packet (id, d) -> id <> 0 -> holds buf q -> (exists r, enc_packet (id, d) = q ++ r) ->
  zlen d <= zlen q < 3 + zlen d -> 3 < zlen q -> peek buf + 3 + zlen d <= size buf ->
  socksConnections_ m !! id = Some e -> connection_ e = None -> holds (buf_ e) [] -> fits (buf_ e) (zlen d) ->
  if NDEBUG
  then exists m' buf' stale, onServerMessage buf m = Ok (buf', m') /\ holds buf' []
    /\ zlen (drop 3 q ++ stale) = zlen d /\ stale <> []
    /\ exists e', socksConnections_ m' !! id = Some e' /\ contents (buf_ e') = drop 3 q ++ stale
  else onServerMessage buf m = Err AssertFailed.
Proof.
  intros Hk Hid Hh [r Er] Hq H3 Hsz He Hcon Hbe Hfit.
  destruct (header_unsigned (id, d) [] Hk) as (c0 & c1 & c2 & Eq & E0 & E12). cbn [fst snd] in *.
  rewrite !app_nil_r in Eq. pose proof (zlen_nonneg d).
  assert (exists q', q = c0 :: c1 :: c2 :: q' /\ q' = drop 3 q) as (q' & -> & Eq').
  { rewrite Er in Eq. destruct q as [|x0 [|x1 [|x2 q'] ] ]; try (by rewrite ?zlen_cons, ?zlen_nil in H3).
    injection Eq as -> -> -> _. by exists q'. }
  destruct (wf_layout buf) as (pre & post & El & Hpre & Hpost & Hcl); [apply Hh|].
  assert (contents buf = c0 :: c1 :: c2 :: q') as Ec by apply Hh. rewrite Ec in *.
  rewrite !zlen_cons in *.
  set (n := zlen d - zlen q'). assert (zlen (take (Z.to_nat n) post) = n) as Hn.
  { apply zlen_take. unfold peek, size in *. rewrite El in *. rewrite !zlen_app, !zlen_cons in *. subst n. lia. }
  set (stale := take (Z.to_nat n) post) in *.
  assert (mem_read (buffer_ buf) (peek buf + 3) (zlen d) = Ok (q' ++ stale)) as Erd.
  { rewrite El. rewrite <- (take_drop (Z.to_nat n) post). fold stale.
    change ((c0 :: c1 :: c2 :: q') ++ ?k) with ([c0; c1; c2] ++ q' ++ k).
    rewrite (assoc_L (++) pre), (assoc_L (++) q'). apply mem_read_app.
    - rewrite zlen_app. unfold peek. change (zlen [c0; c1; c2]) with 3. lia.
    - rewrite zlen_app, Hn. subst n. lia. }
  assert (zlen (q' ++ stale) = zlen d) as Hzd by (rewrite zlen_app, Hn; subst n; lia).
  assert (forall b, append (buf_ e) (q' ++ stale) = Ok b ->
    dispatch id (Ok (q' ++ stale)) m
    = Ok (tt, set_socks (<[id := mkEntry (id_ e) None (client_ e) b]> (socksConnections_ m)) m)) as Hdis.
  { intros b Ea. by apply dispatch_waiting. }
  destruct (holds_append (buf_ e) [] (q' ++ stale) Hbe) as (b & Ea & Hb); [by rewrite Hzd|].
  specialize (Hdis b Ea).
  pose proof (holds_bound _ _ Hh) as Hmax. rewrite !zlen_cons in Hmax. unfold max_size in Hmax.
  assert (Hb0 : byte_at buf 0 = Ok c0) by (eapply byte_at_spec; [exact Hh|done|done]).
  assert (Hb1 : byte_at buf 1 = Ok c1) by (eapply byte_at_spec; [exact Hh|done|done]).
  assert (Hb2 : byte_at buf 2 = Ok c2) by (eapply byte_at_spec; [exact Hh|done|done]).
  assert (forall fuel, onServerMessage_loop (S fuel) buf m =
    match retrieve buf (u64 (kHeaderLen + zlen d)) with
    | Ok buf' => onServerMessage_loop fuel buf'
        (set_socks (<[id := mkEntry (id_ e) None (client_ e) b]> (socksConnections_ m)) m)
    | Err f => Err f end) as Hturn.
  { intros fuel. cbn [onServerMessage_loop]. unfold onServerMessage_turn.
    rewrite (holds_length _ _ Hh), !zlen_cons. rewrite (proj2 (Z.ltb_lt kHeaderLen _)) by (unfold kHeaderLen; lia).
    st_simp. rewrite Hb0, E0. rewrite (proj2 (Z.ltb_ge _ (zlen d))) by lia. rewrite Hb1, Hb2, E12.
    unfold kHeaderLen. rewrite Erd, Hdis. by destruct (retrieve _ _). }
  unfold onServerMessage. rewrite Hturn. unfold retrieve.
  rewrite (holds_length _ _ Hh), !zlen_cons. rewrite u64_small by (unfold kHeaderLen; lia).
  rewrite assert_false by (apply Z.leb_gt; unfold kHeaderLen; lia). destruct NDEBUG; [|done].
  simp_out. rewrite (proj2 (Z.ltb_ge _ _)) by (unfold kHeaderLen; lia).
  pose proof (holds_retrieveAll _ _ Hh) as Hh'.
  replace (Z.to_nat (1 + (1 + (1 + zlen q')))) with (S (Z.to_nat (2 + zlen q'))) by lia.
  eexists _, (retrieveAll buf), stale. split.
  { change (mret (retrieveAll buf)) with (Ok (retrieveAll buf)). cbv iota.
    cbn [onServerMessage_loop]. unfold onServerMessage_turn. rewrite (holds_length _ _ Hh').
    change (kHeaderLen <? zlen []) with false. cbv iota. st_simp. done. } change (drop 3 (c0 :: c1 :: c2 :: q')) with q'.
  split_and!; [done|done| |].
  - intros Es. rewrite Es in Hn. change (zlen []) with 0 in Hn. subst n. lia.
  - exists (mkEntry (id_ e) None (client_ e) b). cbn. rewrite lookup_insert_eq. split; [done|]. apply Hb.
Qed.

Definition cut_demux : DemuxServer :=
  mkDemux (Some 9) {[ 1 := mkEntry 1 None (Some 1) Buffer_empty ]}
    {[ 9 := sess_setState kConnected sess_new ]} [].

Lemma demux_cut_packet_witness :
  onServerMessage (H := Debug) (queue_of (take 6 (enc_packet (1, cs "abcde")))) cut_demux = Err AssertFailed.
Proof.
  apply (demux_cut_packet (H := Debug) cut_demux 1 (mkEntry 1 None (Some 1) Buffer_empty)
    (queue_of (take 6 (enc_packet (1, cs "abcde")))) (cs "abcde") (take 6 (enc_packet (1, cs "abcde")))).
  - by vm_compute.
  - done.
  - destruct (queue_of_ok (take 6 (enc_packet (1, cs "abcde")))) as (? & ? & ?); [by vm_compute|]. by split_and!.
  - by exists (drop 6 (enc_packet (1, cs "abcde"))).
  - by vm_compute.
  - by vm_compute.
  - by vm_compute.
  - by vm_compute.
  - done.
  - apply holds_empty.
  - left. by vm_compute.
Defined.
