(* ===== verification/Idle.v ===== *)
(** * Idle and surplus connections: src/arale/examples/idleconnection, maxconnection

    Three echo servers: [Wheel] (idleconnection/Echo.{h,cc}) drops idle connections with a
    ring of buckets that share the ownership of an Entry, whose destructor shuts its
    connection down; [SortedList] (idleconnection/SortedList.cc) keeps the connections in
    the order of their last message; [MaxConnection] (maxconnection/Echo.{h,cc}) counts
    them.  A connection is named by a number that is not used again, and the Entry or the
    list node made for it by the same number. *)

From stdpp Require Import sorting.
From S2P Require Import Prelude Date Buffer TcpConnection Session.

(** onMessage of all three: echo what is there. *)
Definition echo {C S} `{Build} (on_table : forall A, ST (Table C) A -> ST S A) (p : Z) (buf : Buffer) :
    ST S Buffer :=
  '(msg, buf) ← lift (retrieveAllAsString buf);
  on_table _ (send p msg) ;;
  mret buf.

(** ** The ring of buckets *)

Module Wheel.
Record EchoServer := mkEcho {
  buckets : list (gset Z);           (* connections_: the first is the next to go *)
  w_conns : Table Z                  (* a context is a weak pointer to an Entry *)
}.

Section wheel.
Context `{Build}.
Implicit Types w : EchoServer.

Definition set_buckets b w := mkEcho b (w_conns w).
Definition set_wconns t w := mkEcho (buckets w) t.
Definition on_wtable A (m : ST (Table Z) A) : ST EchoServer A := zoom w_conns set_wconns m.

(** connections_(idleSeconds), connections_.resize(idleSeconds); a negative capacity is a
    length_error. *)
Definition EchoServer_ctor (idleSeconds : Z) : outcome EchoServer :=
  if idleSeconds <? 0 then Err LogicError
  else Ok (mkEcho (replicate (Z.to_nat idleSeconds) ∅) ∅).

(** An Entry lives while a bucket holds it. *)
Definition held (l : list (gset Z)) (e : Z) : bool := existsb (fun b => bool_decide (e ∈ b)) l.

(** connections_.back().insert(entry) *)
Definition insert_back (e : Z) : ST EchoServer unit := fun w =>
  match last (buckets w) with
  | Some b => Ok (tt, set_buckets (take (length (buckets w) - 1) (buckets w) ++ [{[ e ]} ∪ b]) w)
  | None => Err OutOfBounds
  end.

(** ~Entry: shut the connection down if it is still there. *)
Definition Entry_dtor (e : Z) : ST EchoServer unit :=
  alive ← gets (fun w => bool_decide (is_Some (w_conns w !! e)));
  when alive (on_wtable _ (shutdown e)).

Definition onConnection (p : Z) : ST EchoServer unit :=
  up ← on_wtable _ (isConnected p);
  if (up : bool) then insert_back p ;; on_wtable _ (setContext p (Some p))
  else ctx ← on_wtable _ (getContext p); lift (assert_ (bool_decide (ctx <> None))).

Definition onMessage (p : Z) (buf : Buffer) : ST EchoServer Buffer :=
  buf ← echo on_wtable p buf;
  ctx ← on_wtable _ (getContext p);
  lift (assert_ (bool_decide (ctx <> None))) ;;
  match ctx with
  | None => fail LogicError
  | Some e =>
      alive ← gets (fun w => held (buckets w) e);
      when alive (insert_back e) ;;
      mret buf
  end.

(** connections_.push_back(Bucket()): the ring is full, so the first bucket is replaced and
    becomes the last; the entries no other bucket holds are destroyed. *)
Definition onTimer : ST EchoServer unit :=
  l ← gets buckets;
  match l with
  | [] => mret tt
  | b :: l' =>
      modify (set_buckets (l' ++ [∅])) ;;
      for_each Entry_dtor (filter (fun e => held l' e = false) (elements b))
  end.
End wheel.

(** Events: a connection is accepted, receives data, ends and is destroyed; a second
    passes. *)
Inductive event := Up (p : Z) | Data (p : Z) (data : bytes) | Down (p : Z) | Second_.

Definition run_event `{Build} (ev : event) : ST EchoServer unit :=
  match ev with
  | Up p => on_wtable _ (established p) ;; onConnection p
  | Data p data =>
      on_wtable _ (received p data) ;;
      s ← on_wtable _ (conn_at p);
      buf ← onMessage p (s_in s);
      on_wtable _ (on_conn p (sess_setInput buf))
  | Down p => on_wtable _ (closed p) ;; onConnection p ;; on_wtable _ (destroyed p)
  | Second_ => onTimer
  end.
End Wheel.

(** ** The sorted list *)

Module SortedList.
(** The context is a Node: the time of the last message; its iterator [pos_] is the
    element named like the connection. *)
Record EchoServer := mkSorted {
  idleSeconds_ : Z;
  connections_ : list Z;
  l_conns : Table Z;
  clock : nat -> Z;                  (* what the calls of Timestamp::now() give, in us *)
  reads : nat
}.

Section sorted_list.
Context `{Build}.
Implicit Types w : EchoServer.

Definition set_list l w := mkSorted (idleSeconds_ w) l (l_conns w) (clock w) (reads w).
Definition set_lconns t w := mkSorted (idleSeconds_ w) (connections_ w) t (clock w) (reads w).
Definition set_reads n w := mkSorted (idleSeconds_ w) (connections_ w) (l_conns w) (clock w) n.
Definition on_ltable A (m : ST (Table Z) A) : ST EchoServer A := zoom l_conns set_lconns m.
Definition now : ST EchoServer Z :=
  t ← gets (fun w => clock w (reads w)); modify (fun w => set_reads (S (reads w)) w) ;; mret t.

(** The difference in microseconds; the code compares it as seconds. *)
Definition timeDifference (high low : Z) : Z := high - low.

Definition EchoServer_ctor (idleSeconds : Z) (clk : nat -> Z) : EchoServer :=
  mkSorted idleSeconds [] ∅ clk 0.

Definition erase (p : Z) (l : list Z) : list Z := filter (fun q => q <> p) l.

(** any_cast of an empty context: a null Node pointer in onMessage and onTimer, an
    exception in onConnection. *)
Definition onMessage (p : Z) (buf : Buffer) : ST EchoServer Buffer :=
  buf ← echo on_ltable p buf;
  ctx ← on_ltable _ (getContext p);
  lift (assert_ (bool_decide (ctx <> None))) ;;
  match ctx with
  | None => fail NullCall
  | Some _ =>
      t ← now;
      on_ltable _ (setContext p (Some t)) ;;
      modify (fun w => set_list (erase p (connections_ w) ++ [p]) w) ;;
      l ← gets connections_;
      lift (assert_ (bool_decide (last l = Some p))) ;;
      mret buf
  end.

Definition onConnection (p : Z) : ST EchoServer unit :=
  up ← on_ltable _ (isConnected p);
  if (up : bool) then
    t ← now;
    modify (fun w => set_list (connections_ w ++ [p]) w) ;;
    on_ltable _ (setContext p (Some t))
  else
    ctx ← on_ltable _ (getContext p);
    lift (assert_ (bool_decide (ctx <> None))) ;;
    match ctx with
    | None => fail LogicError
    | Some _ => modify (fun w => set_list (erase p (connections_ w)) w)
    end.

(** The loop over the elements from [its] on. *)
Fixpoint onTimer_loop (its : list Z) : ST EchoServer unit :=
  match its with
  | [] => mret tt
  | p :: its' =>
      alive ← gets (fun w => bool_decide (is_Some (l_conns w !! p)));
      if (alive : bool) then
        ctx ← on_ltable _ (getContext p);
        lift (assert_ (bool_decide (ctx <> None))) ;;
        match ctx with
        | None => fail NullCall
        | Some lastReceiveTime =>
            t ← now;
            idle ← gets idleSeconds_;
            let age := timeDifference t lastReceiveTime in
            if idle * kMicroSecondsPerSecond <? age then
              up ← on_ltable _ (isConnected p);
              when up (on_ltable _ (shutdown p) ;;
                       on_ltable _ (forceCloseWithDelay p 3500000)) ;;
              onTimer_loop its'
            else if age <? 0 then
              t' ← now;
              on_ltable _ (setContext p (Some t')) ;;
              onTimer_loop its'
            else mret tt
        end
      else
        modify (fun w => set_list (erase p (connections_ w)) w) ;;
        onTimer_loop its'
  end.
Definition onTimer : ST EchoServer unit := l ← gets connections_; onTimer_loop l.
End sorted_list.

Inductive event := Up (p : Z) | Data (p : Z) (data : bytes) | Down (p : Z) | Second_.

Definition run_event `{Build} (ev : event) : ST EchoServer unit :=
  match ev with
  | Up p => on_ltable _ (established p) ;; onConnection p
  | Data p data =>
      on_ltable _ (received p data) ;;
      s ← on_ltable _ (conn_at p);
      buf ← onMessage p (s_in s);
      on_ltable _ (on_conn p (sess_setInput buf))
  | Down p => on_ltable _ (closed p) ;; onConnection p ;; on_ltable _ (destroyed p)
  | Second_ => onTimer
  end.
End SortedList.

(** ** The counter *)

Module MaxConnection.
Record EchoServer := mkMax { numConnection_ : Z; maxConnections_ : Z; m_conns : Table unit }.

Section max.
Context `{Build}.
Definition set_num n w := mkMax n (maxConnections_ w) (m_conns w).
Definition set_mconns t w := mkMax (numConnection_ w) (maxConnections_ w) t.
Definition on_mtable A (m : ST (Table unit) A) : ST EchoServer A := zoom m_conns set_mconns m.

Definition EchoServer_ctor (maxConn : Z) : EchoServer := mkMax 0 maxConn ∅.

Definition onConnection (p : Z) : ST EchoServer unit :=
  up ← on_mtable _ (isConnected p);
  if (up : bool) then
    modify (fun w => set_num (i32 (numConnection_ w + 1)) w) ;;
    over ← gets (fun w => maxConnections_ w <? numConnection_ w);
    when over (on_mtable _ (shutdown p) ;; on_mtable _ (forceCloseWithDelay p 3000000))
  else modify (fun w => set_num (i32 (numConnection_ w - 1)) w).

Definition onMessage (p : Z) (buf : Buffer) : ST EchoServer Buffer := echo on_mtable p buf.
End max.

Inductive event := Up (p : Z) | Data (p : Z) (data : bytes) | Down (p : Z).

Definition run_event `{Build} (ev : event) : ST EchoServer unit :=
  match ev with
  | Up p => on_mtable _ (established p) ;; onConnection p
  | Data p data =>
      on_mtable _ (received p data) ;;
      s ← on_mtable _ (conn_at p);
      buf ← onMessage p (s_in s);
      on_mtable _ (on_conn p (sess_setInput buf))
  | Down p => on_mtable _ (closed p) ;; onConnection p ;; on_mtable _ (destroyed p)
  end.
End MaxConnection.

(** ** Lemmas shared by the three *)

Lemma echo_spec {C S} `{Build} (get : S -> Table C) set p s q buf w :
  (get w) !! p = Some s -> holds buf q ->
  wp (echo (fun A => zoom get set) p buf) w (fun buf' w' =>
    w' = set (<[p := sess_send q s]> (get w)) w /\ holds buf' []).
Proof.
  intros Hs Hh. destruct (holds_retrieveAllAsString buf q Hh) as (buf' & E & Hb').
  unfold echo. wp_step. apply (wp_lift _ (q, buf')); [done|]. wp_step. apply wp_zoom.
  unfold send. apply (wp_on_conn p s); [done|]. by wp_step.
Qed.

(** ** The ring of buckets: a timeout per connection *)

Module WheelSpec.
Import Wheel.

(** For each entry, the seconds since its connection was last active; for each
    connection, its state and what has been sent to it. *)
Record timeouts := mkTimeouts { count : gmap Z nat; view : gmap Z (State * bytes) }.

Definition shut (x : State * bytes) : State * bytes :=
  (if bool_decide (x.1 = kConnected) then kDisconnecting else x.1, x.2).
Definition echoed (data : bytes) (x : State * bytes) : State * bytes :=
  (x.1, if bool_decide (x.1 = kConnected) then x.2 ++ data else x.2).
Definition due (n : nat) (a : timeouts) (p : Z) : bool :=
  match count a !! p with Some k => bool_decide (n <= S k)%nat | None => false end.

(** After [n] seconds without data a connection is shut down. *)
Definition spec_event (n : nat) (ev : event) (a : timeouts) : timeouts :=
  match ev with
  | Up p => mkTimeouts (<[p := 0%nat]> (count a)) (<[p := (kConnected, [])]> (view a))
  | Data p data => mkTimeouts (alter (fun _ => 0%nat) p (count a)) (alter (echoed data) p (view a))
  | Down p => mkTimeouts (count a) (delete p (view a))
  | Second_ =>
      mkTimeouts (omap (fun k => if decide (S k < n)%nat then Some (S k) else None) (count a))
        (map_imap (fun p x => Some (if due n a p then shut x else x)) (view a))
  end.

(** How many buckets from the last the entry is last seen. *)
Fixpoint first_in (r : list (gset Z)) (e : Z) : option nat :=
  match r with
  | [] => None
  | b :: r' => if decide (e ∈ b) then Some 0%nat else S <$> first_in r' e
  end.
Definition wheel_rel (n : nat) (w : EchoServer) (a : timeouts) : Prop :=
  length (buckets w) = n /\ (0 < n)%nat
  /\ (forall e, count a !! e = first_in (reverse (buckets w)) e)
  /\ (forall p, view a !! p = (fun s => (s_state s, s_out s)) <$> (w_conns w !! p))
  /\ (forall p s, w_conns w !! p = Some s -> s_context s = Some p /\ holds (s_in s) []).

Definition allowed `{Build} (ev : event) (w : EchoServer) (a : timeouts) : Prop :=
  match ev with
  | Up p => w_conns w !! p = None /\ count a !! p = None
  | Data p data => exists s, w_conns w !! p = Some s /\ readable_into (s_in s) data
  | Down p => is_Some (w_conns w !! p)
  | Second_ => True
  end.
Fixpoint allowed_all `{Build} (n : nat) (evs : list event) (w : EchoServer) (a : timeouts) : Prop :=
  match evs with
  | [] => True
  | ev :: evs' => allowed ev w a
      /\ forall w', run_event ev w = Ok (tt, w') -> allowed_all n evs' w' (spec_event n ev a)
  end.

Lemma first_in_app r1 r2 e :
  first_in (r1 ++ r2) e = match first_in r1 e with
                          | Some k => Some k
                          | None => (fun k => length r1 + k)%nat <$> first_in r2 e end.
Proof.
  induction r1 as [|b r1 IH]; cbn [app first_in length].
  - by destruct (first_in r2 e).
  - destruct (decide (e ∈ b)); [done|]. rewrite IH. destruct (first_in r1 e); [done|].
    by destruct (first_in r2 e).
Qed.

Lemma first_in_bound r e k : first_in r e = Some k -> (k < length r)%nat.
Proof.
  revert k. induction r as [|b r IH]; intros k; cbn [first_in length]; [done|].
  destruct (decide (e ∈ b)); [intros [= <-]; lia|]. destruct (first_in r e) as [j|]; [|done].
  intros [= <-]. specialize (IH j eq_refl). lia.
Qed.

Lemma held_first_in l e : held l e = bool_decide (is_Some (first_in (reverse l) e)).
Proof.
  unfold held. apply eq_bool_prop_intro. rewrite bool_decide_spec, Is_true_true, existsb_exists. split.
  - intros (b & Hb & He). apply bool_decide_eq_true in He. apply list_elem_of_In in Hb.
    apply elem_of_reverse in Hb. induction (reverse l) as [|b' r IH]; [by apply not_elem_of_nil in Hb|].
    cbn [first_in]. destruct (decide (e ∈ b')); [done|].
    apply elem_of_cons in Hb as [->|Hb]; [done|]. by apply fmap_is_Some, IH.
  - intros [k Hk]. assert (exists b, b ∈ reverse l /\ e ∈ b) as (b & Hb & He).
    { revert k Hk. induction (reverse l) as [|b' r IH]; intros k; cbn [first_in]; [done|].
      destruct (decide (e ∈ b')) as [Hin|]; [exists b'; split; [apply list_elem_of_here|done]|].
      destruct (first_in r e) as [j|] eqn:Ej; [|done]. intros _.
      destruct (IH j eq_refl) as (b & Hb & He). exists b. split; [by apply list_elem_of_further|done]. }
    exists b. split; [by apply list_elem_of_In, elem_of_reverse|by apply bool_decide_eq_true].
Qed.

(** The last bucket gets the entry. *)
Lemma insert_back_spec e w :
  buckets w <> [] ->
  wp (insert_back e) w (fun _ w' => w_conns w' = w_conns w
    /\ length (buckets w') = length (buckets w)
    /\ forall x, first_in (reverse (buckets w')) x
         = if decide (x = e) then Some 0%nat else first_in (reverse (buckets w)) x).
Proof.
  intros Hne. destruct (buckets w) as [|b0 l0] eqn:El using rev_ind; [done|]. clear Hne.
  eapply wp_Ok; [unfold insert_back; rewrite El, last_snoc; reflexivity|].
  assert (take (length (l0 ++ [b0]) - 1) (l0 ++ [b0]) = l0) as ->.
  { rewrite length_app. apply take_app_length'. cbn [length]. lia. }
  cbn [buckets w_conns set_buckets].
  split_and!; [done|by rewrite !length_app|].
  intros x. rewrite !reverse_snoc. cbn [first_in].
  destruct (decide (x = e)) as [->|Hx]; [by rewrite decide_True by set_solver|].
  destruct (decide (x ∈ b0)); [by rewrite decide_True by set_solver|].
  by rewrite decide_False by set_solver.
Qed.

Section wheel_proofs.
Context `{Build} (n : nat).
Implicit Types (w : EchoServer) (a : timeouts).

Lemma wp_on_wtable {A} (m : ST (Table Z) A) w (Q : A -> EchoServer -> Prop) :
  wp m (w_conns w) (fun x t => Q x (set_wconns t w)) -> wp (on_wtable A m) w Q.
Proof. intros Hw. by apply wp_zoom. Qed.

Lemma set_wconns_id w : set_wconns (w_conns w) w = w.
Proof. by destruct w. Qed.

Lemma wheel_Up p w a :
  wheel_rel n w a -> allowed (Up p) w a ->
  wp (run_event (Up p)) w (fun _ w' => wheel_rel n w' (spec_event n (Up p) a)).
Proof.
  intros (Hl & Hn & Hc & Hv & Hs) [Hp Hcp]. cbn [run_event]. set (s0 := sess_setState kConnected (sess_new (C := Z))).
  wp_step. apply wp_on_wtable. unfold established. eapply wp_Ok; [by rewrite Hp|]. fold s0.
  unfold onConnection. wp_step. apply wp_on_wtable, (wp_isConnected p s0); [apply lookup_insert_eq|].
  rewrite set_wconns_id. change (sess_connected s0) with true. cbv iota. wp_step.
  eapply wp_mono; [apply insert_back_spec; cbn; intros E; rewrite E in Hl; cbn in Hl; lia|].
  intros ? w1 (Ew & Hlen & Hfi). unfold setContext. apply wp_on_wtable, (wp_on_conn p s0).
  { rewrite Ew. apply lookup_insert_eq. }
  unfold wheel_rel, spec_event. cbn [buckets w_conns set_wconns count view] in *. rewrite Ew. split_and!.
  - by rewrite Hlen.
  - done.
  - intros e. rewrite Hfi. destruct (decide (e = p)) as [->|Hne]; [apply lookup_insert_eq|].
    by rewrite lookup_insert_ne.
  - intros q. rewrite insert_insert_eq. destruct (decide (q = p)) as [->|Hne]; [by rewrite !lookup_insert_eq|].
    by rewrite !lookup_insert_ne.
  - intros q s. rewrite insert_insert_eq. intros [ [<- <-]|[Hne Hq] ]%lookup_insert_Some; [|by apply Hs].
    split; [done|apply holds_empty].
Qed.

Lemma wheel_Data p data w a :
  wheel_rel n w a -> allowed (Data p data) w a ->
  wp (run_event (Data p data)) w (fun _ w' => wheel_rel n w' (spec_event n (Data p data) a)).
Proof.
  intros (Hl & Hn & Hc & Hv & Hs) (s & Hp & Hf). destruct (Hs p s Hp) as [Hctx Hin]. cbn [run_event].
  wp_step. apply wp_on_wtable, (wp_received p s _ []); [done..|]. intros buf Hbuf. cbn [app] in Hbuf.
  set (s1 := sess_setInput buf s). wp_step. apply wp_on_wtable, (wp_conn_at p s1); [apply lookup_insert_eq|].
  rewrite set_wconns_id. set (w1 := set_wconns _ w). assert (w_conns w1 !! p = Some s1) as Hp1 by apply lookup_insert_eq.
  wp_step. unfold onMessage. wp_step.
  eapply wp_mono; [by apply (echo_spec w_conns set_wconns p s1 data)|]. intros buf' w2 [-> Hb'].
  set (w2 := set_wconns _ w1). set (s2 := sess_send data s1).
  assert (w_conns w2 !! p = Some s2) as Hp2 by apply lookup_insert_eq.
  assert (s_context s2 = Some p) as Hc2 by (unfold s2, sess_send; destruct (sess_connected s1); done).
  wp_step. apply wp_on_wtable, (wp_getContext p s2); [done|]. rewrite set_wconns_id, Hc2.
  wp_step. wp_step; [done|]. wp_step. wp_step. wp_step.
  assert (forall w3, w_conns w3 = w_conns w2 -> length (buckets w3) = n ->
    (forall e, alter (fun _ => 0%nat) p (count a) !! e = first_in (reverse (buckets w3)) e) ->
    wp (on_wtable _ (on_conn p (sess_setInput buf'))) w3
      (fun _ w' => wheel_rel n w' (spec_event n (Data p data) a))) as Hfin.
  { intros w3 E3 Hl3 Hc3. apply wp_on_wtable, (wp_on_conn p s2); [by rewrite E3|].
    assert (<[p := sess_setInput buf' s2]> (w_conns w3) = <[p := sess_setInput buf' s2]> (w_conns w)) as ->
      by (rewrite E3; unfold w2, w1; cbn; by rewrite !insert_insert_eq).
    unfold wheel_rel, spec_event. cbn [buckets w_conns set_wconns count view]. split_and!; [done..| |].
    - intros q. destruct (decide (q = p)) as [->|Hne].
      + rewrite lookup_alter_eq, lookup_insert_eq, Hv, Hp. cbn. unfold echoed, s2, sess_send, sess_connected. cbn.
        destruct (bool_decide_reflect (s_state s = kConnected)) as [Hst|Hst]; cbn; [by rewrite Hst|done].
      + rewrite lookup_alter_ne, lookup_insert_ne by done. apply Hv.
    - intros q sq [ [<- <-]|[Hne Hq] ]%lookup_insert_Some; [|by apply Hs]. split; [|done]. exact Hc2. }
  wp_step.
  - match goal with Hh : held _ _ = true |- _ => rename Hh into Hheld end.
    eapply wp_mono; [apply insert_back_spec; cbn; intros E; rewrite E in Hl; cbn in Hl; lia|].
    intros ? w3 (Ew & Hlen & Hfi). wp_step. apply Hfin; [done|by rewrite Hlen|].
    intros e. rewrite Hfi. change (buckets w2) with (buckets w).
    destruct (decide (e = p)) as [->|Hne]; [|by rewrite lookup_alter_ne, Hc].
    rewrite lookup_alter_eq, Hc. rewrite held_first_in in Hheld. apply bool_decide_eq_true in Hheld as [k Hk].
    change (buckets w2) with (buckets w) in Hk. by rewrite Hk.
  - match goal with Hh : held _ _ = false |- _ => rename Hh into Hheld end.
    wp_step. apply Hfin; [done|done|]. intros e. change (buckets w2) with (buckets w).
    destruct (decide (e = p)) as [->|Hne]; [|by rewrite lookup_alter_ne, Hc].
    rewrite lookup_alter_eq, Hc. rewrite held_first_in in Hheld. apply bool_decide_eq_false in Hheld.
    change (buckets w2) with (buckets w) in Hheld. destruct (first_in _ p); [|done]. by destruct Hheld.
Qed.

Lemma wheel_Down p w a :
  wheel_rel n w a -> allowed (Down p) w a ->
  wp (run_event (Down p)) w (fun _ w' => wheel_rel n w' (spec_event n (Down p) a)).
Proof.
  intros (Hl & Hn & Hc & Hv & Hs) [s Hp]. destruct (Hs p s Hp) as [Hctx Hin]. cbn [run_event].
  set (s1 := sess_setState kDisconnected s).
  wp_step. unfold closed. apply wp_on_wtable, (wp_on_conn p s); [done|]. fold s1. wp_step.
  unfold onConnection. wp_step. apply wp_on_wtable, (wp_isConnected p s1); [apply lookup_insert_eq|].
  rewrite set_wconns_id. change (sess_connected s1) with false. cbv iota. wp_step.
  apply wp_on_wtable, (wp_getContext p s1); [apply lookup_insert_eq|]. rewrite set_wconns_id.
  wp_step; [change (s_context s1) with (s_context s); by rewrite Hctx|].
  apply wp_on_wtable, wp_modify. unfold wheel_rel, spec_event.
  cbn [buckets w_conns set_wconns count view]. rewrite delete_insert_eq. split_and!; [done..| |].
  - intros q. destruct (decide (q = p)) as [->|Hne]; [by rewrite !lookup_delete_eq|].
    by rewrite !lookup_delete_ne.
  - intros q sq [_ Hq]%lookup_delete_Some. by apply Hs.
Qed.

Lemma sess_shutdown_idem {C} (s : Session C) : sess_shutdown (sess_shutdown s) = sess_shutdown s.
Proof.
  unfold sess_shutdown. destruct (sess_connected s) eqn:E; [done|]. by rewrite E.
Qed.

(** The entries that end shut their connections down. *)
Lemma dtors_spec l w :
  wp (for_each Entry_dtor l) w (fun _ w' => buckets w' = buckets w
    /\ forall p, w_conns w' !! p = if decide (p ∈ l) then sess_shutdown <$> w_conns w !! p else w_conns w !! p).
Proof.
  pose (I := fun (dn : list Z) (w' : EchoServer) => buckets w' = buckets w
    /\ forall p, w_conns w' !! p = if decide (p ∈ dn) then sess_shutdown <$> w_conns w !! p else w_conns w !! p).
  apply (wp_for_each _ I); unfold I.
  - split; [done|]. intros p. by rewrite decide_False by apply not_elem_of_nil.
  - intros dn e rest w' _ [Hb Hw]. unfold Entry_dtor. wp_step. wp_step. wp_step.
    + match goal with Hd : bool_decide _ = true |- _ => apply bool_decide_eq_true in Hd as [s Hs] end.
      unfold shutdown. apply wp_on_wtable, (wp_on_conn e s); [done|]. split; [done|]. intros p.
      cbn [w_conns set_wconns]. pose proof (Hw e) as He. rewrite Hs in He.
      destruct (decide (p = e)) as [->|Hne].
      * rewrite lookup_insert_eq, decide_True by (apply elem_of_app; right; apply list_elem_of_here).
        destruct (decide (e ∈ dn)); [|by rewrite <- He].
        destruct (w_conns w !! e) as [s0|]; [|done]. cbn in He. injection He as ->. cbn.
        by rewrite sess_shutdown_idem.
      * rewrite lookup_insert_ne, Hw by done. destruct (decide (p ∈ dn)) as [Hi|Hi].
        -- by rewrite decide_True by (apply elem_of_app; by left).
        -- rewrite decide_False; [done|]. rewrite elem_of_app, list_elem_of_singleton. naive_solver.
    + match goal with Hd : bool_decide _ = false |- _ => apply bool_decide_eq_false in Hd as Hs end.
      split; [done|]. intros p. rewrite Hw. destruct (decide (p = e)) as [->|Hne].
      * destruct (decide (e ∈ dn ++ [e])) as [_|Hno];
          [|destruct Hno; apply elem_of_app; right; apply list_elem_of_here].
        specialize (Hw e). destruct (w_conns w' !! e) eqn:E; [by destruct Hs|].
        destruct (decide (e ∈ dn)); [done|]. by rewrite <- Hw.
      * destruct (decide (p ∈ dn)) as [Hi|Hi].
        -- by rewrite decide_True by (apply elem_of_app; by left).
        -- rewrite decide_False; [done|]. rewrite elem_of_app, list_elem_of_singleton. naive_solver.
Qed.

Lemma wheel_Second w a :
  wheel_rel n w a -> wp (run_event Second_) w (fun _ w' => wheel_rel n w' (spec_event n Second_ a)).
Proof.
  intros (Hl & Hn & Hc & Hv & Hs). cbn [run_event]. unfold onTimer. wp_step. wp_step.
  destruct (buckets w) as [|b0 l'] eqn:El; [cbn in Hl; lia|]. wp_step. wp_step.
  eapply wp_mono; [apply dtors_spec|]. intros ? w' [Hb Hw]. cbn [buckets w_conns set_buckets] in *.
  cbn [length] in Hl. rewrite reverse_cons in Hc.
  set (dead := filter _ _) in Hw.
  assert (forall p, p ∈ dead <-> exists k, count a !! p = Some k /\ (n <= S k)%nat) as Hdead.
  { intros p. unfold dead. rewrite list_elem_of_filter, elem_of_elements, held_first_in, Hc, first_in_app.
    rewrite length_reverse, bool_decide_eq_false. destruct (first_in (reverse l') p) as [k|] eqn:E.
    - split; [intros [Hno _]; by destruct Hno|]. intros (j & [= <-] & Hj).
      apply first_in_bound in E. rewrite length_reverse in E. lia.
    - cbn [first_in]. destruct (decide (p ∈ b0)); cbn.
      + split; [intros _; eexists; split; [done|lia]|]. intros _. split; [by intros [? [=] ]|done].
      + split; [by intros [_ ?]|]. by intros (k & [=] & _). }
  unfold wheel_rel, spec_event. cbn [count view]. rewrite Hb. split_and!.
  - rewrite length_app. cbn [length]. lia.
  - done.
  - intros e. rewrite lookup_omap, Hc, first_in_app, reverse_snoc, length_reverse. cbn [first_in].
    destruct (decide (e ∈ (∅ : gset Z))) as [Hx|_]; [by apply not_elem_of_empty in Hx|].
    destruct (first_in (reverse l') e) as [k|] eqn:E; cbn.
    + apply first_in_bound in E. rewrite length_reverse in E. by rewrite decide_True by lia.
    + destruct (decide (e ∈ b0)); cbn; [|done]. by rewrite decide_False by lia.
  - intros p. rewrite map_lookup_imap, Hv, Hw. unfold due.
    destruct (decide (p ∈ dead)) as [Hd|Hd]; rewrite Hdead in Hd.
    + destruct Hd as (k & -> & Hk). rewrite bool_decide_eq_true_2 by done.
      destruct (w_conns w !! p) as [s|]; [|done]. cbn. unfold shut, sess_shutdown, sess_connected. cbn.
      by destruct (bool_decide (s_state s = kConnected)).
    + assert (match count a !! p with Some k => bool_decide (n <= S k)%nat | None => false end = false) as ->.
      { destruct (count a !! p) as [k|]; [|done]. apply bool_decide_eq_false. intros Hk. apply Hd. by exists k. }
      by destruct (w_conns w !! p).
  - intros p s. rewrite Hw. destruct (decide (p ∈ dead)); [|by apply Hs].
    destruct (w_conns w !! p) as [s0|] eqn:E; [|done]. intros [= <-].
    destruct (Hs p s0 E) as [Hc0 Hi0]. unfold sess_shutdown. by destruct (sess_connected s0).
Qed.
End wheel_proofs.
End WheelSpec.

(** C15: the ring of buckets is a timeout per connection.  For every sequence of new
    connections, data, ends and seconds, no assert fails and the server behaves as if it
    kept for each connection the seconds since it was last active and shut it down, once
    and only then, when they reach the number of buckets; data is echoed until then. *)
Theorem wheel_timeouts `{Build} (evs : list Wheel.event) n w (a : WheelSpec.timeouts) :
  WheelSpec.wheel_rel n w a -> WheelSpec.allowed_all n evs w a ->
  exists w', for_each Wheel.run_event evs w = Ok (tt, w')
    /\ WheelSpec.wheel_rel n w' (foldl (fun a ev => WheelSpec.spec_event n ev a) a evs).
Proof.
  revert w a. induction evs as [|ev evs IH]; intros w a Hr Ha; cbn [for_each foldl].
  - by exists w.
  - destruct Ha as [Ha Hn].
    assert (wp (Wheel.run_event ev) w (fun _ w' => WheelSpec.wheel_rel n w' (WheelSpec.spec_event n ev a)))
      as ( [] & w1 & E & Hr1).
    { destruct ev; [by apply WheelSpec.wheel_Up|by apply WheelSpec.wheel_Data|by apply WheelSpec.wheel_Down
        |by apply WheelSpec.wheel_Second]. }
    destruct (IH w1 _ Hr1 (Hn w1 E)) as (w' & E' & Hr'). exists w'.
    unfold mbind, ST_bind. by rewrite E, E'.
Qed.

Lemma wheel_start n : (0 < n)%nat ->
  exists w, Wheel.EchoServer_ctor (Z.of_nat n) = Ok w
    /\ WheelSpec.wheel_rel n w (WheelSpec.mkTimeouts ∅ ∅).
Proof.
  intros Hn. unfold Wheel.EchoServer_ctor. rewrite (proj2 (Z.ltb_ge _ _)), Nat2Z.id by lia.
  eexists. split; [done|]. unfold WheelSpec.wheel_rel.
  cbn [Wheel.buckets Wheel.w_conns WheelSpec.count WheelSpec.view]. split_and!.
  - by rewrite length_replicate.
  - done.
  - intros e. rewrite lookup_empty. clear Hn. symmetry.
    assert (reverse (replicate n (∅ : gset Z)) = replicate n ∅) as -> by apply reverse_replicate.
    induction n as [|n IH]; [done|]. cbn [replicate WheelSpec.first_in].
    destruct (decide (e ∈ (∅ : gset Z))) as [Hx|_]; [by apply not_elem_of_empty in Hx|]. by rewrite IH.
  - intros p. by rewrite !lookup_empty.
  - intros p s Hs. by rewrite lookup_empty in Hs.
Qed.

(** Two connections, three seconds: the one that speaks in between stays. *)
Definition wheel_sample : list Wheel.event :=
  [Wheel.Up 1; Wheel.Up 2; Wheel.Second_; Wheel.Second_; Wheel.Data 2 (cs "x"); Wheel.Second_].
Definition wheel_of_three : Wheel.EchoServer := Wheel.mkEcho (replicate 3 ∅) ∅.

Lemma wheel_timeouts_witness :
  exists w', for_each (Wheel.run_event (H := Debug)) wheel_sample wheel_of_three = Ok (tt, w')
    /\ s_state <$> Wheel.w_conns w' !! 1 = Some kDisconnecting
    /\ s_state <$> Wheel.w_conns w' !! 2 = Some kConnected
    /\ s_out <$> Wheel.w_conns w' !! 2 = Some (cs "x").
Proof.
  destruct (wheel_timeouts (H := Debug) wheel_sample 3 wheel_of_three (WheelSpec.mkTimeouts ∅ ∅))
    as (w' & E & Hl & Hn & Hc & Hv & Hs).
  - destruct (wheel_start 3) as (w & E & Hr); [lia|]. by injection E as <-.
  - unfold wheel_sample. cbn [WheelSpec.allowed_all].
    repeat match goal with
    | |- WheelSpec.allowed _ _ _ /\ _ => split
    | |- WheelSpec.allowed (Wheel.Up _) _ _ => split; by vm_compute
    | |- WheelSpec.allowed Wheel.Second_ _ _ => exact I
    | |- WheelSpec.allowed (Wheel.Data _ _) _ _ => eexists; split; [vm_compute; reflexivity|left; by vm_compute]
    | |- forall w', Wheel.run_event _ _ = Ok (tt, w') -> _ =>
        let w' := fresh "w" in let E := fresh "E" in
        intros w' E; vm_compute in E; injection E as <-
    | |- True => done
    end.
  - exists w'. split; [exact E|]. vm_compute in E. injection E as <-. by vm_compute.
Defined.

(** ** The sorted list: who is idle *)

Module SortedSpec.
Import SortedList.

(** The time of the last message of [p]. *)
Definition last_of (t : Table Z) (p : Z) : Z := default 0 (t !! p ≫= s_context).
Definition monotone (clk : nat -> Z) : Prop := forall i j, (i <= j)%nat -> clk i <= clk j.
(** The context is set, to a time that has been read; the input is empty between callbacks. *)
Definition node_ok (now : Z) (s : Session Z) : Prop :=
  holds (s_in s) [] /\ exists t, s_context s = Some t /\ t <= now.
Definition sorted_inv (w : EchoServer) : Prop :=
  NoDup (connections_ w)
  /\ (forall p, p ∈ connections_ w <-> is_Some (l_conns w !! p))
  /\ (forall p s, l_conns w !! p = Some s -> node_ok (clock w (reads w)) s)
  /\ StronglySorted Z.le (last_of (l_conns w) <$> connections_ w)
  /\ monotone (clock w).

(** What the timer does to a connection it finds idle. *)
Definition drop_idle (s : Session Z) : Session Z :=
  if sess_connected s then sess_forceCloseWithDelay 3500000 (sess_shutdown s) else s.
Definition idle_at (w : EchoServer) (t : Z) (s : Session Z) : Prop :=
  exists t0, s_context s = Some t0 /\ idleSeconds_ w * kMicroSecondsPerSecond < t - t0.
(** Between the readings [t0] and [t1] of the clock the idle connections are dropped:
    those that are idle at [t0], and none that is not idle at [t1]. *)
Definition timer_effect (w w' : EchoServer) : Prop :=
  connections_ w' = connections_ w /\ (reads w <= reads w')%nat
  /\ forall p s, l_conns w !! p = Some s -> exists s', l_conns w' !! p = Some s'
      /\ (s' = s \/ s' = drop_idle s)
      /\ (idle_at w (clock w (reads w)) s -> s' = drop_idle s)
      /\ (~ idle_at w (clock w (reads w')) s -> s' = s).

Definition allowed `{Build} (ev : event) (w : EchoServer) : Prop :=
  match ev with
  | Up p => l_conns w !! p = None
  | Data p data => exists s, l_conns w !! p = Some s /\ readable_into (s_in s) data
  | Down p => is_Some (l_conns w !! p)
  | Second_ => True
  end.
Fixpoint allowed_all `{Build} (evs : list event) (w : EchoServer) : Prop :=
  match evs with
  | [] => True
  | ev :: evs' => allowed ev w /\ forall w', run_event ev w = Ok (tt, w') -> allowed_all evs' w'
  end.

Section sorted_proofs.
Context `{Build}.
Implicit Types w : EchoServer.

Lemma wp_on_ltable {A} (m : ST (Table Z) A) w (Q : A -> EchoServer -> Prop) :
  wp m (l_conns w) (fun x t => Q x (set_lconns t w)) -> wp (on_ltable A m) w Q.
Proof. intros Hw. by apply wp_zoom. Qed.

Lemma set_lconns_id w : set_lconns (l_conns w) w = w.
Proof. by destruct w. Qed.

Lemma wp_now w (Q : Z -> EchoServer -> Prop) :
  Q (clock w (reads w)) (set_reads (S (reads w)) w) -> wp now w Q.
Proof. intros HQ. unfold now. do 4 wp_step. by wp_step. Qed.

Lemma drop_idle_context s : s_context (drop_idle s) = s_context s /\ s_in (drop_idle s) = s_in s.
Proof.
  unfold drop_idle, sess_forceCloseWithDelay, sess_shutdown. destruct (sess_connected s) eqn:E; [|done].
  by destruct (_ || _).
Qed.

Lemma last_of_insert t p s q :
  last_of (<[p := s]> t) q = if decide (q = p) then default 0 (s_context s) else last_of t q.
Proof.
  unfold last_of. destruct (decide (q = p)) as [->|Hne]; [by rewrite lookup_insert_eq|].
  by rewrite lookup_insert_ne.
Qed.

(** Connections outside the list keep the times of the list. *)
Lemma last_of_fmap t t' (l : list Z) :
  (forall p, p ∈ l -> last_of t' p = last_of t p) -> last_of t' <$> l = last_of t <$> l.
Proof. intros Hl. apply list_fmap_ext. intros i p Hp. apply Hl. by eapply list_elem_of_lookup_2. Qed.

Lemma timer_loop_spec its w :
  NoDup its -> monotone (clock w) ->
  (forall p, p ∈ its -> exists s, l_conns w !! p = Some s /\ node_ok (clock w (reads w)) s) ->
  StronglySorted Z.le (last_of (l_conns w) <$> its) ->
  wp (onTimer_loop its) w (fun _ w' =>
    connections_ w' = connections_ w /\ (reads w <= reads w')%nat /\ clock w' = clock w
    /\ idleSeconds_ w' = idleSeconds_ w
    /\ (forall p, p ∉ its -> l_conns w' !! p = l_conns w !! p)
    /\ forall p s, p ∈ its -> l_conns w !! p = Some s -> exists s', l_conns w' !! p = Some s'
      /\ (s' = s \/ s' = drop_idle s)
      /\ (idle_at w (clock w (reads w)) s -> s' = drop_idle s)
      /\ (~ idle_at w (clock w (reads w')) s -> s' = s)).
Proof.
  revert w. induction its as [|p its IH]; intros w Hnd Hmono Hits Hsort; cbn [onTimer_loop].
  { wp_step. split_and!; try done. by intros p s ?%not_elem_of_nil. }
  apply NoDup_cons in Hnd as [Hp Hnd]. cbn [fmap list_fmap] in Hsort.
  apply StronglySorted_inv in Hsort as [Hsort Hfirst].
  destruct (Hits p (list_elem_of_here _ _)) as (s & Hs & Hin & t0 & Hctx & Ht0).
  wp_step. wp_step. rewrite Hs, bool_decide_eq_true_2 by done.
  wp_step. apply wp_on_ltable, (wp_getContext p s); [done|]. rewrite set_lconns_id, Hctx.
  wp_step. wp_step; [done|]. wp_step. apply wp_now. wp_step. wp_step. cbv zeta. unfold timeDifference.
  cbn [idleSeconds_ set_reads]. set (t := clock w (reads w)) in *.
  destruct (idleSeconds_ w * kMicroSecondsPerSecond <? t - t0) eqn:Eage.
  - apply Z.ltb_lt in Eage. wp_step. apply wp_on_ltable, (wp_isConnected p s); [done|].
    rewrite set_lconns_id. set (w1 := set_lconns (<[p := drop_idle s]> (l_conns w)) (set_reads (S (reads w)) w)).
    wp_step. apply (wp_mono _ _ (fun _ w2 => w2 = w1)).
    + wp_step.
      * match goal with Hu : sess_connected s = true |- _ => rename Hu into Hup end.
        wp_step. unfold shutdown, forceCloseWithDelay. apply wp_on_ltable, (wp_on_conn p s); [done|].
        apply wp_on_ltable, (wp_on_conn p (sess_shutdown s)); [apply lookup_insert_eq|].
        unfold w1, set_lconns, drop_idle. cbn. by rewrite Hup, insert_insert_eq.
      * match goal with Hu : sess_connected s = false |- _ => rename Hu into Hup end.
        unfold w1, set_lconns, drop_idle. cbn. rewrite Hup, insert_id by done. by destruct w.
    + intros ? ? ->. destruct (drop_idle_context s) as [Ec Ei].
      eapply wp_mono; [apply (IH w1)|].
      * done.
      * done.
      * intros q Hq. assert (q <> p) by congruence. destruct (Hits q (list_elem_of_further _ _ _ Hq)) as (sq & Hsq & Hiq & tq & Hcq & Htq).
        exists sq. split; [cbn; by rewrite lookup_insert_ne|]. split; [done|]. exists tq. split; [done|].
        cbn. etrans; [exact Htq|]. apply Hmono. lia.
      * rewrite (last_of_fmap (l_conns w)); [done|]. intros q Hq. cbn. rewrite last_of_insert.
        by rewrite decide_False by congruence.
      * intros ? w' (L1 & R1 & C1 & I1 & N1 & E1). cbn [connections_ reads clock idleSeconds_ l_conns w1 set_lconns set_reads] in *.
        split_and!; [done|lia|done|done| |].
        -- intros q [Hqp Hq]%not_elem_of_cons. rewrite N1, lookup_insert_ne by done. done.
        -- intros q sq [->|Hq]%elem_of_cons Hsq.
           ++ assert (sq = s) as -> by congruence. exists (drop_idle s). rewrite N1 by done.
              split; [apply lookup_insert_eq|]. split; [by right|]. split; [done|]. intros Hni. exfalso.
              apply Hni. exists t0. split; [done|]. pose proof (Hmono (reads w) (reads w') ltac:(lia)). fold t in H0. lia.
           ++ assert (q <> p) by congruence. destruct (E1 q sq Hq) as (s' & Hs' & Hor & Hi & Hn);
                [by rewrite lookup_insert_ne|]. exists s'. split; [done|]. split; [done|]. split.
              ** intros (tq & Hcq & Hlt). apply Hi. exists tq. split; [done|]. cbn [idleSeconds_].
                 change (idleSeconds_ w * kMicroSecondsPerSecond < clock w (S (reads w)) - tq).
                 pose proof (Hmono (reads w) (S (reads w)) ltac:(lia)). fold t in Hlt. lia.
              ** intros Hni. apply Hn. intros (tq & Hcq & Hlt). apply Hni. by exists tq.
  - apply Z.ltb_ge in Eage. rewrite (proj2 (Z.ltb_ge _ 0)) by lia. wp_step.
    cbn [connections_ reads clock idleSeconds_ l_conns set_reads]. split_and!; [done|lia|done|done|done|].
    intros q sq Hq Hsq. exists sq. split; [done|]. split; [by left|]. split; [|done].
    intros (tq & Hcq & Hlt). exfalso. apply elem_of_cons in Hq as [->|Hq].
    + assert (sq = s) as -> by congruence. assert (tq = t0) as -> by congruence. lia.
    + rewrite Forall_fmap, Forall_forall in Hfirst. specialize (Hfirst q Hq). unfold compose, last_of in Hfirst.
      rewrite Hs, Hsq in Hfirst. cbn in Hfirst. rewrite Hctx, Hcq in Hfirst. cbn in Hfirst. fold t in Hlt. lia.
Qed.

Lemma onTimer_spec w : sorted_inv w ->
  wp onTimer w (fun _ w' => timer_effect w w' /\ sorted_inv w').
Proof.
  intros (Hnd & Hdom & Hok & Hsort & Hmono). unfold onTimer. wp_step. wp_step.
  eapply wp_mono; [apply timer_loop_spec; try done|].
  { intros p [s Hs]%Hdom. exists s. split; [done|]. by eapply Hok. }
  intros ? w' (L1 & R1 & C1 & I1 & N1 & E1).
  assert (forall p s, l_conns w !! p = Some s -> exists s', l_conns w' !! p = Some s'
    /\ (s' = s \/ s' = drop_idle s)
    /\ (idle_at w (clock w (reads w)) s -> s' = drop_idle s)
    /\ (~ idle_at w (clock w (reads w')) s -> s' = s)) as HE.
  { intros p s Hs. apply E1; [|done]. apply Hdom. by exists s. }
  assert (forall p s', l_conns w' !! p = Some s' -> exists s, l_conns w !! p = Some s
    /\ s_context s' = s_context s /\ s_in s' = s_in s) as Hback.
  { intros p s' Hs'. destruct (l_conns w !! p) as [s|] eqn:Hs.
    - exists s. split; [done|]. destruct (HE p s Hs) as (s2 & Hs2 & Hor & _). assert (s2 = s') as -> by congruence.
      destruct Hor as [->| ->]; [done|]. apply drop_idle_context.
    - rewrite N1, Hs in Hs'; [done|]. rewrite Hdom, Hs. by intros [? [=] ]. }
  split; [done|]. unfold sorted_inv. rewrite L1, C1. split_and!; [done| | | |done].
  - intros p. rewrite Hdom. split; intros [s Hs].
    + destruct (HE p s Hs) as (s' & -> & _). done.
    + destruct (Hback p s Hs) as (s0 & -> & _). done.
  - intros p s' Hs'. destruct (Hback p s' Hs') as (s & Hs & Ec & Ei). destruct (Hok p s Hs) as (Hi & t & Ht & Hle).
    split; [by rewrite Ei|]. exists t. split; [congruence|]. etrans; [exact Hle|]. by apply Hmono.
  - rewrite (last_of_fmap (l_conns w)); [done|]. intros p [s Hs]%Hdom.
    destruct (HE p s Hs) as (s' & Hs' & _). destruct (Hback p s' Hs') as (s0 & Hs0 & Ec & _).
    unfold last_of. rewrite Hs', Hs0. cbn. by rewrite Ec.
Qed.

Lemma erase_sorted (f : Z -> Z) p l :
  StronglySorted Z.le (f <$> l) -> StronglySorted Z.le (f <$> erase p l).
Proof.
  unfold erase. induction l as [|q l IH]; [done|]. cbn [fmap list_fmap].
  intros [Hl Hq]%StronglySorted_inv. rewrite filter_cons. destruct (decide (q <> p)); [|by apply IH].
  cbn [fmap list_fmap]. constructor; [by apply IH|]. rewrite Forall_fmap, Forall_forall in *.
  intros x [_ Hx]%list_elem_of_filter. by apply Hq.
Qed.

Lemma elem_of_erase p l q : q ∈ erase p l <-> q <> p /\ q ∈ l.
Proof. unfold erase. by rewrite list_elem_of_filter. Qed.

Lemma erase_not_in p l : p ∉ l -> erase p l = l.
Proof.
  unfold erase. induction l as [|q l IH]; [done|]. intros [Hne Hp]%not_elem_of_cons.
  rewrite filter_cons, decide_True by congruence. f_equal. by apply IH.
Qed.

(** A connection that is heard of at the next reading of the clock becomes the last. *)
Lemma touch_inv w p s : sorted_inv w -> s_context s = Some (clock w (reads w)) -> holds (s_in s) [] ->
  sorted_inv (mkSorted (idleSeconds_ w) (erase p (connections_ w) ++ [p])
                (<[p := s]> (l_conns w)) (clock w) (S (reads w))).
Proof.
  intros (Hnd & Hdom & Hok & Hsort & Hmono) Hc Hi. unfold sorted_inv. cbn [connections_ l_conns clock reads].
  assert (Hnext : clock w (reads w) <= clock w (S (reads w))) by (apply Hmono; lia).
  pose proof (elem_of_erase p (connections_ w)) as Her.
  split_and!; [| | | |done].
  - apply NoDup_app. split; [by apply NoDup_filter|]. split; [|apply NoDup_singleton].
    intros q [Hq _]%Her. by intros ->%list_elem_of_singleton.
  - intros q. rewrite elem_of_app, list_elem_of_singleton, Her, Hdom, lookup_insert_is_Some. naive_solver.
  - intros q sq [ [<- <-]|[Hne Hq] ]%lookup_insert_Some.
    + split; [done|]. eexists. split; [done|lia].
    + destruct (Hok q sq Hq) as (Hiq & t & Ht & Hle). split; [done|]. exists t. split; [done|lia].
  - rewrite fmap_app, (last_of_fmap (l_conns w) (<[p:=s]> (l_conns w)) (erase p _)).
    2:{ intros q [Hq _]%Her. rewrite last_of_insert. by rewrite decide_False. }
    apply StronglySorted_app_2; [|by apply erase_sorted|repeat constructor].
    intros x y (q & -> & [Hq Hin]%Her)%list_elem_of_fmap Hy.
    apply list_elem_of_singleton in Hy as ->. rewrite last_of_insert, decide_True, Hc by done. cbn.
    apply Hdom in Hin as [sq Hsq]. destruct (Hok q sq Hsq) as (_ & t & Ht & Hle).
    unfold last_of. rewrite Hsq. cbn. by rewrite Ht.
Qed.

Lemma sorted_remove_inv w p : sorted_inv w ->
  sorted_inv (mkSorted (idleSeconds_ w) (erase p (connections_ w))
                (delete p (l_conns w)) (clock w) (reads w)).
Proof.
  intros (Hnd & Hdom & Hok & Hsort & Hmono). unfold sorted_inv. cbn [connections_ l_conns clock reads].
  pose proof (elem_of_erase p (connections_ w)) as Her.
  split_and!; [by apply NoDup_filter| | | |done].
  - intros q. rewrite Her, Hdom, lookup_delete_is_Some. naive_solver.
  - intros q sq [_ Hq]%lookup_delete_Some. by apply (Hok q).
  - rewrite (last_of_fmap (l_conns w)); [by apply erase_sorted|]. intros q [Hq _]%Her.
    unfold last_of. by rewrite lookup_delete_ne.
Qed.

Lemma sorted_Up p w : sorted_inv w -> l_conns w !! p = None ->
  wp (run_event (Up p)) w (fun _ w' => sorted_inv w').
Proof.
  intros Hi Hp. pose proof Hi as (_ & Hdom & _). cbn [run_event]. set (s0 := sess_setState kConnected (sess_new (C := Z))).
  wp_step. apply wp_on_ltable. unfold established. eapply wp_Ok; [by rewrite Hp|]. fold s0.
  unfold onConnection. wp_step. apply wp_on_ltable, (wp_isConnected p s0); [apply lookup_insert_eq|].
  rewrite set_lconns_id. change (sess_connected s0) with true. cbv iota. wp_step. apply wp_now.
  wp_step. wp_step. unfold setContext. apply wp_on_ltable, (wp_on_conn p s0); [apply lookup_insert_eq|].
  unfold set_lconns, set_list, set_reads. cbn [connections_ l_conns clock reads idleSeconds_].
  rewrite insert_insert_eq, <- (erase_not_in p (connections_ w)) at 1.
  - by apply touch_inv.
  - rewrite Hdom, Hp. by intros [? [=] ].
Qed.

Lemma sorted_Data p data s w : sorted_inv w -> l_conns w !! p = Some s -> readable_into (s_in s) data ->
  wp (run_event (Data p data)) w (fun _ w' => sorted_inv w').
Proof.
  intros Hi Hp Hf. pose proof Hi as (_ & _ & Hok & _). destruct (Hok p s Hp) as (Hin & t0 & Hctx & _).
  cbn [run_event].
  wp_step. apply wp_on_ltable, (wp_received p s _ []); [done..|]. intros buf Hbuf. cbn [app] in Hbuf.
  set (s1 := sess_setInput buf s). wp_step. apply wp_on_ltable, (wp_conn_at p s1); [apply lookup_insert_eq|].
  rewrite set_lconns_id. set (w1 := set_lconns _ w). assert (l_conns w1 !! p = Some s1) as Hp1 by apply lookup_insert_eq.
  wp_step. unfold onMessage. wp_step.
  eapply wp_mono; [by apply (echo_spec l_conns set_lconns p s1 data)|]. intros buf' w2 [-> Hb'].
  set (w2 := set_lconns _ w1). set (s2 := sess_send data s1).
  assert (l_conns w2 !! p = Some s2) as Hp2 by apply lookup_insert_eq.
  assert (s_context s2 = Some t0) as Hc2 by (unfold s2, sess_send; destruct (sess_connected s1); done).
  wp_step. apply wp_on_ltable, (wp_getContext p s2); [done|]. rewrite set_lconns_id, Hc2.
  wp_step. wp_step; [done|]. wp_step. apply wp_now. wp_step. unfold setContext.
  apply wp_on_ltable, (wp_on_conn p s2); [done|]. wp_step. wp_step. wp_step. wp_step.
  cbn [connections_ set_list set_lconns set_reads]. wp_step.
  wp_step; [by rewrite last_snoc, bool_decide_eq_true_2|]. wp_step.
  eapply wp_on_ltable, wp_on_conn; [apply lookup_insert_eq|].
  unfold w2, w1, set_lconns, set_list, set_reads. cbn [connections_ l_conns clock reads idleSeconds_].
  rewrite !insert_insert_eq. by apply touch_inv.
Qed.

Lemma sorted_Down p s w : sorted_inv w -> l_conns w !! p = Some s ->
  wp (run_event (Down p)) w (fun _ w' => sorted_inv w').
Proof.
  intros Hi Hp. pose proof Hi as (_ & _ & Hok & _). destruct (Hok p s Hp) as (Hin & t0 & Hctx & _).
  cbn [run_event]. set (s1 := sess_setState kDisconnected s).
  wp_step. unfold closed. apply wp_on_ltable, (wp_on_conn p s); [done|]. fold s1. wp_step.
  unfold onConnection. wp_step. apply wp_on_ltable, (wp_isConnected p s1); [apply lookup_insert_eq|].
  rewrite set_lconns_id. change (sess_connected s1) with false. cbv iota. wp_step.
  apply wp_on_ltable, (wp_getContext p s1); [apply lookup_insert_eq|]. rewrite set_lconns_id.
  change (s_context s1) with (s_context s). rewrite Hctx. wp_step. wp_step; [done|]. wp_step.
  apply wp_on_ltable, wp_modify. unfold set_lconns, set_list. cbn [connections_ l_conns clock reads idleSeconds_].
  rewrite delete_insert_eq. by apply sorted_remove_inv.
Qed.

Lemma event_inv ev w : sorted_inv w -> allowed ev w -> wp (run_event ev) w (fun _ w' => sorted_inv w').
Proof.
  intros Hi Ha. destruct ev as [p|p data|p|]; cbn [allowed] in Ha.
  - by apply sorted_Up.
  - destruct Ha as (s & Hs & Hf). by eapply sorted_Data.
  - destruct Ha as [s Hs]. by eapply sorted_Down.
  - eapply wp_mono; [by apply onTimer_spec|]. by intros ? ? [_ ?].
Qed.

Lemma sorted_start_inv idle clk : monotone clk -> sorted_inv (EchoServer_ctor idle clk).
Proof.
  intros Hm. unfold EchoServer_ctor, sorted_inv. cbn. split_and!; [constructor| | |constructor|done].
  - intros p. rewrite lookup_empty. split; [by intros ?%not_elem_of_nil|by intros [? [=] ]].
  - intros p s Hs. by rewrite lookup_empty in Hs.
Qed.
End sorted_proofs.
End SortedSpec.

(** C26: the sorted list drops the idle connections.  For every sequence of new connections,
    data, ends and seconds, with a clock that does not go back, no assert fails, the list
    holds each live connection once in the order of the last messages, and although the
    timer stops at the first connection that is not idle, it drops (shuts down, and closes
    by force 3.5 s later) all those idle when it starts and none that is not idle when
    it stops. *)
Theorem sorted_list_idle `{Build} (evs : list SortedList.event) w :
  SortedSpec.sorted_inv w -> SortedSpec.allowed_all evs w ->
  exists w', for_each SortedList.run_event evs w = Ok (tt, w') /\ SortedSpec.sorted_inv w'
    /\ exists w2, SortedList.onTimer w' = Ok (tt, w2) /\ SortedSpec.timer_effect w' w2.
Proof.
  revert w. induction evs as [|ev evs IH]; intros w Hi Ha; cbn [for_each].
  - exists w. split; [done|]. split; [done|].
    destruct (SortedSpec.onTimer_spec w Hi) as ( [] & w2 & E & He & _). by exists w2.
  - destruct Ha as [Ha Hn]. destruct (SortedSpec.event_inv ev w Hi Ha) as ( [] & w1 & E & Hi1).
    destruct (IH w1 Hi1 (Hn w1 E)) as (w' & E' & Hr). exists w'. split; [|done].
    unfold mbind, ST_bind. by rewrite E.
Qed.

(** The clock moves a second between readings; the idle time is 2 s. *)
Definition sorted_start : SortedList.EchoServer :=
  SortedList.EchoServer_ctor 2 (fun n => Z.of_nat n * 1000000).
Definition sorted_sample : list SortedList.event :=
  [SortedList.Up 1; SortedList.Up 2; SortedList.Second_; SortedList.Data 1 (cs "x")].

Lemma sorted_list_idle_witness :
  exists w', for_each (SortedList.run_event (H := Debug)) sorted_sample sorted_start = Ok (tt, w')
    /\ SortedList.connections_ w' = [2; 1]
    /\ exists w2, SortedList.onTimer (H := Debug) w' = Ok (tt, w2)
       /\ s_state <$> SortedList.l_conns w2 !! 1 = Some kConnected
       /\ s_state <$> SortedList.l_conns w2 !! 2 = Some kDisconnecting
       /\ s_delayed <$> SortedList.l_conns w2 !! 2 = Some [3500000].
Proof.
  destruct (sorted_list_idle (H := Debug) sorted_sample sorted_start) as (w' & E & _ & w2 & E2 & _).
  - apply SortedSpec.sorted_start_inv. intros i j Hij. lia.
  - unfold sorted_sample. cbn [SortedSpec.allowed_all].
    repeat match goal with
    | |- SortedSpec.allowed _ _ /\ _ => split
    | |- SortedSpec.allowed (SortedList.Up _) _ => by vm_compute
    | |- SortedSpec.allowed SortedList.Second_ _ => exact I
    | |- SortedSpec.allowed (SortedList.Data _ _) _ => eexists; split; [vm_compute; reflexivity|left; by vm_compute]
    | |- forall w', SortedList.run_event _ _ = Ok (tt, w') -> _ =>
        let w' := fresh "w" in let E := fresh "E" in
        intros w' E; vm_compute in E; injection E as <-
    | |- True => done
    end.
  - exists w'. split; [exact E|]. vm_compute in E. injection E as <-. split; [done|].
    exists w2. split; [exact E2|]. vm_compute in E2. injection E2 as <-. by vm_compute.
Defined.

(** ** The counter: how many are served *)

Module MaxSpec.
Import MaxConnection.

(** The connections a client can use. *)
Definition served (t : Table unit) : Table unit := filter (fun x => sess_connected x.2 = true) t.
(** The counter is the number of connections, refused ones included, and at most
    [maxConnections_] are served; the input is empty between callbacks. *)
Definition max_inv (w : EchoServer) : Prop :=
  numConnection_ w = Z.of_nat (base.size (m_conns w))
  /\ Z.of_nat (base.size (served (m_conns w))) <= maxConnections_ w
  /\ Z.of_nat (base.size (m_conns w)) <= 2147483647
  /\ forall p s, m_conns w !! p = Some s -> holds (s_in s) [].
Definition fresh_session : Session unit := sess_setState kConnected sess_new.
(** The session of a connection that arrives when there are [n] with it. *)
Definition admitted (n max : Z) : Session unit :=
  if max <? n then sess_forceCloseWithDelay 3000000 (sess_shutdown fresh_session) else fresh_session.

Definition allowed `{Build} (ev : event) (w : EchoServer) : Prop :=
  match ev with
  | Up p => m_conns w !! p = None /\ Z.of_nat (base.size (m_conns w)) < 2147483647
  | Data p data => exists s, m_conns w !! p = Some s /\ readable_into (s_in s) data
  | Down p => is_Some (m_conns w !! p)
  end.
Fixpoint allowed_all `{Build} (evs : list event) (w : EchoServer) : Prop :=
  match evs with
  | [] => True
  | ev :: evs' => allowed ev w /\ forall w', run_event ev w = Ok (tt, w') -> allowed_all evs' w'
  end.

Section max_proofs.
Context `{Build}.
Implicit Types w : EchoServer.

Lemma wp_on_mtable {A} (m : ST (Table unit) A) w (Q : A -> EchoServer -> Prop) :
  wp m (m_conns w) (fun x t => Q x (set_mconns t w)) -> wp (on_mtable A m) w Q.
Proof. intros Hw. by apply wp_zoom. Qed.

Lemma set_mconns_id w : set_mconns (m_conns w) w = w.
Proof. by destruct w. Qed.

Lemma served_size t : (base.size (served t) <= base.size t)%nat.
Proof. apply map_subseteq_size, map_filter_subseteq. Qed.

Lemma served_insert t p s :
  (base.size (served (<[p := s]> t)) <= base.size (served (delete p t)) + (if sess_connected s then 1 else 0))%nat.
Proof.
  unfold served. rewrite map_filter_insert, map_filter_delete. cbn. destruct (sess_connected s) eqn:E.
  - rewrite decide_True by done. rewrite <- insert_delete_eq, map_size_insert_None; [lia|].
    by rewrite lookup_delete_eq.
  - rewrite decide_False by done. lia.
Qed.

Lemma served_delete t p : (base.size (served (delete p t)) <= base.size (served t))%nat.
Proof. unfold served. rewrite map_filter_delete. apply map_subseteq_size, delete_subseteq. Qed.

Lemma served_delete_connected t p s : t !! p = Some s -> sess_connected s = true ->
  base.size (served t) = S (base.size (served (delete p t))).
Proof.
  intros Hp Hs. unfold served. rewrite map_filter_delete, map_size_delete_Some.
  2:{ exists s. apply map_lookup_filter_Some. by split. }
  assert (base.size (filter (fun x => sess_connected x.2 = true) t) <> 0%nat); [|lia].
  intros E%map_size_empty_inv. apply (f_equal (fun m => m !! p)) in E.
  rewrite lookup_empty in E. apply map_lookup_filter_None in E as [E|E]; [congruence|].
  by apply (E s Hp).
Qed.

Lemma i32_small z : 0 <= z < 2147483648 -> i32 z = z.
Proof. intros Hz. apply wraps_small; lia. Qed.

Lemma max_Up p w : max_inv w -> allowed (Up p) w ->
  wp (run_event (Up p)) w (fun _ w' => max_inv w'
    /\ w' = mkMax (numConnection_ w + 1) (maxConnections_ w)
              (<[p := admitted (numConnection_ w + 1) (maxConnections_ w)]> (m_conns w))).
Proof.
  intros (Hn & Hmax & Hsz & Hin) [Hp Hlt]. cbn [run_event].
  set (n := numConnection_ w + 1). set (s1 := admitted n (maxConnections_ w)).
  set (w1 := mkMax n (maxConnections_ w) (<[p := s1]> (m_conns w))).
  apply (wp_mono _ _ (fun _ w' => w' = w1)).
  - wp_step. apply wp_on_mtable. unfold established. eapply wp_Ok; [by rewrite Hp|]. fold fresh_session.
    unfold onConnection. wp_step. apply wp_on_mtable, (wp_isConnected p fresh_session); [apply lookup_insert_eq|].
    rewrite set_mconns_id. change (sess_connected fresh_session) with true. cbv iota.
    wp_step. wp_step. wp_step. wp_step.
    cbn [numConnection_ maxConnections_ set_num set_mconns]. rewrite i32_small by lia. fold n.
    wp_step; unfold w1, s1, admitted; fold n; match goal with Hb : (_ <? _) = _ |- _ => rewrite Hb end; [|done].
    wp_step. unfold shutdown, forceCloseWithDelay. apply wp_on_mtable, (wp_on_conn p fresh_session).
    { apply lookup_insert_eq. }
    apply wp_on_mtable, (wp_on_conn p (sess_shutdown fresh_session)); [apply lookup_insert_eq|].
    unfold set_mconns, set_num. cbn. by rewrite !insert_insert_eq.
  - intros ? ? ->. split; [|done]. unfold max_inv, w1. cbn [numConnection_ maxConnections_ m_conns].
    assert (sess_connected s1 = negb (maxConnections_ w <? n)) as Hc by (unfold s1, admitted; by destruct (_ <? _)).
    assert (holds (s_in s1) []) as Hs1 by (unfold s1, admitted; destruct (_ <? _); apply holds_empty).
    rewrite map_size_insert_None by done. split_and!.
    + unfold n. lia.
    + pose proof (served_insert (m_conns w) p s1) as Hi. rewrite Hc, delete_id in Hi by done.
      pose proof (served_size (m_conns w)) as Hle.
      destruct (Z.ltb_spec (maxConnections_ w) n); cbn [negb] in Hi; unfold n in *; lia.
    + lia.
    + intros q s [ [<- <-]|[_ Hq] ]%lookup_insert_Some; [done|]. by eapply Hin.
Qed.

Lemma max_Data p data w : max_inv w -> allowed (Data p data) w ->
  wp (run_event (Data p data)) w (fun _ w' => max_inv w').
Proof.
  intros (Hn & Hmax & Hsz & Hin) (s & Hp & Hf). cbn [run_event].
  wp_step. apply wp_on_mtable, (wp_received p s _ []); [done|by eapply Hin|done|]. intros buf Hbuf. cbn [app] in Hbuf.
  set (s1 := sess_setInput buf s). wp_step. apply wp_on_mtable, (wp_conn_at p s1); [apply lookup_insert_eq|].
  rewrite set_mconns_id. set (w1 := set_mconns _ w). assert (m_conns w1 !! p = Some s1) as Hp1 by apply lookup_insert_eq.
  wp_step. unfold onMessage.
  eapply wp_mono; [by apply (echo_spec m_conns set_mconns p s1 data)|]. intros buf' w2 [-> Hb'].
  eapply wp_on_mtable, wp_on_conn; [apply lookup_insert_eq|].
  unfold max_inv, w1, set_mconns. cbn [numConnection_ maxConnections_ m_conns]. rewrite !insert_insert_eq.
  set (s2 := sess_setInput buf' _).
  assert (sess_connected s2 = sess_connected s) as Hc.
  { unfold s2, sess_send. by destruct (sess_connected s1) eqn:E; unfold sess_connected in *. }
  assert (base.size (<[p := s2]> (m_conns w)) = base.size (m_conns w)) as -> by (apply map_size_insert_Some; by exists s).
  split_and!; [done| |done|].
  - pose proof (served_insert (m_conns w) p s2) as Hi. rewrite Hc in Hi.
    pose proof (served_delete (m_conns w) p). destruct (sess_connected s) eqn:E; [|lia].
    rewrite (served_delete_connected _ p s) in Hmax by done. lia.
  - intros q sq [ [<- <-]|[_ Hq] ]%lookup_insert_Some; [done|]. by eapply Hin.
Qed.

Lemma max_Down p w : max_inv w -> allowed (Down p) w ->
  wp (run_event (Down p)) w (fun _ w' => max_inv w').
Proof.
  intros (Hn & Hmax & Hsz & Hin) [s Hp]. cbn [run_event]. set (s1 := sess_setState kDisconnected s).
  wp_step. unfold closed. apply wp_on_mtable, (wp_on_conn p s); [done|]. fold s1. wp_step.
  unfold onConnection. wp_step. apply wp_on_mtable, (wp_isConnected p s1); [apply lookup_insert_eq|].
  rewrite set_mconns_id. change (sess_connected s1) with false. cbv iota. wp_step.
  apply wp_on_mtable, wp_modify. unfold max_inv, set_mconns, set_num. cbn [numConnection_ maxConnections_ m_conns].
  rewrite delete_insert_eq.
  assert (base.size (delete p (m_conns w)) = pred (base.size (m_conns w))) as Hd by (apply map_size_delete_Some; by exists s).
  assert (base.size (m_conns w) <> 0%nat).
  { intros E%map_size_empty_inv. by rewrite E, lookup_empty in Hp. }
  split_and!.
  - rewrite i32_small by lia. lia.
  - pose proof (served_delete (m_conns w) p). lia.
  - lia.
  - intros q sq [_ Hq]%lookup_delete_Some. by eapply Hin.
Qed.
End max_proofs.

Lemma max_start_inv max : 0 <= max -> max_inv (EchoServer_ctor max).
Proof.
  intros Hm. unfold max_inv, served. cbn [numConnection_ maxConnections_ m_conns EchoServer_ctor].
  rewrite map_filter_empty, map_size_empty. split_and!; [done|done|done|].
  intros p s Hs. by rewrite lookup_empty in Hs.
Qed.
End MaxSpec.

(** The connections are counted.  For every sequence of new connections, data and
    ends, no assert fails, numConnection_ is the number of live connections and at most
    maxConnections_ of them can be used; the next connection is served when the count
    with it is within maxConnections_, and is shut down at once and closed by force
    3 s later when it is not. *)
Theorem max_connections_served `{Build} (evs : list MaxConnection.event) w p :
  MaxSpec.max_inv w -> MaxSpec.allowed_all evs w ->
  exists w', for_each MaxConnection.run_event evs w = Ok (tt, w') /\ MaxSpec.max_inv w'
    /\ (MaxSpec.allowed (MaxConnection.Up p) w' ->
        exists w2, MaxConnection.run_event (MaxConnection.Up p) w' = Ok (tt, w2)
          /\ MaxConnection.m_conns w2 !! p =
             Some (MaxSpec.admitted (MaxConnection.numConnection_ w' + 1) (MaxConnection.maxConnections_ w'))
          /\ forall q, q <> p -> MaxConnection.m_conns w2 !! q = MaxConnection.m_conns w' !! q).
Proof.
  revert w. induction evs as [|ev evs IH]; intros w Hi Ha; cbn [for_each].
  - exists w. split; [done|]. split; [done|]. intros Hup.
    destruct (MaxSpec.max_Up p w Hi Hup) as ( [] & w2 & E & _ & ->). eexists. split; [exact E|].
    cbn. split; [apply lookup_insert_eq|]. intros q Hq. by apply lookup_insert_ne.
  - destruct Ha as [Ha Hn].
    assert (wp (MaxConnection.run_event ev) w (fun _ w' => MaxSpec.max_inv w')) as ( [] & w1 & E & Hi1).
    { destruct ev; [|by apply MaxSpec.max_Data|by apply MaxSpec.max_Down].
      eapply wp_mono; [by apply MaxSpec.max_Up|]. by intros ? ? [? _]. }
    destruct (IH w1 Hi1 (Hn w1 E)) as (w' & E' & Hr). exists w'. split; [|done].
    unfold mbind, ST_bind. by rewrite E.
Qed.

(** One connection at most: the second is refused, and counted while it lasts. *)
Definition max_sample : list MaxConnection.event := [MaxConnection.Up 1; MaxConnection.Data 1 (cs "x")].
Definition max_of_one : MaxConnection.EchoServer := MaxConnection.EchoServer_ctor 1.

Lemma max_connections_served_witness :
  exists w' w2, for_each (MaxConnection.run_event (H := Debug)) max_sample max_of_one = Ok (tt, w')
    /\ MaxConnection.run_event (H := Debug) (MaxConnection.Up 2) w' = Ok (tt, w2)
    /\ s_state <$> MaxConnection.m_conns w2 !! 1 = Some kConnected
    /\ s_state <$> MaxConnection.m_conns w2 !! 2 = Some kDisconnecting.
Proof.
  destruct (max_connections_served (H := Debug) max_sample max_of_one 2) as (w' & E & _ & Hup).
  - by apply MaxSpec.max_start_inv.
  - unfold max_sample. cbn [MaxSpec.allowed_all]. split; [by vm_compute|].
    intros w' E. vm_compute in E. injection E as <-. split; [|done].
    eexists. split; [vm_compute; reflexivity|left; by vm_compute].
  - pose proof E as E1. vm_compute in E1. injection E1 as <-.
    destruct Hup as (w2 & E2 & _); [by vm_compute|]. eexists _, w2. split; [exact E|].
    split; [exact E2|]. vm_compute in E2. injection E2 as <-. by vm_compute.
Defined.
