(* ===== verification/Socks.v ===== *)
(** * Tunnels: src/arale/examples/socks4a

    A Tunnel (Tunnel.h) joins a connection that a server has accepted, the front, to one
    that a TcpClient makes, the back.  Three servers make tunnels: TcpRelay.cc to one
    address, Balancer.cc to its backends in turn, Socks4a.cc to the address the client
    asks for.  A front is named by a number that is not used again; its Tunnel, and the
    one connection the Tunnel's client_ makes, are named by the same number. *)

From S2P Require Import Prelude Endian Format Buffer TcpConnection Session.

(** A sockaddr_in: sin_port and sin_addr.s_addr, as they are in memory. *)
Definition Addr : Type := Z * Z.

Record Tunnel := mkTunnel {
  t_server : option Z;        (* serverConnection_, by its name *)
  t_addr : Addr;              (* where client_ connects to *)
  t_bound : bool;             (* client_'s callbacks are the Tunnel's, not the default ones *)
  t_dialing : bool;           (* client_'s connector is at work *)
  t_connect : bool;           (* client_'s connect_ *)
  t_conn : option Z           (* client_'s connection_ *)
}.

(** The globals of the three programs.  A front's context is its back connection.
    g_tunnels and t_tunnels: the loop (0 in a program with one) and the name. *)
Record Relay := mkRelay {
  r_fronts : Table Z;
  r_backs : Table unit;
  r_tunnels : gmap Z Tunnel;  (* the Tunnel objects *)
  g_tunnels : gset (Z * Z);
  g_nextIndex : Z             (* of Balancer.cc *)
}.
Definition Relay_start : Relay := mkRelay ∅ ∅ ∅ ∅ 0.

Section setters.
Implicit Types w : Relay.
Definition set_fronts t w := mkRelay t (r_backs w) (r_tunnels w) (g_tunnels w) (g_nextIndex w).
Definition set_backs t w := mkRelay (r_fronts w) t (r_tunnels w) (g_tunnels w) (g_nextIndex w).
Definition set_tunnels t w := mkRelay (r_fronts w) (r_backs w) t (g_tunnels w) (g_nextIndex w).
Definition set_names n w := mkRelay (r_fronts w) (r_backs w) (r_tunnels w) n (g_nextIndex w).
Definition set_nextIndex i w := mkRelay (r_fronts w) (r_backs w) (r_tunnels w) (g_tunnels w) i.
End setters.

(** ** The Tunnel *)

Section tunnel.
Context `{Build}.

Definition on_fronts {A} (o : ST (Table Z) A) : ST Relay A := zoom r_fronts set_fronts o.
Definition on_backs {A} (o : ST (Table unit) A) : ST Relay A := zoom r_backs set_backs o.

Definition tunnel_at (t : Z) : ST Relay Tunnel :=
  r ← gets (fun w => r_tunnels w !! t);
  match r with Some tn => mret tn | None => fail NullCall end.
Definition on_tunnel (t : Z) (f : Tunnel -> Tunnel) : ST Relay unit :=
  tn ← tunnel_at t; modify (fun w => set_tunnels (<[t := f tn]> (r_tunnels w)) w).

Definition set_bound b tn : Tunnel :=
  mkTunnel (t_server tn) (t_addr tn) b (t_dialing tn) (t_connect tn) (t_conn tn).
Definition set_dialing b tn : Tunnel :=
  mkTunnel (t_server tn) (t_addr tn) (t_bound tn) b (t_connect tn) (t_conn tn).
Definition set_tconnect b tn : Tunnel :=
  mkTunnel (t_server tn) (t_addr tn) (t_bound tn) (t_dialing tn) b (t_conn tn).
Definition set_tconn c tn : Tunnel :=
  mkTunnel (t_server tn) (t_addr tn) (t_bound tn) (t_dialing tn) (t_connect tn) c.

(** new Tunnel(loop, serverAddr, serverConn) *)
Definition Tunnel_ctor (serverAddr : Addr) (serverConn : Z) : ST Relay unit :=
  modify (fun w => set_tunnels
    (<[serverConn := mkTunnel (Some serverConn) serverAddr false false true None]> (r_tunnels w)) w).

(** The callback for the high-water mark of the front is the event [HighWater]. *)
Definition setup (t : Z) : ST Relay unit :=
  on_tunnel t (set_bound true) ;;
  tn ← tunnel_at t;
  match t_server tn with
  | Some p => _ ← on_fronts (conn_at p); mret tt
  | None => fail NullCall
  end.
(** client_.connect(): the connector is started. *)
Definition connect (t : Z) : ST Relay unit :=
  on_tunnel t (fun tn => set_dialing true (set_tconnect true tn)).
(** client_.disconnect(): a connection is shut down; a connector is left at work. *)
Definition disconnect (t : Z) : ST Relay unit :=
  on_tunnel t (set_tconnect false) ;;
  tn ← tunnel_at t;
  match t_conn tn with Some q => on_backs (shutdown q) | None => mret tt end.

Definition teardown (t : Z) : ST Relay unit :=
  on_tunnel t (set_bound false) ;;
  tn ← tunnel_at t;
  match t_server tn with
  | Some p => on_fronts (setContext p None) ;; on_fronts (shutdown p)
  | None => mret tt
  end.

Definition onClientConneciont (t conn : Z) : ST Relay unit :=
  up ← on_backs (isConnected conn);
  if (up : bool) then
    tn ← tunnel_at t;
    match t_server tn with
    | Some p =>
        on_fronts (setContext p (Some conn)) ;;
        s ← on_fronts (conn_at p);
        when (0 <? readableBytes (s_in s))
          (b ← on_backs (send_buf conn (s_in s));
           on_fronts (on_conn p (sess_setInput b)))
    | None => teardown t
    end
  else teardown t.

Definition onClientMessage (t conn : Z) (buf : Buffer) : ST Relay Buffer :=
  tn ← tunnel_at t;
  match t_server tn with
  | Some p => on_fronts (send_buf p buf)
  | None => disconnect t ;; mret (retrieveAll buf)
  end.

Definition onHighWaterMark (t : Z) : ST Relay unit := disconnect t.
(** The weak pointer: a Tunnel is held by the map and by the callbacks it has bound. *)
Definition onHighWaterMarkWeak (names : bool) (t : Z) : ST Relay unit :=
  tn ← gets (fun w => r_tunnels w !! t);
  match tn with
  | Some tn => when (names || t_bound tn) (onHighWaterMark t)
  | None => mret tt
  end.
End tunnel.

(** ** The servers *)

(** A server that makes tunnels: its callbacks, [loop_of] a connection. *)
Class TunnelServer := {
  loop_of : Z -> Z;
  server_connection : forall `{Build}, Z -> ST Relay unit;
  server_message : forall `{Build}, Z -> Buffer -> ST Relay Buffer
}.

Definition known (n : Z * Z) : ST Relay bool := gets (fun w => bool_decide (n ∈ g_tunnels w)).

(** onServerMessage of Balancer.cc and TcpRelay.cc *)
Definition forward `{Build} (p : Z) (buf : Buffer) : ST Relay Buffer :=
  ctx ← on_fronts (getContext p);
  match ctx with
  | Some clientConn => on_backs (send_buf clientConn buf)
  | None => mret buf
  end.

Module TcpRelay.
Section relay.
Context `{Build} (g_serverAddr : Addr).

Definition onServerConnection (p : Z) : ST Relay unit :=
  up ← on_fronts (isConnected p);
  have ← known (0, p);
  if (up : bool) then
    lift (assert_ (negb have)) ;;
    Tunnel_ctor g_serverAddr p ;;
    setup p ;;
    connect p ;;
    modify (fun w => set_names ({[(0, p)]} ∪ g_tunnels w) w)
  else
    lift (assert_ have) ;;
    (if (have : bool) then disconnect p else fail NullCall) ;;
    modify (fun w => set_names (g_tunnels w ∖ {[(0, p)]}) w).
End relay.

Definition server (g_serverAddr : Addr) : TunnelServer := {|
  loop_of := fun _ => 0;
  server_connection := fun _ => onServerConnection g_serverAddr;
  server_message := fun _ => forward
|}.
End TcpRelay.

Module Balancer.
Section balancer.
Context `{Build} (g_backends : list Addr) (getLoop : Z -> Z).

(** The guarded section: the index to use, and the next. *)
Definition next_backend : ST Relay Z :=
  index ← gets g_nextIndex;
  when (bool_decide (g_backends = [])) (fail DivByZero) ;;
  modify (set_nextIndex (u64 (index + 1) mod zlen g_backends)) ;;
  mret index.

Definition onServerConnection (p : Z) : ST Relay unit :=
  up ← on_fronts (isConnected p);
  have ← known (getLoop p, p);
  if (up : bool) then
    lift (assert_ (negb have)) ;;
    index ← next_backend;
    match g_backends !! Z.to_nat index with
    | Some serverAddr =>
        Tunnel_ctor serverAddr p ;;
        setup p ;;
        connect p ;;
        modify (fun w => set_names ({[(getLoop p, p)]} ∪ g_tunnels w) w)
    | None => fail OutOfBounds
    end
  else
    lift (assert_ have) ;;
    (if (have : bool) then disconnect p else fail NullCall) ;;
    modify (fun w => set_names (g_tunnels w ∖ {[(getLoop p, p)]}) w).
End balancer.

Definition server (g_backends : list Addr) (getLoop : Z -> Z) : TunnelServer := {|
  loop_of := getLoop;
  server_connection := fun _ => onServerConnection g_backends getLoop;
  server_message := fun _ => forward
|}.

(** main(): the backends, from argv; None is "invalid backend address".  [argv] has the
    program's name first. *)
Fixpoint parse_backends (args : list bytes) : option (list (bytes * Z)) :=
  match args with
  | [] => Some []
  | hostport :: args' =>
      let colon := find_char (to_char 58) hostport in
      if (colon <? length hostport)%nat then
        let ip := take colon hostport in
        let port := u16 (atoi (drop (S colon) hostport)) in
        cons (ip, port) <$> parse_backends args'
      else None
  end.
Definition main_backends (argv : list bytes) : option (list (bytes * Z)) :=
  parse_backends (drop 2 argv).
End Balancer.

Module Socks4a.
Section socks4a.
Context `{Build} (resolve : bytes -> option Z).

Definition onServerConnection (p : Z) : ST Relay unit :=
  up ← on_fronts (isConnected p);
  if (up : bool) then mret tt
  else
    have ← known (0, p);
    when have (disconnect p ;; modify (fun w => set_names (g_tunnels w ∖ {[(0, p)]}) w)).

(** What the request in the readable bytes [d] asks for: None, there is more to come;
    otherwise where it ends, the address and whether it could be found. *)
Definition destination (d : bytes) : option (nat * Addr * bool) :=
  let end_ := length d in
  let where_ := (8 + find_char NUL (drop 8 d))%nat in
  if (where_ =? end_)%nat then None
  else
    let sin_port := host_val (take 2 (drop 2 d)) in
    let s_addr := host_val (take 4 (drop 4 d)) in
    if networkToHost32 s_addr <? 256 then
      let name := drop (S where_) d in
      let endOfHostName := (S where_ + find_char NUL name)%nat in
      if (endOfHostName =? end_)%nat then None
      else match resolve (take (find_char NUL name) name) with
           | Some a => Some (endOfHostName, (sin_port, a), true)
           | None => Some (endOfHostName, (sin_port, s_addr), false)
           end
    else Some (where_, (sin_port, s_addr), true).

Definition granted (a : Addr) : bytes :=
  [NUL; to_char 90] ++ host_bytes 2 a.1 ++ host_bytes 4 a.2.
Definition rejected : bytes := [NUL; to_char 91] ++ cs "UVWXYZ".

Definition onServerMessage (p : Z) (buf : Buffer) : ST Relay Buffer :=
  have ← known (0, p);
  if negb have then
    if 128 <? readableBytes buf then on_fronts (shutdown p) ;; mret buf
    else if 8 <? readableBytes buf then
      let d := contents buf in
      match destination d with
      | None => mret buf
      | Some (where_, addr, okay) =>
          let ver := schar (nth 0 d NUL) in
          let cmd := schar (nth 1 d NUL) in
          if (ver =? 4) && (cmd =? 1) && okay then
            Tunnel_ctor addr p ;;
            setup p ;;
            connect p ;;
            modify (fun w => set_names ({[(0, p)]} ∪ g_tunnels w) w) ;;
            buf ← lift (retrieveUntil buf (peek buf + Z.of_nat where_ + 1));
            on_fronts (send p (granted addr)) ;;
            mret buf
          else
            on_fronts (send p rejected) ;;
            on_fronts (shutdown p) ;;
            mret buf
      end
    else mret buf
  else forward p buf.
End socks4a.

Definition server (resolve : bytes -> option Z) : TunnelServer := {|
  loop_of := fun _ => 0;
  server_connection := fun _ => onServerConnection;
  server_message := fun _ => onServerMessage resolve
|}.
End Socks4a.

(** ** Events *)

(** A front is accepted, receives data, ends; the connector of its tunnel succeeds, the
    back receives data, ends; the output of one of the two passes its mark. *)
Inductive event :=
  | Accept (p : Z)
  | FrontData (p : Z) (data : bytes)
  | FrontDown (p : Z)
  | BackUp (p : Z)
  | BackData (p : Z) (data : bytes)
  | BackDown (p : Z)
  | HighWater (p : Z).

(** A front that has ended stays in the table: its Tunnel holds it.  A back keeps the
    callbacks client_ had when it was made; removeConnection() comes after the callback. *)
Definition run_event `{Build, TunnelServer} (ev : event) : ST Relay unit :=
  match ev with
  | Accept p => on_fronts (established p) ;; server_connection p
  | FrontData p data =>
      on_fronts (received p data) ;;
      s ← on_fronts (conn_at p);
      buf ← server_message p (s_in s);
      on_fronts (on_conn p (sess_setInput buf))
  | FrontDown p => on_fronts (closed p) ;; server_connection p
  | BackUp p =>
      on_backs (established p) ;;
      on_tunnel p (fun tn => set_tconn (Some p) (set_dialing false tn)) ;;
      tn ← tunnel_at p;
      when (t_bound tn) (onClientConneciont p p)
  | BackData p data =>
      on_backs (received p data) ;;
      s ← on_backs (conn_at p);
      buf ← onClientMessage p p (s_in s);
      on_backs (on_conn p (sess_setInput buf))
  | BackDown p =>
      on_backs (closed p) ;;
      onClientConneciont p p ;;
      on_tunnel p (set_tconn None) ;;
      on_backs (destroyed p)
  | HighWater p =>
      names ← known (loop_of p, p);
      onHighWaterMarkWeak names p
  end.

(** ** Pipes: what a tunnel is for *)

(** The stage of the tunnel: none yet, waiting for the back, joined to a back in the
    given state, the back over. *)
Inductive Stage := Asking | Dialing | Joined (st : State) | Over.
#[global] Instance stage_eq_dec : EqDecision Stage.
Proof. solve_decision. Defined.
(** [p_up]: what the front has sent for the back; [p_down]: what it has been sent. *)
Record Pipe := mkPipe {
  p_front : State; p_stage : Stage; p_up : bytes; p_down : bytes;
  p_addr : option Addr        (* where the back is, once that is known *)
}.
Abbreviation set_stage g x := (mkPipe (p_front x) g (p_up x) (p_down x) (p_addr x)).

(** Does the map hold the pipe's tunnel? *)
Definition named (x : Pipe) : bool :=
  match p_stage x with Asking => false | _ => negb (bool_decide (p_front x = kDisconnected)) end.

Definition half_closed (st : State) : State :=
  if bool_decide (st = kConnected) then kDisconnecting else st.
Definition shut_back (g : Stage) : Stage := match g with Joined st => Joined (half_closed st) | _ => g end.
Definition pour (front : State) (data down : bytes) : bytes :=
  if bool_decide (front = kConnected) then down ++ data else down.

(** Data for the back: kept until there is one, delivered while it is connected. *)
Definition fed (data : bytes) (x : Pipe) : Pipe :=
  match p_stage x with
  | Asking | Dialing => mkPipe (p_front x) (p_stage x) (p_up x ++ data) (p_down x) (p_addr x)
  | Joined st => mkPipe (p_front x) (p_stage x) (pour st data (p_up x)) (p_down x) (p_addr x)
  | Over => x
  end.

Definition closed_front (x : Pipe) : Pipe :=
  mkPipe kDisconnected (shut_back (p_stage x)) (p_up x) (p_down x) (p_addr x).

(** What a server does with a new front and with the data of a front; whether there are
    fronts without a tunnel; and whose turn it is. *)
Class PipeServer := {
  accepted : Z -> Pipe;
  fed_with : bytes -> Pipe -> Pipe;
  may_ask : bool;
  turn_ok : Z -> Prop;
  next_turn : Z -> Z
}.
Record Pipes := mkPipes { pipes : gmap Z Pipe; turn : Z }.

Definition pipe_event `{PipeServer} (ev : event) (a : Pipes) : Pipes :=
  let on p f := mkPipes (alter f p (pipes a)) (turn a) in
  match ev with
  | Accept p => mkPipes (<[p := accepted (turn a)]> (pipes a)) (next_turn (turn a))
  | FrontData p data => on p (fed_with data)
  | FrontDown p => on p closed_front
  | BackUp p => on p (fun x => set_stage (Joined kConnected) x)
  | BackData p data => on p (fun x =>
      mkPipe (p_front x) (p_stage x) (p_up x) (pour (p_front x) data (p_down x)) (p_addr x))
  | BackDown p => on p (fun x => mkPipe (half_closed (p_front x)) Over (p_up x) (p_down x) (p_addr x))
  | HighWater p => on p (fun x => set_stage (shut_back (p_stage x)) x)
  end.

(** The part of the state that belongs to the name [p]. *)
Record Cell := mkCell {
  c_tunnel : option Tunnel; c_front : option (Session Z); c_back : option (Session unit); c_named : bool }.
Definition cell `{TunnelServer} (w : Relay) (p : Z) : Cell :=
  mkCell (r_tunnels w !! p) (r_fronts w !! p) (r_backs w !! p) (bool_decide ((loop_of p, p) ∈ g_tunnels w)).

(** The input is empty while the other end, in state [st], can be sent what arrives. *)
Definition waits {C} (st : State) (s : Session C) : Prop :=
  exists r, holds (s_in s) r /\ (st = kConnected -> r = []).
Definition tunnel_of (p : Z) (addr : option Addr) (bound dialing : bool) (conn : option Z) (tn : Tunnel) : Prop :=
  t_server tn = Some p /\ addr = Some (t_addr tn) /\ t_bound tn = bound /\ t_dialing tn = dialing /\ t_conn tn = conn.

Section relation.
Context `{PipeServer}.

Definition stage_rel (p : Z) (x : Pipe) (s : Session Z) (c : Cell) : Prop :=
  match p_stage x with
  | Asking => may_ask = true /\ c_tunnel c = None /\ c_back c = None /\ s_context s = None /\ holds (s_in s) (p_up x)
  | Dialing => exists tn, c_tunnel c = Some tn /\ tunnel_of p (p_addr x) true true None tn
      /\ c_back c = None /\ s_context s = None /\ holds (s_in s) (p_up x)
  | Joined st => exists tn sb, c_tunnel c = Some tn /\ tunnel_of p (p_addr x) true false (Some p) tn
      /\ c_back c = Some sb /\ s_state sb = st /\ s_out sb = p_up x
      /\ waits (p_front x) sb /\ s_context s = Some p /\ waits st s
  | Over => exists tn, c_tunnel c = Some tn /\ tunnel_of p (p_addr x) false false None tn
      /\ c_back c = None /\ s_context s = None /\ waits kDisconnected s
  end.
Definition pipe_rel (p : Z) (ox : option Pipe) (c : Cell) : Prop :=
  match ox with
  | None => c = mkCell None None None false
  | Some x => exists s, c_front c = Some s /\ s_state s = p_front x /\ s_out s = p_down x
      /\ c_named c = named x
      /\ stage_rel p x s c
  end.
Definition pipes_rel `{TunnelServer} (w : Relay) (a : Pipes) : Prop :=
  turn a = g_nextIndex w /\ turn_ok (turn a) /\ forall p, pipe_rel p (pipes a !! p) (cell w p).

(** The server [moves] the pipe [p] to [x], and the turn to [i]. *)
Definition others `{TunnelServer} (w w' : Relay) (p : Z) : Prop := forall q, q <> p -> cell w' q = cell w q.
Definition moves_to `{TunnelServer} (w : Relay) (p : Z) (x : Pipe) (i : Z) (w' : Relay) : Prop :=
  others w w' p /\ g_nextIndex w' = i /\ pipe_rel p (Some x) (cell w' p).
End relation.
Abbreviation moves w p x w' := (moves_to w p x (g_nextIndex w) w').

Definition allowed `{Build} (ev : event) (w : Relay) (a : Pipes) : Prop :=
  match ev with
  | Accept p => pipes a !! p = None
  | FrontData p data => exists x s, pipes a !! p = Some x /\ p_front x <> kDisconnected
      /\ r_fronts w !! p = Some s /\ readable_into (s_in s) data
  | FrontDown p => exists x, pipes a !! p = Some x /\ p_front x <> kDisconnected
  | BackUp p => exists x, pipes a !! p = Some x /\ p_stage x = Dialing
  | BackData p data => exists x s st, pipes a !! p = Some x /\ p_stage x = Joined st
      /\ r_backs w !! p = Some s /\ readable_into (s_in s) data
  | BackDown p => exists x st, pipes a !! p = Some x /\ p_stage x = Joined st
  | HighWater p => is_Some (pipes a !! p)
  end.
Fixpoint allowed_all `{Build, TunnelServer, PipeServer} (evs : list event) (w : Relay) (a : Pipes) : Prop :=
  match evs with
  | [] => True
  | ev :: evs' => allowed ev w a
      /\ forall w', run_event ev w = Ok (tt, w') -> allowed_all evs' w' (pipe_event ev a)
  end.

(** ** What a server owes its tunnels *)

Class TunnelServerLaws `{Build, TunnelServer, PipeServer} := {
  accept_law : forall p w, pipe_rel p None (cell w p) -> turn_ok (g_nextIndex w) ->
    wp (run_event (Accept p)) w (fun _ w' =>
      moves_to w p (accepted (g_nextIndex w)) (next_turn (g_nextIndex w)) w')
    /\ turn_ok (next_turn (g_nextIndex w));
  down_law : forall p x w, pipe_rel p (Some x) (cell w p) -> p_front x <> kDisconnected ->
    wp (run_event (FrontDown p)) w (fun _ w' => moves w p (closed_front x) w');
  data_law : forall p data x s w, pipe_rel p (Some x) (cell w p) -> p_front x <> kDisconnected ->
    r_fronts w !! p = Some s -> readable_into (s_in s) data ->
    wp (run_event (FrontData p data)) w (fun _ w' => moves w p (fed_with data x) w')
}.

(** ** One cell: the operations on the name [p] leave the others alone *)

Definition at_cell `{TunnelServer} (p : Z) (w0 : Relay) (c : Cell) (w : Relay) : Prop :=
  cell w p = c /\ others w0 w p /\ g_nextIndex w = g_nextIndex w0.

Section cells.
Context `{TunnelServer, Build} (p : Z) (w0 : Relay).
Abbreviation at_cell := (at_cell p w0).

Lemma at_cell_start : at_cell (cell w0 p) w0.
Proof. by split. Qed.

Lemma at_cell_set w w' c c' :
  at_cell c w -> cell w' p = c' -> (forall q, q <> p -> cell w' q = cell w q) ->
  g_nextIndex w' = g_nextIndex w -> at_cell c' w'.
Proof.
  intros (_ & Ho & Hi) Hc Hq Hj. split; [done|]. split; [|congruence].
  intros q Hne. rewrite Hq by done. by apply Ho.
Qed.

(** The cell after an update of one of its parts. *)
Ltac solve_cell Hc :=
  let E := fresh in pose proof Hc as [E _]; injection E as ? ? ? ?;
  eapply at_cell_set; [exact Hc| | |done];
  [unfold cell; cbn; rewrite ?lookup_insert_eq, ?lookup_delete_eq; congruence
  |let q := fresh "q" in let Hq := fresh "Hq" in
   intros q Hq; unfold cell; cbn; by rewrite ?lookup_insert_ne, ?lookup_delete_ne by done].

Lemma at_cell_moves `{PipeServer} c w x : at_cell c w -> pipe_rel p (Some x) c -> moves w0 p x w.
Proof. intros (Hc & Ho & Hi) Hp. split; [done|]. split; [done|]. by rewrite Hc. Qed.

Lemma wp_front {A} (o : ST (Table Z) A) ot s ob b w (Q : A -> Relay -> Prop) :
  at_cell (mkCell ot (Some s) ob b) w ->
  focus p o s (fun a s' => forall w', at_cell (mkCell ot (Some s') ob b) w' -> Q a w') ->
  wp (on_fronts o) w Q.
Proof.
  intros Hc Ho. pose proof Hc as [E _]. injection E as Et Ef Eb Ec.
  destruct (Ho (r_fronts w) Ef) as (a & t' & Er & s' & -> & HQ).
  apply wp_zoom. exists a, (<[p := s']> (r_fronts w)). split; [done|]. apply HQ. solve_cell Hc.
Qed.

Lemma wp_back {A} (o : ST (Table unit) A) ot of_ s b w (Q : A -> Relay -> Prop) :
  at_cell (mkCell ot of_ (Some s) b) w ->
  focus p o s (fun a s' => forall w', at_cell (mkCell ot of_ (Some s') b) w' -> Q a w') ->
  wp (on_backs o) w Q.
Proof.
  intros Hc Ho. pose proof Hc as [E _]. injection E as Et Ef Eb Ec.
  destruct (Ho (r_backs w) Eb) as (a & t' & Er & s' & -> & HQ).
  apply wp_zoom. exists a, (<[p := s']> (r_backs w)). split; [done|]. apply HQ. solve_cell Hc.
Qed.

Lemma wp_front_new ot ob b w (Q : unit -> Relay -> Prop) :
  at_cell (mkCell ot None ob b) w ->
  (forall w', at_cell (mkCell ot (Some (sess_setState kConnected sess_new)) ob b) w' -> Q tt w') ->
  wp (on_fronts (established p)) w Q.
Proof.
  intros Hc HQ. pose proof Hc as [E _]. injection E as Et Ef Eb Ec. apply wp_zoom.
  eapply wp_Ok; [unfold established; by rewrite Ef|]. apply HQ. solve_cell Hc.
Qed.

Lemma wp_back_new ot of_ b w (Q : unit -> Relay -> Prop) :
  at_cell (mkCell ot of_ None b) w ->
  (forall w', at_cell (mkCell ot of_ (Some (sess_setState kConnected sess_new)) b) w' -> Q tt w') ->
  wp (on_backs (established p)) w Q.
Proof.
  intros Hc HQ. pose proof Hc as [E _]. injection E as Et Ef Eb Ec. apply wp_zoom.
  eapply wp_Ok; [unfold established; by rewrite Eb|]. apply HQ. solve_cell Hc.
Qed.

Lemma wp_back_end ot of_ ob b w (Q : unit -> Relay -> Prop) :
  at_cell (mkCell ot of_ ob b) w ->
  (forall w', at_cell (mkCell ot of_ None b) w' -> Q tt w') ->
  wp (on_backs (destroyed p)) w Q.
Proof.
  intros Hc HQ. pose proof Hc as [E _]. injection E as Et Ef Eb Ec. apply wp_zoom, wp_modify, HQ.
  solve_cell Hc.
Qed.

Lemma wp_tunnel_at tn of_ ob b w (Q : Tunnel -> Relay -> Prop) :
  at_cell (mkCell (Some tn) of_ ob b) w -> Q tn w -> wp (tunnel_at p) w Q.
Proof.
  intros Hc HQ. pose proof Hc as [E _]. injection E as Et _ _ _. unfold tunnel_at.
  wp_step. wp_step. rewrite Et. by wp_step.
Qed.

Lemma wp_on_tunnel f tn of_ ob b w (Q : unit -> Relay -> Prop) :
  at_cell (mkCell (Some tn) of_ ob b) w ->
  (forall w', at_cell (mkCell (Some (f tn)) of_ ob b) w' -> Q tt w') ->
  wp (on_tunnel p f) w Q.
Proof.
  intros Hc HQ. unfold on_tunnel. wp_step. eapply wp_tunnel_at; [exact Hc|]. wp_step. apply HQ.
  solve_cell Hc.
Qed.

Lemma wp_Tunnel_ctor addr ot of_ ob b w (Q : unit -> Relay -> Prop) :
  at_cell (mkCell ot of_ ob b) w ->
  (forall w', at_cell (mkCell (Some (mkTunnel (Some p) addr false false true None)) of_ ob b) w' -> Q tt w') ->
  wp (Tunnel_ctor addr p) w Q.
Proof.
  intros Hc HQ. apply wp_modify, HQ. solve_cell Hc.
Qed.

Lemma wp_known l c w (Q : bool -> Relay -> Prop) :
  at_cell c w -> loop_of p = l -> Q (c_named c) w -> wp (known (l, p)) w Q.
Proof. intros [E _] <- HQ. apply wp_gets. by rewrite <- E in HQ. Qed.

Lemma wp_name l ot of_ ob b w (Q : unit -> Relay -> Prop) :
  at_cell (mkCell ot of_ ob b) w -> loop_of p = l ->
  (forall w', at_cell (mkCell ot of_ ob true) w' -> Q tt w') ->
  wp (modify (fun w => set_names ({[(l, p)]} ∪ g_tunnels w) w)) w Q.
Proof.
  intros Hc <- HQ. apply wp_modify, HQ. pose proof Hc as [E _]. injection E as Et Ef Eb Ec.
  eapply at_cell_set; [exact Hc| | |done].
  - unfold cell. cbn. rewrite Et, Ef, Eb, bool_decide_eq_true_2 by set_solver. done.
  - intros q Hq. unfold cell. cbn. f_equal. apply bool_decide_ext. set_solver.
Qed.

Lemma wp_unname l ot of_ ob b w (Q : unit -> Relay -> Prop) :
  at_cell (mkCell ot of_ ob b) w -> loop_of p = l ->
  (forall w', at_cell (mkCell ot of_ ob false) w' -> Q tt w') ->
  wp (modify (fun w => set_names (g_tunnels w ∖ {[(l, p)]}) w)) w Q.
Proof.
  intros Hc <- HQ. apply wp_modify, HQ. pose proof Hc as [E _]. injection E as Et Ef Eb Ec.
  eapply at_cell_set; [exact Hc| | |done].
  - unfold cell. cbn. rewrite Et, Ef, Eb, bool_decide_eq_false_2 by set_solver. done.
  - intros q Hq. unfold cell. cbn. f_equal. apply bool_decide_ext. set_solver.
Qed.
End cells.

(** One operation on the cell that is known. *)
Ltac cell_step :=
  lazymatch goal with
  | Hc : at_cell ?p _ _ ?w |- wp ?m ?w _ =>
      let go := (clear Hc; intros ? Hc; cbv beta) in
      lazymatch m with
      | mbind _ _ => apply wp_bind
      | mret _ => apply wp_ret
      | lift (assert_ _) => apply wp_assert
      | on_fronts (isConnected _) => eapply wp_front; [exact Hc|]; apply focus_isConnected; go
      | on_fronts (getContext _) => eapply wp_front; [exact Hc|]; apply focus_getContext; go
      | on_fronts (conn_at _) => eapply wp_front; [exact Hc|]; apply focus_conn_at; go
      | on_fronts (send_buf _ _) => eapply wp_front; [exact Hc|]; apply focus_send_buf; go
      | on_fronts (established _) => eapply wp_front_new; [exact Hc|]; go
      | on_fronts (received _ _) => idtac
      | on_fronts _ => eapply wp_front; [exact Hc|]; apply focus_on_conn; go
      | on_backs (isConnected _) => eapply wp_back; [exact Hc|]; apply focus_isConnected; go
      | on_backs (conn_at _) => eapply wp_back; [exact Hc|]; apply focus_conn_at; go
      | on_backs (send_buf _ _) => eapply wp_back; [exact Hc|]; apply focus_send_buf; go
      | on_backs (established _) => eapply wp_back_new; [exact Hc|]; go
      | on_backs (destroyed _) => eapply wp_back_end; [exact Hc|]; go
      | on_backs (received _ _) => idtac
      | on_backs _ => eapply wp_back; [exact Hc|]; apply focus_on_conn; go
      | tunnel_at _ => eapply wp_tunnel_at; [exact Hc|]
      | on_tunnel _ _ => eapply wp_on_tunnel; [exact Hc|]; go
      | Tunnel_ctor _ _ => eapply wp_Tunnel_ctor; [exact Hc|]; go
      | known _ => eapply (wp_known p); [exact Hc|done|]; cbn [c_named]
      end
  end.
Ltac cell_steps := repeat (progress cell_step).

Section operations.
Context `{TunnelServer, Build} (p : Z) (w0 : Relay).
Abbreviation at_cell := (at_cell p w0).

Definition up_tunnel (addr : Addr) : Tunnel := mkTunnel (Some p) addr true true true None.

Lemma wp_open {A} addr ot s ob b w (k : ST Relay A) (Q : A -> Relay -> Prop) :
  at_cell (mkCell ot (Some s) ob b) w ->
  (forall w', at_cell (mkCell (Some (up_tunnel addr)) (Some s) ob b) w' -> wp k w' Q) ->
  wp (Tunnel_ctor addr p ;; setup p ;; connect p ;; k) w Q.
Proof.
  intros Hc HQ. unfold setup, connect. cell_steps. cbn. cell_steps. by apply HQ.
Qed.

(** A shutdown of the back, if there is one. *)
Definition disconnected (tn : Tunnel) (ob : option (Session unit)) : option (Session unit) :=
  match t_conn tn with Some _ => sess_shutdown <$> ob | None => ob end.

Lemma wp_disconnect addr bound dialing conn tn of_ ob b w (Q : unit -> Relay -> Prop) :
  at_cell (mkCell (Some tn) of_ ob b) w -> tunnel_of p addr bound dialing conn tn ->
  (conn = None \/ conn = Some p /\ is_Some ob) ->
  (forall tn' w', tunnel_of p addr bound dialing conn tn' ->
     at_cell (mkCell (Some tn') of_ (disconnected tn ob) b) w' -> Q tt w') ->
  wp (disconnect p) w Q.
Proof.
  intros Hc (Hs & Ha & Hb & Hd & Ht) Hor HQ. unfold disconnect, disconnected in *. cell_steps.
  cbn. rewrite Ht in *. destruct Hor as [->|[-> [sb ->] ] ].
  - cell_steps. eapply HQ; [|exact Hc]. by split_and!.
  - cbn in *. cell_steps. eapply HQ; [|exact Hc]. by split_and!.
Qed.

Lemma wp_forward buf ot s ob b w (Q : Buffer -> Relay -> Prop) :
  at_cell (mkCell ot (Some s) ob b) w ->
  match s_context s with
  | None => forall w', at_cell (mkCell ot (Some s) ob b) w' -> Q buf w'
  | Some q => q = p /\ exists sb, ob = Some sb
      /\ forall w', at_cell (mkCell ot (Some s) (Some (sess_send (contents buf) sb)) b) w' ->
         Q (if sess_connected sb then retrieveAll buf else buf) w'
  end ->
  wp (forward p buf) w Q.
Proof.
  intros Hc HQ. unfold forward. cell_steps.
  destruct (s_context s) as [q|].
  - destruct HQ as (-> & sb & -> & HQ). cell_steps. by apply HQ.
  - cell_steps. by apply HQ.
Qed.
End operations.

(** What a user sees after send() and shutdown(). *)
Lemma sess_send_view {C} d (s : Session C) :
  s_state (sess_send d s) = s_state s /\ s_out (sess_send d s) = pour (s_state s) d (s_out s)
  /\ s_context (sess_send d s) = s_context s /\ s_in (sess_send d s) = s_in s.
Proof. unfold sess_send, sess_connected, pour. by destruct (bool_decide _). Qed.

Lemma sess_shutdown_view {C} (s : Session C) :
  s_state (sess_shutdown s) = half_closed (s_state s) /\ s_out (sess_shutdown s) = s_out s
  /\ s_context (sess_shutdown s) = s_context s /\ s_in (sess_shutdown s) = s_in s.
Proof. unfold sess_shutdown, sess_connected, half_closed. by destruct (bool_decide _). Qed.

Lemma waits_empty {C} st (s : Session C) : holds (s_in s) [] -> waits st s.
Proof. intros Hh. by exists []. Qed.

Lemma waits_over {C} st (s : Session C) : waits st s -> waits kDisconnected s.
Proof. intros (r & Hr & _). by exists r. Qed.

Lemma waits_half {C} st (s : Session C) : waits st s -> waits (half_closed st) s.
Proof.
  intros (r & Hr & Hst). exists r. split; [done|]. unfold half_closed.
  destruct (bool_decide_reflect (st = kConnected)); [done|]. by intros.
Qed.

(** Data for the other end. *)
Lemma waits_sent {C} st (s : Session C) buf r :
  holds buf r -> waits st (sess_setInput (if bool_decide (st = kConnected) then retrieveAll buf else buf) s).
Proof.
  intros Hb. destruct (bool_decide_reflect (st = kConnected)) as [->|Hne].
  - by apply waits_empty, (holds_retrieveAll _ _ Hb).
  - by exists r.
Qed.

Lemma pour_app st r data down :
  (st = kConnected -> r = []) -> pour st (r ++ data) down = pour st data down.
Proof. unfold pour. intros Hr. destruct (bool_decide_reflect (st = kConnected)); [|done]. by rewrite Hr. Qed.

(** ** The events of the back are the same for all servers *)

Section back_events.
Context `{TunnelServer, PipeServer, Build} (p : Z).
Implicit Types (w : Relay) (x : Pipe).

Lemma ev_BackUp x w : pipe_rel p (Some x) (cell w p) -> p_stage x = Dialing ->
  wp (run_event (BackUp p)) w (fun _ w' =>
    moves w p (set_stage (Joined kConnected) x) w').
Proof.
  intros (s & Ef & Hs & Ho & Hn & Hg) Hx. unfold stage_rel in Hg. unfold named in Hn. rewrite Hx in *.
  destruct Hg as (tn & Et & (Hsv & Ha & Hb & Hd & Hcn) & Eb & Hctx & Hh). pose proof (at_cell_start p w) as Hc.
  destruct (cell w p) as [ot of_ ob b]. cbn [c_tunnel c_front c_back c_named] in *. subst.
  cbn [run_event]. cell_steps. cbn [t_bound set_tconn set_dialing]. rewrite Hb.
  apply wp_when; [intros _|done]. unfold onClientConneciont. cell_steps.
  set (s0 := sess_setState kConnected sess_new) in *. change (sess_connected s0) with true. cbv iota.
  cell_steps. cbn [t_server set_tconn set_dialing]. rewrite Hsv. cell_steps.
  cbn [s_in sess_setContext]. rewrite (holds_length (s_in s) (p_up x) Hh). apply wp_when; intros Hlen; zify_bool.
  - cell_steps. change (sess_connected s0) with true. cbv iota.
    eapply (at_cell_moves p w); [exact Hc|]. eexists. do 4 (split; [done|]).
    unfold stage_rel. cbn [p_stage c_tunnel c_back]. do 2 eexists. repeat split_and; try done.
    + cbn. by destruct Hh as (_ & _ & ->).
    + by apply waits_empty, holds_empty.
    + eapply waits_empty, holds_retrieveAll, Hh.
  - assert (p_up x = []) as Eup by (destruct (p_up x); [done|unfold zlen in Hlen; cbn in Hlen; lia]).
    rewrite Eup in *. eapply (at_cell_moves p w); [exact Hc|]. eexists. do 4 (split; [done|]).
    unfold stage_rel. cbn [p_stage c_tunnel c_back]. do 2 eexists. repeat split_and; try done.
    + by apply waits_empty, holds_empty.
    + by eapply waits_empty.
Qed.

(** The tunnel's cell, taken apart. *)
Ltac open_cell Hx :=
  match goal with
  | H : pipe_rel ?p (Some ?x) (cell ?w ?p) |- _ =>
      let Ef := fresh in let Hn := fresh in let Hg := fresh "Hg" in
      destruct H as (s & Ef & Hs & Ho & Hn & Hg); unfold stage_rel in Hg; unfold named in Hn;
      rewrite Hx in *; pose proof (at_cell_start p w) as Hc;
      destruct (cell w p) as [ot of_ ob b] eqn:Ecell; cbn [c_tunnel c_front c_back c_named] in *
  end.

Lemma ev_BackData st data sb x w : pipe_rel p (Some x) (cell w p) -> p_stage x = Joined st ->
  r_backs w !! p = Some sb -> readable_into (s_in sb) data ->
  wp (run_event (BackData p data)) w (fun _ w' =>
    moves w p (mkPipe (p_front x) (p_stage x) (p_up x) (pour (p_front x) data (p_down x)) (p_addr x)) w').
Proof.
  intros Hrel Hx Hsb Hf. rewrite Hx. open_cell Hx.
  destruct Hg as (tn & sb' & Et & Ht & Eb & Hst & Hout & (r & Hr & Hnil) & Hctx & Hw). subst.
  assert (sb' = sb) as -> by (injection Ecell; congruence). pose proof Ht as (Hsv & _).
  cbn [run_event]. cell_steps. eapply wp_back; [exact Hc|]. eapply focus_received; [exact Hr|done|].
  clear Hc. intros buf Hbuf w1 Hc. unfold onClientMessage. cell_steps. rewrite Hsv. cell_steps.
  cbn [s_in sess_setInput] in Hc. assert (contents buf = r ++ data) as Econt by apply Hbuf.
  rewrite Econt in Hc. destruct (sess_send_view (r ++ data) s) as (V1 & V2 & V3 & V4).
  eapply (at_cell_moves p w); [exact Hc|]. eexists. split; [done|].
  cbn [p_front p_stage p_up p_down]. rewrite V1, V2, Hs, Ho, pour_app by done. do 3 (split; [done|]).
  unfold stage_rel. cbn [p_stage c_tunnel c_back p_front p_up]. do 2 eexists. repeat split_and; try done.
  - unfold sess_connected. rewrite Hs. by eapply waits_sent.
  - congruence.
  - unfold waits. by rewrite V4.
Qed.

Lemma ev_BackDown st x w : pipe_rel p (Some x) (cell w p) -> p_stage x = Joined st ->
  wp (run_event (BackDown p)) w (fun _ w' =>
    moves w p (mkPipe (half_closed (p_front x)) Over (p_up x) (p_down x) (p_addr x)) w').
Proof.
  intros Hrel Hx. open_cell Hx.
  destruct Hg as (tn & sb & Et & Ht & Eb & Hst & Hout & _ & Hctx & Hw). subst.
  pose proof Ht as (Hsv & Ha & Hb & Hd & Hcn).
  cbn [run_event]. cell_steps. unfold onClientConneciont. cell_steps.
  change (sess_connected (sess_setState kDisconnected sb)) with false. cbv iota.
  unfold teardown. cell_steps. cbn [t_server set_bound]. rewrite Hsv. cell_steps.
  set (s1 := sess_setContext None s) in *. destruct (sess_shutdown_view s1) as (V1 & V2 & V3 & V4).
  eapply (at_cell_moves p w); [exact Hc|]. eexists. split; [done|].
  cbn [p_front p_stage p_up p_down]. rewrite V1, V2. change (s_state s1) with (s_state s).
  rewrite Hs. do 2 (split; [done|]). split.
  { unfold named. cbn. unfold half_closed. by destruct (p_front x). }
  unfold stage_rel. cbn [p_stage c_tunnel c_back p_front p_up]. eexists. repeat split_and; try done.
  unfold waits. rewrite V4. by eapply waits_over.
Qed.

Lemma wp_disconnect_stage x s c w w0 (Q : unit -> Relay -> Prop) :
  at_cell p w0 c w -> c_front c = Some s -> stage_rel p x s c -> p_stage x <> Asking ->
  (forall c' w', at_cell p w0 c' w' -> c_front c' = Some s -> c_named c' = c_named c ->
     stage_rel p (set_stage (shut_back (p_stage x)) x) s c' -> Q tt w') ->
  wp (disconnect p) w Q.
Proof.
  intros Hc Ef Hg Ha HQ. destruct c as [ot of_ ob b]. unfold stage_rel in *.
  cbn [c_tunnel c_front c_back c_named p_stage p_up p_down p_front] in *. subst.
  destruct (p_stage x) as [| |st|]; cbn [shut_back] in *; [done| | |].
  - destruct Hg as (tn & -> & Ht & -> & Hctx & Hh). pose proof Ht as (_ & _ & _ & _ & Hcn).
    eapply wp_disconnect; [exact Hc|exact Ht|by left|]. intros tn' w' Ht' Hc'.
    unfold disconnected in Hc'. rewrite Hcn in Hc'. eapply HQ; [exact Hc'|done..|]. by exists tn'.
  - destruct Hg as (tn & sb & -> & Ht & -> & Hst & Hout & Hwb & Hctx & Hw). pose proof Ht as (_ & _ & _ & _ & Hcn).
    eapply wp_disconnect; [exact Hc|exact Ht|by right|]. intros tn' w' Ht' Hc'.
    unfold disconnected in Hc'. rewrite Hcn in Hc'. destruct (sess_shutdown_view sb) as (V1 & V2 & V3 & V4).
    eapply HQ; [exact Hc'|done..|]. exists tn', (sess_shutdown sb). unfold waits in *.
    rewrite V1, V2, V4, Hst. repeat split_and; try done. by apply (waits_half st s).
  - destruct Hg as (tn & -> & Ht & -> & Hctx & Hh). pose proof Ht as (_ & _ & _ & _ & Hcn).
    eapply wp_disconnect; [exact Hc|exact Ht|by left|]. intros tn' w' Ht' Hc'.
    unfold disconnected in Hc'. rewrite Hcn in Hc'. eapply HQ; [exact Hc'|done..|]. by exists tn'.
Qed.

Lemma ev_HighWater x w : pipe_rel p (Some x) (cell w p) ->
  wp (run_event (HighWater p)) w (fun _ w' =>
    moves w p (set_stage (shut_back (p_stage x)) x) w').
Proof.
  intros (s & Ef & Hs & Ho & Hn & Hg). cbn [run_event]. pose proof (at_cell_start p w) as Hc. cell_steps.
  unfold onHighWaterMarkWeak, onHighWaterMark. wp_step. wp_step.
  change (r_tunnels w !! p) with (c_tunnel (cell w p)).
  assert (forall g, shut_back (p_stage x) = g -> p_stage x = g ->
    moves w p (set_stage g x) w) as Hsame.
  { intros g _ <-. do 2 (split; [done|]). exists s. destruct x. by split_and!. }
  destruct (decide (p_stage x = Asking)) as [Ha|Ha].
  - rewrite Ha. unfold stage_rel in Hg. rewrite Ha in Hg. destruct Hg as (_ & Et & _). rewrite Et.
    wp_step. apply Hsame; by rewrite Ha.
  - assert (exists tn, c_tunnel (cell w p) = Some tn /\ (t_bound tn = false -> p_stage x = Over)) as (tn & Et & Hb).
    { unfold stage_rel in Hg. destruct (p_stage x) as [| |st|]; [done|..].
      1,3: destruct Hg as (tn & Et & (_ & _ & Hb & _) & _). 3: destruct Hg as (tn & sb & Et & (_ & _ & Hb & _) & _).
      all: exists tn; split; [done|]; by rewrite Hb. }
    rewrite Et. apply wp_when; intros Hor.
    + eapply wp_disconnect_stage; [exact Hc|done|done|done|]. intros c' w' Hc' Ef' En' Hg'.
      eapply (at_cell_moves p w); [exact Hc'|]. exists s. split_and!; try done.
      rewrite En', Hn. unfold named. cbn. by destruct (p_stage x).
    + apply orb_false_iff in Hor as [_ Hor]. specialize (Hb Hor). rewrite Hb. apply Hsame; by rewrite Hb.
Qed.

(** The end of the front, for servers that disconnect the tunnel the map holds. *)
Lemma closed_front_moves x w w' c s :
  at_cell p w c w' -> c_front c = Some s -> s_state s = kDisconnected -> s_out s = p_down x ->
  c_named c = false -> stage_rel p (set_stage (shut_back (p_stage x)) x) s c ->
  moves w p (closed_front x) w'.
Proof.
  intros Hc Ef Hs Ho Hn Hg. eapply (at_cell_moves p w); [exact Hc|]. exists s. unfold closed_front.
  cbn [p_front p_down]. repeat split_and; try done.
  - rewrite Hn. unfold named. cbn. by destruct (shut_back (p_stage x)).
  - unfold stage_rel in *. cbn [p_stage p_up p_down p_front] in *.
    destruct (shut_back (p_stage x)); [done..| |done].
    destruct Hg as (tn & sb & ? & ? & ? & ? & ? & Hw & ?). exists tn, sb. repeat split_and; try tauto.
    by eapply waits_over.
Qed.

Lemma wp_front_down x s c l w w0 :
  at_cell p w0 c w -> loop_of p = l -> c_front c = Some s -> s_state s = kDisconnected -> s_out s = p_down x ->
  stage_rel p x s c -> p_stage x <> Asking ->
  wp (disconnect p ;; modify (fun w => set_names (g_tunnels w ∖ {[(l, p)]}) w)) w
    (fun _ w' => moves w0 p (closed_front x) w').
Proof.
  intros Hc Hl Ef Hs Ho Hg Ha. wp_step. eapply wp_disconnect_stage; [exact Hc|exact Ef|exact Hg|done|].
  clear Hc. intros [ot of_ ob b] w1 Hc Ef1 _ Hg1. eapply (wp_unname p w0); [exact Hc|done|].
  clear Hc. intros w2 Hc. by eapply closed_front_moves.
Qed.
End back_events.

(** ** The data of the front *)

Section front_data.
Context `{TunnelServer, PipeServer, Build} (p : Z).
Implicit Types (w : Relay) (x : Pipe).

Lemma stage_input x s c : stage_rel p x s c ->
  exists r, holds (s_in s) r /\ match p_stage x with
    | Asking | Dialing => r = p_up x | Joined st => st = kConnected -> r = [] | Over => True end.
Proof.
  unfold stage_rel. destruct (p_stage x) as [| |st|].
  - intros (_ & _ & _ & _ & Hh). by eexists.
  - intros (tn & _ & _ & _ & _ & Hh). by eexists.
  - intros (tn & sb & _ & _ & _ & _ & _ & _ & _ & r & Hh & Hr). by exists r.
  - intros (tn & _ & _ & _ & _ & r & Hh & _). by exists r.
Qed.

(** Passed on to the back there is, or kept. *)
Lemma wp_forward_data x s c r data buf w w0 :
  at_cell p w0 c w -> c_front c = Some (sess_setInput buf s) -> stage_rel p x s c ->
  p_stage x <> Asking -> s_state s = p_front x -> s_out s = p_down x -> c_named c = named x ->
  holds buf (r ++ data) ->
  match p_stage x with Asking | Dialing => r = p_up x | Joined st => st = kConnected -> r = [] | Over => True end ->
  wp (forward p buf) w (fun buf' w1 =>
    wp (on_fronts (on_conn p (sess_setInput buf'))) w1 (fun _ w' => moves w0 p (fed data x) w')).
Proof.
  intros Hc Ef Hg Ha Hs Ho Hn Hb Hr. destruct c as [ot of_ ob b]. unfold stage_rel, named, fed in *.
  cbn [c_tunnel c_front c_back c_named] in *. subst of_. assert (contents buf = r ++ data) as Econt by apply Hb.
  eapply wp_forward; [exact Hc|]. cbn [s_context sess_setInput].
  destruct (p_stage x) as [| |st|] eqn:Hx; [done|..].
  - destruct Hg as (tn & -> & Ht & -> & Hctx & Hh). rewrite Hctx. clear Hc. intros w1 Hc. cell_steps.
    eapply (at_cell_moves p w0); [exact Hc|]. eexists. do 4 (split; [done|]).
    unfold stage_rel. cbn. eexists. repeat split_and; try done. by subst r.
  - destruct Hg as (tn & sb & -> & Ht & -> & Hst & Hout & Hwb & Hctx & Hw). rewrite Hctx. split; [done|].
    exists sb. split; [done|]. clear Hc. intros w1 Hc. cell_steps. rewrite Econt in Hc.
    destruct (sess_send_view (r ++ data) sb) as (V1 & V2 & V3 & V4).
    eapply (at_cell_moves p w0); [exact Hc|]. eexists. do 4 (split; [done|]).
    unfold stage_rel. cbn. do 2 eexists. repeat split_and; try done.
    + congruence.
    + rewrite V2, Hst, Hout. by apply pour_app.
    + unfold waits. by rewrite V4.
    + unfold sess_connected. rewrite Hst. by apply (waits_sent st s buf (r ++ data)).
  - destruct Hg as (tn & -> & Ht & -> & Hctx & Hh). rewrite Hctx. clear Hc. intros w1 Hc. cell_steps.
    eapply (at_cell_moves p w0); [exact Hc|]. exists (sess_setInput buf s). split; [done|]. do 2 (split; [done|]).
    unfold named. rewrite Hx. split; [done|]. unfold stage_rel. rewrite Hx.
    cbn. eexists. repeat split_and; try done. by exists (r ++ data).
Qed.

Lemma wp_forward_event (msg : Buffer -> ST Relay Buffer) x data s w :
  pipe_rel p (Some x) (cell w p) -> p_stage x <> Asking -> r_fronts w !! p = Some s ->
  readable_into (s_in s) data ->
  (forall buf w', c_named (cell w' p) = named x -> msg buf w' = forward p buf w') ->
  wp (on_fronts (received p data) ;;
      s ← on_fronts (conn_at p);
      buf' ← msg (s_in s);
      on_fronts (on_conn p (sess_setInput buf'))) w (fun _ w' => moves w p (fed data x) w').
Proof.
  intros (s' & Ef & Hs & Ho & Hn & Hg) Ha Hsx Hf Hmsg. pose proof (at_cell_start p w) as Hc.
  assert (s' = s) as -> by (cbn in Ef; congruence). destruct (stage_input x s _ Hg) as (r & Hr & Hrx).
  destruct (cell w p) as [ot of_ ob b]. cbn [c_front c_named] in *. subst of_ b. cell_steps.
  eapply wp_front; [exact Hc|]. eapply focus_received; [exact Hr|done|].
  clear Hc. intros buf Hbuf w1 Hc. cell_steps.
  unfold wp. rewrite Hmsg by (destruct Hc as [E _]; by rewrite E).
  by eapply wp_forward_data.
Qed.
End front_data.

(** ** TcpRelay.cc and Balancer.cc *)

Section relays.
Context `{TunnelServer, PipeServer, Build} (p : Z) (Hask : may_ask = false).

Lemma not_asking x s c : stage_rel p x s c -> p_stage x <> Asking.
Proof using Hask. intros Hg Hx. unfold stage_rel in Hg. rewrite Hx in Hg. destruct Hg as [Hm _]. congruence. Qed.

(** A front that ends: the part of onServerConnection for a connection that is down. *)
Lemma wp_map_down (k : bool -> ST Relay unit) l x w :
  loop_of p = l -> pipe_rel p (Some x) (cell w p) -> p_front x <> kDisconnected ->
  wp (on_fronts (closed p) ;;
      up ← on_fronts (isConnected p);
      have ← known (l, p);
      if (up : bool) then k have
      else lift (assert_ have) ;;
           (if (have : bool) then disconnect p else fail NullCall) ;;
           modify (fun w => set_names (g_tunnels w ∖ {[(l, p)]}) w)) w
    (fun _ w' => moves w p (closed_front x) w').
Proof using Hask.
  intros Hl (s & Ef & Hs & Ho & Hn & Hg) Hx.
  pose proof (not_asking x s _ Hg) as Ha. pose proof (at_cell_start p w) as Hc.
  destruct (cell w p) as [ot of_ ob b]. cbn [c_front c_named] in *. subst of_. cell_steps.
  change (sess_connected (sess_setState kDisconnected s)) with false. cbv iota.
  assert (b = true) as ->.
  { rewrite Hn. unfold named. destruct (p_stage x); [done|..]; by rewrite bool_decide_eq_false_2. }
  wp_step. apply wp_assert; [done|]. by eapply (wp_front_down p x (sess_setState kDisconnected s)).
Qed.

Lemma wp_map_data x data s w :
  pipe_rel p (Some x) (cell w p) -> r_fronts w !! p = Some s -> readable_into (s_in s) data ->
  wp (on_fronts (received p data) ;;
      s ← on_fronts (conn_at p);
      buf' ← forward p (s_in s);
      on_fronts (on_conn p (sess_setInput buf'))) w (fun _ w' => moves w p (fed data x) w').
Proof using Hask.
  intros Hrel Hs Hf. eapply wp_forward_event; [done| |done..].
  destruct Hrel as (s' & _ & _ & _ & _ & Hg). by eapply not_asking.
Qed.

(** A front that is new gets its tunnel. *)
Lemma wp_map_open addr l s w w0 :
  loop_of p = l -> at_cell p w0 (mkCell None (Some s) None false) w ->
  s_state s = kConnected -> s_out s = [] -> s_context s = None -> holds (s_in s) [] ->
  wp (Tunnel_ctor addr p ;; setup p ;; connect p ;;
      modify (fun w => set_names ({[(l, p)]} ∪ g_tunnels w) w)) w
    (fun _ w' => moves w0 p (mkPipe kConnected Dialing [] [] (Some addr)) w').
Proof using Type.
  intros Hl Hc Hs Ho Hctx Hi. eapply wp_open; [exact Hc|]. clear Hc. intros w1 Hc.
  eapply (wp_name p w0); [exact Hc|done|]. clear Hc. intros w2 Hc.
  eapply (at_cell_moves p w0); [exact Hc|]. exists s. do 4 (split; [done|]).
  unfold stage_rel. cbn. eexists. by repeat split_and.
Qed.
End relays.

Section tcp_relay.
Context `{Build}.
Variable g_serverAddr : Addr.
#[local] Instance relay_server : TunnelServer := TcpRelay.server g_serverAddr.

Definition relay_pipes : PipeServer := {|
  accepted := fun _ => mkPipe kConnected Dialing [] [] (Some g_serverAddr);
  fed_with := fed;
  may_ask := false;
  turn_ok := fun _ => True;
  next_turn := fun i => i
|}.
#[local] Existing Instance relay_pipes.

#[local] Instance relay_laws : TunnelServerLaws.
Proof.
  split; intros.
  - split; [|done]. pose proof (at_cell_start p w) as Hc. cbn [pipe_rel] in *.
    match goal with Hp : cell w p = _ |- _ => rewrite Hp in Hc end.
    cbn [run_event server_connection relay_server TcpRelay.server]. unfold TcpRelay.onServerConnection.
    cell_steps. change (sess_connected (sess_setState kConnected sess_new)) with true. cbv iota.
    wp_step. apply wp_assert; [done|]. eapply wp_map_open; [done|exact Hc|done..].
  - by eapply wp_map_down.
  - by eapply wp_map_data.
Qed.
End tcp_relay.

Section balancer.
Context `{Build}.
Variables (g_backends : list Addr) (getLoop : Z -> Z).
#[local] Instance balancer_server : TunnelServer := Balancer.server g_backends getLoop.

(** The backends are taken in turn. *)
Definition balancer_pipes : PipeServer := {|
  accepted := fun i => mkPipe kConnected Dialing [] [] (g_backends !! Z.to_nat i);
  fed_with := fed;
  may_ask := false;
  turn_ok := fun i => 0 <= i < zlen g_backends /\ zlen g_backends <= max_size;
  next_turn := fun i => (i + 1) mod zlen g_backends
|}.
#[local] Existing Instance balancer_pipes.

#[local] Instance balancer_laws : TunnelServerLaws.
Proof.
  split; intros.
  - match goal with Hp : pipe_rel p None _, Ht : turn_ok _ |- _ =>
      cbn [pipe_rel] in Hp; cbn [turn_ok balancer_pipes] in Ht; rename Hp into Hcell; destruct Ht as [Hi Hm] end.
    split; [|cbn; split; [apply Z.mod_pos_bound; lia|done] ].
    pose proof (at_cell_start p w) as Hc. rewrite Hcell in Hc.
    cbn [run_event server_connection balancer_server Balancer.server]. unfold Balancer.onServerConnection.
    cell_steps. change (sess_connected (sess_setState kConnected sess_new)) with true. cbv iota.
    wp_step. apply wp_assert; [done|].
    destruct (lookup_lt_is_Some_2 g_backends (Z.to_nat (g_nextIndex w))) as [addr Ha].
    { unfold zlen in Hi. lia. }
    pose proof Hc as (Hc1 & Ho & Ei). rewrite <- Ei in *.
    wp_step. unfold Balancer.next_backend. wp_step. wp_step. wp_step. apply wp_when; [|intros _].
    { intros ->%bool_decide_eq_true. exfalso. unfold zlen in Hi. cbn in Hi. lia. }
    wp_step. wp_step. wp_step. rewrite Ha. cbn [accepted next_turn balancer_pipes]. rewrite Ha.
    rewrite u64_small by (unfold max_size in Hm; lia).
    match goal with |- wp _ ?v _ => set (w1 := v) end. assert (at_cell p w1 (cell w1 p) w1) as Hc2 by done.
    change (cell w1 p) with (cell w'0 p) in Hc2. rewrite Hc1 in Hc2.
    eapply wp_mono; [by eapply wp_map_open|]. intros ? w2 (Ho2 & Ei2 & Hp2). split; [|by split].
    intros q Hq. rewrite Ho2 by done. by apply Ho.
  - by eapply wp_map_down.
  - by eapply wp_map_data.
Qed.
End balancer.

(** ** Socks4a.cc *)

Section socks4a.
Context `{Build} (resolve : bytes -> option Z).
#[local] Instance socks_server : TunnelServer := Socks4a.server resolve.

(** A version 4 CONNECT. *)
Definition is_connect (u : bytes) : bool := (schar (nth 0 u NUL) =? 4) && (schar (nth 1 u NUL) =? 1).
(** The bytes [u] of a front without a tunnel. *)
Definition asked (u : bytes) (x : Pipe) : Pipe :=
  if 128 <? zlen u then mkPipe (half_closed (p_front x)) Asking u (p_down x) (p_addr x)
  else if 8 <? zlen u then
    match Socks4a.destination resolve u with
    | None => mkPipe (p_front x) Asking u (p_down x) (p_addr x)
    | Some (n, a, okay) =>
        if is_connect u && okay
        then mkPipe (p_front x) Dialing (drop (S n) u) (pour (p_front x) (Socks4a.granted a) (p_down x)) (Some a)
        else mkPipe (half_closed (p_front x)) Asking u (pour (p_front x) Socks4a.rejected (p_down x)) (p_addr x)
    end
  else mkPipe (p_front x) Asking u (p_down x) (p_addr x).

Definition socks_pipes : PipeServer := {|
  accepted := fun _ => mkPipe kConnected Asking [] [] None;
  fed_with := fun data x => match p_stage x with Asking => asked (p_up x ++ data) x | _ => fed data x end;
  may_ask := true;
  turn_ok := fun _ => True;
  next_turn := fun i => i
|}.
#[local] Existing Instance socks_pipes.

Lemma destination_bound d n a okay :
  (8 <= length d)%nat -> Socks4a.destination resolve d = Some (n, a, okay) -> (n < length d)%nat.
Proof.
  intros Hd. unfold Socks4a.destination. pose proof (find_char_le NUL (drop 8 d)) as Hle.
  set (w := (8 + find_char NUL (drop 8 d))%nat). rewrite length_drop in Hle.
  destruct (Nat.eqb_spec w (length d)) as [|Hne]; [done|].
  case_ifb; [|intros [= <- _ _]; lia].
  pose proof (find_char_le NUL (drop (S w) d)) as Hle2. rewrite length_drop in Hle2.
  destruct (Nat.eqb_spec (S w + find_char NUL (drop (S w) d)) (length d)) as [|Hne2]; [done|].
  destruct (resolve _); intros [= <- _ _]; lia.
Qed.

Section asking.
Context (p : Z).

Lemma still_asking f o u addr s w w0 :
  at_cell p w0 (mkCell None (Some s) None false) w -> holds (s_in s) u ->
  s_state s = f -> s_out s = o -> s_context s = None -> moves w0 p (mkPipe f Asking u o addr) w.
Proof.
  intros Hc Hb Hs Ho Hctx. eapply (at_cell_moves p w0); [exact Hc|].
  eexists. do 4 (split; [done|]). unfold stage_rel. cbn. by repeat split_and.
Qed.

(** onServerMessage on a front that has no tunnel. *)
Lemma wp_asked x s u buf w w0 :
  at_cell p w0 (mkCell None (Some s) None false) w ->
  p_front x <> kDisconnected ->
  s_state s = p_front x -> s_out s = p_down x -> s_context s = None -> holds buf u ->
  wp (Socks4a.onServerMessage resolve p buf) w (fun buf' w1 =>
    wp (on_fronts (on_conn p (sess_setInput buf'))) w1 (fun _ w' => moves w0 p (asked u x) w')).
Proof.
  intros Hc Hx Hs Ho Hctx Hb. unfold Socks4a.onServerMessage, asked. rewrite (holds_length buf u Hb).
  assert (contents buf = u) as -> by apply Hb. cell_steps. cbn [negb]. cbv iota.
  destruct (128 <? zlen u).
  { cell_steps. destruct (sess_shutdown_view s) as (V1 & V2 & V3 & V4).
    eapply still_asking; [exact Hc|done|cbn; congruence..]. }
  destruct (8 <? zlen u) eqn:Elen; [|cell_steps; by eapply still_asking].
  destruct (Socks4a.destination resolve u) as [ [ [n a] okay]|] eqn:Ed; [|cell_steps; by eapply still_asking].
  fold (is_connect u). destruct (is_connect u && okay).
  - zify_bool. assert (n < length u)%nat as Hn by (eapply destination_bound; [|exact Ed]; unfold zlen in *; lia).
    destruct (holds_retrieveUntil buf u (Z.of_nat n + 1) Hb) as (buf' & Er & Hb'); [unfold zlen; lia|].
    replace (Z.to_nat (Z.of_nat n + 1)) with (S n) in Hb' by lia. rewrite Z.add_assoc in Er.
    eapply wp_open; [exact Hc|]. clear Hc. intros w1 Hc. wp_step.
    eapply (wp_name p w0); [exact Hc|done|]. clear Hc. intros w2 Hc. wp_step.
    apply (wp_lift _ buf'); [done|]. cell_steps. destruct (sess_send_view (Socks4a.granted a) s) as (U1 & U2 & U3 & U4).
    eapply (at_cell_moves p w0); [exact Hc|]. eexists. split; [done|].
    cbn [s_state s_out sess_setInput p_front p_down]. split; [congruence|]. split; [by rewrite U2, Hs, Ho|].
    split; [cbn; by rewrite bool_decide_eq_false_2|]. unfold stage_rel. cbn. eexists. repeat split_and; try done.
    by rewrite <- Hctx, <- U3.
  - cell_steps. set (s1 := sess_send _ s) in *. destruct (sess_shutdown_view s1) as (V1 & V2 & V3 & V4).
    destruct (sess_send_view Socks4a.rejected s) as (U1 & U2 & U3 & U4). fold s1 in U1, U2, U3, U4.
    eapply still_asking; [exact Hc|done|cbn; congruence| |cbn; congruence]. cbn. by rewrite V2, U2, Hs, Ho.
Qed.
End asking.

#[local] Instance socks_laws : TunnelServerLaws.
Proof.
  split; intros.
  - split; [|done]. pose proof (at_cell_start p w) as Hc. cbn [pipe_rel] in *.
    match goal with Hp : cell w p = _ |- _ => rewrite Hp in Hc end.
    cbn [run_event server_connection socks_server Socks4a.server]. unfold Socks4a.onServerConnection.
    cell_steps. change (sess_connected (sess_setState kConnected sess_new)) with true. cbv iota. cell_steps.
    eapply (at_cell_moves p w); [exact Hc|]. eexists. do 4 (split; [done|]). unfold stage_rel. cbn.
    repeat split_and; try done.
  - match goal with Hp : pipe_rel p _ _ |- _ => destruct Hp as (s & Ef & Hs & Ho & Hn & Hg) end.
    pose proof (at_cell_start p w) as Hc. destruct (cell w p) as [ot of_ ob b]. cbn [c_front c_named] in *.
    subst of_ b. cbn [run_event server_connection socks_server Socks4a.server]. unfold Socks4a.onServerConnection.
    cell_steps. change (sess_connected (sess_setState kDisconnected s)) with false. cbv iota. cell_steps.
    destruct (decide (p_stage x = Asking)) as [Ha|Ha].
    + unfold named in *. rewrite Ha in *. apply wp_ret.
      eapply closed_front_moves; [exact Hc|done..|]. unfold stage_rel in *. rewrite Ha in *. exact Hg.
    + assert (named x = true) as En.
      { unfold named. destruct (p_stage x); [done|..]; by rewrite bool_decide_eq_false_2. }
      rewrite En in *. cbn [when]. by eapply (wp_front_down p x (sess_setState kDisconnected s)).
  - match goal with Hp : pipe_rel p _ _ |- _ => rename Hp into Hrel end.
    destruct (decide (p_stage x = Asking)) as [Ha|Ha].
    + assert (fed_with data x = asked (p_up x ++ data) x) as -> by (cbn; by rewrite Ha).
      match goal with Hs : r_fronts w !! p = Some _ |- _ => rename Hs into Hsp end.
      destruct Hrel as (s' & Ef & Hs & Ho & Hn & Hg). pose proof (at_cell_start p w) as Hc.
      assert (s' = s) as -> by (cbn in Ef; congruence).
      destruct (cell w p) as [ot of_ ob b]. cbn [c_front c_named] in *. subst of_ b.
      unfold stage_rel, named in *. rewrite Ha in *. cbn [c_tunnel c_back] in Hg. destruct Hg as (_ & -> & -> & Hctx & Hi).
      cbn [run_event server_message socks_server Socks4a.server]. cell_steps.
      eapply wp_front; [exact Hc|]. eapply focus_received; [exact Hi|done|].
      clear Hc. intros buf Hbuf w1 Hc. cell_steps. by eapply (wp_asked p x (sess_setInput buf s)).
    + assert (fed_with data x = fed data x) as -> by (cbn; by destruct (p_stage x)).
      eapply (wp_forward_event p (Socks4a.onServerMessage resolve p)); [done..|].
      intros buf w' Hn. unfold Socks4a.onServerMessage, known.
      assert (bool_decide ((0, p) ∈ g_tunnels w') = true) as E.
      { cbn in Hn. rewrite Hn. unfold named. destruct (p_stage x); [done|..]; by rewrite bool_decide_eq_false_2. }
      unfold mbind, ST_bind, gets. by rewrite E.
Qed.
End socks4a.

(** ** The three programs *)

Inductive program :=
  | PRelay (g_serverAddr : Addr)
  | PBalancer (g_backends : list Addr) (getLoop : Z -> Z)
  | PSocks (resolve : bytes -> option Z).

Definition program_server (g : program) : TunnelServer :=
  match g with
  | PRelay a => TcpRelay.server a
  | PBalancer l loops => Balancer.server l loops
  | PSocks resolve => Socks4a.server resolve
  end.
Definition program_pipes `{Build} (g : program) : PipeServer :=
  match g with
  | PRelay a => relay_pipes a
  | PBalancer l _ => balancer_pipes l
  | PSocks resolve => socks_pipes resolve
  end.

Section programs.
Context `{Build} (g : program).
#[local] Instance the_server : TunnelServer := program_server g.
#[local] Instance the_pipes : PipeServer := program_pipes g.

#[local] Instance program_laws : TunnelServerLaws.
Proof.
  unfold the_server, the_pipes. destruct g; [apply relay_laws|apply balancer_laws|apply socks_laws].
Qed.

Lemma pipes_rel_moves w w' a p x i :
  pipes_rel w a -> moves_to w p x i w' -> turn_ok i -> pipes_rel w' (mkPipes (<[p := x]> (pipes a)) i).
Proof.
  intros (Ht & Hok & Hp) (Ho & Hi & Hx) Hi'. split; [done|]. split; [done|]. intros q. cbn [pipes].
  destruct (decide (q = p)) as [->|Hne]; [by rewrite lookup_insert_eq|].
  rewrite lookup_insert_ne, Ho by done. apply Hp.
Qed.

Lemma alter_insert_pipe (a : gmap Z Pipe) p x f : a !! p = Some x -> alter f p a = <[p := f x]> a.
Proof. intros E. by rewrite <- (insert_id a p x) at 1; rewrite ?alter_insert_eq. Qed.

Lemma pipe_step ev w a :
  pipes_rel w a -> allowed ev w a -> wp (run_event ev) w (fun _ w' => pipes_rel w' (pipe_event ev a)).
Proof.
  intros Hrel Ha. pose proof Hrel as (Ht & Hok & Hp).
  destruct ev as [p|p data|p|p|p data|p|p]; cbn [allowed pipe_event] in *.
  - specialize (Hp p). rewrite Ha in Hp. rewrite Ht in *. destruct (accept_law p w Hp Hok) as [Hw Hn].
    eapply wp_mono; [exact Hw|]. intros ? w' Hm. by eapply pipes_rel_moves.
  - destruct Ha as (x & s & Ex & Hx & Hs & Hf). specialize (Hp p). rewrite Ex in Hp.
    rewrite (alter_insert_pipe _ _ x), Ht in * by done.
    eapply wp_mono; [by eapply data_law|]. intros ? w' Hm. by eapply pipes_rel_moves.
  - destruct Ha as (x & Ex & Hx). specialize (Hp p). rewrite Ex in Hp.
    rewrite (alter_insert_pipe _ _ x), Ht in * by done.
    eapply wp_mono; [by eapply down_law|]. intros ? w' Hm. by eapply pipes_rel_moves.
  - destruct Ha as (x & Ex & Hx). specialize (Hp p). rewrite Ex in Hp.
    rewrite (alter_insert_pipe _ _ x), Ht in * by done.
    eapply wp_mono; [by eapply ev_BackUp|]. intros ? w' Hm. by eapply pipes_rel_moves.
  - destruct Ha as (x & s & st & Ex & Hx & Hs & Hf). specialize (Hp p). rewrite Ex in Hp.
    rewrite (alter_insert_pipe _ _ x), Ht in * by done.
    eapply wp_mono; [by eapply ev_BackData|]. intros ? w' Hm. by eapply pipes_rel_moves.
  - destruct Ha as (x & st & Ex & Hx). specialize (Hp p). rewrite Ex in Hp.
    rewrite (alter_insert_pipe _ _ x), Ht in * by done.
    eapply wp_mono; [by eapply ev_BackDown|]. intros ? w' Hm. by eapply pipes_rel_moves.
  - destruct Ha as (x & Ex). specialize (Hp p). rewrite Ex in Hp.
    rewrite (alter_insert_pipe _ _ x), Ht in * by done.
    eapply wp_mono; [by eapply ev_HighWater|]. intros ? w' Hm. by eapply pipes_rel_moves.
Qed.

Lemma pipes_run evs w a :
  pipes_rel w a -> allowed_all evs w a ->
  exists w', for_each run_event evs w = Ok (tt, w') /\ pipes_rel w' (foldl (fun a ev => pipe_event ev a) a evs).
Proof.
  revert w a. induction evs as [|ev evs IH]; intros w a Hr Ha; cbn [for_each foldl]; [by exists w|].
  destruct Ha as [Ha Hn]. destruct (pipe_step ev w a Hr Ha) as ( [] & w1 & E & Hr1).
  destruct (IH w1 _ Hr1 (Hn w1 E)) as (w' & E' & Hr'). exists w'. unfold mbind, ST_bind. by rewrite E.
Qed.
End programs.


Lemma relay_start `{Build} g i : let _ := program_server g in let _ := program_pipes g in
  turn_ok i -> pipes_rel (set_nextIndex i Relay_start) (mkPipes ∅ i).
Proof.
  intros ? ? Hi. split; [done|]. split; [done|]. intros q. cbn [pipes]. rewrite lookup_empty. cbn.
  unfold cell. cbn. by rewrite !lookup_empty.
Qed.

(** ** What a client of Socks4a.cc writes *)

Inductive target := ByAddr (ip : Z) | ByName (host : bytes).

Definition target_ip (tgt : target) : Z := match tgt with ByAddr ip => ip | ByName _ => 1 end.
Definition target_name (tgt : target) : bytes := match tgt with ByAddr _ => [] | ByName host => host ++ [NUL] end.
(** SOCKS 4 and 4a requests: a name comes after the user, with the address 0.0.0.1. *)
Definition request_head (port : Z) (tgt : target) : bytes :=
  [to_char 4; to_char 1] ++ be_bytes 2 port ++ be_bytes 4 (target_ip tgt).
Definition request (port : Z) (tgt : target) (user : bytes) : bytes :=
  request_head port tgt ++ user ++ [NUL] ++ target_name tgt.
Definition target_ok (resolve : bytes -> option Z) (tgt : target) (s_addr : Z) `{Build} : Prop :=
  match tgt with
  | ByAddr ip => 256 <= ip < 2 ^ 32 /\ s_addr = host_val (be_bytes 4 ip)
  | ByName host => NUL ∉ host /\ resolve host = Some s_addr
  end.

Section requests.
Context `{Build} (resolve : bytes -> option Z).

Lemma host_bytes_val n l : length l = n -> host_bytes n (host_val l) = l.
Proof.
  intros <-. unfold host_bytes, host_val, be_bytes, be_val. destruct little_endian; [apply le_bytes_val|].
  rewrite <- (length_reverse l), le_bytes_val. by rewrite reverse_involutive.
Qed.

Lemma destination_unfold head tail :
  length head = 8%nat ->
  Socks4a.destination resolve (head ++ tail) =
    let n := find_char NUL tail in
    let port := host_val (take 2 (drop 2 head)) in
    let s_addr := host_val (drop 4 head) in
    if (n =? length tail)%nat then None
    else if networkToHost32 s_addr <? 256 then
      let name := drop (S n) tail in
      if (S n + find_char NUL name =? length tail)%nat then None
      else match resolve (take (find_char NUL name) name) with
           | Some a => Some (8 + (S n + find_char NUL name), (port, a), true)%nat
           | None => Some (8 + (S n + find_char NUL name), (port, s_addr), false)%nat
           end
    else Some ((8 + n)%nat, (port, s_addr), true).
Proof.
  intros Hl. do 8 (destruct head as [|? head]; [done|]). destruct head; [|done]. clear Hl.
  unfold Socks4a.destination. cbn [app length drop take Nat.add Nat.eqb]. by rewrite take_0.
Qed.

Lemma drop_past (l k : bytes) c : drop (S (length l)) (l ++ c :: k) = k.
Proof. induction l as [|x l IH]; [apply drop_0|exact IH]. Qed.

Lemma request_head_length port tgt : length (request_head port tgt) = 8%nat.
Proof. unfold request_head. by rewrite !length_app, !length_be_bytes. Qed.

Lemma request_head_port port tgt : take 2 (drop 2 (request_head port tgt)) = be_bytes 2 port.
Proof. unfold request_head. cbn [app drop]. rewrite drop_0. apply take_app_length'. by rewrite length_be_bytes. Qed.

Lemma request_head_ip port tgt : drop 4 (request_head port tgt) = be_bytes 4 (target_ip tgt).
Proof. unfold request_head. cbn [app drop]. apply drop_app_length'. by rewrite length_be_bytes. Qed.

Lemma request_ip tgt s_addr : target_ok resolve tgt s_addr ->
  networkToHost32 (host_val (be_bytes 4 (target_ip tgt))) = target_ip tgt.
Proof.
  intros Ht. unfold networkToHost32. rewrite <- (length_be_bytes 4 (target_ip tgt)) at 1.
  rewrite htobe_host_val, be_val_bytes. apply wrapu_small. destruct tgt; cbn in *; lia.
Qed.

(** What is already there of a request is not mistaken for one. *)
Lemma request_waits port tgt user s_addr k :
  NUL ∉ user -> target_ok resolve tgt s_addr ->
  (8 <= k < length (request port tgt user))%nat ->
  Socks4a.destination resolve (take k (request port tgt user)) = None.
Proof.
  intros Hu Ht Hk. unfold request in *. pose proof (request_head_length port tgt) as Hl.
  rewrite take_app_ge, destination_unfold by lia. rewrite Hl. cbv zeta.
  rewrite !length_app, Hl in Hk. cbn [length] in Hk.
  destruct (decide (k - 8 <= length user)%nat) as [Hle|Hgt].
  { rewrite take_app_le by done. rewrite find_char_miss, Nat.eqb_refl; [done|].
    intros Hx. apply Hu. eapply elem_of_take in Hx as (? & ? & ?). by eapply list_elem_of_lookup_2. }
  rewrite take_app_ge by lia. set (j := (k - 8 - length user - 1)%nat).
  replace (k - 8 - length user)%nat with (S j) by lia. cbn [app take]. rewrite find_char_hit by done.
  rewrite length_app. cbn [length]. rewrite (proj2 (Nat.eqb_neq _ _)) by lia.
  rewrite request_head_ip, (request_ip _ _ Ht).
  destruct tgt as [ip|host]; cbn [target_ip target_name target_ok] in *.
  - exfalso. cbn [length] in Hk. lia.
  - change (1 <? 256) with true. cbv iota.
    rewrite drop_past.
    destruct Ht as [Hh _]. rewrite length_app in Hk. cbn [length] in Hk.
    rewrite take_app_le by lia. rewrite find_char_miss.
    + rewrite length_take, Nat.min_l by lia. by rewrite Nat.add_succ_comm, Nat.eqb_refl.
    + intros Hx. apply Hh. apply elem_of_take in Hx as (? & ? & ?). by eapply list_elem_of_lookup_2.
Qed.

(** A whole request, whatever follows it. *)
Lemma request_known port tgt user s_addr early :
  NUL ∉ user -> target_ok resolve tgt s_addr ->
  Socks4a.destination resolve (request port tgt user ++ early)
  = Some (pred (length (request port tgt user)), (host_val (be_bytes 2 port), s_addr), true).
Proof.
  intros Hu Ht. unfold request. pose proof (request_head_length port tgt) as Hl.
  rewrite <- (assoc_L (++)), destination_unfold by done. cbv zeta. rewrite request_head_port, request_head_ip, (request_ip _ _ Ht).
  rewrite <- !(assoc_L (++)). cbn [app]. rewrite find_char_hit by done.
  rewrite !length_app, Hl. cbn [length]. rewrite (proj2 (Nat.eqb_neq _ _)) by lia.
  destruct tgt as [ip|host]; cbn [target_ip target_name target_ok] in *.
  - destruct Ht as [Hip ->]. rewrite (proj2 (Z.ltb_ge _ _)) by lia. cbn [length]. do 3 f_equal. lia.
  - destruct Ht as [Hh Hr]. change (1 <? 256) with true. cbv iota.
    rewrite drop_past, <- (assoc_L (++)). cbn [app].
    rewrite find_char_hit, length_app by done. cbn [length]. rewrite (proj2 (Nat.eqb_neq _ _)) by lia.
    rewrite take_app_length, Hr, length_app. cbn [length]. do 3 f_equal. lia.
Qed.

Abbreviation asking u := (mkPipe kConnected Asking u [] None).

Lemma asked_part port tgt user s_addr k :
  NUL ∉ user -> target_ok resolve tgt s_addr -> zlen (request port tgt user) <= 128 ->
  (k < length (request port tgt user))%nat ->
  asked resolve (take k (request port tgt user)) (asking []) = asking (take k (request port tgt user)).
Proof.
  intros Hu Ht H128 Hk. unfold asked. cbn [p_front p_down p_addr]. unfold zlen in *. rewrite length_take, Nat.min_l by lia.
  rewrite (proj2 (Z.ltb_ge _ _)) by lia. destruct (8 <? Z.of_nat k) eqn:E; [|done]. zify_bool.
  by rewrite (request_waits port tgt user s_addr) by (done || lia).
Qed.

Lemma asked_all port tgt user s_addr early :
  NUL ∉ user -> target_ok resolve tgt s_addr -> zlen (request port tgt user ++ early) <= 128 ->
  asked resolve (request port tgt user ++ early) (asking []) =
  mkPipe kConnected Dialing early (Socks4a.granted (host_val (be_bytes 2 port), s_addr))
    (Some (host_val (be_bytes 2 port), s_addr)).
Proof.
  intros Hu Ht H128. unfold asked. rewrite (proj2 (Z.ltb_ge _ _)) by done.
  assert (8 < length (request port tgt user))%nat as Hl.
  { unfold request. rewrite !length_app, request_head_length. cbn [length]. lia. }
  rewrite (proj2 (Z.ltb_lt _ _)) by (rewrite zlen_app; unfold zlen; lia).
  rewrite (request_known port tgt user s_addr) by done.
  change (is_connect (request port tgt user ++ early)) with true. cbn [andb]. cbv iota.
  replace (S (pred (length (request port tgt user)))) with (length (request port tgt user)) by lia.
  by rewrite drop_app_length.
Qed.

(** However the request is cut. *)
Lemma chunks_granted port tgt user s_addr early chunks u :
  NUL ∉ user -> target_ok resolve tgt s_addr -> zlen (request port tgt user ++ early) <= 128 ->
  u ++ concat chunks = request port tgt user ++ early -> (length u < length (request port tgt user))%nat ->
  foldl (fun x c => fed_with (PipeServer := socks_pipes resolve) c x) (asking u) chunks =
  mkPipe kConnected Dialing early (Socks4a.granted (host_val (be_bytes 2 port), s_addr))
    (Some (host_val (be_bytes 2 port), s_addr)).
Proof.
  intros Hu Ht H128. revert u. induction chunks as [|c chunks IH]; intros u E Hl.
  { exfalso. cbn [concat] in E. rewrite app_nil_r in E. apply (f_equal length) in E. rewrite length_app in E. lia. }
  cbn [foldl concat] in *. rewrite (assoc_L (++)) in E. cbn [fed_with socks_pipes p_stage p_up].
  change (asked resolve (u ++ c) (asking u)) with (asked resolve (u ++ c) (asking [])).
  destruct (decide (length (u ++ c) < length (request port tgt user))%nat) as [Hlt|Hge].
  - assert (u ++ c = take (length (u ++ c)) (request port tgt user)) as Eu.
    { apply (f_equal (take (length (u ++ c)))) in E. rewrite take_app_length, take_app_le in E by lia. done. }
    rewrite Eu, (asked_part port tgt user s_addr) by (done || (rewrite zlen_app in H128; unfold zlen in *; lia)).
    rewrite <- Eu. by apply IH.
  - set (r := request port tgt user) in *. assert (u ++ c = r ++ drop (length r) (u ++ c)) as Eu.
    { rewrite <- (take_drop (length r) (u ++ c)) at 1. f_equal.
      apply (f_equal (take (length r))) in E. rewrite take_app_length, take_app_le in E by lia. done. }
    set (e := drop (length r) (u ++ c)) in *. rewrite Eu in *. rewrite <- (assoc_L (++)) in E.
    apply (inj (app r)) in E. subst early. rewrite (assoc_L (++)), zlen_app in H128.
    rewrite (asked_all port tgt user s_addr) by (done || (fold r; pose proof (zlen_nonneg (concat chunks)); lia)).
    clear IH Hge Eu Hl H128. generalize (Socks4a.granted (host_val (be_bytes 2 port), s_addr)). intros gr.
    clearbody e. revert e. induction chunks as [|c' chunks IH]; intros e; cbn [foldl concat]; [by rewrite app_nil_r|].
    cbn [fed_with socks_pipes p_stage fed p_front p_up p_down p_addr]. by rewrite IH, (assoc_L (++)).
Qed.
End requests.

Lemma front_data_fold `{PipeServer} p chunks (a : Pipes) x :
  pipes a !! p = Some x ->
  pipes (foldl (fun a ev => pipe_event ev a) a (FrontData p <$> chunks)) !! p
  = Some (foldl (fun x c => fed_with c x) x chunks).
Proof.
  revert a x. induction chunks as [|c chunks IH]; intros a x E; cbn; [done|].
  apply IH. cbn. by rewrite lookup_alter_eq, E.
Qed.

(** C25: a client of Socks4a gets the tunnel it asks for.  A SOCKS 4 request, or a 4a request
    with a name that is known, that comes with what the client sends right after it in any
    pieces and within 128 bytes, opens a tunnel to the address and port asked for, once it
    is complete and not before; the client is sent the 8 bytes that grant it, with that
    address and port, and what it sent after the request waits for the tunnel. *)
Theorem socks_request_granted `{Build} resolve port tgt user early s_addr chunks p w a :
  let g := PSocks resolve in let _ := program_server g in let _ := program_pipes g in
  NUL ∉ user -> target_ok resolve tgt s_addr ->
  concat chunks = request port tgt user ++ early -> zlen (request port tgt user ++ early) <= 128 ->
  pipes_rel w a -> pipes a !! p = Some (mkPipe kConnected Asking [] [] None) ->
  allowed_all (FrontData p <$> chunks) w a ->
  exists w' tn s, for_each run_event (FrontData p <$> chunks) w = Ok (tt, w')
    /\ r_tunnels w' !! p = Some tn /\ t_dialing tn = true
    /\ t_addr tn = (host_val (be_bytes 2 port), s_addr)
    /\ r_fronts w' !! p = Some s /\ s_state s = kConnected /\ contents (s_in s) = early
    /\ s_out s = [NUL; to_char 90] ++ be_bytes 2 port ++ host_bytes 4 s_addr.
Proof.
  intros g ? ? Hu Ht E H128 Hrel Hp Ha. destruct (pipes_run g _ w a Hrel Ha) as (w' & Er & _ & _ & Hrel').
  assert (0 < length (request port tgt user))%nat as Hl.
  { unfold request. rewrite length_app, request_head_length. lia. }
  pose proof (chunks_granted resolve port tgt user s_addr early chunks [] Hu Ht H128 E Hl) as Eg.
  specialize (Hrel' p).
  pose proof (eq_ind _ (fun ox => pipe_rel p ox (cell w' p)) Hrel' _
    (eq_trans (front_data_fold p chunks a _ Hp) (f_equal Some Eg))) as Hpipe.
  clear Hrel'. rename Hpipe into Hrel'.
  destruct Hrel' as (s & Ef & Hs & Ho & _ & tn & Et & (_ & Haddr & _ & Hd & _) & _ & _ & Hi).
  exists w', tn, s. injection Haddr as Haddr. repeat split_and; try done.
  - by destruct Hi as (_ & _ & ->).
  - rewrite Ho. unfold Socks4a.granted. cbn [fst snd]. by rewrite host_bytes_val by apply length_be_bytes.
Qed.

(** C40: what the tunnels do wrong.  In all three programs a front that ends while the
    connector is at work leaves it at work: the back it makes then is connected and stays
    so, with nobody to shut it down.  Socks4a shuts a client down, unanswered, whose valid
    request within 128 bytes comes together with enough of what follows it.  Balancer
    skips the first backend on its command line: with one only, the first connection is
    a division by zero. *)
Theorem tunnel_faults `{Build} :
  (forall g p x w a, let _ := program_server g in let _ := program_pipes g in
     pipes_rel w a -> pipes a !! p = Some x -> p_stage x = Dialing -> p_front x <> kDisconnected ->
     exists w' s sb, for_each run_event [FrontDown p; BackUp p] w = Ok (tt, w')
       /\ r_fronts w' !! p = Some s /\ s_state s = kDisconnected
       /\ r_backs w' !! p = Some sb /\ s_state sb = kConnected
       /\ (loop_of p, p) ∉ g_tunnels w')
  /\ (forall resolve port tgt user early s_addr p s w a,
     let g := PSocks resolve in let _ := program_server g in let _ := program_pipes g in
     NUL ∉ user -> target_ok resolve tgt s_addr -> zlen (request port tgt user) <= 128 ->
     128 < zlen (request port tgt user ++ early) ->
     pipes_rel w a -> pipes a !! p = Some (mkPipe kConnected Asking [] [] None) ->
     r_fronts w !! p = Some s -> readable_into (s_in s) (request port tgt user ++ early) ->
     exists w' s', run_event (FrontData p (request port tgt user ++ early)) w = Ok (tt, w')
       /\ r_tunnels w' !! p = None
       /\ r_fronts w' !! p = Some s' /\ s_state s' = kDisconnecting /\ s_out s' = [])
  /\ (forall program backend args, Balancer.main_backends (program :: backend :: args) = Balancer.parse_backends args)
  /\ (forall loops p w, let _ := Balancer.server [] loops in
     cell w p = mkCell None None None false -> run_event (Accept p) w = Err DivByZero).
Proof.
  split; [|split; [|split; [done|] ] ].
  - intros g p x w a ts ps Hrel Hp Hx Hf.
    destruct (pipe_step g (FrontDown p) w a Hrel) as ( [] & w1 & E1 & Hrel1); [by exists x|].
    destruct (pipe_step g (BackUp p) w1 _ Hrel1) as ( [] & w2 & E2 & _ & _ & Hp2).
    { exists (closed_front x). cbn [pipe_event pipes]. rewrite lookup_alter_eq, Hp. by cbn; rewrite Hx. }
    specialize (Hp2 p). cbn [pipe_event pipes] in Hp2. rewrite !lookup_alter_eq, Hp in Hp2.
    destruct Hp2 as (s & Es & Hs & _ & Hn & tn & sb & _ & _ & Eb & Hsb & _).
    exists w2, s, sb. unfold the_server, the_pipes in *. subst ts.
    split; [unfold for_each, mbind, ST_bind; by rewrite E1, E2|].
    split_and!; try done. intros Hin. cbn in Hn. by rewrite bool_decide_eq_true_2 in Hn.
  - intros resolve port tgt user early s_addr p s w a g ? ? Hu Ht _ H128 Hrel Hp Hs Hf.
    destruct (pipe_step g (FrontData p (request port tgt user ++ early)) w a Hrel) as ( [] & w1 & E1 & _ & _ & Hp1).
    { eexists _, s. split; [exact Hp|]. by split. }
    specialize (Hp1 p). cbn [pipe_event pipes] in Hp1. rewrite lookup_alter_eq, Hp in Hp1.
    assert (fed_with (PipeServer := socks_pipes resolve) (request port tgt user ++ early)
      (mkPipe kConnected Asking [] [] None)
      = mkPipe kDisconnecting Asking (request port tgt user ++ early) [] None) as Efed.
    { cbn [fed_with socks_pipes p_stage p_up]. unfold asked. rewrite app_nil_l. by rewrite (proj2 (Z.ltb_lt _ _)). }
    destruct (eq_ind _ (fun x => pipe_rel p (Some x) (cell w1 p)) Hp1 _ Efed)
      as (s' & Es & Hs' & Ho & _ & _ & Et & _). by exists w1, s'.
  - intros loops p w ts Hc. injection Hc as Et Ef Eb Hn. subst ts.
    cbn [run_event server_connection Balancer.server]. unfold Balancer.onServerConnection, on_fronts, zoom.
    unfold mbind, ST_bind, established, isConnected, conn_at. rewrite Ef.
    unfold mbind, ST_bind, conn_at. cbn [r_fronts set_fronts]. rewrite lookup_insert_eq.
    change (sess_connected (sess_setState kConnected sess_new)) with true. cbv iota.
    unfold known, gets, mret, ST_ret. cbn [g_tunnels set_fronts].
    rewrite Hn. unfold lift. cbn [negb].
    by rewrite assert_true.
Qed.

(** ** Witnesses *)

Definition name_service (host : bytes) : option Z := if decide (host = cs "h") then Some 16777343 else None.
Definition socks_program : program := PSocks name_service.
#[local] Instance sample_server : TunnelServer := program_server socks_program.
#[local] Instance sample_pipes : PipeServer := program_pipes (H := Debug) socks_program.

(** A 4a request in two pieces, with data right behind it. *)
Definition sample_request : bytes := request 80 (ByName (cs "h")) (cs "u").
Definition sample_chunks : list bytes := [take 9 sample_request; drop 9 sample_request ++ cs "hi"].
Definition asking_pipes : Pipes := mkPipes {[1 := mkPipe kConnected Asking [] [] None]} 0.
Definition accepted_relay : Relay := mkRelay {[1 := sess_setState kConnected sess_new]} ∅ ∅ ∅ 0.

(** Sequences of events that are possible, by running them. *)
Ltac solve_allowed :=
  repeat match goal with
  | |- allowed _ _ _ /\ _ => split
  | |- allowed (Accept _) _ _ => by vm_compute
  | |- allowed (FrontData _ _) _ _ =>
      eexists _, _; split; [vm_compute; reflexivity|split; [by vm_compute|split; [vm_compute; reflexivity|left; by vm_compute] ] ]
  | |- allowed (FrontDown _) _ _ => eexists; split; [vm_compute; reflexivity|by vm_compute]
  | |- allowed (BackUp _) _ _ => eexists; split; [vm_compute; reflexivity|by vm_compute]
  | |- allowed (BackData _ _) _ _ =>
      eexists _, _, _; split; [vm_compute; reflexivity|split; [vm_compute; reflexivity|split; [vm_compute; reflexivity|left; by vm_compute] ] ]
  | |- allowed (BackDown _) _ _ => eexists _, _; split; [vm_compute; reflexivity|vm_compute; reflexivity]
  | |- allowed (HighWater _) _ _ => by vm_compute
  | |- forall w', run_event _ _ = Ok (tt, w') -> _ =>
      let w' := fresh "w" in let E := fresh "E" in intros w' E; vm_compute in E; injection E as <-
  | |- True => done
  end.

Definition sample_events : list event :=
  [Accept 1; FrontData 1 (take 9 sample_request); FrontData 1 (drop 9 sample_request ++ cs "hi");
   BackUp 1; FrontData 1 (cs "!"); BackData 1 (cs "yo"); Accept 2; HighWater 2; HighWater 1; BackDown 1; FrontDown 1].


Lemma sample_asking : pipes_rel accepted_relay asking_pipes.
Proof.
  split; [done|]. split; [done|]. intros q. unfold asking_pipes, accepted_relay, cell. cbn [pipes r_tunnels r_fronts r_backs g_tunnels].
  destruct (decide (q = 1)) as [->|Hne].
  - rewrite !lookup_singleton_eq, !lookup_empty. eexists. do 4 (split; [done|]). unfold stage_rel. cbn.
    repeat split_and; try done.
  - by rewrite !lookup_singleton_ne, !lookup_empty.
Qed.

Lemma socks_request_granted_witness :
  exists w' tn s, for_each (run_event (H := Debug)) (FrontData 1 <$> sample_chunks) accepted_relay = Ok (tt, w')
    /\ r_tunnels w' !! 1 = Some tn /\ t_addr tn = (20480, 16777343)
    /\ r_fronts w' !! 1 = Some s /\ contents (s_in s) = cs "hi".
Proof.
  destruct (socks_request_granted (H := Debug) name_service 80 (ByName (cs "h")) (cs "u") (cs "hi") 16777343
    sample_chunks 1 accepted_relay asking_pipes)
    as (w' & tn & s & E & Et & _ & Ha & Es & _ & Hc & _); try done.
  - refine (bool_decide_unpack _ _). by vm_compute.
  - split; [|by vm_compute]. refine (bool_decide_unpack _ _). by vm_compute.
  - apply sample_asking.
  - unfold sample_chunks. cbn [fmap list_fmap allowed_all]. solve_allowed.
  - exists w', tn, s. by split_and!.
Defined.

Definition dialing_relay : Relay :=
  mkRelay {[1 := sess_setState kConnected sess_new]} ∅ {[1 := mkTunnel (Some 1) (80, 9) true true true None]} {[(0, 1)]} 0.
Definition long_request : bytes := request 80 (ByAddr 2130706433) (cs "u").

Lemma tunnel_faults_witness :
  (exists w', for_each (run_event (H := Debug) (H0 := TcpRelay.server (80, 9))) [FrontDown 1; BackUp 1] dialing_relay
                = Ok (tt, w')
     /\ s_state <$> r_backs w' !! 1 = Some kConnected /\ s_state <$> r_fronts w' !! 1 = Some kDisconnected)
  /\ (exists w', run_event (H := Debug) (FrontData 1 (long_request ++ replicate 120 (to_char 120))) accepted_relay = Ok (tt, w')
     /\ s_state <$> r_fronts w' !! 1 = Some kDisconnecting)
  /\ Balancer.main_backends [cs "balancer"; cs "10.0.0.1:80"] = Some []
  /\ run_event (H := Debug) (H0 := Balancer.server [] (fun _ => 0)) (Accept 1) Relay_start = Err DivByZero.
Proof.
  destruct (tunnel_faults (H := Debug)) as (F1 & F2 & F3 & F4). split; [|split; [|split] ].
  - destruct (F1 (PRelay (80, 9)) 1 (mkPipe kConnected Dialing [] [] (Some (80, 9))) dialing_relay
      (mkPipes {[1 := mkPipe kConnected Dialing [] [] (Some (80, 9))]} 0)) as (w' & s & sb & E & Es & Hs & Eb & Hb & _).
    + split; [done|]. split; [done|]. intros q. unfold dialing_relay, cell. cbn [pipes r_tunnels r_fronts r_backs g_tunnels].
      destruct (decide (q = 1)) as [->|Hne].
      * rewrite !lookup_singleton_eq, !lookup_empty. eexists. do 4 (split; [done|]). unfold stage_rel. cbn.
        eexists. by repeat split_and.
      * rewrite !lookup_singleton_ne, !lookup_empty by done. cbn. f_equal. apply bool_decide_eq_false. set_solver.
    + done.
    + done.
    + done.
    + exists w'. rewrite Es, Eb. cbn. by rewrite Hs, Hb.
  - destruct (F2 name_service 80 (ByAddr 2130706433) (cs "u") (replicate 120 (to_char 120)) (host_val (H := Debug) (be_bytes 4 2130706433))
      1 (sess_setState kConnected sess_new) accepted_relay asking_pipes) as (w' & s' & E & _ & Es & Hs & _); try done.
    + refine (bool_decide_unpack _ _). by vm_compute.
    + apply sample_asking.
    + left. by vm_compute.
    + exists w'. split; [exact E|]. rewrite Es. cbn. by rewrite Hs.
  - rewrite F3. done.
  - by apply F4.
Defined.
