(* ===== verification/ShortUrl.v ===== *)
(** * The URL shortener: src/arale/examples/shorturl/ShortUrl.cc

    The HTTP callback of the program, run by the HttpServer of Http.v, so that the theorem
    goes from the bytes of a request to the bytes of the answer.  Logging and the choice of
    a loop per server are left out. *)

From S2P Require Import Prelude Ordered Format Date Buffer TimeZone Logging Http.

Definition favicon : bytes := to_char <$> [
  137; 80; 78; 71; 13; 10; 26; 10; 0; 0; 0; 13; 73; 72; 68; 82; 0; 0; 0; 16; 0; 0; 0; 16; 8;
  6; 0; 0; 0; 31; 243; 255; 97; 0; 0; 0; 25; 116; 69; 88; 116; 83; 111; 102; 116; 119; 97;
  114; 101; 0; 65; 100; 111; 98; 101; 32; 73; 109; 97; 103; 101; 82; 101; 97; 100; 121; 113;
  201; 101; 60; 0; 0; 1; 205; 73; 68; 65; 84; 120; 218; 148; 147; 57; 72; 3; 65; 20; 134; 255;
  93; 98; 167; 4; 82; 196; 109; 34; 30; 160; 70; 36; 8; 22; 22; 118; 10; 54; 186; 74; 154;
  128; 8; 65; 180; 113; 133; 88; 137; 71; 176; 73; 169; 81; 36; 205; 166; 8; 164; 72; 99; 145;
  66; 11; 175; 86; 193; 70; 180; 21; 207; 34; 88; 152; 11; 84; 72; 138; 100; 147; 141; 251;
  70; 103; 201; 26; 20; 125; 240; 102; 118; 102; 223; 124; 239; 231; 103; 70; 168; 213; 106;
  72; 36; 18; 42; 0; 5; 191; 71; 212; 239; 247; 47; 54; 236; 18; 32; 30; 143; 215; 170; 213;
  234; 175; 73; 53; 70; 170; 84; 95; 159; 34; 65; 42; 149; 10; 131; 229; 114; 57; 100; 179;
  89; 150; 153; 76; 6; 233; 116; 154; 37; 133; 44; 203; 84; 167; 196; 98; 49; 181; 94; 0; 3;
  104; 154; 198; 22; 130; 32; 88; 82; 20; 69; 54; 83; 148; 203; 101; 120; 189; 94; 170; 85;
  84; 35; 76; 192; 224; 226; 193; 143; 0; 158; 188; 9; 65; 124; 62; 31; 131; 68; 34; 17; 213;
  84; 64; 63; 56; 128; 119; 229; 51; 7; 184; 92; 46; 72; 146; 4; 135; 195; 129; 64; 32; 64;
  103; 152; 233; 54; 26; 166; 103; 21; 4; 227; 215; 200; 189; 21; 225; 105; 183; 67; 171; 234;
  120; 47; 106; 88; 146; 187; 24; 32; 159; 207; 51; 195; 184; 233; 78; 167; 211; 108; 74; 0;
  105; 54; 124; 142; 225; 254; 86; 132; 231; 60; 159; 114; 43; 58; 66; 123; 55; 102; 119; 174;
  142; 14; 243; 189; 82; 169; 100; 2; 66; 175; 133; 50; 102; 70; 186; 12; 217; 159; 29; 154;
  108; 34; 230; 199; 58; 44; 128; 239; 193; 21; 144; 7; 147; 162; 40; 160; 83; 106; 177; 184;
  223; 41; 53; 67; 14; 63; 88; 252; 152; 218; 121; 106; 80; 64; 0; 135; 174; 27; 23; 66; 180;
  58; 63; 190; 121; 199; 10; 38; 182; 238; 217; 154; 96; 20; 147; 219; 143; 13; 10; 46; 233;
  35; 149; 41; 88; 0; 39; 235; 110; 86; 112; 188; 214; 203; 214; 71; 171; 61; 108; 125; 184;
  210; 221; 160; 96; 131; 186; 239; 95; 164; 234; 204; 2; 78; 174; 94; 112; 26; 236; 179; 64;
  57; 172; 254; 242; 145; 137; 103; 145; 133; 33; 168; 135; 183; 88; 126; 126; 133; 187; 205;
  78; 78; 98; 116; 64; 250; 147; 137; 236; 30; 236; 134; 2; 72; 38; 147; 208; 117; 29; 127;
  9; 50; 149; 191; 31; 219; 215; 99; 138; 26; 247; 92; 193; 255; 34; 74; 195; 135; 0; 3; 0;
  75; 187; 248; 214; 42; 118; 152; 73; 0; 0; 0; 0; 73; 69; 78; 68; 174; 66; 96; 130].

(** What main() puts there. *)
Definition g_redirections : list (bytes * bytes) :=
  minsert (cs "/2") (cs "https://github.com/ethandu7/arale")
    (minsert (cs "/1") (cs "https://www.google.com") []).

(** The page at "/"; [now] is Timestamp::now().toFormattedString(). *)
Definition page (redirections : list (bytes * bytes)) (now : bytes) : bytes :=
  let text := concat ((fun it2 : bytes * bytes =>
    cs "<ul>" ++ it2.1 ++ cs " =&gt; " ++ it2.2 ++ cs "</ul>") <$> redirections) in
  cs "<html><head><title>My tiny short url service</title></head>"
  ++ cs "<body><h1>Known redirections</h1>"
  ++ text
  ++ cs "Now is " ++ now
  ++ cs "</body></html>".

Definition onRequest (redirections : list (bytes * bytes)) (now : bytes) (req : HttpRequest) (resp : HttpResponse)
    : HttpResponse :=
  match mlookup (path_ req) redirections with
  | Some url =>
      let resp := setStatusCode resp k301MovedPermanently in
      let resp := setStatusMessage resp (cs "Moved Permanently") in
      resp_addHeader resp (cs "Location") url
  | None =>
      if bool_decide (path_ req = cs "/") then
        let resp := setStatusCode resp k200Ok in
        let resp := setStatusMessage resp (cs "OK") in
        let resp := setContentType resp (cs "text/html") in
        setBody resp (page redirections now)
      else if bool_decide (path_ req = cs "/favicon") then
        let resp := setStatusCode resp k200Ok in
        let resp := setStatusMessage resp (cs "OK") in
        let resp := setContentType resp (cs "image/png") in
        setBody resp favicon
      else
        let resp := setStatusCode resp k404NotFound in
        let resp := setStatusMessage resp (cs "Not Found") in
        setCloseConnection resp true
  end.

(** ** What a client reads *)

Definition connection_lines (close : bool) (length : Z) : bytes :=
  if close then cs "Connection: close" ++ kCRLF
  else cs "Content-Length: " ++ fmt_d length ++ kCRLF ++ cs "Connection: Keep-Alive" ++ kCRLF.
Definition moved (url : bytes) (close : bool) : bytes :=
  cs "HTTP/1.1 301Moved Permanently" ++ kCRLF ++ connection_lines close 0
  ++ cs "Location: " ++ url ++ kCRLF ++ kCRLF.
Definition found (type body : bytes) (close : bool) : bytes :=
  cs "HTTP/1.1 200OK" ++ kCRLF ++ connection_lines close (zlen body)
  ++ cs "Content-Type: " ++ type ++ kCRLF ++ kCRLF ++ body.
Definition not_found : bytes := cs "HTTP/1.1 404Not Found" ++ kCRLF ++ connection_lines true 0 ++ kCRLF.

(** The answer to a request for [path], and whether the connection ends. *)
Definition answer (path now : bytes) (close : bool) : bytes * bool :=
  if bool_decide (path = cs "/1") then (moved (cs "https://www.google.com") close, close)
  else if bool_decide (path = cs "/2") then (moved (cs "https://github.com/ethandu7/arale") close, close)
  else if bool_decide (path = cs "/") then (found (cs "text/html") (page g_redirections now) close, close)
  else if bool_decide (path = cs "/favicon") then (found (cs "image/png") favicon close, close)
  else (not_found, true).

(** ** Lemmas *)

Lemma content_length n : 0 <= n < 10000 ->
  snprintf 32 (cs "Content-Length: " ++ fmt_d n ++ kCRLF) = cs "Content-Length: " ++ fmt_d n ++ kCRLF.
Proof.
  intros Hn. unfold snprintf. apply take_ge. rewrite !length_app.
  pose proof (fmt_d_length n 4 ltac:(lia) ltac:(lia)). cbn. lia.
Qed.

(** A response with one header. *)
Lemma pieces_one code msg h v body close :
  zlen body < 10000 ->
  concat (response_pieces (mkResponse code msg [(h, v)] body close)) =
    snprintf 32 (cs "HTTP/1.1 " ++ fmt_d code) ++ msg ++ kCRLF ++ connection_lines close (zlen body)
    ++ h ++ cs ": " ++ v ++ kCRLF ++ kCRLF ++ body.
Proof.
  intros Hb. unfold response_pieces, connection_lines. pose proof (zlen_nonneg body).
  cbn [statusCode_ statusMessage_ resp_headers_ body_ closeConnection_ fmap list_fmap concat app fst snd].
  destruct close; cbn [concat app]; rewrite ?content_length by lia;
    rewrite ?app_nil_r, <- ?(assoc_L (++)); done.
Qed.

(** The lengths of literals. *)
Ltac zlen_literals :=
  change (zlen kCRLF) with 2;
  repeat match goal with
  | |- context [zlen (cs ?s)] => let n := eval vm_compute in (zlen (cs s)) in change (zlen (cs s)) with n
  end.

Lemma page_length now : (length now <= 31)%nat -> zlen (page g_redirections now) <= 350.
Proof.
  intros Hn. unfold page. set (text := concat _). vm_compute in text. rewrite !zlen_app. zlen_literals.
  let n := eval vm_compute in (zlen text) in change (zlen text) with n. unfold zlen. lia.
Qed.

Lemma connection_length close n : 0 <= n < 10000 -> 0 <= zlen (connection_lines close n) <= 46.
Proof.
  intros Hn. unfold connection_lines. destruct close; rewrite !zlen_app; zlen_literals; [lia|].
  pose proof (fmt_d_length n 4 ltac:(lia) ltac:(lia)). unfold zlen. lia.
Qed.

Lemma moved_length url close : zlen url <= 100 -> zlen (moved url close) <= 300.
Proof.
  intros Hu. unfold moved. pose proof (connection_length close 0 ltac:(lia)).
  rewrite !zlen_app. zlen_literals. lia.
Qed.

Lemma found_length type body close : zlen type <= 20 -> zlen body < 600 -> zlen (found type body close) <= 800.
Proof.
  intros Ht Hb. unfold found. pose proof (zlen_nonneg body).
  pose proof (connection_length close (zlen body) ltac:(lia)).
  rewrite !zlen_app. zlen_literals. lia.
Qed.

(** The callback's response is the answer. *)
Lemma response_answer req now close :
  (length now <= 31)%nat ->
  let resp := onRequest g_redirections now req (HttpResponse_ctor close) in
  concat (response_pieces resp) = (answer (path_ req) now close).1
  /\ closeConnection_ resp = (answer (path_ req) now close).2
  /\ zlen (answer (path_ req) now close).1 <= 800.
Proof.
  intros Hn. unfold onRequest, answer. set (path := path_ req).
  destruct (bool_decide_reflect (path = cs "/1")) as [->|H1].
  { change (mlookup _ g_redirections) with (Some (cs "https://www.google.com")).
    split_and!; [exact (pieces_one 301 _ _ _ [] close eq_refl)|done|].
    etrans; [apply moved_length; by vm_compute|done]. }
  destruct (bool_decide_reflect (path = cs "/2")) as [->|H2].
  { change (mlookup _ g_redirections) with (Some (cs "https://github.com/ethandu7/arale")).
    split_and!; [exact (pieces_one 301 _ _ _ [] close eq_refl)|done|].
    etrans; [apply moved_length; by vm_compute|done]. }
  assert (mlookup path g_redirections = None) as ->.
  { apply mlookup_None; [|].
    - unfold g_redirections. apply minsert_sorted, minsert_sorted. constructor.
    - intros Hin. vm_compute in Hin. set_solver. }
  destruct (bool_decide_reflect (path = cs "/")) as [->|H3].
  { pose proof (page_length now Hn). split_and!; [|done|].
    - refine (pieces_one 200 _ _ _ (page g_redirections now) close _). lia.
    - cbn [fst]. apply found_length; [by vm_compute|lia]. }
  destruct (bool_decide_reflect (path = cs "/favicon")) as [->|H4].
  { split_and!; [exact (pieces_one 200 _ _ _ favicon close eq_refl)|done|].
    cbn [fst]. apply found_length; by vm_compute. }
  split_and!; [by vm_compute|done|by vm_compute].
Qed.

(** C27: the shortener answers.  A complete request, with any method, path, version and
    headers, in a buffer, is answered: a known short name with a permanent redirection to
    its url, "/" with the page that lists the redirections, "/favicon" with the 555 bytes of
    the icon, anything else with 404 and the end of the connection; the bytes that follow
    the request stay, and the connection ends otherwise only when the client wants it to. *)
Theorem short_url_answers `{Build, Libc} fuel buf m path v hs more t now :
  wf buf -> m <> kInvalid -> target_ok path -> v <> kUnknown -> Forall header_ok hs ->
  (length hs + 1 < fuel)%nat ->
  contents buf = print_request m path v hs ++ more ->
  let when_ := toFormattedString now true in
  let '(text, close) := answer path when_ (wants_close (parsed_request m path v hs t)) in
  exists buf', onMessage (onRequest g_redirections when_) fuel (Some HttpContext_ctor) buf t =
      Ok (CSend text :: (if close then [CShutdown] else []), HttpContext_ctor, buf')
    /\ contents buf' = more.
Proof.
  intros Hb Hm Ht Hv Hhs Hf Hc when_.
  destruct (request_parsed fuel buf m path v hs more t Hb Hm Ht Hv Hhs Hf Hc) as (buf' & E & _ & Hc').
  set (req := parsed_request m path v hs t) in *.
  assert (length when_ <= 31)%nat as Hw.
  { subst when_. unfold toFormattedString, snprintf. rewrite length_take. lia. }
  destruct (response_answer req when_ (wants_close req) Hw) as (Ht1 & Ht2 & Hlen).
  change (path_ req) with path in *. destruct (answer path when_ (wants_close req)) as [text close] eqn:Ea.
  cbn [fst snd] in *. exists buf'. split; [|done].
  rewrite (onMessage_answers (onRequest g_redirections when_) fuel HttpContext_ctor buf t true _ buf' E).
  - change (isGotAll (mkContext req kGotAll)) with true. cbv iota. cbn [request_]. by rewrite Ht1, Ht2.
  - cbn [request_]. rewrite Ht1. unfold kDefaultInitialSize. lia.
Qed.

Lemma short_url_answers_witness :
  exists buf', onMessage (H := Debug) (onRequest g_redirections (toFormattedString (mkTimestamp 0) true)) 9
      (Some HttpContext_ctor) (buffer_of (print_request kGet (cs "/1") kHttp11 [] ++ cs "GET")) (mkTimestamp 5) =
    Ok ([CSend (cs "HTTP/1.1 301Moved Permanently" ++ kCRLF ++ cs "Content-Length: 0" ++ kCRLF
                ++ cs "Connection: Keep-Alive" ++ kCRLF ++ cs "Location: https://www.google.com" ++ kCRLF ++ kCRLF)],
        HttpContext_ctor, buf')
    /\ contents buf' = cs "GET".
Proof.
  pose proof (short_url_answers (H := Debug) 9
    (buffer_of (print_request kGet (cs "/1") kHttp11 [] ++ cs "GET")) kGet (cs "/1") kHttp11 [] (cs "GET")
    (mkTimestamp 5) (mkTimestamp 0)) as Hx.
  apply Hx.
  - by vm_compute.
  - done.
  - split; refine (bool_decide_unpack _ _); by vm_compute.
  - done.
  - constructor.
  - cbn. lia.
  - by vm_compute.
Defined.
