(* ===== verification/Chat.v ===== *)
(** * The threaded chats: src/arale/examples/asio/chat

    ChatServerThreaded.cc and ChatServerThreadedEfficient.cc (Module [Locked], the second
    with [cow]), ChatServerThreadedHighPerformance.cc (Module [HighPerformance], over
    base/ThreadLocalSingleton.h) and ChatClient.cc (Module [Client]).  Each loop is a
    thread and named by a number, and each connection lives in the loop [loop_of] says.
    The functions are cut where another thread can come in between: at the mutex, and
    between two turns of a loop over a set. *)

From S2P Require Import Prelude Ordered Buffer TcpConnection Session Codec.

(** An iterator of a std::set: None before begin() is called, then its element. *)
Abbreviation iterator := (option Z).

(** The next position of [for (it = l.begin(); it != l.end(); ++it)], None at the end; ++ on
    an element that was erased is a use of freed memory. *)
Definition advance (it : iterator) (l : list Z) : outcome (option Z) :=
  match it with
  | None => Ok (head l)
  | Some x =>
      match (osplit x l).2 with
      | y :: rest => if y =? x then Ok (head rest) else Err StaleRead
      | [] => Err StaleRead
      end
  end.

(** send(Buffer *buf) of a connection: in its loop's thread at once, else as a functor that
    is posted to the loop with a copy of the data. *)
Definition send_from `{Build} {S} (on_table : forall A, ST (Table unit) A -> ST S A)
    (post : Z -> bytes -> ST S unit) (isInLoopThread : bool) (p : Z) (buf : Buffer) : ST S unit :=
  up ← on_table _ (isConnected p);
  when up
    (if isInLoopThread then _ ← on_table _ (send_buf p buf); mret tt
     else '(msg, _) ← lift (retrieveAllAsString buf); post p msg).

(** ** One mutex, and copy on write *)

Module Locked.
Record ConnectionList := mkList { members : list Z; use_count : Z }.
(** A call of onMessage on its way through the list. *)
Record Reader := mkReader { r_list : Z; r_it : iterator; r_msg : bytes }.

Record ChatServer := mkChat {
  conns : Table unit;
  posted : gmap Z (list (Z * bytes));     (* send() functors of each loop: connection, data *)
  mutex_ : option Z;                      (* the thread that holds it *)
  lists : gmap Z ConnectionList;          (* the ConnectionList objects *)
  connections_ : Z;                       (* the one in use *)
  readers : gmap Z Reader                 (* by thread *)
}.

Section setters.
Implicit Types s : ChatServer.
Definition set_conns t s := mkChat t (posted s) (mutex_ s) (lists s) (connections_ s) (readers s).
Definition set_posted q s := mkChat (conns s) q (mutex_ s) (lists s) (connections_ s) (readers s).
Definition set_mutex m s := mkChat (conns s) (posted s) m (lists s) (connections_ s) (readers s).
Definition set_lists l s := mkChat (conns s) (posted s) (mutex_ s) l (connections_ s) (readers s).
Definition set_connections p s := mkChat (conns s) (posted s) (mutex_ s) (lists s) p (readers s).
Definition set_readers r s := mkChat (conns s) (posted s) (mutex_ s) (lists s) (connections_ s) r.
End setters.

Section chat.
Context `{Build} (loop_of : Z -> Z) (alloc : gset Z -> Z) (cow : bool).

Definition on_table {A} (m : ST (Table unit) A) : ST ChatServer A := zoom conns set_conns m.

(** A lock_guard; a thread that finds the mutex taken waits, so lock() does not return
    before a step of another thread. *)
Definition lock (t : Z) : ST ChatServer unit :=
  m ← gets mutex_;
  match m with None => modify (set_mutex (Some t)) | Some _ => fail OutOfFuel end.
Definition unlock : ST ChatServer unit := modify (set_mutex None).

(** postFuntor(bind(send, conn, msg)) *)
Definition post (p : Z) (msg : bytes) : ST ChatServer unit :=
  modify (fun s => set_posted (<[loop_of p := default [] (posted s !! loop_of p) ++ [(p, msg)]]> (posted s)) s).
(** codec_.sendMessage(conn, message) *)
Definition codec_sendMessage (t p : Z) (message : bytes) : ST ChatServer unit :=
  buf ← lift (sendMessage message);
  send_from (@on_table) post (bool_decide (loop_of p = t)) p buf.

Definition list_at (p : Z) : ST ChatServer ConnectionList := fun s =>
  match lists s !! p with Some l => Ok (l, s) | None => Err StaleRead end.
Definition put_members (p : Z) (m : list Z) : ST ChatServer unit :=
  l ← list_at p; modify (fun s => set_lists (<[p := mkList m (use_count l)]> (lists s)) s).

(** Copying and destroying a shared_ptr. *)
Definition acquire (p : Z) : ST ChatServer unit :=
  l ← list_at p;
  modify (fun s => set_lists (<[p := mkList (members l) (use_count l + 1)]> (lists s)) s).
Definition release (p : Z) : ST ChatServer unit :=
  l ← list_at p;
  if use_count l =? 1 then modify (fun s => set_lists (delete p (lists s)) s)
  else modify (fun s => set_lists (<[p := mkList (members l) (use_count l - 1)]> (lists s)) s).
Definition unique : ST ChatServer bool :=
  p ← gets connections_; l ← list_at p; mret (use_count l =? 1).
(** connections_.reset(new ConnectionList( *connections_)) *)
Definition copy_list : ST ChatServer unit :=
  p ← gets connections_;
  l ← list_at p;
  modify (fun s =>
    let q := alloc (dom (lists s)) in
    set_connections q (set_lists (<[q := mkList (members l) 1]> (lists s)) s)) ;;
  release p.

Definition onConnection (conn : Z) : ST ChatServer unit :=
  lock (loop_of conn) ;;
  when cow
    (u ← unique; when (negb u) copy_list ;;
     u ← unique; lift (assert_ u)) ;;
  up ← on_table (isConnected conn);
  p ← gets connections_;
  l ← list_at p;
  put_members p (if (up : bool) then (oinsert conn (members l)).1 else (oerase conn (members l)).1) ;;
  unlock.

(** onMessage up to the loop: with [cow], a reference to the list; without, the mutex,
    which is held until the loop has ended. *)
Definition onMessage_begin (t : Z) (msg : bytes) : ST ChatServer unit :=
  lock t ;;
  p ← gets connections_;
  when cow (acquire p ;; unlock) ;;
  modify (fun s => set_readers (<[t := mkReader p None msg]> (readers s)) s).
(** A turn of the loop, or its end. *)
Definition onMessage_turn (t : Z) : ST ChatServer unit :=
  rs ← gets readers;
  match rs !! t with
  | None => fail NullCall
  | Some r =>
      l ← list_at (r_list r);
      it ← lift (advance (r_it r) (members l));
      match it with
      | Some p =>
          codec_sendMessage t p (r_msg r) ;;
          modify (fun s => set_readers (<[t := mkReader (r_list r) (Some p) (r_msg r)]> (readers s)) s)
      | None =>
          (if cow then release (r_list r) else unlock) ;;
          modify (fun s => set_readers (delete t (readers s)) s)
      end
  end.

(** The loop [t] runs the oldest send() posted to it. *)
Definition run_posted (t : Z) : ST ChatServer unit :=
  q ← gets posted;
  match default [] (q !! t) with
  | [] => mret tt
  | (p, data) :: rest =>
      modify (fun s => set_posted (<[t := rest]> (posted s)) s) ;;
      on_table (Session.send p data)
  end.
End chat.

(** The constructor: an empty list at [p], with one owner. *)
Definition ChatServer_ctor (p : Z) : ChatServer :=
  mkChat ∅ ∅ None {[ p := mkList [] 1 ]} p ∅.

(** What happens: a connection is established or closed by the library, its loop calls the
    connection callback or gives the thread's onMessage a message, a thread takes a turn
    of its loop, a loop runs a posted send. *)
Inductive event :=
  | Established (p : Z) | Closed (p : Z) | ConnectionCallback (p : Z)
  | Message (t : Z) (msg : bytes) | Turn (t : Z) | Posted (t : Z).

Definition run_event `{Build} loop_of alloc cow (ev : event) : ST ChatServer unit :=
  match ev with
  | Established p => on_table (established p)
  | Closed p => on_table (closed p)
  | ConnectionCallback p => onConnection loop_of alloc cow p
  | Message t msg => onMessage_begin cow t msg
  | Turn t => onMessage_turn loop_of cow t
  | Posted t => run_posted t
  end.
End Locked.

(** ** base/ThreadLocalSingleton.h *)

Module ThreadLocalSingleton.
Section singleton.
Context {T : Type}.

(** By thread: the __thread pointer and what it points to, and whether the thread has
    given the key a value. *)
Record Singleton := mkSingleton { t_value_ : gmap Z T; specific : gset Z }.
Definition Singleton_start : Singleton := mkSingleton ∅ ∅.

Definition pointer (t : Z) (s : Singleton) : option T := t_value_ s !! t.
(** In the thread [t]; [new] is the object that new T() makes. *)
Definition instance `{Build} (new : T) (t : Z) : ST Singleton T :=
  v ← gets (pointer t);
  match v with
  | Some v => mret v
  | None =>
      modify (fun s => mkSingleton (<[t := new]> (t_value_ s)) (specific s)) ;;
      set ← gets (fun s => bool_decide (t ∈ specific s));
      lift (assert_ (negb set)) ;;
      modify (fun s => mkSingleton (t_value_ s) ({[ t ]} ∪ specific s)) ;;
      mret new
  end.
(** A change of the object that instance() refers to. *)
Definition update (t : Z) (v : T) (s : Singleton) : Singleton :=
  mkSingleton (<[t := v]> (t_value_ s)) (specific s).
(** The thread ends: pthreads calls destructor() if the key has a value. *)
Definition destructor `{Build} (t : Z) : ST Singleton unit :=
  set ← gets (fun s => bool_decide (t ∈ specific s));
  when set
    (modify (fun s => mkSingleton (t_value_ s) (specific s ∖ {[ t ]})) ;;
     v ← gets (pointer t);
     lift (assert_ (match v with Some _ => true | None => false end)) ;;
     modify (fun s => mkSingleton (delete t (t_value_ s)) (specific s))).
End singleton.
Arguments Singleton : clear implicits.
End ThreadLocalSingleton.

(** ** One list per thread *)

Module HighPerformance.
(** The functors posted to a loop: distributeMessage and send() on a copy. *)
Inductive functor := FDistribute (msg : bytes) | FSend (p : Z) (data : bytes).
(** A call of onMessage on its way through loops_. *)
Record Poster := mkPoster { p_it : iterator; p_msg : bytes }.

Record ChatServer := mkChat {
  conns : Table unit;
  local : ThreadLocalSingleton.Singleton (list Z);     (* LocalConnections *)
  mutex_ : option Z;
  loops_ : list Z;                                     (* a loop has its thread's name *)
  functors : gmap Z (list functor);                    (* by loop *)
  posters : gmap Z Poster                              (* by thread *)
}.
Definition ChatServer_ctor : ChatServer := mkChat ∅ ThreadLocalSingleton.Singleton_start None [] ∅ ∅.

Section setters.
Implicit Types s : ChatServer.
Definition set_conns t s := mkChat t (local s) (mutex_ s) (loops_ s) (functors s) (posters s).
Definition set_local l s := mkChat (conns s) l (mutex_ s) (loops_ s) (functors s) (posters s).
Definition set_mutex m s := mkChat (conns s) (local s) m (loops_ s) (functors s) (posters s).
Definition set_loops l s := mkChat (conns s) (local s) (mutex_ s) l (functors s) (posters s).
Definition set_functors f s := mkChat (conns s) (local s) (mutex_ s) (loops_ s) f (posters s).
Definition set_posters p s := mkChat (conns s) (local s) (mutex_ s) (loops_ s) (functors s) p.
End setters.

Section chat.
Context `{Build} (loop_of : Z -> Z).

Definition on_table {A} (m : ST (Table unit) A) : ST ChatServer A := zoom conns set_conns m.
Definition on_local {A} (m : ST (ThreadLocalSingleton.Singleton (list Z)) A) : ST ChatServer A :=
  zoom local set_local m.

Definition lock (t : Z) : ST ChatServer unit :=
  m ← gets mutex_;
  match m with None => modify (set_mutex (Some t)) | Some _ => fail OutOfFuel end.
Definition unlock : ST ChatServer unit := modify (set_mutex None).

Definition postFuntor (loop : Z) (f : functor) : ST ChatServer unit :=
  modify (fun s => set_functors (<[loop := default [] (functors s !! loop) ++ [f]]> (functors s)) s).
Definition codec_sendMessage (t p : Z) (message : bytes) : ST ChatServer unit :=
  buf ← lift (sendMessage message);
  send_from (@on_table) (fun p msg => postFuntor (loop_of p) (FSend p msg)) (bool_decide (loop_of p = t)) p buf.

Definition threadInit (loop : Z) : ST ChatServer unit :=
  v ← on_local (gets (ThreadLocalSingleton.pointer loop));
  lift (assert_ (bool_decide (v = None))) ;;
  _ ← on_local (ThreadLocalSingleton.instance [] loop);
  v ← on_local (gets (ThreadLocalSingleton.pointer loop));
  lift (assert_ (bool_decide (v <> None))) ;;
  lock loop ;;
  modify (fun s => set_loops (oinsert loop (loops_ s)).1 s) ;;
  unlock.

Definition onConnection (conn : Z) : ST ChatServer unit :=
  up ← on_table (isConnected conn);
  l ← on_local (ThreadLocalSingleton.instance [] (loop_of conn));
  on_local (modify (ThreadLocalSingleton.update (loop_of conn)
    (if (up : bool) then (oinsert conn l).1 else (oerase conn l).1))).

Definition distributeMessage (t : Z) (msg : bytes) : ST ChatServer unit :=
  l ← on_local (ThreadLocalSingleton.instance [] t);
  for_each (fun p => codec_sendMessage t p msg) l.

(** onMessage: the mutex is held while the functor is posted to each loop. *)
Definition onMessage_begin (t : Z) (msg : bytes) : ST ChatServer unit :=
  lock t ;;
  modify (fun s => set_posters (<[t := mkPoster None msg]> (posters s)) s).
Definition onMessage_turn (t : Z) : ST ChatServer unit :=
  ps ← gets posters;
  match ps !! t with
  | None => fail NullCall
  | Some q =>
      ls ← gets loops_;
      it ← lift (advance (p_it q) ls);
      match it with
      | Some loop =>
          postFuntor loop (FDistribute (p_msg q)) ;;
          modify (fun s => set_posters (<[t := mkPoster (Some loop) (p_msg q)]> (posters s)) s)
      | None => unlock ;; modify (fun s => set_posters (delete t (posters s)) s)
      end
  end.

(** The loop [t] runs the oldest functor posted to it. *)
Definition run_functor (t : Z) : ST ChatServer unit :=
  q ← gets functors;
  match default [] (q !! t) with
  | [] => mret tt
  | f :: rest =>
      modify (fun s => set_functors (<[t := rest]> (functors s)) s) ;;
      match f with
      | FDistribute msg => distributeMessage t msg
      | FSend p data => on_table (Session.send p data)
      end
  end.
End chat.

Inductive event :=
  | ThreadInit (loop : Z)
  | Established (p : Z) | Closed (p : Z) | ConnectionCallback (p : Z)
  | Message (t : Z) (msg : bytes) | Turn (t : Z) | Functor (t : Z).

Definition run_event `{Build} loop_of (ev : event) : ST ChatServer unit :=
  match ev with
  | ThreadInit loop => threadInit loop
  | Established p => on_table (established p)
  | Closed p => on_table (closed p)
  | ConnectionCallback p => onConnection loop_of p
  | Message t msg => onMessage_begin t msg
  | Turn t => onMessage_turn t
  | Functor t => run_functor loop_of t
  end.
End HighPerformance.

(** ** The client *)

Module Client.
(** [c_connection] is connection_; [posted] the send() functors of the client's loop. *)
Record ChatClient := mkClient { c_conns : Table unit; c_connection : option Z; c_posted : list (Z * bytes) }.

Section client.
Context `{Build}.

Definition on_table A (m : ST (Table unit) A) : ST ChatClient A :=
  zoom c_conns (fun t s => mkClient t (c_connection s) (c_posted s)) m.

Definition onConnection (conn : Z) : ST ChatClient unit :=
  up ← on_table _ (isConnected conn);
  modify (fun s => mkClient (c_conns s) (if (up : bool) then Some conn else None) (c_posted s)).
(** Called in the thread that reads the lines, which is not the loop's. *)
Definition sendMessage (msg : bytes) : ST ChatClient unit :=
  c ← gets c_connection;
  match c with
  | Some conn =>
      buf ← lift (Codec.sendMessage msg);
      send_from on_table
        (fun p data => modify (fun s => mkClient (c_conns s) (c_connection s) (c_posted s ++ [(p, data)])))
        false conn buf
  | None => mret tt
  end.
(** printf of a C string: up to the first NUL. *)
Definition onStringMessage (msg : bytes) : bytes :=
  cs "<<<" ++ take (find_char NUL msg) msg ++ [LF].
End client.
End Client.

(** ** Specification: who is owed which messages *)

Module LockedSpec.
Import Locked.

(** The connections that are up, and the messages due to each member. *)
Record room := mkRoom { up : gset Z; due : gmap Z (list bytes) }.
Definition spec_event (ev : event) (a : room) : room :=
  match ev with
  | Established p => mkRoom ({[ p ]} ∪ up a) (due a)
  | Closed p => mkRoom (up a ∖ {[ p ]}) (due a)
  | ConnectionCallback p =>
      mkRoom (up a)
        (if bool_decide (p ∈ up a) then <[p := default [] (due a !! p)]> (due a) else delete p (due a))
  | Message _ m => mkRoom (up a) ((fun ms => ms ++ [m]) <$> due a)
  | Turn _ | Posted _ => a
  end.

(** What can happen next: a connection is made once, a thread does one thing at a time, and
    a thread gets the mutex when it is free. *)
Definition allowed (ev : event) (s : ChatServer) : Prop :=
  match ev with
  | Established p => conns s !! p = None
  | Closed p => is_Some (conns s !! p)
  | ConnectionCallback p => is_Some (conns s !! p) /\ mutex_ s = None
  | Message t m => sendable m /\ readers s !! t = None /\ mutex_ s = None
  | Turn t => is_Some (readers s !! t)
  | Posted _ => True
  end.

Section rel.
Context `{Build} (loop_of : Z -> Z) (alloc : gset Z -> Z) (cow : bool).

Fixpoint allowed_all (evs : list event) (s : ChatServer) : Prop :=
  match evs with
  | [] => True
  | ev :: evs' => allowed ev s /\
      forall s', run_event loop_of alloc cow ev s = Ok (tt, s') -> allowed_all evs' s'
  end.

(** The elements a loop has still to visit. *)
Definition remaining (it : iterator) (l : list Z) : list Z :=
  match it with None => l | Some x => tail (osplit x l).2 end.
(** An iterator that no erase has invalidated. *)
Definition valid (it : iterator) (l : list Z) : Prop :=
  match it with Some x => x ∈ l | None => True end.
(** The messages that threads on their way through the list have still to send to [p]. *)
Definition reader_todo (ls : gmap Z ConnectionList) (p : Z) (r : Reader) : list bytes :=
  match ls !! r_list r with
  | Some l => if bool_decide (p ∈ remaining (r_it r) (members l)) then [r_msg r] else []
  | None => []
  end.
Definition todo (ls : gmap Z ConnectionList) (rs : gmap Z Reader) (p : Z) : list bytes :=
  concat ((fun e => reader_todo ls p e.2) <$> map_to_list rs).
(** What is posted to [p]'s loop for [p]. *)
Definition to_post (q : gmap Z (list (Z * bytes))) (p : Z) : list bytes :=
  (filter (fun e => e.1 = p) (default [] (q !! loop_of p))).*2.

Definition nreaders (rs : gmap Z Reader) (q : Z) : Z :=
  Z.of_nat (base.size (filter (fun e => r_list e.2 = q) rs)).
Definition owners (s : ChatServer) (q : Z) : Z :=
  (if bool_decide (connections_ s = q) then 1 else 0) + nreaders (readers s) q.

Definition list_ok (t : Table unit) (l : ConnectionList) : Prop :=
  osorted (members l) /\ forall p, p ∈ members l -> is_Some (t !! p).

Record heap_ok (s : ChatServer) : Prop := {
  h_lists q l : lists s !! q = Some l -> list_ok (conns s) l;
  h_current : is_Some (lists s !! connections_ s);
  h_reader t r : readers s !! t = Some r ->
    sendable (r_msg r) /\ exists l, lists s !! r_list r = Some l /\ valid (r_it r) (members l);
  h_posted t e : e ∈ default [] (posted s !! t) -> loop_of e.1 = t /\ is_Some (conns s !! e.1);
  h_counts : cow = true -> forall q l, lists s !! q = Some l -> use_count l = owners s q
}.

(** With one mutex, whoever is in its loop holds it. *)
Definition lock_ok (s : ChatServer) : Prop :=
  if cow then mutex_ s = None
  else forall t r, readers s !! t = Some r -> r_list r = connections_ s /\ mutex_ s = Some t.

(** A connection that is up has been sent, or is going to be, each message due once. *)
Definition delivered (s : ChatServer) (ms : list bytes) (p : Z) (c : Session unit) : Prop :=
  exists got wait, s_out c = frames got /\ to_post (posted s) p = frame <$> wait
    /\ got ++ wait ++ todo (lists s) (readers s) p ≡ₚ ms.

Record rooms (s : ChatServer) (a : room) : Prop := {
  c_heap : heap_ok s;
  c_up p : p ∈ up a <-> exists c, conns s !! p = Some c /\ s_state c = kConnected;
  c_members l p : lists s !! connections_ s = Some l -> p ∈ members l <-> is_Some (due a !! p);
  c_due p c : conns s !! p = Some c -> s_state c = kConnected -> delivered s (default [] (due a !! p)) p c
}.
Definition chat_rel (s : ChatServer) (a : room) : Prop := rooms s a /\ lock_ok s.
End rel.
End LockedSpec.

(** ** Iterating over a set *)

Section iteration.
Import LockedSpec.
Implicit Types (l rest : list Z) (it : iterator).

Lemma remaining_suffix it l :
  osorted l -> valid it l -> exists l1, l = l1 ++ remaining it l.
Proof.
  intros Hs Hv. destruct it as [x|]; [|by exists []].
  apply list_elem_of_split in Hv as (l1 & l2 & ->). exists (l1 ++ [x]).
  cbn. rewrite (osplit_cut l1 x l2 Hs). cbn. by rewrite <- (assoc_L (++)).
Qed.

Lemma advance_head it l :
  osorted l -> valid it l -> advance it l = Ok (head (remaining it l)).
Proof.
  intros Hs Hv. destruct it as [x|]; [|done].
  apply list_elem_of_split in Hv as (l1 & l2 & ->). unfold advance. cbn.
  rewrite (osplit_cut l1 x l2 Hs). cbn. by rewrite Z.eqb_refl.
Qed.

Lemma remaining_next it l y rest :
  osorted l -> valid it l -> remaining it l = y :: rest ->
  y ∈ l /\ remaining (Some y) l = rest /\ y ∉ rest.
Proof.
  intros Hs Hv E. destruct (remaining_suffix it l Hs Hv) as [l1 El]. rewrite E in El.
  rewrite El in Hs |- *. split; [set_solver|]. split.
  - cbn. by rewrite (osplit_cut l1 y rest Hs).
  - intros Hy. pose proof (osorted_before _ _ _ _ Hs Hy) as Hlt. by rewrite ltb_irrefl in Hlt.
Qed.
End iteration.

Section locked_proofs.
Import Locked LockedSpec.
Implicit Types (s : ChatServer) (ls : gmap Z ConnectionList) (rs : gmap Z Reader) (p q t : Z).

(** ** What the readers hold *)

Lemma nreaders_insert rs t r q :
  rs !! t = None ->
  nreaders (<[t := r]> rs) q = nreaders rs q + (if bool_decide (r_list r = q) then 1 else 0).
Proof.
  intros Ht. unfold nreaders. destruct (bool_decide_reflect (r_list r = q)) as [Hq|Hq].
  - rewrite map_filter_insert_True by done. rewrite map_size_insert_None; [lia|].
    apply map_lookup_filter_None. by left.
  - rewrite map_filter_insert_False by done. rewrite delete_id by done. lia.
Qed.

Lemma nreaders_delete rs t r q :
  rs !! t = Some r ->
  nreaders rs q = nreaders (delete t rs) q + (if bool_decide (r_list r = q) then 1 else 0).
Proof.
  intros Ht. rewrite <- (nreaders_insert (delete t rs) t r) by apply lookup_delete_eq. by rewrite insert_delete_id.
Qed.

Lemma nreaders_move rs t r r' q :
  rs !! t = Some r -> r_list r' = r_list r -> nreaders (<[t := r']> rs) q = nreaders rs q.
Proof.
  intros Ht E. rewrite (nreaders_delete rs t r) by done.
  rewrite <- insert_delete_eq, nreaders_insert by apply lookup_delete_eq. by rewrite E.
Qed.

Lemma nreaders_none rs q : nreaders rs q = 0 -> forall t r, rs !! t = Some r -> r_list r <> q.
Proof.
  intros E t r Ht Hq. rewrite (nreaders_delete rs t r q Ht) in E.
  rewrite bool_decide_eq_true_2 in E by done. unfold nreaders in E. lia.
Qed.

Lemma todo_insert ls rs t r p :
  rs !! t = None -> todo ls (<[t := r]> rs) p ≡ₚ reader_todo ls p r ++ todo ls rs p.
Proof. intros Ht. unfold todo. by rewrite map_to_list_insert. Qed.

Lemma todo_delete ls rs t r p :
  rs !! t = Some r -> todo ls rs p ≡ₚ reader_todo ls p r ++ todo ls (delete t rs) p.
Proof. intros Ht. rewrite <- (todo_insert ls (delete t rs) t r) by apply lookup_delete_eq. by rewrite insert_delete_id. Qed.

Lemma todo_move ls rs t r' p :
  todo ls (<[t := r']> rs) p ≡ₚ reader_todo ls p r' ++ todo ls (delete t rs) p.
Proof. rewrite <- insert_delete_eq. apply todo_insert, lookup_delete_eq. Qed.

Lemma todo_ext ls ls' rs p :
  (forall t r, rs !! t = Some r -> reader_todo ls p r = reader_todo ls' p r) ->
  todo ls rs p = todo ls' rs p.
Proof.
  intros Hr. unfold todo. f_equal. apply list_fmap_ext. intros i [t r] Hi. cbn.
  apply (Hr t). apply elem_of_map_to_list. by eapply list_elem_of_lookup_2.
Qed.

Lemma todo_nil ls rs p :
  (forall t r, rs !! t = Some r -> reader_todo ls p r = []) -> todo ls rs p = [].
Proof.
  intros Hr. unfold todo.
  assert (forall e, e ∈ map_to_list rs -> reader_todo ls p e.2 = []) as Hl.
  { intros [t r] He. apply elem_of_map_to_list in He. by apply (Hr t). }
  induction (map_to_list rs) as [|e l IH]; [done|]. cbn. rewrite Hl, IH by set_solver. done.
Qed.

(** Every object is still there, with the same elements. *)
Definition extends ls ls' : Prop :=
  forall q l, ls !! q = Some l -> exists l', ls' !! q = Some l' /\ members l' = members l.

Lemma reader_todo_extends ls ls' p r l :
  ls !! r_list r = Some l -> extends ls ls' -> reader_todo ls' p r = reader_todo ls p r.
Proof.
  intros El Hx. destruct (Hx _ _ El) as (l' & El' & Em). unfold reader_todo. by rewrite El, El', Em.
Qed.

Context (loop_of : Z -> Z).

Lemma todo_extends cow s ls' p :
  heap_ok loop_of cow s -> extends (lists s) ls' ->
  todo ls' (readers s) p = todo (lists s) (readers s) p.
Proof.
  intros Hh Hx. apply todo_ext. intros t r Hr.
  destruct (h_reader _ _ _ Hh t r Hr) as (_ & l & El & _). by eapply reader_todo_extends.
Qed.

(** What a step need not touch. *)
Lemma heap_ok_conns cow s tb :
  (forall p, is_Some (conns s !! p) -> is_Some (tb !! p)) ->
  heap_ok loop_of cow s -> heap_ok loop_of cow (set_conns tb s).
Proof.
  intros Ht [H1 H2 H3 H4 H5]. split; try done; cbn.
  - intros q l El. destruct (H1 q l El) as [Hs Hm]. split; [done|]. intros p Hp. by apply Ht, Hm.
  - intros t e He. destruct (H4 t e He). auto.
Qed.

Lemma rooms_mutex cow m s a : rooms loop_of cow (set_mutex m s) a <-> rooms loop_of cow s a.
Proof. split; intros [ [H1 H2 H3 H4 H5] H6 H7 H8]; (split; [split|..]); done. Qed.
End locked_proofs.

Section locked_start.
Import Locked LockedSpec.
Lemma locked_start loop_of cow q : chat_rel loop_of cow (ChatServer_ctor q) (mkRoom ∅ ∅).
Proof.
  unfold ChatServer_ctor. split; [split; [split|..]|]; cbn.
  - intros x l. intros [_ <-]%lookup_singleton_Some. split; cbn; [constructor|set_solver].
  - rewrite lookup_singleton_eq. by eexists.
  - set_solver.
  - set_solver.
  - intros _ x l [<- <-]%lookup_singleton_Some. unfold owners. cbn. by rewrite bool_decide_eq_true_2.
  - set_solver.
  - intros l p. rewrite lookup_singleton_eq. intros [= <-]. cbn. split; [set_solver|by intros [? ?] ].
  - set_solver.
  - unfold lock_ok. by destruct cow.
Qed.
End locked_start.

(** ** The events *)

Section locked_events.
Import Locked LockedSpec.
Context `{Build} (loop_of : Z -> Z) (alloc : gset Z -> Z) (cow : bool).
Hypothesis alloc_fresh : forall X, alloc X ∉ X.
Implicit Types (s : ChatServer) (a : room).
Local Abbreviation step ev := (run_event loop_of alloc cow ev).
Local Abbreviation rooms := (rooms loop_of cow).
Local Abbreviation rel := (chat_rel loop_of cow).
Local Abbreviation heap_ok := (heap_ok loop_of cow).

Lemma set_conns_id s : set_conns (conns s) s = s.
Proof. by destruct s. Qed.

(** The table changes for one connection. *)
Lemma rooms_insert s a p c' (u : gset Z) :
  (is_Some (conns s !! p) \/ s_out c' = []) ->
  rooms s a -> (forall q, q <> p -> q ∈ u <-> q ∈ up a) -> (p ∈ u <-> s_state c' = kConnected) ->
  (s_state c' = kConnected -> delivered loop_of s (default [] (due a !! p)) p c') ->
  rooms (set_conns (<[p := c']> (conns s)) s) (mkRoom u (due a)).
Proof.
  intros Hp [Hh Hu Hm Hd] Hq Hpu Hdel. split; cbn.
  - apply heap_ok_conns; [|done]. intros q [c Eq]. destruct (decide (q = p)) as [->|Hne].
    + rewrite lookup_insert_eq. by eexists.
    + rewrite lookup_insert_ne by done. by eexists.
  - intros q. destruct (decide (q = p)) as [->|Hne].
    + rewrite lookup_insert_eq, Hpu. naive_solver.
    + rewrite lookup_insert_ne, Hq by done. apply Hu.
  - apply Hm.
  - intros q c. destruct (decide (q = p)) as [->|Hne].
    + rewrite lookup_insert_eq. intros [= <-]. apply Hdel.
    + rewrite lookup_insert_ne by done. apply Hd.
Qed.

(** A connection nobody knows yet. *)
Lemma fresh_delivered s a p c' :
  rooms s a -> conns s !! p = None -> s_out c' = [] ->
  delivered loop_of s (default [] (due a !! p)) p c'.
Proof.
  intros [Hh Hu Hm Hd] Hp Ho.
  assert (forall q l, lists s !! q = Some l -> p ∉ members l) as Hno.
  { intros q l El Hin. destruct (h_lists _ _ _ Hh q l El) as [_ Hk].
    specialize (Hk p Hin) as [c Ec]. congruence. }
  exists [], []. split; [done|]. split.
  - unfold to_post. cbn. assert (filter (fun e : Z * bytes => e.1 = p) (default [] (posted s !! loop_of p)) = []) as ->; [|done].
    destruct (filter _ _) as [|e l] eqn:E; [done|]. exfalso.
    assert (e ∈ e :: l) as He by set_solver. rewrite <- E in He. apply list_elem_of_filter in He as [Ee He].
    destruct (h_posted _ _ _ Hh _ _ He) as [_ [c Ec] ]. congruence.
  - cbn. rewrite todo_nil.
    + destruct (due a !! p) as [ms|] eqn:E; [|done]. exfalso.
      destruct (h_current _ _ _ Hh) as [l El]. apply (Hno _ _ El), (Hm _ _ El). by eexists.
    + intros t r Hr. destruct (h_reader _ _ _ Hh t r Hr) as (_ & l & El & Hv).
      unfold reader_todo. rewrite El, bool_decide_eq_false_2; [done|]. intros Hin.
      apply (Hno _ _ El). destruct (h_lists _ _ _ Hh _ _ El) as [Hs _].
      destruct (remaining_suffix (r_it r) (members l) Hs Hv) as [l1 ->]. set_solver.
Qed.

Lemma locked_Established p s a :
  rel s a -> conns s !! p = None -> wp (step (Established p)) s (fun _ s' => rel s' (spec_event (Established p) a)).
Proof.
  intros [Hr Hl] Hp. cbn [run_event]. unfold on_table. wp_step.
  eapply (wp_Ok _ _ tt); [unfold established; by rewrite Hp|]. split; [|done].
  apply rooms_insert; [by right|done|set_solver|cbn; set_solver|]. intros _. by apply fresh_delivered.
Qed.

Lemma locked_Closed p s a :
  rel s a -> is_Some (conns s !! p) -> wp (step (Closed p)) s (fun _ s' => rel s' (spec_event (Closed p) a)).
Proof.
  intros [Hr Hl] [c Ec]. cbn [run_event]. unfold on_table. wp_step. unfold closed.
  apply (wp_on_conn p c); [done|]. split; [|done].
  apply rooms_insert; [left; by eexists|done|set_solver|cbn; set_solver|done].
Qed.

Lemma wp_lock t s Q : mutex_ s = None -> Q tt (set_mutex (Some t) s) -> wp (lock t) s Q.
Proof. intros E HQ. unfold lock. wp_step. wp_step. rewrite E. by wp_step. Qed.

Lemma wp_list_at q l s Q : lists s !! q = Some l -> Q l s -> wp (list_at q) s Q.
Proof. intros E HQ. apply (wp_Ok _ _ l s); [|done]. unfold list_at. by rewrite E. Qed.

Lemma wp_release q l s Q :
  lists s !! q = Some l ->
  Q tt (set_lists (if use_count l =? 1 then delete q (lists s)
                   else <[q := mkList (members l) (use_count l - 1)]> (lists s)) s) ->
  wp (release q) s Q.
Proof.
  intros E HQ. unfold release. wp_step. apply (wp_list_at q l); [done|].
  destruct (use_count l =? 1); by wp_step.
Qed.

(** Nobody is on the way through the list in use. *)
Definition quiet s : Prop := forall t r, readers s !! t = Some r -> r_list r <> connections_ s.

Lemma quiet_count s l :
  cow = true -> heap_ok s -> lists s !! connections_ s = Some l -> use_count l = 1 -> quiet s.
Proof.
  intros Hc Hh El Hu. rewrite (h_counts _ _ _ Hh Hc _ _ El) in Hu. unfold owners in Hu.
  rewrite bool_decide_eq_true_2 in Hu by done. assert (nreaders (readers s) (connections_ s) = 0) as E0 by lia.
  intros t r. by apply nreaders_none.
Qed.

Lemma wp_copy_list s a l :
  cow = true -> rooms s a -> lists s !! connections_ s = Some l -> use_count l <> 1 ->
  wp (copy_list alloc) s (fun _ s' => rooms s' a /\ mutex_ s' = mutex_ s /\ conns s' = conns s
    /\ exists l', lists s' !! connections_ s' = Some l' /\ use_count l' = 1).
Proof.
  intros Hcow [Hh Hu Hm Hd] El Hne. unfold copy_list. wp_step. wp_step. wp_step.
  apply (wp_list_at _ l); [done|]. wp_step. wp_step. set (p := connections_ s) in *.
  pose proof (alloc_fresh (dom (lists s))) as Hq. set (q := alloc _) in *. apply not_elem_of_dom in Hq.
  assert (q <> p) as Hqp by congruence.
  apply (wp_release p l); [cbn; by rewrite lookup_insert_ne|].
  rewrite (proj2 (Z.eqb_neq _ _)) by done. set (ls' := <[p := _]> _).
  assert (extends (lists s) ls') as Hx.
  { intros x lx Ex. unfold ls'. cbn. destruct (decide (x = p)) as [->|].
    - rewrite lookup_insert_eq. eexists. split; [done|]. cbn. congruence.
    - rewrite !lookup_insert_ne by congruence. by eexists. }
  split_and!; [split|done|done|]; cbn.
  - destruct Hh as [H1 H2 H3 H4 H5]. split; cbn; try done.
    + intros x lx Ex. unfold ls' in Ex. cbn in Ex.
      apply lookup_insert_Some in Ex as [ [-> <-]|[_ Ex] ]; [exact (H1 _ _ El)|].
      apply lookup_insert_Some in Ex as [ [<- <-]|[_ Ex] ]; [exact (H1 _ _ El)|by eapply H1].
    + unfold ls'. cbn. rewrite lookup_insert_ne, lookup_insert_eq by done. by eexists.
    + intros t r Hr. destruct (H3 t r Hr) as (Hs & lr & Er & Hv). split; [done|].
      destruct (Hx _ _ Er) as (l' & El' & Em). exists l'. by rewrite Em.
    + intros _ x lx Ex. unfold ls' in Ex. cbn in Ex. unfold owners. cbn.
      specialize (H5 Hcow). unfold owners in H5. fold p in H5.
      apply lookup_insert_Some in Ex as [ [<- <-]|[Hxp Ex] ].
      { cbn. rewrite (H5 _ _ El), bool_decide_eq_true_2, bool_decide_eq_false_2 by done. lia. }
      apply lookup_insert_Some in Ex as [ [<- <-]|[Hxq Ex] ].
      { cbn. rewrite bool_decide_eq_true_2 by done.
        assert (nreaders (readers s) q = 0) as ->; [|done]. unfold nreaders.
        rewrite (proj2 (map_size_empty_iff _)); [done|]. apply map_empty. intros t.
        apply map_lookup_filter_None. right. intros r Hr. cbn. intros Er.
        destruct (H3 t r Hr) as (_ & lr & Elr & _). congruence. }
      rewrite (H5 _ _ Ex), !bool_decide_eq_false_2 by done. done.
  - apply Hu.
  - intros lq x. unfold ls'. cbn. rewrite lookup_insert_ne, lookup_insert_eq by done.
    intros [= <-]. exact (Hm l x El).
  - intros x c Ex Hc. destruct (Hd x c Ex Hc) as (got & wait & H1 & H2 & H3).
    exists got, wait. split_and!; [done|done|]. cbn. by rewrite (todo_extends loop_of cow s ls').
  - eexists. unfold ls'. cbn. rewrite lookup_insert_ne, lookup_insert_eq by done. by split.
Qed.
(** The list in use gets other elements while nobody reads it. *)
Lemma rooms_put_members s u d d' l m :
  rooms s (mkRoom u d) -> quiet s -> lists s !! connections_ s = Some l ->
  osorted m -> (forall p, p ∈ m -> is_Some (conns s !! p)) ->
  (forall p, p ∈ m <-> is_Some (d' !! p)) ->
  (forall p, p ∈ u -> default [] (d' !! p) = default [] (d !! p)) ->
  rooms (set_lists (<[connections_ s := mkList m (use_count l)]> (lists s)) s) (mkRoom u d').
Proof.
  intros [Hh Hu Hm Hd] Hq El Hs Hk Hd' Hsame. cbn [up due] in *.
  set (ls' := <[_ := _]> _).
  assert (forall t r, readers s !! t = Some r -> ls' !! r_list r = lists s !! r_list r) as Hr'.
  { intros t r Hr. unfold ls'. rewrite lookup_insert_ne; [done|]. intros E. by eapply Hq. }
  split; cbn.
  - destruct Hh as [H1 H2 H3 H4 H5]. split; cbn; try done.
    + intros q lq Eq. apply lookup_insert_Some in Eq as [ [<- <-]|[_ Eq] ]; [done|by eapply H1].
    + unfold ls'. rewrite lookup_insert_eq. by eexists.
    + intros t r Hr. destruct (H3 t r Hr) as (Hsm & lr & Er & Hv). split; [done|].
      exists lr. by rewrite (Hr' t r).
    + intros Hc q lq Eq. unfold owners in *. cbn.
      apply lookup_insert_Some in Eq as [ [<- <-]|[_ Eq] ]; [exact (H5 Hc _ _ El)|exact (H5 Hc _ _ Eq)].
  - apply Hu.
  - intros lq x. unfold ls'. rewrite lookup_insert_eq. intros [= <-]. apply Hd'.
  - intros p c Ec Hc. destruct (Hd p c Ec Hc) as (got & wait & H1 & H2 & H3).
    exists got, wait. split_and!; [done|done|]. cbn.
    rewrite (todo_ext ls' (lists s)).
    + rewrite Hsame by (apply Hu; by eexists). done.
    + intros t r Hr. unfold reader_todo. by rewrite (Hr' t r).
Qed.

(** A writer has the list to itself. *)
Lemma wp_own_list s a :
  rooms s a -> (cow = false -> quiet s) ->
  wp (when cow (u ← unique; when (negb u) (copy_list alloc) ;; u ← unique; lift (assert_ u))) s
    (fun _ s' => rooms s' a /\ quiet s' /\ conns s' = conns s /\ (cow = false -> s' = s)).
Proof using alloc_fresh.
  intros Hr Hq. wp_step; [|by auto]. destruct (h_current _ _ _ (c_heap _ _ _ _ Hr)) as [l El].
  wp_step. unfold unique. wp_step. wp_step. wp_step. apply (wp_list_at _ l); [done|]. wp_step.
  wp_step. wp_step.
  - eapply wp_mono; [by apply (wp_copy_list s a l); [..|zify_bool]|].
    intros _ s' (Hr' & Hm & Hc & l' & El' & Hu). wp_step. wp_step. wp_step. wp_step.
    apply (wp_list_at _ l'); [done|]. wp_step. rewrite Hu. wp_step; [done|].
    split_and!; [done| |done|congruence]. by eapply quiet_count; [|apply Hr'|..].
  - zify_bool. wp_step. wp_step. wp_step. wp_step. apply (wp_list_at _ l); [done|]. wp_step.
    wp_step; [by apply Z.eqb_eq|]. split_and!; [done| |done|congruence]. by eapply quiet_count; [|apply Hr|..].
Qed.

Lemma locked_ConnectionCallback p s a :
  rel s a -> is_Some (conns s !! p) -> mutex_ s = None ->
  wp (step (ConnectionCallback p)) s (fun _ s' => rel s' (spec_event (ConnectionCallback p) a)).
Proof using alloc_fresh.
  intros [Hr Hl] [c Ec] Hm. cbn [run_event]. unfold onConnection. wp_step. apply wp_lock; [done|].
  wp_step. eapply wp_mono.
  { apply (wp_own_list _ a); [by apply rooms_mutex|]. intros Hc t r Hr'. unfold lock_ok in Hl.
    rewrite Hc in Hl. destruct (Hl t r Hr'). congruence. }
  intros _ s1 (Hr1 & Hq1 & Hc1 & Hs1). cbn in Hc1. wp_step. unfold on_table. wp_step.
  apply (wp_isConnected p c); [congruence|]. rewrite set_conns_id. wp_step. wp_step.
  destruct (h_current _ _ _ (c_heap _ _ _ _ Hr1)) as [l El].
  wp_step. apply (wp_list_at _ l); [done|]. unfold put_members. wp_step. wp_step.
  apply (wp_list_at _ l); [done|]. wp_step. unfold unlock. wp_step. split.
  2:{ unfold lock_ok in *. cbn. destruct cow; [done|]. intros t r. rewrite Hs1 by done.
      intros Hr'. destruct (Hl t r Hr'). congruence. }
  apply rooms_mutex. destruct (h_lists _ _ _ (c_heap _ _ _ _ Hr1) _ _ El) as [Hs Hk].
  pose proof (c_members _ _ _ _ Hr1 l) as Hmem. destruct a as [u d]. cbn [up due] in *.
  assert (p ∈ u <-> sess_connected c = true) as Hup.
  { rewrite (c_up _ _ _ _ Hr1 p), Hc1, Ec. unfold sess_connected. rewrite bool_decide_eq_true. naive_solver. }
  cbn [spec_event up due]. eapply rooms_put_members; [exact Hr1|done|done|..].
  - destruct (sess_connected c); [by apply oinsert_sorted|by apply oerase_sorted].
  - intros x. destruct (sess_connected c); rewrite ?oinsert_elem, ?oerase_elem by done.
    + intros [->|Hx]; [rewrite Hc1; by eexists|by apply Hk].
    + intros [_ Hx]. by apply Hk.
  - intros x. destruct (sess_connected c).
    + rewrite oinsert_elem, bool_decide_eq_true_2, Hmem by (done || by apply Hup).
      destruct (decide (x = p)) as [->|Hne]; [rewrite lookup_insert_eq; naive_solver|].
      rewrite lookup_insert_ne by done. naive_solver.
    + rewrite oerase_elem, bool_decide_eq_false_2, Hmem by (done || by (rewrite Hup)).
      destruct (decide (x = p)) as [->|Hne]; [rewrite lookup_delete_eq|rewrite lookup_delete_ne by done].
      * split; [naive_solver|]. by intros [? ?].
      * naive_solver.
  - intros x Hx. case_bool_decide as Hpu.
    + destruct (decide (x = p)) as [->|Hne]; [by rewrite lookup_insert_eq|by rewrite lookup_insert_ne].
    + by rewrite lookup_delete_ne by congruence.
Qed.
(** A thread starts on its way through the list in use. *)
Lemma rooms_new_reader s a t m l k :
  rooms s a -> readers s !! t = None -> sendable m -> lists s !! connections_ s = Some l ->
  k = use_count l + 1 ->
  rooms (set_readers (<[t := mkReader (connections_ s) None m]> (readers s))
          (set_lists (if cow then <[connections_ s := mkList (members l) k]> (lists s) else lists s) s))
        (mkRoom (up a) ((fun ms => ms ++ [m]) <$> due a)).
Proof.
  intros [Hh Hu Hm Hd] Ht Hsm El ->. set (ls' := if cow then _ else _).
  assert (extends (lists s) ls') as Hx.
  { intros q lq Eq. unfold ls'. destruct cow; [|by eexists].
    destruct (decide (q = connections_ s)) as [->|]; [rewrite lookup_insert_eq|by rewrite lookup_insert_ne; [eexists|]].
    eexists. split; [done|]. cbn. congruence. }
  assert (exists k, ls' !! connections_ s = Some (mkList (members l) k)) as [k Ek].
  { unfold ls'. destruct cow; [rewrite lookup_insert_eq; by eexists|]. exists (use_count l). by destruct l. }
  split; cbn.
  - pose proof Hh as [H1 H2 H3 H4 H5]. split; cbn; try done.
    + intros q lq Eq. unfold ls' in Eq. destruct cow; [|by eapply H1].
      apply lookup_insert_Some in Eq as [ [<- <-]|[_ Eq] ]; [exact (H1 _ _ El)|by eapply H1].
    + intros t' r Hr. apply lookup_insert_Some in Hr as [ [<- <-]|[_ Hr] ].
      * split; [done|]. eexists. by split.
      * destruct (H3 t' r Hr) as (Hs & lr & Er & Hv). split; [done|].
        destruct (Hx _ _ Er) as (l' & El' & Em). exists l'. by rewrite Em.
    + intros Hc q lq Eq. unfold ls' in Eq. rewrite Hc in Eq. unfold owners in *. cbn.
      rewrite nreaders_insert by done. cbn.
      apply lookup_insert_Some in Eq as [ [<- <-]|[Hne Eq] ].
      * cbn. rewrite (H5 Hc _ _ El). rewrite bool_decide_eq_true_2 by done. lia.
      * rewrite (H5 Hc _ _ Eq), (bool_decide_eq_false_2 _ Hne). lia.
  - apply Hu.
  - intros lq x. rewrite Ek. intros [= <-]. cbn. rewrite lookup_fmap, fmap_is_Some. exact (Hm l x El).
  - intros p c Ec Hc. destruct (Hd p c Ec Hc) as (got & wait & H1 & H2 & H3).
    exists got, wait. split_and!; [done|done|]. cbn. rewrite todo_insert by done.
    rewrite (todo_extends loop_of cow s ls') by done. unfold reader_todo. cbn. rewrite Ek. cbn.
    rewrite lookup_fmap. pose proof (Hm l p El) as Hp.
    destruct (due a !! p) as [ms|]; cbn in *.
    + rewrite bool_decide_eq_true_2 by (apply Hp; by eexists). rewrite <- H3. solve_Permutation.
    + rewrite bool_decide_eq_false_2; [done|]. by intros [? ?]%Hp.
Qed.

Lemma locked_Message t m s a :
  rel s a -> sendable m -> readers s !! t = None -> mutex_ s = None ->
  wp (step (Message t m)) s (fun _ s' => rel s' (spec_event (Message t m) a)).
Proof.
  intros [Hr Hl] Hsm Ht Hm. cbn [run_event]. unfold onMessage_begin. wp_step.
  apply wp_lock; [done|]. wp_step. wp_step.
  destruct (h_current _ _ _ (c_heap _ _ _ _ Hr)) as [l El].
  pose proof (rooms_new_reader s a t m l _ Hr Ht Hsm El eq_refl) as Hr'. unfold lock_ok in Hl.
  wp_step. destruct cow eqn:Ec; cbn [when].
  - wp_step. unfold acquire. wp_step. apply (wp_list_at _ l); [done|]. wp_step.
    unfold unlock. wp_step. wp_step. split; [|done].
    apply (rooms_mutex _ _ None) in Hr'. exact Hr'.
  - wp_step. wp_step. split.
    + apply (rooms_mutex _ _ (Some t)) in Hr'. by destruct s.
    + unfold lock_ok. cbn. intros t' r Hr2.
      apply lookup_insert_Some in Hr2 as [ [<- <-]|[_ Hr2] ]; [done|].
      destruct (Hl t' r Hr2). congruence.
Qed.
(** What sending [m] to [p] in the thread [t] changes. *)
Definition after_send (t p : Z) (m : bytes) (c : Session unit) s : ChatServer :=
  if sess_connected c then
    if bool_decide (loop_of p = t) then set_conns (<[p := sess_send (frame m) c]> (conns s)) s
    else set_posted (<[loop_of p := default [] (posted s !! loop_of p) ++ [(p, frame m)]]> (posted s)) s
  else s.

Lemma wp_codec_send t p m c s (Q : unit -> ChatServer -> Prop) :
  sendable m -> conns s !! p = Some c -> Q tt (after_send t p m c s) ->
  wp (codec_sendMessage loop_of t p m) s Q.
Proof.
  intros Hm Ec HQ. destruct (sendMessage_ok m Hm) as (b & Eb & Hb & Hc).
  unfold codec_sendMessage. wp_step. apply (wp_lift _ b); [done|]. unfold send_from, post. wp_step.
  unfold on_table. wp_step. apply (wp_isConnected p c); [done|]. rewrite set_conns_id.
  unfold after_send in HQ. destruct (sess_connected c) eqn:E; cbn [when]; [|by wp_step].
  case_bool_decide.
  - wp_step. wp_step. apply (wp_send_buf p c); [done|]. wp_step. by rewrite Hc.
  - wp_step. destruct (retrieveAsString_wf b (readableBytes b)) as (b' & E' & _).
    { done. }
    { rewrite readableBytes_wf by done. pose proof (zlen_nonneg (contents b)). lia. }
    apply (wp_lift _ (contents b, b')).
    + unfold retrieveAllAsString. rewrite E', readableBytes_wf by done. do 2 f_equal.
      unfold zlen. rewrite Nat2Z.id. by apply take_ge.
    + wp_step. by rewrite Hc.
Qed.

Lemma frames_snoc ms m : frames (ms ++ [m]) = frames ms ++ frame m.
Proof. unfold frames. rewrite fmap_app, join_app. cbn. by rewrite app_nil_r. Qed.

(** The reader of the thread [t] goes on from [r] to [p]. *)
Lemma todo_turn ls rs t r l p rest x :
  rs !! t = Some r -> ls !! r_list r = Some l -> osorted (members l) -> valid (r_it r) (members l) ->
  remaining (r_it r) (members l) = p :: rest ->
  todo ls rs x ≡ₚ (if bool_decide (x = p) then [r_msg r] else [])
                   ++ todo ls (<[t := mkReader (r_list r) (Some p) (r_msg r)]> rs) x.
Proof.
  intros Ht El Hs Hv E. destruct (remaining_next _ _ _ _ Hs Hv E) as (Hp & Hr & Hn).
  rewrite (todo_delete ls rs t r x Ht), todo_move, (assoc_L (++)). apply Permutation_app_tail.
  unfold reader_todo. cbn [r_list r_it r_msg]. rewrite El, E, Hr.
  destruct (decide (x = p)) as [->|Hne].
  - rewrite !bool_decide_eq_true_2, bool_decide_eq_false_2 by (done || set_solver). done.
  - rewrite (bool_decide_eq_false_2 (x = p)) by done. cbn [app].
    erewrite (bool_decide_ext (x ∈ p :: rest)); [done|]. set_solver.
Qed.

Lemma to_post_other (q : gmap Z (list (Z * bytes))) l t p data x :
  x <> p -> l = default [] (q !! t) ->
  to_post loop_of (<[t := l ++ [(p, data)]]> q) x = to_post loop_of q x.
Proof.
  intros Hne ->. unfold to_post. destruct (decide (loop_of x = t)) as [<-|Ht].
  - rewrite lookup_insert_eq. cbn. rewrite filter_app, filter_cons_False by done. by rewrite app_nil_r.
  - by rewrite lookup_insert_ne.
Qed.

Lemma to_post_snoc (q : gmap Z (list (Z * bytes))) p data :
  to_post loop_of (<[loop_of p := default [] (q !! loop_of p) ++ [(p, data)]]> q) p
  = to_post loop_of q p ++ [data].
Proof.
  unfold to_post. rewrite lookup_insert_eq. cbn.
  by rewrite filter_app, filter_cons_True, fmap_app by done.
Qed.

(** The sessions only grow their output. *)
Lemma after_send_conns t p m c s x c' :
  conns s !! p = Some c -> conns (after_send t p m c s) !! x = Some c' ->
  exists c0, conns s !! x = Some c0 /\ s_state c0 = s_state c'.
Proof.
  intros Ec. unfold after_send. destruct (sess_connected c) eqn:E; [|by eexists].
  case_bool_decide; [|by eexists]. cbn. intros [ [-> <-]|[_ Hx] ]%lookup_insert_Some; [|by eexists].
  exists c. split; [done|]. unfold sess_send. by rewrite E.
Qed.

Lemma after_send_same t p m c s :
  readers (after_send t p m c s) = readers s /\ lists (after_send t p m c s) = lists s
  /\ connections_ (after_send t p m c s) = connections_ s /\ mutex_ (after_send t p m c s) = mutex_ s.
Proof. unfold after_send. destruct (sess_connected c); [|done]. by case_bool_decide. Qed.

Lemma heap_ok_turn s t r l p c :
  heap_ok s -> readers s !! t = Some r -> lists s !! r_list r = Some l -> p ∈ members l ->
  conns s !! p = Some c ->
  heap_ok (set_readers (<[t := mkReader (r_list r) (Some p) (r_msg r)]> (readers s))
             (after_send t p (r_msg r) c s)).
Proof.
  intros Hh Ht El Hp Ec.
  assert (heap_ok (after_send t p (r_msg r) c s)) as [H1 H2 H3 H4 H5].
  { unfold after_send. destruct (sess_connected c); [|done]. case_bool_decide.
    - apply heap_ok_conns; [|done]. intros x Hx. destruct (decide (x = p)) as [->|];
        [rewrite lookup_insert_eq; by eexists|by rewrite lookup_insert_ne].
    - destruct Hh as [H1 H2 H3 H4 H5]. split; try done. intros t' e He. cbn in He.
      destruct (decide (t' = loop_of p)) as [->|]; [|rewrite lookup_insert_ne in He by done; by apply H4].
      rewrite lookup_insert_eq in He. cbn in He. apply elem_of_app in He as [He|He]; [by apply H4|].
      apply list_elem_of_singleton in He as ->. split; [done|]. by exists c. }
  destruct (after_send_same t p (r_msg r) c s) as (Er & Els & _).
  split; try done; cbn.
  - intros t' r' Hr. apply lookup_insert_Some in Hr as [ [<- <-]|[_ Hr] ]; cbn.
    + rewrite Els. split; [|by exists l]. by destruct (h_reader _ _ _ Hh _ _ Ht).
    + rewrite <- Er in Hr. by apply (H3 t').
  - intros Hc q lq Eq. rewrite (H5 Hc q lq Eq). unfold owners. cbn.
    by rewrite Er, (nreaders_move (readers s) t r).
Qed.
(** What the others are owed does not change, and [p] has one message less to wait for. *)
Lemma delivered_turn s t r l p rest c x c' ms :
  heap_ok s -> readers s !! t = Some r -> lists s !! r_list r = Some l ->
  remaining (r_it r) (members l) = p :: rest -> conns s !! p = Some c ->
  let s1 := after_send t p (r_msg r) c s in
  conns s1 !! x = Some c' -> s_state c' = kConnected ->
  (forall c0, conns s !! x = Some c0 -> s_state c0 = kConnected -> delivered loop_of s ms x c0) ->
  delivered loop_of (set_readers (<[t := mkReader (r_list r) (Some p) (r_msg r)]> (readers s)) s1) ms x c'.
Proof.
  intros Hh Ht El E Ec s1 Ex Hx Hd. destruct (h_lists _ _ _ Hh _ _ El) as [Hs _].
  destruct (h_reader _ _ _ Hh _ _ Ht) as (_ & l0 & El0 & Hv). assert (l0 = l) as -> by congruence.
  destruct (after_send_conns t p (r_msg r) c s x c' Ec Ex) as (c0 & Ex0 & Hst0).
  destruct (Hd c0 Ex0 ltac:(congruence)) as (got & wait & H1 & H2 & H3).
  rewrite (todo_turn (lists s) (readers s) t r l p rest x Ht El Hs Hv E) in H3.
  destruct (after_send_same t p (r_msg r) c s) as (_ & Els & _). fold s1 in Els.
  destruct (decide (x = p)) as [->|Hne].
  - rewrite bool_decide_eq_true_2 in H3 by done. assert (c0 = c) as -> by congruence.
    assert (sess_connected c = true) as Hc by (apply bool_decide_eq_true; congruence).
    unfold s1, after_send in Ex |- *. rewrite Hc in Ex |- *.
    destruct (bool_decide (loop_of p = t)).
    + cbn in Ex. rewrite lookup_insert_eq in Ex. injection Ex as <-.
      exists (got ++ [r_msg r]), wait. split_and!; cbn; [|done|].
      * unfold sess_send. rewrite Hc. cbn. by rewrite H1, frames_snoc.
      * rewrite <- H3. solve_Permutation.
    + cbn in Ex. assert (c' = c) as -> by congruence. exists got, (wait ++ [r_msg r]). split_and!; [done| |].
      * cbn. by rewrite to_post_snoc, H2, fmap_app.
      * cbn. rewrite <- H3. solve_Permutation.
  - rewrite bool_decide_eq_false_2 in H3 by done. cbn [app] in H3.
    exists got, wait. cbn. rewrite Els. split_and!; [|rewrite <- H2|done].
    + rewrite <- H1. unfold s1, after_send in Ex.
      destruct (sess_connected c); [destruct (bool_decide (loop_of p = t)); cbn in Ex;
        rewrite ?lookup_insert_ne in Ex by done|]; congruence.
    + unfold s1, after_send. destruct (sess_connected c); [|done].
      destruct (bool_decide (loop_of p = t)); [done|]. cbn. by rewrite to_post_other.
Qed.

Lemma rooms_turn s a t r l p rest c :
  rooms s a -> readers s !! t = Some r -> lists s !! r_list r = Some l ->
  remaining (r_it r) (members l) = p :: rest -> conns s !! p = Some c ->
  rooms (set_readers (<[t := mkReader (r_list r) (Some p) (r_msg r)]> (readers s))
           (after_send t p (r_msg r) c s)) a.
Proof.
  intros [Hh Hu Hm Hd] Ht El E Ec.
  destruct (h_lists _ _ _ Hh _ _ El) as [Hs _].
  destruct (h_reader _ _ _ Hh _ _ Ht) as (_ & l0 & El0 & Hv). assert (l0 = l) as -> by congruence.
  destruct (remaining_next _ _ _ _ Hs Hv E) as (Hp & _).
  split; [by eapply heap_ok_turn| | |].
  - intros x. rewrite Hu. cbn. unfold after_send. destruct (sess_connected c) eqn:Hc; [|done].
    case_bool_decide; [|done]. cbn. destruct (decide (x = p)) as [->|Hne].
    + rewrite lookup_insert_eq, Ec. unfold sess_send. rewrite Hc. naive_solver.
    + by rewrite lookup_insert_ne.
  - intros lq x. cbn. destruct (after_send_same t p (r_msg r) c s) as (_ & -> & -> & _). apply Hm.
  - intros x c' Ex Hx. cbn in Ex. eapply delivered_turn; try done. intros c0. apply Hd.
Qed.

(** A reader has come to the end. *)
Lemma rooms_end s a t r l :
  rooms s a -> readers s !! t = Some r -> lists s !! r_list r = Some l ->
  remaining (r_it r) (members l) = [] ->
  rooms (set_readers (delete t (readers s))
          (set_lists (if cow then
                        if use_count l =? 1 then delete (r_list r) (lists s)
                        else <[r_list r := mkList (members l) (use_count l - 1)]> (lists s)
                      else lists s) s)) a.
Proof.
  intros [Hh Hu Hm Hd] Ht El E. pose proof Hh as [H1 H2 H3 H4 H5]. set (ls' := if cow then _ else _).
  set (rs' := delete t (readers s)).
  assert (forall q, nreaders (readers s) q = nreaders rs' q + (if bool_decide (r_list r = q) then 1 else 0)) as Hn
    by (intros q; by apply nreaders_delete).
  assert (forall q lq, lists s !! q = Some lq -> q = connections_ s \/ nreaders rs' q <> 0 ->
            exists lq', ls' !! q = Some lq' /\ members lq' = members lq) as Hkeep.
  { intros q lq Eq Hq. unfold ls'. destruct cow eqn:Hc; [|by exists lq].
    destruct (decide (q = r_list r)) as [->|Hne].
    - assert (use_count l <> 1) as Huc.
      { rewrite (H5 eq_refl _ _ El). unfold owners. rewrite Hn, (bool_decide_eq_true_2 (r_list r = r_list r)) by done.
        pose proof (Nat2Z.is_nonneg (base.size (filter (fun e => r_list e.2 = r_list r) rs'))) as Hz.
        fold (nreaders rs' (r_list r)) in Hz. destruct Hq as [<-|Hq]; [rewrite bool_decide_eq_true_2 by done; lia|].
        case_bool_decide; lia. }
      rewrite (proj2 (Z.eqb_neq _ _)), lookup_insert_eq by done. eexists. split; [done|]. cbn. congruence.
    - exists lq. destruct (_ =? _); by rewrite ?lookup_delete_ne, ?lookup_insert_ne by done. }
  assert (forall t' r', rs' !! t' = Some r' -> nreaders rs' (r_list r') <> 0) as Hsome.
  { intros t' r' Hr'. rewrite (nreaders_delete rs' t' r') by done.
    rewrite bool_decide_eq_true_2 by done. unfold nreaders. lia. }
  assert (forall q lq, ls' !! q = Some lq -> exists l0, lists s !! q = Some l0 /\ members lq = members l0) as Hback.
  { intros q lq. unfold ls'. destruct cow; [|by eexists]. destruct (_ =? _).
    - intros [_ Eq]%lookup_delete_Some. by eexists.
    - intros [ [<- <-]|[_ Eq] ]%lookup_insert_Some; by eexists. }
  split; cbn.
  - split; cbn.
    + intros q lq Eq. destruct (Hback _ _ Eq) as (l0 & Eq0 & Em). unfold list_ok. cbn.
      rewrite Em. by apply (H1 q).
    + destruct H2 as [lc Ec]. destruct (Hkeep _ _ Ec) as (l' & El' & _); [by left|by exists l'].
    + intros t' r' Hr'. pose proof Hr' as [_ Hr]%lookup_delete_Some.
      destruct (H3 _ _ Hr) as (Hs & lr & Er & Hv). split; [done|].
      destruct (Hkeep _ _ Er) as (l' & El' & Em); [right; by eapply Hsome|]. exists l'. by rewrite Em.
    + done.
    + intros Hc q lq Eq. unfold owners in *. cbn. fold rs'. unfold ls' in Eq. rewrite Hc in Eq.
      specialize (H5 Hc). destruct (Z.eqb_spec (use_count l) 1) as [Hone|Hone].
      * apply lookup_delete_Some in Eq as [Hne Eq]. rewrite (H5 _ _ Eq), Hn, (bool_decide_eq_false_2 _ Hne). lia.
      * apply lookup_insert_Some in Eq as [ [<- <-]|[Hne Eq] ].
        -- cbn. rewrite (H5 _ _ El), Hn, (bool_decide_eq_true_2 (r_list r = r_list r)) by done. lia.
        -- rewrite (H5 _ _ Eq), Hn, (bool_decide_eq_false_2 _ Hne). lia.
  - apply Hu.
  - intros lq x Eq. destruct (Hback _ _ Eq) as (l0 & Eq0 & ->). by apply Hm.
  - intros x c Ec Hc. destruct (Hd x c Ec Hc) as (got & wait & D1 & D2 & D3).
    exists got, wait. split_and!; [done|done|]. cbn. fold rs'. rewrite <- D3.
    rewrite (todo_delete (lists s) (readers s) t r) by done. fold rs'.
    unfold reader_todo at 1. rewrite El, E. cbn [app].
    rewrite (todo_ext ls' (lists s)); [done|]. intros t' r' Hr'.
    pose proof Hr' as [_ Hr]%lookup_delete_Some. destruct (H3 _ _ Hr) as (_ & lr & Er & _).
    destruct (Hkeep _ _ Er) as (l' & El' & Em); [right; by eapply Hsome|].
    unfold reader_todo. by rewrite Er, El', Em.
Qed.
Lemma locked_Turn t s a :
  rel s a -> is_Some (readers s !! t) -> wp (step (Turn t)) s (fun _ s' => rel s' (spec_event (Turn t) a)).
Proof.
  intros [Hr Hl] [r Ht]. cbn [run_event spec_event]. unfold onMessage_turn. wp_step. wp_step. rewrite Ht.
  destruct (h_reader _ _ _ (c_heap _ _ _ _ Hr) _ _ Ht) as (Hsm & l & El & Hv).
  destruct (h_lists _ _ _ (c_heap _ _ _ _ Hr) _ _ El) as [Hs Hk].
  wp_step. apply (wp_list_at _ l); [done|]. wp_step. eapply wp_lift; [by apply advance_head|].
  destruct (remaining (r_it r) (members l)) as [|p rest] eqn:E; cbn [head].
  - pose proof (rooms_end s a t r l Hr Ht El E) as Hr'. unfold lock_ok in Hl. wp_step.
    destruct cow.
    + apply (wp_release _ l); [done|]. wp_step. by split.
    + unfold unlock. wp_step. wp_step. split; [|intros t' r' Hr2].
      * apply (rooms_mutex _ _ None) in Hr'. by destruct s.
      * cbn in Hr2. apply lookup_delete_Some in Hr2 as [Hne Hr2].
        destruct (Hl _ _ Hr2), (Hl _ _ Ht). congruence.
  - destruct (remaining_next _ _ _ _ Hs Hv E) as (Hp & _). destruct (Hk p Hp) as [c Ec].
    wp_step. apply (wp_codec_send t p _ c); [done|done|]. wp_step.
    destruct (after_send_same t p (r_msg r) c s) as (Er & _ & Ecur & Em). rewrite Er.
    split; [by eapply rooms_turn|]. unfold lock_ok in *. cbn. rewrite Em, Ecur.
    destruct cow; [done|]. intros t' r' Hr2. apply lookup_insert_Some in Hr2 as [ [<- <-]|[_ Hr2] ].
    + cbn. by apply Hl.
    + by apply Hl.
Qed.

Lemma locked_Posted t s a :
  rel s a -> wp (step (Posted t)) s (fun _ s' => rel s' (spec_event (Posted t) a)).
Proof.
  intros [Hr Hl]. cbn [run_event spec_event]. unfold run_posted. wp_step. wp_step.
  destruct (default [] (posted s !! t)) as [|[p data] rest] eqn:Eq; [by wp_step|].
  pose proof Hr as [Hh Hu Hm Hd].
  destruct (h_posted _ _ _ Hh t (p, data)) as [Hlp [c Ec] ]; [rewrite Eq; set_solver|]. cbn in Hlp, Ec.
  wp_step. wp_step. unfold on_table. wp_step. unfold Session.send. apply (wp_on_conn p c); [done|].
  split; [|by unfold lock_ok in *; destruct cow].
  assert (forall x, x <> p -> to_post loop_of (<[t := rest]> (posted s)) x = to_post loop_of (posted s) x) as Hother.
  { intros x Hne. unfold to_post. destruct (decide (loop_of x = t)) as [<-|Hx]; [|by rewrite lookup_insert_ne].
    by rewrite lookup_insert_eq, Eq, filter_cons_False. }
  assert (to_post loop_of (posted s) p = data :: to_post loop_of (<[t := rest]> (posted s)) p) as Hself.
  { unfold to_post. by rewrite Hlp, lookup_insert_eq, Eq, filter_cons_True by done. }
  assert (sess_connected c = bool_decide (s_state c = kConnected)) as Hcc by done.
  split; cbn.
  - apply heap_ok_conns.
    { intros x Hx. cbn in *. destruct (decide (x = p)) as [->|];
        [rewrite lookup_insert_eq; by eexists|by rewrite lookup_insert_ne]. }
    destruct Hh as [H1 H2 H3 H4 H5]. split; try done. intros t' e He. cbn in He.
    destruct (decide (t' = t)) as [->|]; [|rewrite lookup_insert_ne in He by done; by apply H4].
    rewrite lookup_insert_eq in He. apply H4. rewrite Eq. set_solver.
  - intros x. rewrite Hu. destruct (decide (x = p)) as [->|Hne]; [|by rewrite lookup_insert_ne].
    rewrite lookup_insert_eq, Ec. unfold sess_send. destruct (sess_connected c); naive_solver.
  - exact Hm.
  - intros x c' Ex Hx. destruct (decide (x = p)) as [->|Hne].
    + rewrite lookup_insert_eq in Ex. injection Ex as <-.
      assert (s_state c = kConnected) as Hc by (unfold sess_send in Hx; by destruct (sess_connected c)).
      destruct (Hd p c Ec Hc) as (got & wait & H1 & H2 & H3). rewrite Hself in H2.
      destruct wait as [|m wait]; [done|]. injection H2 as -> H2.
      exists (got ++ [m]), wait. split_and!; [|done|].
      * unfold sess_send. rewrite Hcc, bool_decide_eq_true_2 by done. cbn. by rewrite H1, frames_snoc.
      * cbn. rewrite <- H3. solve_Permutation.
    + rewrite lookup_insert_ne in Ex by done. destruct (Hd x c' Ex Hx) as (got & wait & H1 & H2 & H3).
      exists got, wait. split_and!; [done| |done]. cbn. by rewrite Hother.
Qed.

Lemma locked_step ev s a :
  rel s a -> allowed ev s -> wp (step ev) s (fun _ s' => rel s' (spec_event ev a)).
Proof using alloc_fresh.
  intros Hr Ha. destruct ev; cbn [allowed] in Ha.
  - by apply locked_Established.
  - by apply locked_Closed.
  - destruct Ha. by apply locked_ConnectionCallback.
  - destruct Ha as (? & ? & ?). by apply locked_Message.
  - by apply locked_Turn.
  - by apply locked_Posted.
Qed.
End locked_events.

(** C17: The chats with one mutex and with copy on write.  However the threads interleave,
    between turns of their loops too, no assert fails, no iterator is invalidated and the
    reference counts are right; every member that is up is sent each message received while
    it was a member exactly once, either directly, by its loop, or by the thread that is on
    its way through the list; when nothing is under way it has been sent them all. *)
Theorem chat_broadcast `{Build} loop_of alloc (cow : bool) (evs : list Locked.event) s a :
  (forall X, alloc X ∉ X) ->
  LockedSpec.chat_rel loop_of cow s a -> LockedSpec.allowed_all loop_of alloc cow evs s ->
  exists s', for_each (Locked.run_event loop_of alloc cow) evs s = Ok (tt, s')
    /\ let a' := foldl (fun a ev => LockedSpec.spec_event ev a) a evs in
       LockedSpec.chat_rel loop_of cow s' a'
    /\ (Locked.readers s' = ∅ -> (forall t, default [] (Locked.posted s' !! t) = []) ->
        forall p c, Locked.conns s' !! p = Some c -> s_state c = kConnected ->
          exists got, s_out c = frames got /\ got ≡ₚ default [] (LockedSpec.due a' !! p)).
Proof.
  intros Hf. revert s a. induction evs as [|ev evs IH]; intros s a Hr Ha; cbn [for_each foldl].
  - exists s. split_and!; [done|done|]. intros Hrs Hq p c Ec Hc.
    destruct (LockedSpec.c_due _ _ _ _ (proj1 Hr) p c Ec Hc) as (got & wait & H1 & H2 & H3).
    exists got. split; [done|]. rewrite <- H3, Hrs. unfold LockedSpec.to_post in H2. rewrite Hq in H2.
    symmetry in H2. apply fmap_nil_inv in H2 as ->. by rewrite app_nil_r.
  - destruct Ha as [Ha Hall].
    destruct (locked_step loop_of alloc cow Hf ev s a Hr Ha) as ( [] & s1 & E1 & Hr1).
    destruct (IH s1 _ Hr1 (Hall _ E1)) as (s' & E & Hr').
    exists s'. unfold mbind, ST_bind. by rewrite E1.
Qed.

(** ** One list per thread: all loops see one order *)

Module OrderSpec.
Import HighPerformance ThreadLocalSingleton.

(** The connections that are up, the messages in the order in which their threads got the
    mutex, how many of them each loop has distributed, and how many its loop had when a
    member joined. *)
Record chat := mkOrder { up : gset Z; order : list bytes; ran : gmap Z nat; since : gmap Z nat }.
Definition ran_by (a : chat) (t : Z) : nat := default 0%nat (ran a !! t).

Section spec.
Context (loop_of : Z -> Z).

(** [f] is the functor that the loop is about to run. *)
Definition spec_event (ev : event) (a : chat) : chat :=
  match ev with
  | ThreadInit _ | Turn _ => a
  | Established p => mkOrder ({[ p ]} ∪ up a) (order a) (ran a) (since a)
  | Closed p => mkOrder (up a ∖ {[ p ]}) (order a) (ran a) (since a)
  | ConnectionCallback p =>
      mkOrder (up a) (order a) (ran a)
        (if bool_decide (p ∈ up a)
         then <[p := default (ran_by a (loop_of p)) (since a !! p)]> (since a) else delete p (since a))
  | Message _ m => mkOrder (up a) (order a ++ [m]) (ran a) (since a)
  | Functor t => mkOrder (up a) (order a) (<[t := S (ran_by a t)]> (ran a)) (since a)
  end.

(** The loops are there before the first message and the first connection. *)
Definition allowed (ev : event) (s : ChatServer) (a : chat) : Prop :=
  match ev with
  | ThreadInit loop => loop ∉ loops_ s /\ mutex_ s = None /\ order a = [] /\ since a = ∅
  | Established p => conns s !! p = None
  | Closed p => is_Some (conns s !! p)
  | ConnectionCallback p => is_Some (conns s !! p) /\ loop_of p ∈ loops_ s
  | Message t m => sendable m /\ mutex_ s = None
  | Turn t => is_Some (posters s !! t)
  | Functor t => t ∈ loops_ s /\ default [] (functors s !! t) <> []
  end.
Fixpoint allowed_all `{Build} (evs : list event) (s : ChatServer) (a : chat) : Prop :=
  match evs with
  | [] => True
  | ev :: evs' => allowed ev s a /\
      forall s', run_event loop_of ev s = Ok (tt, s') -> allowed_all evs' s' (spec_event ev a)
  end.

(** The message that the holder of the mutex has not posted to [t] yet. *)
Definition inflight (s : ChatServer) (t : Z) : list bytes :=
  match mutex_ s ≫= (fun th => posters s !! th) with
  | Some q => if bool_decide (t ∈ LockedSpec.remaining (p_it q) (loops_ s)) then [p_msg q] else []
  | None => []
  end.

(** What a member has received: the messages distributed in its loop since it joined. *)
Definition segment (a : chat) (p : Z) (i : nat) : list bytes :=
  drop i (take (ran_by a (loop_of p)) (order a)).

Record loops_ok (s : ChatServer) : Prop := {
  o_sorted : osorted (loops_ s);
  o_key : specific (local s) = dom (t_value_ (local s));
  o_local t l : t_value_ (local s) !! t = Some l -> osorted l /\ t ∈ loops_ s
    /\ forall p, p ∈ l -> loop_of p = t /\ is_Some (conns s !! p);
  o_loops t : t ∈ loops_ s -> is_Some (t_value_ (local s) !! t);
  o_poster t q : posters s !! t = Some q -> mutex_ s = Some t /\ LockedSpec.valid (p_it q) (loops_ s)
}.

Record order_rel (s : ChatServer) (a : chat) : Prop := {
  o_ok : loops_ok s;
  o_sendable : Forall sendable (order a);
  o_up p : p ∈ up a <-> exists c, conns s !! p = Some c /\ s_state c = kConnected;
  o_queue t : t ∈ loops_ s -> (ran_by a t <= length (order a))%nat
    /\ exists ms, default [] (functors s !! t) = FDistribute <$> ms
         /\ drop (ran_by a t) (order a) = ms ++ inflight s t;
  o_other t : t ∉ loops_ s -> default [] (functors s !! t) = [] /\ ran_by a t = 0%nat;
  o_joined p i : since a !! p = Some i -> loop_of p ∈ loops_ s /\ (i <= ran_by a (loop_of p))%nat;
  o_member p t l : t_value_ (local s) !! t = Some l -> loop_of p = t -> p ∈ l <-> is_Some (since a !! p);
  o_out p c : conns s !! p = Some c -> s_state c = kConnected ->
    s_out c = frames (match since a !! p with Some i => segment a p i | None => [] end)
}.
End spec.
End OrderSpec.

Section order_proofs.
Import HighPerformance OrderSpec ThreadLocalSingleton.
Context `{Build} (loop_of : Z -> Z).
Implicit Types (s : ChatServer) (a : chat).
Local Abbreviation step ev := (HighPerformance.run_event loop_of ev).
Local Abbreviation rel := (order_rel loop_of).
Local Abbreviation spec ev := (OrderSpec.spec_event loop_of ev).

Lemma hp_set_conns_id s : set_conns (conns s) s = s.
Proof. by destruct s. Qed.
Lemma hp_set_local_id s : set_local (local s) s = s.
Proof. by destruct s. Qed.

Lemma loops_ok_conns s tb :
  (forall p, is_Some (conns s !! p) -> is_Some (tb !! p)) -> loops_ok loop_of s -> loops_ok loop_of (set_conns tb s).
Proof.
  intros Ht [H1 H2 H3 H4 H5]. split; try done. cbn. intros t l El.
  destruct (H3 t l El) as (Hs & Hin & Hp). split_and!; [done|done|]. intros p Hpl.
  destruct (Hp p Hpl). auto.
Qed.

Lemma order_insert s a p c' (u : gset Z) :
  rel s a -> (forall q, q <> p -> q ∈ u <-> q ∈ up a) -> (p ∈ u <-> s_state c' = kConnected) ->
  (s_state c' = kConnected ->
   s_out c' = frames (match since a !! p with Some i => segment loop_of a p i | None => [] end)) ->
  rel (set_conns (<[p := c']> (conns s)) s) (mkOrder u (order a) (ran a) (since a)).
Proof.
  intros [H1 H2 H3 H4 H8 H5 H6 H7] Hq Hpu Ho. split; try done; cbn.
  - apply loops_ok_conns; [|done]. intros q Hx. destruct (decide (q = p)) as [->|];
      [rewrite lookup_insert_eq; by eexists|by rewrite lookup_insert_ne].
  - intros q. destruct (decide (q = p)) as [->|Hne].
    + rewrite lookup_insert_eq, Hpu. naive_solver.
    + rewrite lookup_insert_ne, Hq by done. apply H3.
  - intros q c. destruct (decide (q = p)) as [->|Hne].
    + rewrite lookup_insert_eq. intros [= <-]. apply Ho.
    + rewrite lookup_insert_ne by done. apply H7.
Qed.

Lemma since_known s a p i : rel s a -> since a !! p = Some i -> is_Some (conns s !! p).
Proof.
  intros Hr E. destruct (o_joined _ _ _ Hr p i E) as [Hin _].
  destruct (o_loops _ _ (o_ok _ _ _ Hr) _ Hin) as [l El].
  destruct (o_local _ _ (o_ok _ _ _ Hr) _ _ El) as (_ & _ & Hl).
  apply (Hl p), (o_member _ _ _ Hr p _ _ El eq_refl). by exists i.
Qed.

Lemma order_Established p s a :
  rel s a -> conns s !! p = None -> wp (step (Established p)) s (fun _ s' => rel s' (spec (Established p) a)).
Proof.
  intros Hr Hp. cbn [HighPerformance.run_event]. unfold on_table. wp_step.
  eapply (wp_Ok _ _ tt); [unfold established; by rewrite Hp|].
  apply order_insert; [done|set_solver|cbn; set_solver|]. intros _. cbn.
  destruct (since a !! p) as [i|] eqn:E; [|done]. exfalso.
  destruct (since_known s a p i Hr E) as [c Ec]. congruence.
Qed.

Lemma order_Closed p s a :
  rel s a -> is_Some (conns s !! p) -> wp (step (Closed p)) s (fun _ s' => rel s' (spec (Closed p) a)).
Proof.
  intros Hr [c Ec]. cbn [HighPerformance.run_event]. unfold on_table. wp_step. unfold closed.
  apply (wp_on_conn p c); [done|]. apply order_insert; [done|set_solver|cbn; set_solver|done].
Qed.

(** LocalConnections::instance() in a thread that has it. *)
Lemma wp_instance t l s (Q : list Z -> ChatServer -> Prop) :
  t_value_ (local s) !! t = Some l -> Q l s -> wp (on_local (instance [] t)) s Q.
Proof.
  intros E HQ. unfold on_local. wp_step. unfold instance. wp_step. wp_step. unfold pointer. rewrite E.
  wp_step. by rewrite hp_set_local_id.
Qed.

Lemma wp_hp_lock t s (Q : unit -> ChatServer -> Prop) :
  mutex_ s = None -> Q tt (set_mutex (Some t) s) -> wp (lock t) s Q.
Proof. intros E HQ. unfold lock. wp_step. wp_step. rewrite E. by wp_step. Qed.

Lemma order_ThreadInit t s a :
  rel s a -> t ∉ loops_ s -> mutex_ s = None -> order a = [] -> since a = ∅ ->
  wp (step (ThreadInit t)) s (fun _ s' => rel s' (spec (ThreadInit t) a)).
Proof.
  intros [H1 H2 H3 H4 H8 H5 H6 H7] Ht Hm Ho Hsi. cbn [HighPerformance.run_event OrderSpec.spec_event].
  destruct H1 as [K1 K2 K3 K4 K5].
  assert (t_value_ (local s) !! t = None) as Hnone.
  { destruct (t_value_ (local s) !! t) as [l|] eqn:E; [|done]. by destruct (K3 t l E) as (_ & ? & _). }
  unfold threadInit. wp_step. unfold on_local. wp_step. wp_step. rewrite hp_set_local_id.
  unfold pointer. rewrite Hnone. wp_step. wp_step; [done|]. wp_step. wp_step. unfold instance.
  wp_step. wp_step. unfold pointer. rewrite Hnone. wp_step. wp_step. wp_step. wp_step. wp_step.
  wp_step; [cbn; rewrite bool_decide_eq_false_2; [done|]; by rewrite K2, not_elem_of_dom|].
  wp_step. wp_step. wp_step. wp_step. wp_step. wp_step. cbn. rewrite lookup_insert_eq.
  wp_step. wp_step; [done|]. wp_step. apply wp_hp_lock; [done|]. wp_step. wp_step. unfold unlock. wp_step.
  split; try done; cbn.
  - split; cbn.
    + by apply oinsert_sorted.
    + by rewrite dom_insert_L, K2.
    + intros t' l. rewrite oinsert_elem by done. intros [ [<- <-]|[_ E] ]%lookup_insert_Some.
      * split_and!; [constructor|by left|set_solver].
      * destruct (K3 _ _ E) as (? & ? & ?). split_and!; [done|by right|done].
    + intros t'. rewrite oinsert_elem by done. destruct (decide (t' = t)) as [->|Hne].
      * intros _. rewrite lookup_insert_eq. by eexists.
      * rewrite lookup_insert_ne by done. intros [?|?]; [done|by apply K4].
    + intros t' q E. destruct (K5 t' q E). congruence.
  - rewrite Ho. intros t'. rewrite oinsert_elem by done. intros Hin. unfold inflight. cbn.
    destruct (decide (t' = t)) as [->|Hne].
    + destruct (H8 t Ht) as [-> ->]. split; [lia|]. by exists [].
    + destruct Hin as [?|Hin]; [done|]. destruct (H4 t' Hin) as (L & ms & E1 & E2). rewrite Ho in *.
      unfold inflight in E2. rewrite Hm in E2. split; [done|]. by exists ms.
  - intros t'. rewrite oinsert_elem by done. intros Hn. apply H8. set_solver.
  - intros p i. rewrite Hsi. done.
  - intros p t' l. rewrite Hsi, lookup_empty. intros [ [<- <-]|[_ E] ]%lookup_insert_Some Hp.
    + split; [set_solver|by intros [? ?] ].
    + rewrite (H6 p t' l E Hp), Hsi, lookup_empty. done.
Qed.

Lemma order_ConnectionCallback p s a :
  rel s a -> is_Some (conns s !! p) -> loop_of p ∈ loops_ s ->
  wp (step (ConnectionCallback p)) s (fun _ s' => rel s' (spec (ConnectionCallback p) a)).
Proof.
  intros Hr [c Ec] Hin. pose proof Hr as [H1 H2 H3 H4 H8 H5 H6 H7].
  destruct H1 as [K1 K2 K3 K4 K5]. destruct (K4 _ Hin) as [l El]. destruct (K3 _ _ El) as (Hs & _ & Hl).
  cbn [HighPerformance.run_event OrderSpec.spec_event]. unfold onConnection. wp_step.
  unfold on_table. wp_step. apply (wp_isConnected p c); [done|]. rewrite hp_set_conns_id.
  wp_step. apply (wp_instance _ l); [done|]. unfold on_local. wp_step. wp_step. unfold update.
  assert (p ∈ up a <-> sess_connected c = true) as Hup.
  { rewrite H3, Ec. unfold sess_connected. rewrite bool_decide_eq_true. naive_solver. }
  set (l' := if sess_connected c then _ else _).
  set (si := if bool_decide (p ∈ up a) then _ else _).
  assert (osorted l') as Hs' by (unfold l'; destruct (sess_connected c); [by apply oinsert_sorted|by apply oerase_sorted]).
  assert (forall q, q ∈ l' <-> (if sess_connected c then q = p \/ q ∈ l else q <> p /\ q ∈ l)) as Hl'.
  { intros q. unfold l'. destruct (sess_connected c); [by apply oinsert_elem|by apply oerase_elem]. }
  assert (forall q, is_Some (si !! q) <-> (if sess_connected c then q = p \/ is_Some (since a !! q)
                                             else q <> p /\ is_Some (since a !! q))) as Hsi.
  { intros q. unfold si. destruct (sess_connected c).
    - rewrite bool_decide_eq_true_2 by (by apply Hup). rewrite lookup_insert_is_Some'. naive_solver.
    - rewrite bool_decide_eq_false_2 by (by rewrite Hup). rewrite lookup_delete_is_Some. naive_solver. }
  split; try done; cbn.
  - split; try done; cbn.
    + rewrite dom_insert_lookup_L by (by exists l). done.
    + intros t x [ [<- <-]|[_ E] ]%lookup_insert_Some; [|by apply (K3 t)].
      split_and!; [done|done|]. intros q Hq. apply Hl' in Hq.
      destruct (sess_connected c); [destruct Hq as [->|Hq]; [split; [done|by exists c]|]|destruct Hq as [_ Hq]]; by apply Hl.
    + intros t Ht. rewrite lookup_insert_is_Some'. destruct (decide (loop_of p = t)); [by left|right; by apply K4].
  - intros q i E. unfold si in E. destruct (bool_decide_reflect (p ∈ up a)).
    + apply lookup_insert_Some in E as [ [<- <-]|[_ E] ]; [|by apply H5].
      split; [done|]. cbn. destruct (since a !! p) as [k|] eqn:Ek; cbn; [by apply (H5 p)|unfold ran_by; cbn; lia].
    + apply lookup_delete_Some in E as [_ E]. by apply H5.
  - intros q t x [ [<- <-]|[Hne E] ]%lookup_insert_Some Hq.
    + rewrite Hl', Hsi. destruct (sess_connected c); by rewrite (H6 q _ l El Hq).
    + rewrite (H6 q t x E Hq), Hsi. assert (q <> p) by congruence. destruct (sess_connected c); naive_solver.
  - intros q cq Eq Hq. rewrite (H7 q cq Eq Hq). f_equal. unfold si, segment.
    destruct (decide (q = p)) as [->|Hne].
    + assert (c = cq) as <- by congruence. assert (sess_connected c = true) as Hc by (by apply bool_decide_eq_true).
      rewrite bool_decide_eq_true_2 by (by apply Hup). rewrite lookup_insert_eq.
      destruct (since a !! p) as [i|]; [done|]. cbn. symmetry. apply drop_ge. rewrite length_take.
      unfold ran_by. cbn. lia.
    + case_bool_decide; by rewrite ?lookup_insert_ne, ?lookup_delete_ne by done.
Qed.

Lemma order_Message t m s a :
  rel s a -> sendable m -> mutex_ s = None ->
  wp (step (Message t m)) s (fun _ s' => rel s' (spec (Message t m) a)).
Proof.
  intros [H1 H2 H3 H4 H8 H5 H6 H7] Hm Hmu. cbn [HighPerformance.run_event OrderSpec.spec_event].
  unfold onMessage_begin. wp_step. apply wp_hp_lock; [done|]. wp_step.
  destruct H1 as [K1 K2 K3 K4 K5].
  assert (forall t', posters s !! t' = None) as Hnone.
  { intros t'. destruct (posters s !! t') as [q|] eqn:E; [|done]. destruct (K5 t' q E). congruence. }
  split; try done; cbn.
  - split; try done; cbn. intros t' q [ [<- <-]|[_ E] ]%lookup_insert_Some; [done|]. by rewrite Hnone in E.
  - by apply Forall_app_2; [|apply Forall_singleton].
  - intros t' Hin. destruct (H4 t' Hin) as (L & ms & E1 & E2). unfold ran_by in *. cbn in *.
    rewrite length_app. split; [lia|]. exists ms. split; [done|].
    rewrite drop_app_le, E2 by done. unfold inflight. rewrite Hmu. cbn. rewrite lookup_insert_eq. cbn.
    by rewrite bool_decide_eq_true_2, app_nil_r by done.
  - intros p c Ec Hc. rewrite (H7 p c Ec Hc). destruct (since a !! p) as [i|] eqn:E; [|done].
    destruct (H5 p i E) as [Hin _]. destruct (H4 _ Hin) as [L _]. unfold segment, ran_by in *. cbn.
    by rewrite take_app_le.
Qed.

Lemma inflight_turn s t q loop rest t' :
  loops_ok loop_of s -> posters s !! t = Some q -> LockedSpec.remaining (p_it q) (loops_ s) = loop :: rest ->
  inflight s t' = (if bool_decide (t' = loop) then [p_msg q] else [])
                  ++ inflight (set_posters (<[t := mkPoster (Some loop) (p_msg q)]> (posters s)) s) t'.
Proof.
  intros Hok Hq E. destruct (o_poster _ _ Hok t q Hq) as [Hm Hv].
  destruct (remaining_next _ _ _ _ (o_sorted _ _ Hok) Hv E) as (_ & Hr & Hn).
  unfold inflight. cbn. rewrite Hm. cbn. rewrite Hq, lookup_insert_eq, E. cbn [p_it p_msg]. rewrite Hr.
  destruct (decide (t' = loop)) as [->|Hne].
  - rewrite !bool_decide_eq_true_2, bool_decide_eq_false_2 by (done || set_solver). done.
  - rewrite (bool_decide_eq_false_2 (t' = loop)) by done. cbn [app].
    erewrite (bool_decide_ext (t' ∈ loop :: rest)); [done|]. set_solver.
Qed.

Lemma order_Turn t s a :
  rel s a -> is_Some (posters s !! t) -> wp (step (Turn t)) s (fun _ s' => rel s' (spec (Turn t) a)).
Proof.
  intros [H1 H2 H3 H4 H8 H5 H6 H7] [q Hq]. cbn [HighPerformance.run_event OrderSpec.spec_event].
  destruct (o_poster _ _ H1 t q Hq) as [Hm Hv]. pose proof (o_sorted _ _ H1) as Hs.
  unfold onMessage_turn. wp_step. wp_step. rewrite Hq. wp_step. wp_step. wp_step.
  eapply wp_lift; [by apply advance_head|].
  destruct (LockedSpec.remaining (p_it q) (loops_ s)) as [|loop rest] eqn:E; cbn [head].
  - unfold unlock. wp_step. wp_step. wp_step. split; try done; cbn.
    + destruct H1 as [K1 K2 K3 K4 K5]. split; try done; cbn. intros t' q' [Hne E']%lookup_delete_Some.
      destruct (K5 _ _ E'). congruence.
    + intros t' Hin. destruct (H4 t' Hin) as (L & ms & E1 & E2). split; [done|]. exists ms. split; [done|].
      rewrite E2. unfold inflight. cbn. rewrite Hm. cbn. by rewrite Hq, E.
  - destruct (remaining_next _ _ _ _ Hs Hv E) as (Hin & _).
    unfold postFuntor. wp_step. wp_step. wp_step. split; try done; cbn.
    + destruct H1 as [K1 K2 K3 K4 K5]. split; try done; cbn.
      intros t' q' [ [<- <-]|[_ E'] ]%lookup_insert_Some; [done|by apply K5].
    + intros t' Hin'. destruct (H4 t' Hin') as (L & ms & E1 & E2). split; [done|].
      rewrite (inflight_turn s t q loop rest t' H1 Hq E) in E2.
      destruct (decide (t' = loop)) as [->|Hne].
      * rewrite bool_decide_eq_true_2 in E2 by done. exists (ms ++ [p_msg q]).
        rewrite lookup_insert_eq. cbn. rewrite E1, fmap_app. split; [done|]. by rewrite <- (assoc_L (++)).
      * rewrite bool_decide_eq_false_2 in E2 by done. exists ms. by rewrite lookup_insert_ne.
    + intros t' Hn. rewrite lookup_insert_ne by congruence. by apply H8.
Qed.

(** One send of distributeMessage, in the loop of the connection. *)
Lemma wp_hp_send t p m c s (Q : unit -> ChatServer -> Prop) :
  sendable m -> loop_of p = t -> conns s !! p = Some c ->
  Q tt (set_conns (<[p := sess_send (frame m) c]> (conns s)) s) -> wp (codec_sendMessage loop_of t p m) s Q.
Proof.
  intros Hm Ht Ec HQ. destruct (sendMessage_ok m Hm) as (b & Eb & Hb & Hc).
  unfold codec_sendMessage. wp_step. apply (wp_lift _ b); [done|]. unfold send_from. wp_step.
  unfold on_table. wp_step. apply (wp_isConnected p c); [done|]. rewrite hp_set_conns_id.
  destruct (sess_connected c) eqn:E; cbn [when].
  - rewrite bool_decide_eq_true_2 by done. wp_step. wp_step. apply (wp_send_buf p c); [done|]. wp_step. by rewrite Hc.
  - wp_step. by rewrite sess_send_down, insert_id, hp_set_conns_id in HQ by done.
Qed.

(** All sends of distributeMessage. *)
Lemma wp_distribute t m l s :
  sendable m -> NoDup l -> (forall p, p ∈ l -> loop_of p = t /\ is_Some (conns s !! p)) ->
  wp (for_each (fun p => codec_sendMessage loop_of t p m) l) s
    (fun _ s' => s' = set_conns (conns s') s
       /\ forall p, conns s' !! p = (if bool_decide (p ∈ l) then sess_send (frame m) <$> conns s !! p else conns s !! p)).
Proof.
  intros Hm Hnd Hl.
  apply (wp_for_each _ (fun (seen : list Z) s' => s' = set_conns (conns s') s
    /\ forall p, conns s' !! p = (if bool_decide (p ∈ seen) then sess_send (frame m) <$> conns s !! p else conns s !! p)) l).
  - split; [by rewrite hp_set_conns_id|]. done.
  - intros seen x rest s' -> [Es Hc]. apply NoDup_app in Hnd as (_ & Hx & _).
    destruct (Hl x ltac:(set_solver)) as [Ht [c Ec] ].
    assert (x ∉ seen) as Hnx by (intros Hin; apply (Hx x Hin); set_solver).
    apply (wp_hp_send t x m c); [done|done|by rewrite Hc, bool_decide_eq_false_2|].
    split; [rewrite Es at 2; done|]. intros p. cbn. destruct (decide (p = x)) as [->|Hne].
    + rewrite lookup_insert_eq, bool_decide_eq_true_2 by set_solver. by rewrite Ec.
    + rewrite lookup_insert_ne, Hc by done.
      erewrite (bool_decide_ext (p ∈ seen)); [reflexivity|]. set_solver.
Qed.

Lemma order_Functor t s a :
  rel s a -> t ∈ loops_ s -> default [] (functors s !! t) <> [] ->
  wp (step (Functor t)) s (fun _ s' => rel s' (spec (Functor t) a)).
Proof.
  intros [H1 H2 H3 H4 H8 H5 H6 H7] Hin Hne. cbn [HighPerformance.run_event OrderSpec.spec_event].
  unfold run_functor. wp_step. wp_step. destruct (H4 t Hin) as (L & ms & E1 & E2). rewrite E1 in *.
  destruct ms as [|m ms]; [done|]. cbn [fmap list_fmap].
  assert (order a !! ran_by a t = Some m) as Hlook.
  { rewrite <- (Nat.add_0_r (ran_by a t)), <- lookup_drop, E2. done. }
  pose proof (lookup_lt_Some _ _ _ Hlook) as Hlt.
  assert (sendable m) as Hm by (eapply Forall_lookup_1; [exact H2|exact Hlook]).
  assert (take (S (ran_by a t)) (order a) = take (ran_by a t) (order a) ++ [m]) as Htake
    by (by apply take_S_r).
  destruct (o_loops _ _ H1 _ Hin) as [l El]. destruct (o_local _ _ H1 _ _ El) as (Hs & _ & Hl).
  wp_step. wp_step. unfold distributeMessage. wp_step. apply (wp_instance _ l); [done|].
  eapply wp_mono; [apply wp_distribute; [done|by apply osorted_NoDup|exact Hl]|].
  intros _ s' [-> Hc]. cbn in Hc |- *.
  assert (forall p, is_Some (conns s !! p) -> is_Some (conns s' !! p)) as Hdom.
  { intros p Hp. rewrite Hc. case_bool_decide; [|done]. by apply fmap_is_Some. }
  assert (forall t', ran_by (mkOrder (up a) (order a) (<[t := S (ran_by a t)]> (ran a)) (since a)) t'
                     = if bool_decide (t' = t) then S (ran_by a t) else ran_by a t') as Hran.
  { intros t'. unfold ran_by at 1. cbn. case_bool_decide as Ht; [subst; by rewrite lookup_insert_eq|].
    by rewrite lookup_insert_ne. }
  split; try done; cbn.
  - apply (loops_ok_conns (set_functors _ s)); [done|]. destruct H1 as [K1 K2 K3 K4 K5]. by split.
  - intros p. rewrite H3, Hc. case_bool_decide; [|done]. destruct (conns s !! p) as [c|]; [|naive_solver].
    cbn. unfold sess_send. destruct (sess_connected c); naive_solver.
  - intros t' Hin'. rewrite Hran. destruct (H4 t' Hin') as (L' & ms' & E1' & E2').
    case_bool_decide as Ht.
    + subst t'. split; [lia|]. exists ms. rewrite lookup_insert_eq. split; [done|].
      replace (S (ran_by a t)) with (ran_by a t + 1)%nat by lia. by rewrite <- drop_drop, E2.
    + split; [done|]. exists ms'. by rewrite lookup_insert_ne.
  - intros t' Hn. rewrite Hran, bool_decide_eq_false_2, lookup_insert_ne by congruence. by apply H8.
  - intros p i E. rewrite Hran. destruct (H5 p i E). split; [done|]. case_bool_decide as Ht; [subst|]; lia.
  - intros p c Ec Hcon. unfold segment. rewrite Hran. rewrite Hc in Ec.
    destruct (bool_decide_reflect (p ∈ l)) as [Hp|Hp].
    + destruct (Hl p Hp) as [Ht [c0 Ec0] ]. rewrite Ec0 in Ec. injection Ec as <-.
      assert (s_state c0 = kConnected) as Hc0 by (unfold sess_send in Hcon; by destruct (sess_connected c0)).
      apply (H6 p t l El Ht) in Hp as [i Ei]. rewrite Ei. destruct (H5 p i Ei) as [_ Hi].
      rewrite (bool_decide_eq_true_2 (loop_of p = t)) by done. cbn [order].
      rewrite Htake, drop_app_le by (rewrite length_take; subst t; lia).
      unfold sess_send, sess_connected. rewrite bool_decide_eq_true_2 by done. cbn.
      rewrite (H7 p c0 Ec0 Hc0), Ei, frames_snoc. unfold segment. by rewrite Ht.
    + rewrite (H7 p c Ec Hcon). destruct (since a !! p) as [i|] eqn:Ei; [|done].
      rewrite bool_decide_eq_false_2; [done|]. intros Ht. apply Hp, (H6 p t l El Ht). by eexists.
Qed.
End order_proofs.


Section order_start.
Import HighPerformance OrderSpec.

Lemma order_start loop_of : order_rel loop_of ChatServer_ctor (mkOrder ∅ [] ∅ ∅).
Proof.
  split; cbn; try set_solver. split; cbn; try set_solver. constructor.
Qed.

Lemma order_step `{Build} loop_of ev s a :
  order_rel loop_of s a -> OrderSpec.allowed loop_of ev s a ->
  wp (HighPerformance.run_event loop_of ev) s (fun _ s' => order_rel loop_of s' (OrderSpec.spec_event loop_of ev a)).
Proof.
  intros Hr Ha. destruct ev; cbn [OrderSpec.allowed] in Ha.
  - destruct Ha as (? & ? & ? & ?). by apply order_ThreadInit.
  - by apply order_Established.
  - by apply order_Closed.
  - destruct Ha. by apply order_ConnectionCallback.
  - destruct Ha. by apply order_Message.
  - by apply order_Turn.
  - destruct Ha. by apply order_Functor.
Qed.
End order_start.

(** C16: The chat with one list per thread.  However the threads interleave, no assert fails and
    all loops distribute the messages in the order in which onMessage got the mutex: what a
    member has received is a run of consecutive messages of that one order, from where its
    loop was when it joined, whatever its loop; so any two members see the messages they
    share in the same order.  When nothing is under way a member has received everything
    since it joined. *)
Theorem chat_total_order `{Build} loop_of (evs : list HighPerformance.event) s a :
  OrderSpec.order_rel loop_of s a -> OrderSpec.allowed_all loop_of evs s a ->
  exists s', for_each (HighPerformance.run_event loop_of) evs s = Ok (tt, s')
    /\ let a' := foldl (fun a ev => OrderSpec.spec_event loop_of ev a) a evs in
       OrderSpec.order_rel loop_of s' a'
    /\ forall p i c, OrderSpec.since a' !! p = Some i -> HighPerformance.conns s' !! p = Some c ->
         s_state c = kConnected ->
         s_out c = frames (drop i (take (OrderSpec.ran_by a' (loop_of p)) (OrderSpec.order a')))
         /\ (HighPerformance.posters s' = ∅ -> default [] (HighPerformance.functors s' !! loop_of p) = [] ->
             s_out c = frames (drop i (OrderSpec.order a'))).
Proof.
  revert s a. induction evs as [|ev evs IH]; intros s a Hr Ha; cbn [for_each foldl].
  - exists s. split_and!; [done|done|]. intros p i c Ei Ec Hc.
    pose proof (OrderSpec.o_out _ _ _ Hr p c Ec Hc) as Ho. rewrite Ei in Ho.
    split; [exact Ho|]. intros Hp Hf.
    destruct (OrderSpec.o_joined _ _ _ Hr p i Ei) as [Hin _].
    destruct (OrderSpec.o_queue _ _ _ Hr _ Hin) as (_ & ms & E1 & E2). rewrite Hf in E1.
    symmetry in E1. apply fmap_nil_inv in E1 as ->. cbn in E2.
    assert (OrderSpec.inflight s (loop_of p) = []) as E0.
    { unfold OrderSpec.inflight. rewrite Hp. by destruct (HighPerformance.mutex_ s). }
    rewrite E0 in E2. rewrite Ho. unfold OrderSpec.segment. rewrite take_ge; [done|].
    apply (f_equal length) in E2. rewrite length_drop in E2. cbn in E2. lia.
  - destruct Ha as [Ha Hall]. destruct (order_step loop_of ev s a Hr Ha) as ( [] & s1 & E1 & Hr1).
    destruct (IH s1 _ Hr1 (Hall _ E1)) as (s' & E & Hr'). exists s'. unfold mbind, ST_bind. by rewrite E1.
Qed.

(** The lines that are typed while the client is connected are posted to its loop in order,
    as frames; the others are dropped. *)
Theorem client_lines `{Build} lines s p c :
  Forall sendable lines -> Client.c_connection s = Some p -> Client.c_conns s !! p = Some c ->
  s_state c = kConnected ->
  for_each Client.sendMessage lines s
  = Ok (tt, Client.mkClient (Client.c_conns s) (Some p) (Client.c_posted s ++ ((fun m => (p, frame m)) <$> lines))).
Proof.
  intros Hl. revert s. induction Hl as [|m lines Hm _ IH]; intros s Ep Ec Hc; cbn [for_each].
  { cbn. rewrite app_nil_r, <- Ep. by destruct s. }
  destruct (sendMessage_ok m Hm) as (b & Eb & Hb & Hcb).
  assert (exists b', retrieveAllAsString b = Ok (frame m, b')) as [b' Er].
  { destruct (retrieveAsString_wf b (readableBytes b)) as (b' & E' & _);
      [done|rewrite readableBytes_wf by done; pose proof (zlen_nonneg (contents b)); lia|].
    exists b'. unfold retrieveAllAsString. rewrite E', readableBytes_wf, Hcb by done.
    unfold zlen. by rewrite Nat2Z.id, take_ge. }
  assert (wp (Client.sendMessage m) s (fun _ s' => s' = Client.mkClient (Client.c_conns s) (Some p)
            (Client.c_posted s ++ [(p, frame m)]))) as ( [] & s1 & E1 & ->).
  { unfold Client.sendMessage. wp_step. wp_step. rewrite Ep. wp_step. apply (wp_lift _ b); [done|].
    unfold send_from, Client.on_table. wp_step. wp_step. apply (wp_isConnected p c); [done|].
    unfold sess_connected. rewrite bool_decide_eq_true_2 by done. cbn [when]. wp_step.
    apply (wp_lift _ (frame m, b')); [done|]. cbn. wp_step. by rewrite Ep. }
  unfold mbind, ST_bind. rewrite E1, (IH (Client.mkClient _ _ _) eq_refl Ec Hc). cbn. by rewrite <- (assoc_L (++)).
Qed.

(** Connection 11 lives in loop 1, 21 and 22 in loop 2. *)
Definition home (p : Z) : Z := p / 10.

(** Two threads receive a message each; a third member joins while they send. *)
Definition two_messages : list Locked.event :=
  [Locked.Established 11; Locked.ConnectionCallback 11; Locked.Established 21; Locked.ConnectionCallback 21;
   Locked.Message 1 (cs "A"); Locked.Message 2 (cs "B"); Locked.Turn 1; Locked.Turn 2;
   Locked.Established 22; Locked.ConnectionCallback 22;
   Locked.Turn 1; Locked.Turn 2; Locked.Turn 1; Locked.Turn 2; Locked.Posted 1; Locked.Posted 2].

Definition got (s : Locked.ChatServer) (p : Z) : bytes := default [] (s_out <$> Locked.conns s !! p).

Lemma chat_broadcast_witness :
  exists s', for_each (Locked.run_event (H := Debug) home next_address true) two_messages (Locked.ChatServer_ctor 1)
      = Ok (tt, s')
    /\ Locked.readers s' = ∅ /\ got s' 11 = frames [cs "A"; cs "B"] /\ got s' 21 = frames [cs "B"; cs "A"]
    /\ got s' 22 = [].
Proof.
  destruct (chat_broadcast (H := Debug) home next_address true two_messages _ _ next_address_fresh
    (locked_start home true 1)) as (s' & E & _).
  - unfold two_messages. cbn [LockedSpec.allowed_all LockedSpec.allowed].
    repeat match goal with
    | |- _ /\ _ => split
    | |- sendable _ => split; [by vm_compute|left; by vm_compute]
    | |- is_Some _ => vm_compute; by eexists
    | |- forall s', Locked.run_event _ _ _ _ _ = Ok (tt, s') -> _ =>
        let s' := fresh "s'" in let E := fresh "E" in intros s' E; vm_compute in E; injection E as <-
    | |- True => done
    | |- _ = _ => by vm_compute
    end.
  - exists s'. pose proof E as E'. vm_compute in E'. injection E' as <-. split; [exact E|]. split_and!; by vm_compute.
Defined.

(** Three loops; three members in two of them, who join at different times. *)
Definition three_messages : list HighPerformance.event :=
  [HighPerformance.ThreadInit 1; HighPerformance.ThreadInit 2; HighPerformance.ThreadInit 3;
   HighPerformance.Established 11; HighPerformance.ConnectionCallback 11;
   HighPerformance.Established 21; HighPerformance.ConnectionCallback 21;
   HighPerformance.Message 1 (cs "A"); HighPerformance.Turn 1; HighPerformance.Turn 1; HighPerformance.Functor 1;
   HighPerformance.Turn 1; HighPerformance.Turn 1;
   HighPerformance.Message 2 (cs "B"); HighPerformance.Turn 2; HighPerformance.Functor 2; HighPerformance.Turn 2;
   HighPerformance.Established 22; HighPerformance.ConnectionCallback 22;
   HighPerformance.Functor 2; HighPerformance.Functor 1].

Definition heard (s : HighPerformance.ChatServer) (p : Z) : bytes :=
  default [] (s_out <$> HighPerformance.conns s !! p).

Lemma chat_total_order_witness :
  exists s', for_each (HighPerformance.run_event (H := Debug) home) three_messages HighPerformance.ChatServer_ctor
      = Ok (tt, s')
    /\ heard s' 11 = frames [cs "A"; cs "B"] /\ heard s' 21 = frames [cs "A"; cs "B"] /\ heard s' 22 = frames [cs "B"].
Proof.
  destruct (chat_total_order (H := Debug) home three_messages _ _ (order_start home)) as (s' & E & _).
  - unfold three_messages. cbn [OrderSpec.allowed_all OrderSpec.allowed].
    repeat match goal with
    | |- _ /\ _ => split
    | |- sendable _ => split; [by vm_compute|left; by vm_compute]
    | |- is_Some _ => vm_compute; by eexists
    | |- forall s', HighPerformance.run_event _ _ _ = Ok (tt, s') -> _ =>
        let s' := fresh "s'" in let E := fresh "E" in intros s' E; vm_compute in E; injection E as <-
    | |- True => done
    | |- _ = _ => by vm_compute
    | |- _ <> _ => by vm_compute
    | |- ?x ∈ ?l => apply (bool_decide_eq_true_1 (x ∈ l)); by vm_compute
    | |- ?x ∉ ?l => apply (bool_decide_eq_true_1 (x ∉ l)); by vm_compute
    end.
  - exists s'. pose proof E as E'. vm_compute in E'. injection E' as <-. split; [exact E|]. split_and!; by vm_compute.
Defined.

Definition typing : Client.ChatClient :=
  Client.mkClient {[ 7 := sess_setState kConnected sess_new ]} (Some 7) [].

Lemma client_lines_witness :
  for_each (Client.sendMessage (H := Debug)) [cs "hi"; cs "there"] typing
  = Ok (tt, Client.mkClient (Client.c_conns typing) (Some 7) [(7, frame (cs "hi")); (7, frame (cs "there"))]).
Proof.
  apply (client_lines (H := Debug) [cs "hi"; cs "there"] typing 7 (sess_setState kConnected sess_new));
    [|done|by vm_compute|done].
  repeat (constructor; [split; [by vm_compute|left; by vm_compute]|]). constructor.
Defined.
