(* ===== verification/Download.v ===== *)
(** * File transfer: src/arale/examples/simple/filetransfer

    Download2.cc and Download3.cc send a file in chunks of 64 KiB, the next when the last
    has been written out; Download2 keeps a FILE pointer in the connection's context,
    Download3 ([shared]) a shared_ptr.  Download.cc sends the file as one string.  They run
    on the detailed connection of TcpConnection.v, with its poller, buffer and posted
    functors; the callbacks that act on the file are called here at the points where the
    connection calls or posts them. *)

From S2P Require Import Prelude Buffer Date Channel Poller EventLoop TcpConnection.

Definition kBufsize : Z := 64 * 1024.

Section download.
Context {P : Type} `{Poller P, Build}.

(** The connection, its context, and the open streams with what is left to read. *)
Record Transfer := mkTransfer {
  conn : Conn (P := P);
  context : option (option Z);     (* a FILE * or FilePtr; Some None is a null pointer *)
  files : gmap Z bytes
}.

Section setters.
Implicit Types x : Transfer.
Definition set_conn w x := mkTransfer w (context x) (files x).
Definition set_context c x := mkTransfer (conn x) c (files x).
Definition set_files f x := mkTransfer (conn x) (context x) f.
End setters.

(** The callbacks the connection finds set; what they do is below. *)
Definition callbacks : UserCallbacks (P := P) :=
  mkUser (Some (mret tt)) (Some (fun _ => mret tt)) (Some (mret tt)) (Some (fun _ => mret tt))
    (Some (mret tt)).

Section programs.
(** What fopen(g_file) finds and the address it returns, the address of the array buf, the
    address of the connection, and which program it is. *)
Context (g_file : option bytes) (stream buf self : Z) (shared : bool).

Definition on_conn {A} (m : ST (Conn (P := P)) A) : ST Transfer A := zoom conn set_conn m.

(** ** <stdio.h> *)

Definition fopen : ST Transfer (option Z) :=
  match g_file with
  | Some content => modify (fun x => set_files (<[stream := content]> (files x)) x) ;; mret (Some stream)
  | None => mret None
  end.
(** fread(buf, 1, kBufsize, fp): what it stores in buf. *)
Definition fread (fp : option Z) : ST Transfer bytes :=
  match fp with
  | None => fail NullCall
  | Some fp =>
      fs ← gets files;
      match fs !! fp with
      | None => fail StaleRead
      | Some left_ =>
          modify (fun x => set_files (<[fp := drop (Z.to_nat kBufsize) left_]> (files x)) x) ;;
          mret (take (Z.to_nat kBufsize) left_)
      end
  end.
Definition fclose (fp : option Z) : ST Transfer unit :=
  match fp with
  | None => fail NullCall
  | Some fp =>
      fs ← gets files;
      match fs !! fp with
      | None => fail StaleRead
      | Some _ => modify (fun x => set_files (delete fp (files x)) x)
      end
  end.

(** ** The callbacks *)

Definition setHighWaterMark (n : Z) : ST (Conn (P := P)) unit :=
  modify (fun w => mkConn (state_ w) (readWriteChannel_ w) (inputBuffer_ w) (outputBuffer_ w) n
    (reading_ w) (poller_ w) (channels w) (functors w) (timers w) (memory w) (writes w) (sent w)
    (shut_wr w) (notes w)).
(** conn->send(buf, nread), buf being a local array. *)
Definition send_local (data : bytes) : ST (Conn (P := P)) unit :=
  modify (fun w => set_memory (<[buf := data]> (memory w)) w) ;;
  send_ptr callbacks true buf (zlen data) ;;
  modify (fun w => set_memory (delete buf (memory w)) w).
Definition isConnected : ST (Conn (P := P)) bool := gets (fun w => bool_decide (state_ w = kConnected)).

Definition onConnection : ST Transfer unit :=
  up ← on_conn isConnected;
  when (shared || up) (on_conn (setHighWaterMark (kBufsize + 1))) ;;
  if (up : bool) then
    fp ← fopen;
    match fp with
    | Some _ =>
        modify (set_context (Some fp)) ;;
        data ← fread fp;
        on_conn (send_local data)
    | None => on_conn (shutdown true)
    end
  else
    c ← gets context;
    match c with
    | Some (Some fp) => when (negb shared) (fclose (Some fp))
    | _ => mret tt
    end.

Definition onWriteComplete : ST Transfer unit :=
  c ← gets context;
  match c with
  | None => mret tt
  | Some fp =>
      data ← fread fp;
      if 0 <? zlen data then on_conn (send_local data)
      else
        when (negb shared) (fclose fp ;; modify (set_context (Some None))) ;;
        on_conn (shutdown true)
  end.

(** ** What happens to the connection *)

Inductive event := Up | Writable | Functor | Down | Destroyed.

Definition run_event (ev : event) : ST Transfer unit :=
  match ev with
  | Up => on_conn (connectionEstablished callbacks self) ;; onConnection
  | Writable => on_conn (handleWrite callbacks)
  | Functor =>                      (* the oldest that is posted *)
      fs ← on_conn (gets functors);
      match fs with
      | [] => mret tt
      | f :: rest =>
          on_conn (modify (fun w => set_functors rest (timers w) w)) ;;
          match f with
          | FWriteComplete => onWriteComplete
          | f => on_conn (run_functor callbacks f)
          end
      end
  | Down => on_conn (handleClose callbacks) ;; onConnection
  | Destroyed =>                    (* the context goes with the connection *)
      on_conn (connectionDestroyed callbacks) ;;
      c ← gets context;
      match c with
      | Some (Some fp) => when shared (fclose (Some fp))
      | _ => mret tt
      end ;;
      modify (set_context None)
  end.

(** ** Download.cc: readFile() appends the chunks to a string *)

Fixpoint readFile_loop (fuel : nat) (content left_ : bytes) (kBufSize : Z) : outcome bytes :=
  match fuel with
  | O => Err OutOfFuel
  | S fuel' =>
      let data := take (Z.to_nat kBufSize) left_ in
      if 0 <? zlen data
      then readFile_loop fuel' (content ++ data) (drop (Z.to_nat kBufSize) left_) kBufSize
      else Ok content
  end.
Definition readFile : outcome bytes :=
  match g_file with
  | Some content => readFile_loop (S (length content)) [] content (1024 * 1024)
  | None => Ok []
  end.
(** The callback of Download.cc; the string is a temporary at [buf]. *)
Definition onConnection_whole : ST (Conn (P := P)) unit :=
  up ← isConnected;
  when up
    (setHighWaterMark (64 * 1024) ;;
     content ← lift readFile;
     modify (fun w => set_memory (<[buf := content]> (memory w)) w) ;;
     send_string callbacks true buf ;;
     modify (fun w => set_memory (delete buf (memory w)) w) ;;
     shutdown true).
End programs.
End download.
Arguments Transfer P : clear implicits.

(** ** What operations leave alone *)

Section keeps.
Context {S B : Type} (f : S -> B).
Definition keeps {A} (m : ST S A) : Prop := forall s a s', m s = Ok (a, s') -> f s' = f s.

Lemma keeps_ret {A} (a : A) : keeps (mret a).
Proof. by intros s b s' [= _ <-]. Qed.
Lemma keeps_bind {A C} (m : ST S A) (k : A -> ST S C) : keeps m -> (forall a, keeps (k a)) -> keeps (m ≫= k).
Proof.
  intros Hm Hk s c s' E. unfold mbind, ST_bind in E. destruct (m s) as [ [a s1]|] eqn:E1; [|done].
  rewrite (Hk a _ _ _ E). by eapply Hm.
Qed.
Lemma keeps_gets {A} (g : S -> A) : keeps (gets g).
Proof. by intros s a s' [= _ <-]. Qed.
Lemma keeps_modify g : (forall s, f (g s) = f s) -> keeps (modify g).
Proof. intros Hg s a s' [= _ <-]. apply Hg. Qed.
Lemma keeps_lift {A} (m : outcome A) : keeps (lift m).
Proof. intros s a s'. unfold lift. destruct m; [|done]. by intros [= _ <-]. Qed.
Lemma keeps_fail {A} e : keeps (fail (A := A) e).
Proof. by intros s a s'. Qed.
Lemma keeps_when b m : keeps m -> keeps (when b m).
Proof. intros Hm. destruct b; [done|]. apply keeps_ret. Qed.
End keeps.

Ltac keeps_step :=
  lazymatch goal with
  | |- keeps _ (mret _) => apply keeps_ret
  | |- keeps _ (mbind _ _) => apply keeps_bind; [|intros ?]
  | |- keeps _ (gets _) => apply keeps_gets
  | |- keeps _ (modify _) => apply keeps_modify; done
  | |- keeps _ (lift _) => apply keeps_lift
  | |- keeps _ (fail _) => apply keeps_fail
  | |- keeps _ (when _ _) => apply keeps_when
  | |- keeps _ (match ?x with _ => _ end) => destruct x
  end.

Section conn_frames.
Context {P : Type} `{PollerLaws P, Build}.
Implicit Types (w : Conn (P := P)) (c : Channel).

Lemma update_events_poller f w w' :
  update_events f w = Ok (tt, w') -> exists p h, w' = set_poller p h w.
Proof.
  unfold update_events. intros E. apply bind_Ok_inv in E as (c & _ & E).
  apply bind_Ok_inv in E as ([p h] & _ & [= <-]). by eexists _, _.
Qed.

Lemma keeps_update {B} (g : Conn (P := P) -> B) f :
  (forall p h w, g (set_poller p h w) = g w) -> keeps g (update_events f).
Proof. intros Hg w [] w' E. destruct (update_events_poller f w w' E) as (p & h & ->). apply Hg. Qed.

(** The high-water mark and the write side of the socket. *)
Definition mark_shut w : Z * bool := (highWaterMark_ w, shut_wr w).

Lemma keeps_sendInLoop U data : keeps mark_shut (sendInLoop U data).
Proof.
  assert (keeps mark_shut (channel (P := P))) as Hch.
  { intros w a w' E. unfold channel in E. apply bind_Ok_inv in E as (c & _ & [= _ <-]). done. }
  unfold sendInLoop, send_direct, send_queue, postFunctor, enableWrite.
  repeat first [exact Hch | apply keeps_update; done | keeps_step].
  intros w1 r w2. unfold sock_write. destruct (writes w1) as [|[] ]; by intros [= _ <-].
Qed.

Lemma keeps_mark_handleWrite U : keeps highWaterMark_ (handleWrite (P := P) U).
Proof.
  assert (keeps highWaterMark_ (channel (P := P))) as Hch.
  { intros w a w' E. unfold channel in E. apply bind_Ok_inv in E as (c & _ & [= _ <-]). done. }
  unfold handleWrite, disableWrite, shutdownInLoop, postFunctor, shutDownWrite.
  repeat first [exact Hch | apply keeps_update; done | keeps_step].
  intros w1 r w2. unfold sock_write. destruct (writes w1) as [|[] ]; by intros [= _ <-].
Qed.

Lemma st_bind_inv {S A B} (m : ST S A) (k : A -> ST S B) s b s' :
  (m ≫= k) s = Ok (b, s') -> exists a s1, m s = Ok (a, s1) /\ k a s1 = Ok (b, s').
Proof. unfold mbind, ST_bind. destruct (m s) as [ [a s1]|] eqn:E; [|done]. by eexists _, _. Qed.

(** With a connection callback that leaves the connection alone. *)
Lemma call_connection_eq U w w' :
  harmless (connectionCallback_ U) -> call_connection U w = Ok (tt, w') ->
  w' = add_note (NConnection (bool_decide (state_ w = kConnected))) w.
Proof. intros Hcb. rewrite call_connection_spec by done. by intros [= <-]. Qed.

Lemma established_eq U self w w' :
  harmless (connectionCallback_ U) -> connectionEstablished U self w = Ok (tt, w') ->
  exists p h, w' = add_note (NConnection true) (set_poller p h (setState kConnected w)).
Proof.
  intros Hcb E. apply st_bind_inv in E as (s & w1 & [= _ <-] & E).
  apply st_bind_inv in E as ( [] & w1 & E1 & E). unfold lift in E1.
  destruct (assert_ _); [|done]. injection E1 as _ <-.
  apply st_bind_inv in E as ( [] & w1 & [= <-] & E).
  apply st_bind_inv in E as ( [] & w2 & E2 & E). unfold channel_tieTo in E2.
  apply bind_Ok_inv in E2 as (c & _ & [= <-]).
  apply st_bind_inv in E as ( [] & w3 & E3 & E). apply update_events_poller in E3 as (p & h & ->).
  apply call_connection_eq in E as ->; [|done]. by exists p, h.
Qed.

Lemma handleClose_eq U w w' :
  harmless (connectionCallback_ U) -> harmless (closeCallback_ U) -> handleClose U w = Ok (tt, w') ->
  exists p h, w' = add_note NClose (add_note (NConnection false) (set_poller p h (setState kDisconnected w))).
Proof.
  intros Hcb (g & Hg & Hid) E. apply st_bind_inv in E as (s & w1 & [= _ <-] & E).
  apply st_bind_inv in E as ( [] & w1 & E1 & E). unfold lift in E1.
  destruct (assert_ _); [|done]. injection E1 as _ <-.
  apply st_bind_inv in E as ( [] & w1 & [= <-] & E).
  apply st_bind_inv in E as ( [] & w3 & E3 & E). apply update_events_poller in E3 as (p & h & ->).
  apply st_bind_inv in E as ( [] & w4 & E4 & E). apply call_connection_eq in E4 as ->; [|done].
  apply st_bind_inv in E as ( [] & w5 & [= <-] & E). unfold call_cb in E. rewrite Hg, Hid in E.
  injection E as <-. by exists p, h.
Qed.

Lemma destroyed_eq U w w' :
  state_ w <> kConnected -> connectionDestroyed U w = Ok (tt, w') -> exists p h, w' = set_poller p h w.
Proof.
  intros Hs E. apply st_bind_inv in E as (s & w1 & [= <- <-] & E).
  apply st_bind_inv in E as ( [] & w2 & E2 & E). rewrite bool_decide_eq_false_2 in E2 by done.
  injection E2 as <-. unfold channel_remove in E. apply bind_Ok_inv in E as (c & _ & E).
  apply bind_Ok_inv in E as ([p h] & _ & [= <-]). by exists p, h.
Qed.

(** ** Sending from a local array *)

Definition out w : bytes := contents (outputBuffer_ w).
(** All that was given to send(). *)
Definition given w : bytes := sent w ++ out w.

Definition marked (n : Z) w : Conn (P := P) := mkConn (state_ w) (readWriteChannel_ w) (inputBuffer_ w)
  (outputBuffer_ w) n (reading_ w) (poller_ w) (channels w) (functors w) (timers w) (memory w) (writes w)
  (sent w) (shut_wr w) (notes w).

(** A direct write takes a chunk whole or not at all. *)
Lemma queued_all w c data :
  channels w !! readWriteChannel_ w = Some c -> op_ok (CSend data) w ->
  (direct w c = true /\ written w data = zlen data /\ queued w c data = [])
  \/ ((direct w c = true -> written w data = 0) /\ queued w c data = data).
Proof.
  intros Hc Hop. destruct (Hop c Hc) as (_ & Hdir & _). unfold queued.
  destruct (direct w c); [|by right]. destruct (Hdir eq_refl) as [-> [E|E] ]; rewrite E.
  - right. split; [done|]. rewrite Z.sub_0_r. apply take_ge. unfold zlen. lia.
  - left. rewrite Z.sub_diag. done.
Qed.

(** While nothing is queued or posted, one chunk at most is under way afterwards. *)
Lemma send_local_spec buf w c data :
  conn_ok w c -> state_ w = kConnected -> zlen data <= kBufsize -> kBufsize < highWaterMark_ w ->
  out w = [] -> functors w = [] -> op_ok (CSend data) w ->
  exists w' c', send_local buf data w = Ok (tt, w') /\ conn_ok w' c' /\ fd_ c' = fd_ c
    /\ given w' = given w ++ data /\ zlen (out w') <= kBufsize
    /\ state_ w' = kConnected /\ highWaterMark_ w' = highWaterMark_ w /\ shut_wr w' = shut_wr w
    /\ (functors w' = [] \/ functors w' = [FWriteComplete] /\ out w' = [])
    /\ (isWriting c = true -> isWriting c' = true)
    /\ (direct w c && complete w data = true -> functors w' = [FWriteComplete] /\ out w' = []
        /\ isWriting c' = isWriting c /\ writes w' = tail (writes w)).
Proof.
  intros Hok Hst Hlen Hmark Hout Hfs Hop. set (w1 := set_memory (<[buf := data]> (memory w)) w).
  pose proof Hok as (Hch & Hb & _). pose proof (zlen_nonneg data). unfold kBufsize in *.
  destruct (sendInLoop_spec callbacks w1 c data Hok)
    as (w2 & c2 & E & Hok2 & Hs & Hc & Hwr & Hs2 & Hfd & Hev & Hf & _);
    [unfold max_size; lia|by apply (Hop c (proj1 Hch))|].
  pose proof (keeps_sendInLoop callbacks data _ _ _ E) as Hk. injection Hk as Hk1 Hk2.
  change (queued w1 c data) with (queued w c data) in *. change (direct w1 c) with (direct w c) in *.
  change (written w1 data) with (written w data) in *. change (complete w1 data) with (complete w data) in *.
  cbn in Hs, Hc, Hf, Hk1, Hk2, Hwr, Hs2. fold (out w) in Hc. rewrite Hout in Hc. cbn [app] in Hc.
  assert (complete w data = true -> written w data = zlen data) as Hcomp
    by (unfold complete; destruct (writes w) as [|[] ]; [done|by intros ?%Z.eqb_eq|done]).
  assert (zlen (queued w c data) <= 65536) as Hq
    by (destruct (queued_all w c data (proj1 Hch) Hop) as [(_ & _ & ->)|[_ ->] ]; [done|lia]).
  assert (crosses callbacks w1 (zlen (queued w c data)) = false) as Hx.
  { unfold crosses. change (outputBuffer_ w1) with (outputBuffer_ w). fold (out w). rewrite Hout.
    change (highWaterMark_ w1) with (highWaterMark_ w). change (zlen []) with 0.
    apply andb_false_iff. left. apply andb_false_iff. right. apply Z.leb_gt. lia. }
  rewrite Hx, andb_false_r, Hfs, app_nil_r in Hf. cbn [app] in Hf.
  exists (set_memory (delete buf (memory w2)) w2), c2.
  assert (direct w c && complete w data = true -> out w2 = []) as Hdone.
  { intros [Hd Hco]%andb_true_iff. unfold out. rewrite Hc.
    destruct (queued_all w c data (proj1 Hch) Hop) as [(_ & _ & Hq0)|[Hw ->] ]; [done|].
    specialize (Hw Hd). specialize (Hcomp Hco). destruct data; [done|]. rewrite zlen_cons in Hcomp. 
    pose proof (zlen_nonneg data). lia. }
  split_and!; try done.
  - unfold send_local. unfold mbind at 1, ST_bind at 1. fold w1. change (modify _ w) with (Ok (tt, w1)).
    cbv beta iota. unfold mbind at 1, ST_bind at 1.
    assert (send_ptr callbacks true buf (zlen data) w1 = Ok (tt, w2)) as ->; [|done].
    unfold send_ptr. st_simp. cbn [state_ w1 set_memory]. rewrite bool_decide_eq_true_2 by done.
    unfold read_block. cbn [memory w1 set_memory]. rewrite lookup_insert_eq.
    pose proof (mem_read_app [] data [] 0 (zlen data) eq_refl eq_refl) as Em. cbn in Em.
    rewrite app_nil_r in Em. rewrite Em. cbn. exact E.
  - unfold given, out. cbn. rewrite Hs, Hc. fold (out w). rewrite Hout, app_nil_r, <- (assoc_L (++)). f_equal.
    destruct (queued_all w c data (proj1 Hch) Hop) as [(-> & -> & ->)|[Hw ->] ].
    + rewrite app_nil_r. apply take_ge. unfold zlen. lia.
    + destruct (direct w c); [rewrite Hw by done|]; done.
  - unfold out. cbn. by rewrite Hc.
  - cbn. congruence.
  - cbn. rewrite Hf. destruct (direct w c && complete w data) eqn:Ed; [|by left].
    rewrite andb_true_r. right. split; [done|]. by apply Hdone.
  - intros Hw. unfold isWriting in *. rewrite Hev. fold (isWriting c). unfold isWriting. rewrite Hw, orb_true_r. done.
  - intros Hd. cbn. rewrite Hf, Hd, andb_true_r. split_and!; [done|by apply Hdone| |].
    + unfold isWriting. rewrite Hev. specialize (Hdone Hd). unfold out in Hdone. rewrite Hc in Hdone.
      rewrite bool_decide_eq_true_2 by done. done.
    + apply andb_true_iff in Hd as [Hd1 _]. by rewrite Hwr, Hd1.
Qed.

Lemma writable_spec w c :
  conn_ok w c -> exists w' c', handleWrite callbacks w = Ok (tt, w') /\ conn_ok w' c' /\ fd_ c' = fd_ c
    /\ given w' = given w /\ zlen (out w') <= zlen (out w) /\ state_ w' = state_ w
    /\ highWaterMark_ w' = highWaterMark_ w
    /\ (functors w' = functors w \/ functors w' = functors w ++ [FWriteComplete] /\ out w <> [] /\ out w' = [])
    /\ (isWriting c = true -> isWriting c' = true) /\ shut_wr w' = shut_wr w.
Proof.
  intros Hok. destruct (isWriting c) eqn:Ew.
  2:{ exists w, c. rewrite (handleWrite_idle callbacks w c) by (apply Hok || done).
      split_and!; try done. by left. }
  destruct (handleWrite_spec callbacks w c Hok Ew) as (w' & c' & E & Hok' & Hs & Hq & _ & Hst & Hsh & Hfd & Hev & Hf & _).
  fold (out w) in Hs, Hq, Hf, Hev. fold (out w') in Hq. pose proof (written_range w (out w)) as Hr.
  exists w', c'. split_and!; try done.
  - unfold given. fold (out w'). rewrite Hs, Hq, <- (assoc_L (++)). by rewrite take_drop.
  - rewrite Hq. unfold zlen. rewrite length_drop. lia.
  - by apply (keeps_mark_handleWrite callbacks _ _ _ E).
  - destruct ((0 <? written w (out w)) && (written w (out w) =? zlen (out w))) eqn:Ed; cbn [andb has_cb] in Hf.
    + right. zify_bool. split_and!; [done| |].
      * intros E0. rewrite E0 in *. change (zlen []) with 0 in *. lia.
      * rewrite Hq. apply drop_ge. unfold zlen in *. lia.
    + left. by rewrite app_nil_r in Hf.
  - intros _. unfold isWriting in *. rewrite Hev. by destruct (_ && _).
Qed.

(** ** A transfer *)

Lemma kBufsize_eq : kBufsize = 65536.
Proof. done. Qed.
#[local] Opaque kBufsize.

Section transfer.
Context (content : bytes) (stream buf self : Z) (shared : bool).
Implicit Types x : Transfer P.
Local Abbreviation run := (run_event (Some content) stream buf self shared).

(** The chunk that is read next. *)
Definition chunk (left_ : bytes) : bytes := take (Z.to_nat kBufsize) left_.

Inductive stage := Reading (left_ : bytes) | Finished | Closed.
Definition at_stage (st : stage) x c : Prop :=
  let w := conn x in
  match st with
  | Reading left_ => conn_ok w c /\ state_ w = kConnected /\ context x = Some (Some stream)
      /\ files x = {[ stream := left_ ]} /\ given w ++ left_ = content
      /\ highWaterMark_ w = kBufsize + 1 /\ zlen (out w) <= kBufsize
      /\ (functors w = [] \/ functors w = [FWriteComplete] /\ out w = [])
  | Finished => conn_ok w c /\ state_ w = kDisconnecting /\ given w = content /\ out w = [] /\ functors w = []
      /\ (if shared then context x = Some (Some stream) /\ files x = {[ stream := [] ]}
          else context x = Some None /\ files x = ∅)
  | Closed => parked w c /\ state_ w = kDisconnected /\ given w `prefix_of` content
      /\ zlen (out w) <= kBufsize
      /\ (functors w = [] \/ shared = true /\ functors w = [FWriteComplete])
      /\ (if shared then context x = Some (Some stream) /\ exists l, files x = {[ stream := l ]} else files x = ∅)
  end.

(** A channel that is watched for writing stays so, and the write side stays open. *)
Definition stays x c x' c' : Prop :=
  isWriting c = true -> isWriting c' = true /\ shut_wr (conn x') = shut_wr (conn x).

(** The next event: the peer of Download2 does not close while a write-complete callback
    is posted; a chunk that is sent meets a write that takes all or nothing, and room. *)
Definition allowed (ev : event) x : Prop :=
  let w := conn x in
  match ev with
  | Writable => state_ w <> kDisconnected
  | Functor => forall l, state_ w = kConnected -> files x !! stream = Some l -> op_ok (CSend (chunk l)) w
  | Down => state_ w <> kDisconnected /\ (shared = false -> functors w = [])
  | Up | Destroyed => False
  end.
Fixpoint allowed_all (evs : list event) x : Prop :=
  match evs with
  | [] => True
  | ev :: evs' => allowed ev x /\ forall x', run ev x = Ok (tt, x') -> allowed_all evs' x'
  end.

Lemma zlen_chunk l : zlen (chunk l) <= kBufsize.
Proof. pose proof kBufsize_eq. unfold chunk, zlen. rewrite length_take. lia. Qed.

Lemma wp_fread l x (Q : bytes -> Transfer P -> Prop) :
  files x = {[ stream := l ]} ->
  Q (chunk l) (set_files {[ stream := drop (Z.to_nat kBufsize) l ]} x) ->
  wp (fread (Some stream)) x Q.
Proof.
  intros E HQ. unfold fread. wp_step. wp_step. rewrite E, lookup_singleton_eq. wp_step. wp_step.
  wp_step. by rewrite E, insert_singleton_eq.
Qed.

Lemma wp_fclose l x (Q : unit -> Transfer P -> Prop) :
  files x = {[ stream := l ]} -> Q tt (set_files ∅ x) -> wp (fclose (Some stream)) x Q.
Proof.
  intros E HQ. unfold fclose. wp_step. wp_step. rewrite E, lookup_singleton_eq. wp_step.
  by rewrite E, delete_singleton_eq.
Qed.

Lemma wp_transfer_conn {A} (m : ST (Conn (P := P)) A) a w' x (Q : A -> Transfer P -> Prop) :
  m (conn x) = Ok (a, w') -> Q a (set_conn w' x) -> wp (on_conn m) x Q.
Proof. intros E HQ. unfold on_conn. wp_step. by apply (wp_Ok _ _ a w'). Qed.

(** A chunk that has been read is sent. *)
Lemma wp_send_chunk l x c (Q : unit -> Transfer P -> Prop) :
  conn_ok (conn x) c -> state_ (conn x) = kConnected -> highWaterMark_ (conn x) = kBufsize + 1 ->
  out (conn x) = [] -> functors (conn x) = [] -> op_ok (CSend (chunk l)) (conn x) ->
  given (conn x) ++ l = content -> context x = Some (Some stream) ->
  files x = {[ stream := drop (Z.to_nat kBufsize) l ]} ->
  (forall x' c', at_stage (Reading (drop (Z.to_nat kBufsize) l)) x' c' -> stays x c x' c' -> Q tt x') ->
  wp (on_conn (send_local buf (chunk l))) x Q.
Proof.
  intros Hok Hs Hm Ho Hf Hop Hg Hc Hfi HQ.
  destruct (send_local_spec buf (conn x) c (chunk l)) as (w' & c' & E & Hok' & _ & Hg' & Hz & Hs' & Hm' & Hsh & Hf' & Hw & _);
    [done|done|apply zlen_chunk|lia|done..|].
  apply (wp_transfer_conn _ tt w'); [done|]. apply (HQ _ c'); [|by intros ?; split; [apply Hw|] ].
  cbn. split_and!; try done; [|congruence].
  rewrite Hg', <- (assoc_L (++)). unfold chunk. by rewrite take_drop.
Qed.

Lemma stage_Writable st x c :
  at_stage st x c -> allowed Writable x ->
  wp (run Writable) x (fun _ x' => exists st' c', at_stage st' x' c' /\ stays x c x' c').
Proof.
  intros Hst Ha. cbn [run_event]. destruct st as [l| |]; [| |by destruct Hst as (_ & ? & _)].
  - destruct Hst as (Hok & Hs & Hc & Hf & Hg & Hm & Hz & Hfs).
    destruct (writable_spec _ _ Hok) as (w' & c' & E & Hok' & _ & Hg' & Hz' & Hs' & Hm' & Hf' & Hw & Hsh).
    apply (wp_transfer_conn _ tt w'); [done|]. exists (Reading l), c'. split; [|by intros ?; split; [apply Hw|] ].
    cbn. split_and!; try done; try congruence; [lia|].
    destruct Hf' as [->|(-> & Hne & Ho)].
    + destruct Hfs as [Hfs|[Hfs Ho] ]; [by left|]. right. split; [done|].
      rewrite Ho in Hz'. destruct (out w'); [done|]. exfalso. cbn in Hz'. unfold zlen in Hz'. cbn in Hz'. lia.
    + destruct Hfs as [->|[_ Ho'] ]; [by right|done].
  - destruct Hst as (Hok & Hs & Hg & Ho & Hfs & Hc).
    destruct (writable_spec _ _ Hok) as (w' & c' & E & Hok' & _ & Hg' & Hz' & Hs' & Hm' & Hf' & Hw & Hsh).
    apply (wp_transfer_conn _ tt w'); [done|]. exists Finished, c'. split; [|by intros ?; split; [apply Hw|] ].
    cbn. split_and!; try done; try congruence.
    + rewrite Ho in Hz'. destruct (out w'); [done|]. exfalso. unfold zlen in Hz'. cbn in Hz'. lia.
    + destruct Hf' as [->|(_ & Hne & _)]; [done|by rewrite Ho in Hne].
Qed.

(** In the loop's thread. *)
Lemma wp_shutdown x c (Q : unit -> Transfer P -> Prop) :
  conn_ok (conn x) c -> state_ (conn x) = kConnected ->
  Q tt (set_conn (let w := setState kDisconnecting (conn x) in
                  if isWriting c then w else set_socket (writes w) (sent w) true w) x) ->
  wp (on_conn (shutdown true)) x Q.
Proof.
  intros Hok Hs HQ. eapply (wp_transfer_conn _ tt); [|exact HQ]. unfold shutdown. st_simp.
  rewrite bool_decide_eq_true_2 by done. unfold run_in_loop, shutdownInLoop. st_simp.
  rewrite (channel_eq _ c) by apply Hok. cbv zeta. by destruct (isWriting c).
Qed.

Lemma wp_shutdown_idle x (Q : unit -> Transfer P -> Prop) :
  state_ (conn x) <> kConnected -> Q tt x -> wp (on_conn (shutdown true)) x Q.
Proof.
  intros Hs HQ. eapply (wp_transfer_conn _ tt (conn x)); [|by destruct x]. unfold shutdown. st_simp.
  by rewrite bool_decide_eq_false_2.
Qed.

Lemma wp_send_idle l x (Q : unit -> Transfer P -> Prop) :
  state_ (conn x) <> kConnected ->
  (forall m, Q tt (set_conn (set_memory m (conn x)) x)) -> wp (on_conn (send_local buf l)) x Q.
Proof.
  intros Hs HQ. eapply (wp_transfer_conn _ tt); [|apply HQ]. unfold send_local, send_ptr. st_simp.
  cbn [state_ set_memory]. rewrite bool_decide_eq_false_2 by done. st_simp. done.
Qed.

Lemma chunk_nil l : zlen (chunk l) <= 0 -> l = [].
Proof.
  pose proof kBufsize_eq as E. unfold chunk, zlen. rewrite length_take. destruct l; [done|]. cbn [length]. lia.
Qed.

Lemma stage_Functor st x c :
  at_stage st x c -> allowed Functor x ->
  wp (run Functor) x (fun _ x' => exists st' c', at_stage st' x' c' /\ stays x c x' c').
Proof.
  intros Hst Ha. cbn [run_event]. wp_step. apply (wp_transfer_conn _ (functors (conn x)) (conn x)); [done|].
  replace (set_conn (conn x) x) with x by (by destruct x).
  destruct (functors (conn x)) as [|f rest] eqn:Hfs; [wp_step; by exists st, c|].
  wp_step. apply (wp_transfer_conn _ tt (set_functors rest (timers (conn x)) (conn x))); [done|].
  destruct st as [l| |].
  - destruct Hst as (Hok & Hs & Hc & Hf & Hg & Hm & Hz & Hfs').
    destruct Hfs' as [?|[Hfs' Ho] ]; [congruence|]. rewrite Hfs in Hfs'. injection Hfs' as -> ->.
    unfold onWriteComplete. wp_step. wp_step. cbn [context set_conn]. rewrite Hc. wp_step.
    apply (wp_fread l); [done|]. destruct (Z.ltb_spec 0 (zlen (chunk l))) as [Hn|Hn].
    + eapply (wp_send_chunk l _ c); try done; [|by intros x' c' ? ?; eexists _, c'].
      apply Ha; [done|]. by rewrite Hf, lookup_singleton_eq.
    + apply chunk_nil in Hn as ->. wp_step. rewrite app_nil_r in Hg. wp_step.
      * wp_step. apply (wp_fclose (drop (Z.to_nat kBufsize) [])); [done|]. wp_step.
        eapply (wp_shutdown _ c); [done|done|]. exists Finished, c. split; [|by intros Hw; cbn; rewrite Hw].
        cbn. destruct shared; [done|]. destruct (isWriting c); split_and!; done.
      * eapply (wp_shutdown _ c); [done|done|]. exists Finished, c. split; [|by intros Hw; cbn; rewrite Hw].
        cbn. destruct shared; [|done]. rewrite drop_nil. destruct (isWriting c); split_and!; done.
  - destruct Hst as (_ & _ & _ & _ & ? & _). congruence.
  - destruct Hst as (Hp & Hs & Hg & Hz & Hfs' & Hc). destruct Hfs' as [?|[Hsh Hfs'] ]; [congruence|].
    rewrite Hfs in Hfs'. injection Hfs' as -> ->. rewrite Hsh in Hc. destruct Hc as [Hc [l Hl] ].
    unfold onWriteComplete. wp_step. wp_step. cbn [context set_conn]. rewrite Hc. wp_step.
    apply (wp_fread l); [done|]. rewrite Hsh. destruct (0 <? zlen (chunk l)).
    + apply wp_send_idle; [by cbn; rewrite Hs|]. intros m. exists Closed, c. split; [|done]. cbn. rewrite Hsh.
      split_and!; try done; [by left|]. by eexists.
    + wp_step. cbn [negb when]. wp_step. apply wp_shutdown_idle; [by cbn; rewrite Hs|].
      exists Closed, c. split; [|done]. cbn. rewrite Hsh. split_and!; try done; [by left|]. by eexists.
Qed.

Lemma quiet_callbacks :
  harmless (connectionCallback_ (callbacks (P := P))) /\ harmless (closeCallback_ (callbacks (P := P))).
Proof. split; by eexists. Qed.

Lemma closed_eq w c :
  chan_ok w c -> state_ w = kConnected \/ state_ w = kDisconnecting ->
  exists w' c', handleClose callbacks w = Ok (tt, w') /\ parked w' c' /\ state_ w' = kDisconnected
    /\ given w' = given w /\ out w' = out w /\ functors w' = functors w.
Proof.
  intros Hch Hs. destruct quiet_callbacks as [H1' H2'].
  destruct (handleClose_spec callbacks w c Hch Hs H1' H2') as (w' & c' & E & Hp & _ & Hs' & _).
  exists w', c'. destruct (handleClose_eq _ _ _ H1' H2' E) as (p & h & ->). by split_and!.
Qed.

Lemma stage_Down st x c :
  at_stage st x c -> allowed Down x -> wp (run Down) x (fun _ x' => exists c', at_stage Closed x' c').
Proof.
  intros Hst [Hnd Hq]. cbn [run_event]. wp_step.
  assert (chan_ok (conn x) c /\ (state_ (conn x) = kConnected \/ state_ (conn x) = kDisconnecting)
          /\ given (conn x) `prefix_of` content /\ zlen (out (conn x)) <= kBufsize
          /\ (functors (conn x) = [] \/ shared = true /\ functors (conn x) = [FWriteComplete])
          /\ (if shared then context x = Some (Some stream) /\ exists l, files x = {[ stream := l ]}
              else (context x = Some (Some stream) /\ exists l, files x = {[ stream := l ]})
                   \/ context x = Some None /\ files x = ∅))
    as (Hch & Hs & Hg & Hz & Hfs & Hc).
  { destruct st as [l| |].
    - destruct Hst as (Hok & Hs & Hc & Hf & Hg & Hm & Hz & Hfs). split_and!; try done.
      + apply Hok.
      + by left.
      + by exists l.
      + destruct Hfs as [?|[Hfs _] ]; [by left|]. destruct shared; [by right|]. left. by apply Hq.
      + destruct shared; [split; [done|by exists l]|]. left. split; [done|by exists l].
    - destruct Hst as (Hok & Hs & Hg & Ho & Hfs & Hc). split_and!.
      + apply Hok.
      + by right.
      + by rewrite Hg.
      + rewrite Ho, kBufsize_eq. done.
      + by left.
      + destruct shared; [destruct Hc; split; [done|by eexists]|by right].
    - destruct Hst as (_ & ? & _). done. }
  destruct (closed_eq _ _ Hch Hs) as (w' & c' & E & Hp & Hs' & Hg' & Ho' & Hf').
  apply (wp_transfer_conn _ tt w'); [done|]. unfold onConnection. wp_step.
  apply (wp_transfer_conn _ false w'); [unfold isConnected, gets; cbn; by rewrite Hs'|].
  wp_step. rewrite orb_false_r. wp_step.
  - apply (wp_transfer_conn _ tt (marked (kBufsize + 1) w')); [done|]. wp_step. wp_step. cbn [context set_conn].
    match goal with E0 : shared = true |- _ => rewrite E0 in Hc |- * end.
    destruct Hc as [Hc [l Hl] ]. rewrite Hc. cbn [negb when]. wp_step. exists c'.
    unfold at_stage. cbn [conn context files set_conn].
    change (given (marked (kBufsize + 1) w')) with (given w'). change (out (marked (kBufsize + 1) w')) with (out w').
    change (functors (marked (kBufsize + 1) w')) with (functors w'). rewrite Hf', Hg', Ho'. match goal with E0 : shared = true |- _ => rewrite E0 in Hfs |- * end.
    split_and!; try done. by eexists.
  - wp_step. wp_step. cbn [context set_conn].
    match goal with E0 : shared = false |- _ => rewrite E0 in Hc, Hfs |- * end. cbn [negb when].
    destruct Hfs as [Hfs|[? _] ]; [|done].
    assert (forall f', f' = ∅ -> exists c', at_stage Closed (mkTransfer w' (context x) f') c') as Hend.
    { intros f' ->. exists c'. cbn. rewrite Hf', Hg', Ho'.
      match goal with E0 : shared = false |- _ => rewrite E0 end. split_and!; try done. by left. }
    destruct Hc as [ [Hc [l Hl] ]|[Hc Hl] ]; rewrite Hc.
    + apply (wp_fclose l); [done|]. by apply Hend.
    + wp_step. destruct (Hend (files x) Hl) as [c2 Hc2]. exists c2. by destruct x.
Qed.

(** ** Runs *)

(** A new connection on a poller with room. *)
Definition ready addr (p : P) h sockfd : Prop :=
  poller_inv p (<[addr := Channel_ctor sockfd]> h) /\ 0 <= sockfd < 2 ^ 31
  /\ registered p !! sockfd = None /\ Z.of_nat (base.size (registered p)) < 2 ^ 31 - 1.
Definition Transfer_start addr (p : P) h sockfd ws : Transfer P :=
  mkTransfer (TcpConnection_ctor addr p h sockfd ∅ ws) None ∅.

Lemma established_ok addr p h sockfd ws :
  ready addr p h sockfd ->
  exists w c, connectionEstablished callbacks self (TcpConnection_ctor addr p h sockfd ∅ ws) = Ok (tt, w)
    /\ conn_ok w c /\ isWriting c = false /\ state_ w = kConnected /\ given w = [] /\ out w = []
    /\ functors w = [] /\ writes w = ws /\ shut_wr w = false.
Proof.
  intros (Hinv & Hfd & Hr & Hsz). destruct quiet_callbacks as [Hcb _].
  destruct (connectionEstablished_spec callbacks (TcpConnection_ctor addr p h sockfd ∅ ws) self (Channel_ctor sockfd))
    as (w & c & E & Hch & Hf & _ & Hs & _ & _ & Hw); [done|apply lookup_insert_eq|done..|].
  exists w, c. destruct (established_eq _ _ _ _ Hcb E) as (p' & h' & ->).
  split; [exact E|]. split; [split_and!; [done|apply Buffer_empty_wf|by vm_compute|done]|].
  split; [|by split_and!].
  destruct Hch as (_ & _ & _ & _ & _ & Hwt). rewrite Hw, Hf, lookup_insert_eq in Hwt.
  injection Hwt as Hwt. unfold isWriting. by rewrite <- Hwt.
Qed.

Lemma wp_up x w c (Q : unit -> Transfer P -> Prop) :
  connectionEstablished callbacks self (conn x) = Ok (tt, w) -> state_ w = kConnected -> files x = ∅ ->
  wp (on_conn (send_local buf (chunk content)))
    (mkTransfer (marked (kBufsize + 1) w) (Some (Some stream)) {[ stream := drop (Z.to_nat kBufsize) content ]}) Q ->
  conn_ok w c -> wp (run Up) x Q.
Proof.
  intros E Hs Hf HQ Hok. cbn [run_event]. wp_step. apply (wp_transfer_conn _ tt w); [done|].
  unfold onConnection. wp_step. apply (wp_transfer_conn _ true w); [unfold isConnected, gets; cbn; by rewrite Hs|].
  rewrite orb_true_r. wp_step. cbn [when]. apply (wp_transfer_conn _ tt (marked (kBufsize + 1) w)); [done|].
  wp_step. unfold fopen. wp_step. wp_step. wp_step. wp_step. wp_step. cbn [files set_conn set_files set_context].
  rewrite Hf. wp_step. apply (wp_fread content); [done|]. cbn. exact HQ.
Qed.

Lemma stage_start addr p h sockfd ws :
  ready addr p h sockfd ->
  (forall w, connectionEstablished callbacks self (TcpConnection_ctor addr p h sockfd ∅ ws) = Ok (tt, w) ->
     op_ok (CSend (chunk content)) w) ->
  wp (run Up) (Transfer_start addr p h sockfd ws)
    (fun _ x' => exists c', at_stage (Reading (drop (Z.to_nat kBufsize) content)) x' c').
Proof.
  intros Hr Hop. destruct (established_ok addr p h sockfd ws Hr) as (w & c & E & Hok & Hw & Hs & Hg & Ho & Hf & _).
  eapply (wp_up _ w c); [done|done|done| |done].
  eapply (wp_send_chunk content _ c); try done.
  - exact (Hop w E).
  - change (given w ++ content = content). by rewrite Hg.
  - intros x' c' H' _. by exists c'.
Qed.

Lemma stage_run evs st x c :
  at_stage st x c -> allowed_all evs x ->
  exists x', for_each run evs x = Ok (tt, x') /\ exists st' c', at_stage st' x' c'.
Proof.
  revert st x c. induction evs as [|ev evs IH]; intros st x c Hst Ha; cbn [for_each].
  { exists x. split; [done|]. by exists st, c. }
  destruct Ha as [Ha Hall].
  assert (wp (run ev) x (fun _ x' => exists st' c', at_stage st' x' c')) as ( [] & x1 & E1 & st1 & c1 & Hst1).
  { destruct ev; [done| | | |done].
    - eapply wp_mono; [by eapply stage_Writable|]. intros _ x' (st' & c' & ? & _). by exists st', c'.
    - eapply wp_mono; [by eapply stage_Functor|]. intros _ x' (st' & c' & ? & _). by exists st', c'.
    - eapply wp_mono; [by eapply stage_Down|]. intros _ x' (c' & ?). by exists Closed, c'. }
  destruct (IH st1 x1 c1 Hst1 (Hall _ E1)) as (x' & E & Hx'). exists x'. unfold mbind, ST_bind. by rewrite E1.
Qed.

(** The connection goes, and with it what its context owns. *)
Lemma stage_destroyed x c :
  at_stage Closed x c -> functors (conn x) = [] ->
  Z.of_nat (base.size (registered (poller_ (conn x)))) < 2 ^ 31 ->
  wp (run Destroyed) x (fun _ x' => files x' = ∅).
Proof.
  intros (Hp & Hs & Hg & Hz & _ & Hc) Hf Hsz. cbn [run_event]. wp_step.
  destruct (connectionDestroyed_spec callbacks (conn x) c Hp) as (w' & E & _); [by rewrite Hs|done|].
  apply (wp_transfer_conn _ tt w'); [done|]. wp_step. wp_step. cbn [context set_conn].
  wp_step. destruct shared eqn:Hsh.
  - destruct Hc as [Hc [l Hl] ]. rewrite Hc. cbn [when]. apply (wp_fclose l); [done|]. by wp_step.
  - destruct (context x) as [[fp|]|]; cbn [when]; wp_step; by wp_step.
Qed.

(** What the stages have in common. *)
Lemma stage_facts st x c :
  at_stage st x c ->
  given (conn x) `prefix_of` content /\ zlen (out (conn x)) <= kBufsize
  /\ (forall n, FHighWaterMark n ∉ functors (conn x))
  /\ (state_ (conn x) = kDisconnecting -> sent (conn x) = content)
  /\ (state_ (conn x) = kDisconnected -> at_stage Closed x c).
Proof.
  intros Hst. destruct st as [l| |].
  - destruct Hst as (Hok & Hs & Hc & Hf & Hg & Hm & Hz & Hfs). rewrite Hs. split_and!; try done.
    + by exists l.
    + intros n. destruct Hfs as [->|[-> _] ]; set_solver.
  - destruct Hst as (Hok & Hs & Hg & Ho & Hfs & Hc). rewrite Hs, Hg, Ho, Hfs, kBufsize_eq.
    split_and!; try done; [set_solver|]. intros _. unfold given in Hg. by rewrite Ho, app_nil_r in Hg.
  - pose proof Hst as (Hp & Hs & Hg & Hz & Hfs & Hc). split_and!; try done.
    + intros n. destruct Hfs as [->|[_ ->] ]; set_solver.
    + by rewrite Hs.
Qed.
End transfer.
End conn_frames.


(** ** With a socket that takes every chunk *)

Section direct.
Context {P : Type} `{PollerLaws P, Build}.
Context (content : bytes) (stream buf self : Z) (shared : bool).
Implicit Types (w : Conn (P := P)) (c : Channel) (x : Transfer P).
Local Abbreviation run := (run_event (Some content) stream buf self shared).

Definition takes_all (r : write_result) : Prop := exists n, r = Wrote n /\ kBufsize <= n.

Lemma direct_op w c data :
  channels w !! readWriteChannel_ w = Some c -> isWriting c = false -> out w = [] -> zlen data <= kBufsize ->
  Forall takes_all (writes w) -> writes w <> [] ->
  op_ok (CSend data) w /\ direct w c && complete w data = true.
Proof.
  intros Hc Hw Ho Hz Hall Hne. destruct (writes w) as [|r ws] eqn:Ew; [done|].
  apply Forall_cons in Hall as [(n & -> & Hn) _]. pose proof (zlen_nonneg data).
  assert (written w data = zlen data) as Hwr by (unfold written; rewrite Ew; lia).
  assert (direct w c = true) as Hd by (unfold direct; fold (out w); rewrite Hw, bool_decide_eq_true_2; done).
  split; [|rewrite Hd; unfold complete; rewrite Ew; by apply Z.eqb_eq].
  intros c2 Hc2. assert (c2 = c) as -> by congruence. rewrite kBufsize_eq in Hz. split_and!.
  - unfold max_size. lia.
  - intros _. split; [unfold broken; by rewrite Ew|by right].
  - unfold queued. rewrite Hd, Hwr, Z.sub_diag. destruct (broken w); done.
Qed.

(** After a chunk was taken at once. *)
Definition under_way (l : bytes) x c : Prop :=
  at_stage content stream shared (Reading l) x c /\ isWriting c = false
  /\ functors (conn x) = [FWriteComplete] /\ out (conn x) = [] /\ Forall takes_all (writes (conn x)).
Definition all_sent x : Prop :=
  sent (conn x) = content /\ out (conn x) = [] /\ functors (conn x) = [] /\ shut_wr (conn x) = true
  /\ state_ (conn x) = kDisconnecting /\ (shared = false -> files x = ∅).

Lemma wp_direct_chunk l x c (Q : unit -> Transfer P -> Prop) :
  conn_ok (conn x) c -> state_ (conn x) = kConnected -> highWaterMark_ (conn x) = kBufsize + 1 ->
  out (conn x) = [] -> functors (conn x) = [] -> given (conn x) ++ l = content ->
  context x = Some (Some stream) -> files x = {[ stream := drop (Z.to_nat kBufsize) l ]} ->
  isWriting c = false -> Forall takes_all (writes (conn x)) -> writes (conn x) <> [] ->
  (forall x' c', under_way (drop (Z.to_nat kBufsize) l) x' c' ->
     writes (conn x') = tail (writes (conn x)) -> Q tt x') ->
  wp (on_conn (send_local buf (chunk l))) x Q.
Proof.
  intros Hok Hs Hm Ho Hf Hg Hc Hfi Hw Hall Hne HQ.
  destruct (direct_op (conn x) c (chunk l)) as [Hop Hd]; [apply Hok|done|done|apply zlen_chunk|done|done|].
  destruct (send_local_spec buf (conn x) c (chunk l))
    as (w' & c' & E & Hok' & _ & Hg' & Hz & Hs' & Hm' & _ & Hf' & _ & Hdir);
    [done|done|apply zlen_chunk|lia|done..|].
  destruct (Hdir Hd) as (Hf2 & Ho2 & Hw2 & Hwr2).
  apply (wp_transfer_conn _ tt w'); [done|]. apply (HQ _ c'); [|done]. split; [|split_and!; try done].
  - cbn. split_and!; try done; [|congruence]. rewrite Hg', <- (assoc_L (++)). unfold chunk. by rewrite take_drop.
  - congruence.
  - cbn. rewrite Hwr2. by apply Forall_tail.
Qed.

(** A write-complete callback: the next chunk, or the end. *)
Lemma next_chunk l x c :
  under_way l x c -> (l <> [] -> writes (conn x) <> []) ->
  wp (run Functor) x (fun _ x' =>
    if decide (l = []) then all_sent x'
    else exists c', under_way (drop (Z.to_nat kBufsize) l) x' c' /\ writes (conn x') = tail (writes (conn x))).
Proof.
  intros (Hst & Hw & Hf & Ho & Hall) Hne. destruct Hst as (Hok & Hs & Hc & Hfi & Hg & Hm & Hz & _).
  cbn [run_event]. wp_step. apply (wp_transfer_conn _ (functors (conn x)) (conn x)); [done|].
  replace (set_conn (conn x) x) with x by (by destruct x). rewrite Hf.
  wp_step. apply (wp_transfer_conn _ tt (set_functors [] (timers (conn x)) (conn x))); [done|].
  unfold onWriteComplete. wp_step. wp_step. cbn [context set_conn]. rewrite Hc. wp_step.
  apply (wp_fread stream l); [done|]. destruct (Z.ltb_spec 0 (zlen (chunk l))) as [Hn|Hn].
  - assert (l <> []) as Hl by (intros ->; unfold chunk in Hn; rewrite take_nil in Hn; done).
    eapply (wp_direct_chunk l _ c); try done; [by apply Hne|].
    intros x' c' Hu Hwr. rewrite decide_False by done. by exists c'.
  - apply chunk_nil in Hn as ->. rewrite app_nil_r in Hg. unfold given in Hg. rewrite Ho, app_nil_r in Hg.
    wp_step. wp_step.
    + wp_step. apply (wp_fclose stream (drop (Z.to_nat kBufsize) [])); [done|]. wp_step.
      eapply (wp_shutdown _ c); [done|done|]. rewrite decide_True by done. unfold all_sent. cbn. rewrite Hw. by split_and!.
    + eapply (wp_shutdown _ c); [done|done|]. rewrite decide_True by done. unfold all_sent. cbn. rewrite Hw. split_and!; try done.
      intros Hsh. by rewrite Hsh in *.
Qed.

Lemma idle_functors n x : functors (conn x) = [] -> for_each run (replicate n Functor) x = Ok (tt, x).
Proof.
  intros Hf. induction n as [|n IH]; [done|]. cbn [replicate for_each]. unfold mbind, ST_bind.
  assert (run Functor x = Ok (tt, x)) as ->; [|done].
  cbn [run_event]. unfold on_conn, zoom. st_simp. rewrite Hf. by destruct x.
Qed.

Lemma finish_run n l x c :
  under_way l x c -> zlen l <= Z.of_nat n * kBufsize -> (n <= length (writes (conn x)))%nat ->
  exists x', for_each run (replicate (S n) Functor) x = Ok (tt, x') /\ all_sent x'.
Proof.
  pose proof kBufsize_eq as HK. revert l x c. induction n as [|n IH]; intros l x c Hu Hz Hn.
  - assert (l = []) as -> by (destruct l; [done|]; rewrite zlen_cons in Hz; pose proof (zlen_nonneg l); lia).
    destruct (next_chunk [] x c Hu) as ( [] & x' & E & Hx'); [done|]. rewrite decide_True in Hx' by done.
    exists x'. split; [|done]. cbn [replicate for_each]. unfold mbind, ST_bind. by rewrite E.
  - destruct (next_chunk l x c Hu) as ( [] & x1 & E & Hx1).
    { intros _ E0. rewrite E0 in Hn. cbn in Hn. lia. }
    change (replicate (S (S n)) Functor) with (Functor :: replicate (S n) Functor). cbn [for_each].
    unfold mbind, ST_bind. rewrite E. destruct (decide (l = [])) as [->|Hne].
    + exists x1. split; [|done]. apply idle_functors, Hx1.
    + destruct Hx1 as (c1 & Hu1 & Hwr). eapply IH; [exact Hu1| |].
      * unfold zlen in *. rewrite length_drop. lia.
      * rewrite Hwr. destruct (writes (conn x)); cbn in *; lia.
Qed.

Lemma up_direct addr (p : P) h sockfd ws :
  ready addr p h sockfd -> Forall takes_all ws -> ws <> [] ->
  exists x c, run Up (Transfer_start addr p h sockfd ws) = Ok (tt, x)
    /\ under_way (drop (Z.to_nat kBufsize) content) x c /\ writes (conn x) = tail ws.
Proof.
  intros Hr Hall Hne.
  destruct (established_ok self addr p h sockfd ws Hr) as (w & c & E & Hok & Hw & Hs & Hg & Ho & Hf & Hwr & _).
  assert (wp (run Up) (Transfer_start addr p h sockfd ws)
    (fun _ x' => exists c', under_way (drop (Z.to_nat kBufsize) content) x' c' /\ writes (conn x') = tail ws))
    as ( [] & x1 & E1 & c1 & Hu); [|by exists x1, c1].
  eapply (wp_up content stream buf self shared _ w c); [done|done|done| |done].
  eapply (wp_direct_chunk content _ c); try done.
  - change (given w ++ content = content). by rewrite Hg.
  - cbn. by rewrite Hwr.
  - cbn. by rewrite Hwr.
  - intros x' c' Hu Hwr'. exists c'. split; [done|]. rewrite Hwr'. cbn. by rewrite Hwr.
Qed.
End direct.

(** C23: A transfer ends.  If the socket takes every chunk at once, the connection's first event
    and as many write-complete callbacks as there are writes to come send the whole file,
    shut the write side down and, in Download2, close the stream. *)
Theorem download_completes {P : Type} `{PollerLaws P, Build} content stream buf self (shared : bool)
    addr (p : P) h sockfd ws :
  ready addr p h sockfd -> Forall takes_all ws -> ws <> [] -> zlen content <= zlen ws * kBufsize ->
  exists x, for_each (run_event (Some content) stream buf self shared) (Up :: replicate (length ws) Functor)
              (Transfer_start addr p h sockfd ws) = Ok (tt, x)
    /\ sent (conn x) = content /\ contents (outputBuffer_ (conn x)) = [] /\ shut_wr (conn x) = true
    /\ state_ (conn x) = kDisconnecting /\ (shared = false -> files x = ∅).
Proof.
  intros Hr Hall Hne Hz. pose proof kBufsize_eq as HK.
  destruct (up_direct content stream buf self shared addr p h sockfd ws Hr Hall Hne) as (x1 & c1 & E1 & Hu & Hwr1).
  destruct ws as [|r ws]; [done|]. cbn in Hwr1. rewrite zlen_cons in Hz.
  destruct (finish_run content stream buf self shared (length ws) _ x1 c1 Hu) as (x & Ex & Hx).
  { unfold zlen in *. rewrite length_drop. lia. }
  { by rewrite Hwr1. }
  exists x. destruct Hx as (? & ? & ? & ? & ? & ?). split; [|by split_and!].
  change (length (r :: ws)) with (S (length ws)).
  cbn [for_each]. unfold mbind at 1, ST_bind at 1. by rewrite E1.
Qed.

(** Where the transfer goes wrong.  In Download2 the close of the peer leaves the pointer of
    the closed stream in the context, so a write-complete callback that is posted by then
    reads the freed stream.  And in both programs, once a chunk has had to wait, the channel
    is watched for writing for good and shutdown() has no effect: the whole file is sent but
    the peer is never told that it ends. *)
Theorem download_faults {P : Type} `{PollerLaws P, Build} content stream buf self x c :
  (forall l, at_stage content stream false (Reading l) x c -> functors (conn x) = [FWriteComplete] ->
     exists x1, run_event (P := P) (Some content) stream buf self false Down x = Ok (tt, x1)
       /\ run_event (Some content) stream buf self false Functor x1 = Err StaleRead)
  /\ (forall shared st evs, at_stage content stream shared st x c -> isWriting c = true ->
       shut_wr (conn x) = false -> Forall (fun ev => ev <> Down) evs ->
       allowed_all content stream buf self shared evs x ->
       exists x', for_each (run_event (Some content) stream buf self shared) evs x = Ok (tt, x')
         /\ shut_wr (conn x') = false).
Proof.
  split.
  - intros l Hst Hf. destruct Hst as (Hok & Hs & Hc & Hfi & _).
    destruct (closed_eq (conn x) c) as (w & c' & E & _ & Hs' & _ & _ & Hf'); [apply Hok|by left|].
    exists (set_files ∅ (set_conn w x)). split.
    + assert (wp (run_event (Some content) stream buf self false Down) x (fun _ x' => x' = set_files ∅ (set_conn w x)))
        as ( [] & x' & E' & ->); [|done].
      cbn [run_event]. wp_step. apply (wp_transfer_conn _ tt w); [done|]. unfold onConnection. wp_step.
      apply (wp_transfer_conn _ false w); [unfold isConnected, gets; cbn; by rewrite Hs'|]. cbn [orb when].
      wp_step. wp_step. wp_step. wp_step. cbn [context set_conn]. rewrite Hc. cbn [negb when].
      by apply (wp_fclose stream l).
    + cbn [run_event]. unfold on_conn, zoom. st_simp. cbn [conn set_files set_conn]. rewrite Hf', Hf.
      unfold onWriteComplete. st_simp. cbn [context set_files set_conn]. rewrite Hc.
      unfold fread. st_simp. cbn [files set_files set_conn]. by rewrite lookup_empty.
  - intros shared st evs Hst Hw Hsh Hev. revert st x c Hst Hw Hsh.
    induction Hev as [|ev evs Hnd _ IH]; intros st x c Hst Hw Hsh Ha; cbn [for_each]; [by exists x|].
    destruct Ha as [Ha Hall].
    assert (wp (run_event (Some content) stream buf self shared ev) x
      (fun _ x' => exists st' c', at_stage content stream shared st' x' c' /\ stays x c x' c'))
      as ( [] & x1 & E1 & st1 & c1 & Hst1 & Hk).
    { destruct ev; [done|by eapply stage_Writable|by eapply stage_Functor|done|done]. }
    destruct (Hk Hw) as [Hw1 Hsh1].
    destruct (IH st1 x1 c1 Hst1 Hw1 ltac:(congruence) (Hall _ E1)) as (x' & E & Hx').
    exists x'. unfold mbind, ST_bind. by rewrite E1.
Qed.

(** ** Download.cc *)

Lemma readFile_loop_ok fuel content l n :
  0 < n -> (length l < fuel)%nat -> readFile_loop fuel content l n = Ok (content ++ l).
Proof.
  intros Hn. revert content l. induction fuel as [|fuel IH]; intros content l Hl; [lia|]. cbn [readFile_loop].
  destruct (Z.ltb_spec 0 (zlen (take (Z.to_nat n) l))) as [Hz|Hz].
  - rewrite IH, <- (assoc_L (++)), take_drop; [done|]. unfold zlen in Hz. rewrite length_take in Hz.
    rewrite length_drop. lia.
  - unfold zlen in Hz. rewrite length_take in Hz. destruct l; [by rewrite app_nil_r|cbn in Hz; lia].
Qed.

Lemma readFile_ok content : readFile (Some content) = Ok content.
Proof. unfold readFile. by rewrite readFile_loop_ok by lia. Qed.

(** Download.cc gives the whole file to the connection and shuts it down. *)
Theorem download_whole {P : Type} `{PollerLaws P, Build} content buf (w : Conn (P := P)) c :
  conn_ok w c -> state_ w = kConnected -> op_ok (CSend content) w ->
  exists w', onConnection_whole (Some content) buf w = Ok (tt, w')
    /\ given w' = given w ++ content /\ state_ w' = kDisconnecting.
Proof.
  intros Hok Hs Hop. set (w1 := set_memory (<[buf := content]> (memory w)) (marked (64 * 1024) w)).
  destruct (run_op_stream callbacks (CSend content) w1 c Hok) as (w2 & c2 & E & Hok2 & _ & Hst & Hs2 & _); [exact Hop|].
  set (w3 := set_memory (delete buf (memory w2)) w2).
  assert (exists w4, shutdown true w3 = Ok (tt, w4) /\ given w4 = given w2 /\ state_ w4 = kDisconnecting)
    as (w4 & E4 & Hg & Hs4).
  { unfold shutdown, run_in_loop, shutdownInLoop. st_simp. cbn [state_ w3 set_memory]. rewrite Hs2.
    rewrite bool_decide_eq_true_2 by done.
    rewrite (channel_eq (setState kDisconnecting w3) c2) by apply Hok2.
    destruct (isWriting c2); cbn [negb]; by eexists. }
  exists w4. rewrite Hg. split; [|by split]. unfold onConnection_whole, isConnected. st_simp. rewrite Hs.
  rewrite bool_decide_eq_true_2 by done. unfold setHighWaterMark. st_simp. rewrite readFile_ok.
  fold (marked (64 * 1024) w).
  change (memory (marked (64 * 1024) w)) with (memory w). fold w1.
  assert (send_string callbacks true buf w1 = Ok (tt, w2)) as ->; [|exact E4].
  unfold send_string. cbn [memory w1 set_memory]. rewrite lookup_insert_eq. unfold send_ptr. st_simp.
  cbn [state_ w1 set_memory marked]. rewrite Hs, bool_decide_eq_true_2 by done.
  unfold read_block. cbn [memory w1 set_memory]. rewrite lookup_insert_eq.
  pose proof (mem_read_app [] content [] 0 (zlen content) eq_refl eq_refl) as Em. cbn in Em.
  rewrite app_nil_r in Em. rewrite Em. cbn. exact E.
Qed.

(** ** A small file on an EPollPoller *)

Lemma sample_ready : ready (P := EPollPoller) 100 EPollPoller_ctor ∅ 5.
Proof.
  split_and!; [|done|done|done|done]. split; cbn; [done|].
  intros fd [? Hx]. by rewrite lookup_empty in Hx.
Qed.

Definition sample_transfer ws : Transfer EPollPoller := Transfer_start 100 EPollPoller_ctor ∅ 5 ws.

Lemma download_completes_witness :
  exists x, for_each (run_event (H0 := Debug) (Some (cs "abc")) 9 8 7 false) [Up; Functor]
      (sample_transfer [Wrote 65536]) = Ok (tt, x)
    /\ sent (conn x) = cs "abc" /\ shut_wr (conn x) = true /\ files x = ∅.
Proof.
  destruct (download_completes (H1 := Debug) (cs "abc") 9 8 7 false 100 EPollPoller_ctor ∅ 5 [Wrote 65536] sample_ready)
    as (x & E & Hs & _ & Hsh & _ & Hf).
  - repeat constructor. by exists 65536.
  - done.
  - by vm_compute.
  - exists x. split_and!; [exact E|done|done|by apply Hf].
Defined.


Lemma download_faults_witness :
  exists x x1, run_event (H0 := Debug) (Some (cs "abc")) 9 8 7 false Up (sample_transfer [Wrote 65536]) = Ok (tt, x)
    /\ run_event (H0 := Debug) (Some (cs "abc")) 9 8 7 false Down x = Ok (tt, x1)
    /\ run_event (H0 := Debug) (Some (cs "abc")) 9 8 7 false Functor x1 = Err StaleRead.
Proof.
  destruct (up_direct (H1 := Debug) (cs "abc") 9 8 7 false 100 EPollPoller_ctor ∅ 5 [Wrote 65536] sample_ready)
    as (x & c & E & (Hst & _ & Hf & _) & _); [repeat constructor; by exists 65536|done|].
  destruct (download_faults (H1 := Debug) (cs "abc") 9 8 7 x c) as [Hd _].
  destruct (Hd _ Hst Hf) as (x1 & E1 & E2). exists x, x1. split_and!; done.
Defined.
