(* ===== verification/Simple.v ===== *)
(** * The simple protocols: src/arale/examples/simple

    discard (RFC 863), daytime (RFC 867), time with its client, and chargen (RFC 864) with
    its client.  Handlers act on the connections of Session.v; what a handler logs of the
    data is its result.  The wall clock is an argument. *)

From S2P Require Import Prelude Endian Date Buffer TimeZone Logging TcpConnection Session.

(** ** Handlers *)

Section simple.
Context `{Build, Libc}.

(** onMessage of DiscardServer, DaytimeServer, TimeServer and ChargenServer: the bytes that
    are thrown away, and the buffer. *)
Definition discard (buf : Buffer) : ST (Table unit) (bytes * Buffer) := lift (retrieveAllAsString buf).
End simple.

Module Discard.
Definition onConnection (conn : Z) : ST (Table unit) unit := _ ← isConnected conn; mret tt.
Definition onMessage `{Build} (conn : Z) (buf : Buffer) : ST (Table unit) (bytes * Buffer) := discard buf.
End Discard.

Module Daytime.
Definition onConnection `{Libc} (now : Timestamp) (conn : Z) : ST (Table unit) unit :=
  up ← isConnected conn;
  when up (send conn (toFormattedString now true ++ [LF]) ;; shutdown conn).
Definition onMessage `{Build} (conn : Z) (buf : Buffer) : ST (Table unit) (bytes * Buffer) := discard buf.
End Daytime.

Module Time.
(** [now] is time(NULL), a time_t. *)
Definition onConnection `{Build} (now : Z) (conn : Z) : ST (Table unit) unit :=
  up ← isConnected conn;
  when up
    (let be32 := hostToNetwork32 (u32 now) in
     send conn (host_bytes 4 be32) ;;
     shutdown conn).
Definition onMessage `{Build} (conn : Z) (buf : Buffer) : ST (Table unit) (bytes * Buffer) := discard buf.
End Time.

Module TimeClient.
(** What onMessage logs. *)
Inductive report :=
  | ServerTime (time : Z) (text : bytes)
  | NoEnoughData (readable : Z).

(** The connection is down: loop_->quitLoop(). *)
Definition onConnection (conn : Z) : ST (Table unit) bool := up ← isConnected conn; mret (negb up).
Definition onMessage `{Build, Libc} (buf : Buffer) : outcome (report * Buffer) :=
  if 4 <=? readableBytes buf then
    data ← mem_read (buffer_ buf) (peek buf) 4;
    let be32 := host_val data in
    buf ← retrieve buf 4;
    let time := networkToHost32 be32 in
    let ts := mkTimestamp (i64 (u64 (u64 time * u64 kMicroSecondsPerSecond))) in
    Ok (ServerTime time (toFormattedString ts true), buf)
  else Ok (NoEnoughData (readableBytes buf), buf).
(** Data arrives in chunks, and onMessage is called after each. *)
Fixpoint receive `{Build, Libc} (chunks : list bytes) (buf : Buffer) : outcome (list report * Buffer) :=
  match chunks with
  | [] => Ok ([], buf)
  | chunk :: chunks' =>
      '(_, _, buf) ← readFd buf (ReadOk chunk);
      '(r, buf) ← onMessage buf;
      '(rs, buf) ← receive chunks' buf;
      Ok (r :: rs, buf)
  end.
End TimeClient.

Module Chargen.
Record ChargenServer := mkChargen { message_ : bytes; transferred_ : Z; startTime_ : Timestamp; conns : Table unit }.

(** line, and its double. *)
Definition line : bytes := to_char <$> seqZ 33 94.
(** line.substr(i, 72) *)
Definition substr (l : bytes) (pos len : nat) : outcome bytes :=
  if (length l <? pos)%nat then Err LogicError else Ok (take len (drop pos l)).
Fixpoint append_lines (l : bytes) (idx : list nat) (message : bytes) : outcome bytes :=
  match idx with
  | [] => Ok message
  | i :: idx' => s ← substr l i 72; append_lines l idx' (message ++ s ++ [LF])
  end.
Definition ChargenServer_ctor (now : Timestamp) : outcome ChargenServer :=
  message ← append_lines (line ++ line) (seq 0 (127 - 33)) [];
  Ok (mkChargen message 0 now ∅).

Definition on_table {A} (m : ST (Table unit) A) : ST ChargenServer A :=
  zoom conns (fun t s => mkChargen (message_ s) (transferred_ s) (startTime_ s) t) m.
Definition onConnection (conn : Z) : ST ChargenServer unit :=
  up ← on_table (isConnected conn);
  when up (m ← gets message_; on_table (send conn m)).
Definition onMessage `{Build} (conn : Z) (buf : Buffer) : ST ChargenServer (bytes * Buffer) :=
  on_table (discard buf).
Definition onWriteComplete (conn : Z) : ST ChargenServer unit :=
  modify (fun s => mkChargen (message_ s) (i64 (transferred_ s + zlen (message_ s))) (startTime_ s) (conns s)) ;;
  m ← gets message_;
  on_table (send conn m).
(** The bytes and the microseconds of which the throughput is printed. *)
Definition printThroughput (endTime : Timestamp) : ST ChargenServer (Z * Z) :=
  r ← gets (fun s => (transferred_ s, microSecondsSinceEpoch endTime - microSecondsSinceEpoch (startTime_ s)));
  modify (fun s => mkChargen (message_ s) 0 endTime (conns s)) ;;
  mret r.

(** What happens: the result is what is printed. *)
Inductive event :=
  | Up (p : Z)
  | Message (p : Z) (data : bytes)
  | WriteComplete (p : Z)
  | Down (p : Z)
  | Print (endTime : Timestamp).

Definition run_event `{Build} (ev : event) : ST ChargenServer (option (Z * Z)) :=
  match ev with
  | Up p => on_table (established p) ;; onConnection p ;; mret None
  | Message p data =>
      on_table (received p data) ;;
      s ← on_table (conn_at p);
      '(_, b) ← onMessage p (s_in s);
      on_table (on_conn p (sess_setInput b)) ;; mret None
  | WriteComplete p => onWriteComplete p ;; mret None
  | Down p => on_table (closed p) ;; onConnection p ;; mret None
  | Print endTime => r ← printThroughput endTime; mret (Some r)
  end.
End Chargen.

Module ChargenClient.
(** The connection is down: loop_->quitLoop(). *)
Definition onConnection (conn : Z) : ST (Table unit) bool := up ← isConnected conn; mret (negb up).
Definition onMessage (buf : Buffer) : Buffer := retrieveAll buf.
End ChargenClient.

(** ** The time protocol *)

Section time.
Context `{Build, Libc}.
Implicit Types (b : Buffer) (q : bytes).

(** readv(2) of what there is room for. *)
Lemma readFd_room b q data :
  holds b q -> zlen data <= size b - writeIndex_ b ->
  exists b', readFd b (ReadOk data) = Ok (zlen data, 0, b') /\ holds b' (q ++ data)
    /\ size b' = size b /\ readIndex_ b' = readIndex_ b.
Proof.
  intros (Hb & Hr & <-) Hl. unfold readFd. rewrite writableBytes_wf by done.
  rewrite take_ge by (unfold zlen in *; lia).
  destruct (write_room b data) as (mem & b' & -> & E2 & Hb' & Hc & Hs & Hr'); [done..|].
  rewrite bind_Ok. replace (_ <=? _) with true by (symmetry; apply Z.leb_le; lia).
  rewrite E2, bind_Ok. exists b'.
  split; [done|]. split; [|done]. split_and!; [done|lia|done].
Qed.

(** The buffer of a client that has part of the four bytes. *)
Definition waiting b q : Prop := holds b q /\ readIndex_ b = kCheapPrependSize /\ size b = 1032.

Lemma waiting_empty : waiting Buffer_empty [].
Proof. split_and!; [apply holds_empty|done|done]. Qed.

Lemma waiting_readFd b q data :
  waiting b q -> zlen (q ++ data) <= 4 ->
  exists b', readFd b (ReadOk data) = Ok (zlen data, 0, b') /\ waiting b' (q ++ data).
Proof.
  intros (Hh & Hr & Hs) Hl. rewrite zlen_app in Hl. pose proof Hh as (Hb & _ & Hc).
  pose proof (zlen_contents b Hb) as Hz. rewrite Hc, Hr in Hz. unfold kCheapPrependSize in Hz.
  destruct (readFd_room b q data Hh) as (b' & E & Hh' & Hs' & Hr'); [pose proof (zlen_nonneg q); lia|].
  exists b'. split; [done|]. split_and!; [done|congruence|congruence].
Qed.

Lemma onMessage_waits b q :
  waiting b q -> zlen q < 4 -> TimeClient.onMessage b = Ok (TimeClient.NoEnoughData (zlen q), b).
Proof.
  intros (Hh & _) Hq. unfold TimeClient.onMessage. rewrite (holds_length _ _ Hh).
  by replace (4 <=? zlen q) with false by (symmetry; apply Z.leb_gt; lia).
Qed.

Lemma onMessage_time b now :
  0 <= now < 2 ^ 32 -> waiting b (be_bytes 4 now) ->
  exists b', TimeClient.onMessage b
      = Ok (TimeClient.ServerTime now
              (toFormattedString (mkTimestamp (now * kMicroSecondsPerSecond)) true), b')
    /\ contents b' = [].
Proof.
  intros Hn (Hh & _). pose proof Hh as (Hb & _ & Hc).
  destruct (peek_be 4 b now []) as [E1 E2]; [done|by rewrite app_nil_r|].
  unfold TimeClient.onMessage. change (Z.of_nat 4) with 4 in *. rewrite E1, E2, bind_Ok.
  destruct (holds_retrieve b _ 4 Hh) as (b' & E & _ & _ & Hc'); [rewrite zlen_be_bytes; lia|].
  exists b'. rewrite E, bind_Ok. rewrite drop_ge in Hc' by (rewrite length_be_bytes; lia).
  assert (networkToHost32 (host_val (be_bytes 4 now)) = now) as ->.
  { unfold networkToHost32. pose proof (htobe_host_val (be_bytes 4 now)) as Ev.
    rewrite length_be_bytes, be_val_bytes in Ev. rewrite Ev. apply wrapu_small. lia. }
  rewrite (u64_small now), (u64_small kMicroSecondsPerSecond) by (unfold kMicroSecondsPerSecond; lia).
  rewrite u64_small by (unfold kMicroSecondsPerSecond; lia).
  rewrite (wraps_small 64) by (unfold kMicroSecondsPerSecond; lia). done.
Qed.

(** A connected session that sends and shuts down. *)
Lemma sess_send_shutdown {C} (s : Session C) data :
  s_state s = kConnected ->
  s_state (sess_shutdown (sess_send data s)) = kDisconnecting
  /\ s_out (sess_shutdown (sess_send data s)) = s_out s ++ data.
Proof.
  destruct s as [st i o c d]. cbn. by intros ->.
Qed.

Lemma receive_time now chunks b q :
  0 <= now < 2 ^ 32 -> Forall (fun c => c <> []) chunks -> waiting b q -> zlen q < 4 ->
  q ++ concat chunks = be_bytes 4 now ->
  exists waits b', TimeClient.receive chunks b
      = Ok ((TimeClient.NoEnoughData <$> waits)
             ++ [TimeClient.ServerTime now (toFormattedString (mkTimestamp (now * kMicroSecondsPerSecond)) true)], b')
    /\ contents b' = [] /\ Forall (fun n => 0 < n < 4) waits.
Proof.
  intros Hn Hc. revert b q. induction Hc as [|c chunks Hne Hc IH]; intros b q Hb Hq E; cbn [concat] in E.
  { rewrite app_nil_r in E. pose proof (zlen_be_bytes 4 now). subst q. lia. }
  assert (zlen (q ++ c) + zlen (concat chunks) = 4) as Hl.
  { rewrite <- zlen_app, <- (assoc_L (++)), E. apply (zlen_be_bytes 4). }
  pose proof (zlen_nonneg (concat chunks)).
  destruct (waiting_readFd b q c Hb) as (b1 & E1 & Hb1); [lia|].
  cbn [TimeClient.receive]. rewrite E1, bind_Ok. rewrite (assoc_L (++)) in E.
  assert (0 < zlen c) by (destruct c; [done|rewrite zlen_cons; pose proof (zlen_nonneg c); lia]).
  destruct (decide (zlen (concat chunks) = 0)) as [Hz|Hz].
  - assert (chunks = []) as ->.
    { destruct Hc as [|c' ? Hc' _]; [done|]. cbn [concat] in Hz. rewrite zlen_app in Hz.
      destruct c'; [done|]. rewrite zlen_cons in Hz. pose proof (zlen_nonneg c').
      pose proof (zlen_nonneg (concat l)). lia. }
    cbn [concat] in E. rewrite app_nil_r in E. rewrite E in Hb1.
    destruct (onMessage_time b1 now Hn Hb1) as (b2 & E2 & Hb2). exists [], b2.
    rewrite E2, bind_Ok. cbn [TimeClient.receive]. rewrite bind_Ok. split_and!; [done..|constructor].
  - rewrite (onMessage_waits b1 (q ++ c)), bind_Ok by (done || lia).
    destruct (IH b1 (q ++ c) Hb1) as (waits & b2 & E2 & Hb2 & Hw); [lia|done|].
    exists (zlen (q ++ c) :: waits), b2. rewrite E2, bind_Ok. split_and!; [done|done|].
    constructor; [|done]. rewrite zlen_app in *. pose proof (zlen_nonneg q). lia.
Qed.
End time.

(** The time protocol.  The server sends the four bytes of the time and shuts the
    connection down; the client, whatever pieces they come in, reports the time when the
    last piece is there and not before, and once; up to 2106 it is the server's time. *)
Theorem time_protocol `{Build, Libc} (now p : Z) t (s : Session unit) chunks :
  0 <= now < 2 ^ 32 -> t !! p = Some s -> s_state s = kConnected -> s_out s = [] ->
  Forall (fun c => c <> []) chunks ->
  exists s', Time.onConnection now p t = Ok (tt, <[p := s']> t) /\ s_state s' = kDisconnecting
    /\ s_out s' = be_bytes 4 now
    /\ (concat chunks = s_out s' ->
        exists waits b, TimeClient.receive chunks Buffer_empty
            = Ok ((TimeClient.NoEnoughData <$> waits)
                   ++ [TimeClient.ServerTime now (toFormattedString (mkTimestamp (now * kMicroSecondsPerSecond)) true)], b)
          /\ contents b = [] /\ Forall (fun n => 0 < n < 4) waits).
Proof.
  intros Hn Ht Hs Ho Hc.
  exists (sess_shutdown (sess_send (be_bytes 4 now) s)).
  destruct (sess_send_shutdown s (be_bytes 4 now) Hs) as [-> ->]. rewrite Ho. split_and!; [|done..|].
  - assert (wp (Time.onConnection now p) t
      (fun _ t' => t' = <[p := sess_shutdown (sess_send (be_bytes 4 now) s)]> t)) as ([] & ? & E & ->); [|done].
    unfold Time.onConnection, sess_connected. apply wp_bind, (wp_isConnected p s); [done|].
    unfold sess_connected. rewrite bool_decide_eq_true_2 by done. cbn [when].
    unfold hostToNetwork32. rewrite host_bytes_htobe, (wrapu_small 32 now) by done.
    apply wp_bind, (wp_on_conn p s); [done|].
    apply (wp_on_conn p (sess_send (be_bytes 4 now) s)); [apply lookup_insert_eq|].
    by rewrite insert_insert_eq.
  - intros E. by apply receive_time with (q := []); [..|apply waiting_empty| |].
Qed.

Lemma time_protocol_witness :
  exists s', Time.onConnection (H := Debug) 1700000000 7 {[ 7 := sess_setState kConnected sess_new ]}
      = Ok (tt, <[7 := s']> {[ 7 := sess_setState kConnected sess_new ]})
    /\ s_state s' = kDisconnecting /\ s_out s' = be_bytes 4 1700000000
    /\ (concat [take 1 (be_bytes 4 1700000000); drop 1 (be_bytes 4 1700000000)] = s_out s' ->
        exists waits b, TimeClient.receive (H := Debug) (H0 := own_libc)
              [take 1 (be_bytes 4 1700000000); drop 1 (be_bytes 4 1700000000)] Buffer_empty
            = Ok ((TimeClient.NoEnoughData <$> waits)
                   ++ [TimeClient.ServerTime 1700000000
                         (toFormattedString (H0 := own_libc) (mkTimestamp (1700000000 * kMicroSecondsPerSecond)) true)], b)
          /\ contents b = [] /\ Forall (fun n => 0 < n < 4) waits).
Proof.
  apply (time_protocol (H := Debug) (H0 := own_libc) 1700000000 7 _ (sess_setState kConnected sess_new));
    [lia|by vm_compute|done|done|]. repeat constructor; by vm_compute.
Defined.

(** ** Character generation *)

(** The 72 characters of the line that starts with the [i]th printable character. *)
Definition pattern (i : nat) : bytes := (fun j => to_char (33 + (Z.of_nat i + j) mod 94)) <$> seqZ 0 72.
(** The 94 lines. *)
Definition patterns : bytes := concat ((fun i => pattern i ++ [LF]) <$> seq 0 94).
Fixpoint repeated (n : nat) (l : bytes) : bytes :=
  match n with O => [] | S n => l ++ repeated n l end.

Lemma repeated_end n l : repeated n l ++ l = repeated (S n) l.
Proof. induction n as [|n IH]; cbn [repeated]; [by rewrite app_nil_r|]. by rewrite <- (assoc_L (++)), IH. Qed.

Lemma ctor_patterns now : Chargen.ChargenServer_ctor now = Ok (Chargen.mkChargen patterns 0 now ∅).
Proof. by vm_compute. Qed.

(** What the server promises: of each connection, whether it is up and how many times it
    was sent the lines; the bytes since the last report and its time. *)
Record generator := mkGenerator { lines : gmap Z (bool * nat); total : Z; since : Timestamp }.

Definition spec_event (ev : Chargen.event) (a : generator) : generator :=
  match ev with
  | Chargen.Up p => mkGenerator (<[p := (true, 1%nat)]> (lines a)) (total a) (since a)
  | Chargen.Message _ _ => a
  | Chargen.WriteComplete p =>
      mkGenerator (alter (fun '(up, n) => (up, if (up : bool) then S n else n)) p (lines a))
        (total a + 6862) (since a)
  | Chargen.Down p => mkGenerator (alter (fun '(_, n) => (false, n)) p (lines a)) (total a) (since a)
  | Chargen.Print t => mkGenerator (lines a) 0 t
  end.
Definition spec_report (ev : Chargen.event) (a : generator) : option (Z * Z) :=
  match ev with
  | Chargen.Print t => Some (i64 (total a), microSecondsSinceEpoch t - microSecondsSinceEpoch (since a))
  | _ => None
  end.

Definition generated (up_n : bool * nat) : bool * bytes := (up_n.1, repeated up_n.2 patterns).
Record chargen_rel (x : Chargen.ChargenServer) (a : generator) : Prop := {
  cr_message : Chargen.message_ x = patterns;
  cr_total : Chargen.transferred_ x = i64 (total a);
  cr_since : Chargen.startTime_ x = since a;
  cr_conns p : (fun s => (sess_connected s, s_out s)) <$> Chargen.conns x !! p = generated <$> lines a !! p;
  cr_input p s : Chargen.conns x !! p = Some s -> holds (s_in s) []
}.

Definition allowed `{Build} (ev : Chargen.event) (x : Chargen.ChargenServer) : Prop :=
  match ev with
  | Chargen.Up p => Chargen.conns x !! p = None
  | Chargen.Message p data => exists s, Chargen.conns x !! p = Some s /\ readable_into (s_in s) data
  | Chargen.WriteComplete p | Chargen.Down p => is_Some (Chargen.conns x !! p)
  | Chargen.Print _ => True
  end.

Section chargen.
Context `{Build}.
Implicit Types (x : Chargen.ChargenServer) (a : generator).

Lemma wp_table {A} (m : ST (Table unit) A) x Q :
  wp m (Chargen.conns x) (fun r t => Q r (Chargen.mkChargen (Chargen.message_ x) (Chargen.transferred_ x) (Chargen.startTime_ x) t)) ->
  wp (Chargen.on_table m) x Q.
Proof. intros Hw. by apply wp_zoom. Qed.

(** One session changes, and the count. *)
Lemma chargen_insert x a p s f ls tot :
  chargen_rel x a -> holds (s_in s) [] -> f = (sess_connected s, s_out s) ->
  (forall q, generated <$> ls !! q = if decide (q = p) then Some f else generated <$> lines a !! q) ->
  chargen_rel (Chargen.mkChargen (Chargen.message_ x) (i64 tot) (Chargen.startTime_ x) (<[p := s]> (Chargen.conns x)))
    (mkGenerator ls tot (since a)).
Proof.
  intros [Hm Ht Hs Hc Hi] Hh -> Hl. constructor; cbn; [done..| |].
  - intros q. rewrite Hl. destruct (decide (q = p)) as [->|Hne]; [by rewrite lookup_insert_eq|].
    by rewrite lookup_insert_ne.
  - intros q s'. intros [ [<- <-]|[Hne Hq] ]%lookup_insert_Some; [done|by apply (Hi q)].
Qed.

Lemma chargen_lookup x a p s :
  chargen_rel x a -> Chargen.conns x !! p = Some s ->
  holds (s_in s) [] /\ exists n, lines a !! p = Some (sess_connected s, n) /\ s_out s = repeated n patterns.
Proof.
  intros R Hp. split; [by eapply cr_input|]. pose proof (cr_conns _ _ R p) as E. rewrite Hp in E.
  destruct (lines a !! p) as [ [up n]|]; [|done]. cbn in E. injection E as -> E'. by exists n.
Qed.

Lemma generated_alter g (p : Z) up n (ls : gmap Z (bool * nat)) :
  ls !! p = Some (up, n) ->
  forall q, generated <$> alter g p ls !! q
            = if decide (q = p) then Some (generated (g (up, n))) else generated <$> ls !! q.
Proof.
  intros Hp q. destruct (decide (q = p)) as [->|Hne]; [by rewrite lookup_alter_eq, Hp|].
  by rewrite lookup_alter_ne.
Qed.

Lemma i64_add y z : i64 (i64 y + z) = i64 (y + z).
Proof.
  rewrite <- (wraps_wrapu 64 (i64 y + z)), <- (wraps_wrapu 64 (y + z)) by lia. f_equal.
  unfold wraps, wrapu. replace (_ - 2 ^ (64 - 1) + z) with ((y + 2 ^ (64 - 1)) mod 2 ^ 64 + (z - 2 ^ (64 - 1))) by lia.
  rewrite Zplus_mod_idemp_l. f_equal. lia.
Qed.

Lemma zlen_patterns : zlen patterns = 6862.
Proof. by vm_compute. Qed.

#[local] Opaque patterns.

Lemma chargen_Up p x a :
  chargen_rel x a -> Chargen.conns x !! p = None ->
  wp (Chargen.run_event (Chargen.Up p)) x (fun r x' => r = None /\ chargen_rel x' (spec_event (Chargen.Up p) a)).
Proof.
  intros R Hp. set (s0 := sess_setState kConnected (sess_new (C := unit))). cbn [Chargen.run_event].
  wp_step. apply wp_table. unfold established. eapply wp_Ok; [by rewrite Hp|]. fold s0.
  wp_step. unfold Chargen.onConnection. wp_step. apply wp_table, (wp_isConnected p s0); [apply lookup_insert_eq|].
  change (sess_connected s0) with true. cbn [when Chargen.conns]. wp_step. wp_step. cbn [Chargen.message_].
  apply wp_table, (wp_on_conn p s0); [apply lookup_insert_eq|]. cbn. wp_step. split; [done|].
  rewrite insert_insert_eq, (cr_total _ _ R). apply (chargen_insert x a p _ (true, patterns)); [done|apply holds_empty| |].
  - cbn. by rewrite (cr_message _ _ R).
  - intros q. destruct (decide (q = p)) as [->|Hne].
    + rewrite lookup_insert_eq. unfold generated. cbn. by rewrite app_nil_r.
    + by rewrite lookup_insert_ne.
Qed.

Lemma chargen_WriteComplete p x a :
  chargen_rel x a -> is_Some (Chargen.conns x !! p) ->
  wp (Chargen.run_event (Chargen.WriteComplete p)) x
    (fun r x' => r = None /\ chargen_rel x' (spec_event (Chargen.WriteComplete p) a)).
Proof.
  intros R [s Hp]. destruct (chargen_lookup x a p s R Hp) as (Hi & n & Hl & Ho).
  cbn [Chargen.run_event]. wp_step. unfold Chargen.onWriteComplete. wp_step. wp_step. wp_step. wp_step.
  cbn [Chargen.message_]. apply wp_table, (wp_on_conn p s); [done|]. wp_step. split; [done|]. cbn.
  rewrite (cr_message _ _ R), (cr_total _ _ R), zlen_patterns, i64_add, <- (cr_message _ _ R).
  eapply chargen_insert; [done| |done|].
  - unfold sess_send. by destruct (sess_connected s).
  - intros q. rewrite (generated_alter _ _ _ _ _ Hl). destruct (decide _); [|done]. do 2 f_equal.
    unfold generated, sess_send. destruct (sess_connected s) eqn:Ec; cbn; [|by rewrite Ec, Ho].
    rewrite (cr_message _ _ R), Ho. unfold sess_connected in *. cbn. by rewrite Ec, repeated_end.
Qed.

Lemma chargen_Down p x a :
  chargen_rel x a -> is_Some (Chargen.conns x !! p) ->
  wp (Chargen.run_event (Chargen.Down p)) x
    (fun r x' => r = None /\ chargen_rel x' (spec_event (Chargen.Down p) a)).
Proof.
  intros R [s Hp]. destruct (chargen_lookup x a p s R Hp) as (Hi & n & Hl & Ho).
  set (s1 := sess_setState kDisconnected s). cbn [Chargen.run_event]. wp_step.
  apply wp_table, (wp_on_conn p s); [done|]. fold s1. wp_step. unfold Chargen.onConnection. wp_step.
  apply wp_table, (wp_isConnected p s1); [apply lookup_insert_eq|].
  change (sess_connected s1) with false. cbn [when]. wp_step. wp_step. split; [done|]. cbn.
  rewrite (cr_total _ _ R). apply (chargen_insert x a p s1 (false, s_out s)); [done..|].
  intros q. rewrite (generated_alter _ _ _ _ _ Hl). destruct (decide _); [|done]. by rewrite Ho.
Qed.

Lemma chargen_Message p data x a :
  chargen_rel x a -> allowed (Chargen.Message p data) x ->
  wp (Chargen.run_event (Chargen.Message p data)) x (fun r x' => r = None /\ chargen_rel x' a).
Proof.
  intros R (s & Hp & Hd). destruct (chargen_lookup x a p s R Hp) as (Hi & n & Hl & Ho).
  cbn [Chargen.run_event]. wp_step. apply wp_table, (wp_received p s _ []); [done..|]. intros b Hb.
  wp_step. apply wp_table, (wp_conn_at p (sess_setInput b s)); [apply lookup_insert_eq|].
  destruct (holds_retrieveAllAsString b data Hb) as (b' & E & Hb').
  wp_step. unfold Chargen.onMessage, discard. apply wp_table, (wp_lift _ (data, b')); [done|].
  wp_step. apply wp_table, (wp_on_conn p (sess_setInput b s)); [apply lookup_insert_eq|]. wp_step. split; [done|].
  cbn. rewrite insert_insert_eq, (cr_total _ _ R). destruct a as [ls tot sc]. cbn in *.
  apply (chargen_insert x (mkGenerator ls tot sc) p _ (sess_connected s, s_out s)); [done..|].
  intros q. destruct (decide (q = p)) as [->|Hne]; [|done]. cbn. rewrite Hl, Ho. done.
Qed.
End chargen.

(** The character generator.  Of every connection, what is sent to it is the 94 lines, each 72
    characters of the rotating alphabet and a line feed, once when it comes up and once more
    whenever that has been written; nothing it receives changes that.  A report gives the
    bytes since the one before it, in 64 bits. *)
Theorem chargen_refines `{Build} (now : Timestamp) ev x a :
  (exists x0, Chargen.ChargenServer_ctor now = Ok x0 /\ chargen_rel x0 (mkGenerator ∅ 0 now))
  /\ (chargen_rel x a -> allowed ev x ->
      wp (Chargen.run_event ev) x (fun r x' => r = spec_report ev a /\ chargen_rel x' (spec_event ev a))).
Proof.
  split.
  { eexists. split; [apply ctor_patterns|]. constructor; [done..| |].
    - intros p. cbn. by rewrite !lookup_empty.
    - intros p s. cbn. by rewrite lookup_empty. }
  intros R Ha. destruct ev as [p|p data|p|p|t].
  - by apply chargen_Up.
  - by apply chargen_Message.
  - by apply chargen_WriteComplete.
  - by apply chargen_Down.
  - cbn [Chargen.run_event]. wp_step. unfold Chargen.printThroughput. wp_step. wp_step. wp_step. wp_step.
    wp_step. wp_step. cbn. rewrite (cr_total _ _ R), (cr_since _ _ R). split; [done|]. destruct R. by constructor.
Qed.

Lemma chargen_refines_witness :
  (exists x0, Chargen.ChargenServer_ctor (mkTimestamp 5) = Ok x0 /\ chargen_rel x0 (mkGenerator ∅ 0 (mkTimestamp 5)))
  /\ exists r x', Chargen.run_event (H := Debug) (Chargen.Up 7) (Chargen.mkChargen patterns 0 (mkTimestamp 5) ∅) = Ok (r, x')
      /\ r = None /\ chargen_rel x' (mkGenerator {[ 7 := (true, 1%nat) ]} 0 (mkTimestamp 5)).
Proof.
  destruct (chargen_refines (H := Debug) (mkTimestamp 5) (Chargen.Up 7) (Chargen.mkChargen patterns 0 (mkTimestamp 5) ∅)
    (mkGenerator ∅ 0 (mkTimestamp 5))) as [E R]. split; [exact E|].
  destruct R as (r & x' & E' & Er & R'); [|done|by exists r, x'].
  constructor; [done..|intros p|intros p s]; cbn; rewrite ?lookup_empty; done.
Defined.
